(* ===== verification/_CoqProject ===== *)
-Q . S2P
Prelude.v
Types.v
Gear.v
HTable.v
EDelta.v
EDeltaFormat.v
EDeltaEnc.v
EDeltaCorrect.v
Codec.v
CMSketch.v
EntryHeap.v
TopK.v
LruCache.v
ContainerCache.v
ReqContainers.v
Util.v
Database.v
Container.v
Writer.v
Crypto.v
Cold.v
Merge.v
Restore.v
RestoreIds.v
RestoreCorrect.v
SuperFeature.v
Ingest.v
Mega.v
Debe.v
Upload.v
Library.v
Classify.v
IngestStore.v
IngestQuery.v
IngestCorrect.v
IndexLaws.v
Session.v
DebeCorrect.v
Stale.v
Offline.v
Vault.v
OfflineSteps.v
OfflineMove.v
OfflinePairs.v
OfflineQueue.v
OfflineCold.v
OfflineCorrect.v
OfflineExample.v
UploadVault.v
UploadIndex.v
Maintenance.v
Trace.v
Chunker.v
ChunkerCorrect.v
TraceCorrect.v
Queue.v
Client.v
Backup.v
Enclave.v
Network.v
Connections.v
