(* ===== verification/Prelude.v ===== *)
(** * ShieldReduce: deduplication, delta compression and restore inside an enclave

    ShieldReduce (src/Prototype) is a backup server.  A client cuts a file into chunks
    and uploads them in encrypted batches; the server keeps everything it stores
    encrypted, and an SGX enclave does all the work that sees plaintext: it recognises
    duplicate chunks, searches for a similar base chunk, encodes the new chunk as a
    delta of the base or compresses it, and stores the encrypted result in containers.
    A restore reads the file recipe, fetches containers and rebuilds the chunks.

    ** The parts and where they are modelled

    Prelude        machine integers, byte buffers, results of code that can fail, loops
    Types          include/chunkStructure.h, constVar.h: structures and their layout
    Util           include/define.h: integer helpers, names of containers
    Gear, HTable   edelta/util.cc, edelta/htable.cc: content-defined blocks of a base
                   chunk and the table of their hashes
    EDelta*        EDeltaEncode / EDeltaDecode (ecallFreqIndex.cc, ecallMeGA.cc,
                   ecallOffline.cc, ecallRecvDecoder.cc): the model, the format of a
                   delta, the invariants of the encoder's loop, its contract
    Codec          the codec as its four owners wrap it, and its theorems
    CMSketch, EntryHeap, TopK
                   ecallCMSketch.cc, ecallEntryHeap.cc and the frequency part of
                   ecallFreqIndex.cc: sketch, min-heap with back pointers, top-k
                   policy, persistence in sealed files
    LruCache, ContainerCache, ReqContainers
                   include/lruCache.h, the container caches of enclave and server, the
                   fetching of containers (enclaveRecvDecoder.cc)
    Database       inMemoryDatabase.cc: fingerprint, super-feature and delta index,
                   their files
    Container      ecallStorage.cc, dataWriter.cc, the container ocalls and the parts of
                   ecallOffline.cc that take entries apart
    Crypto         ecallEnc.cc over an interface of OpenSSL's EVP
    Cold, Merge    the offline pass on base containers: Update_cold_container,
                   MergeContainer and their ocalls
    Restore, RestoreIds, RestoreCorrect
                   ecallRecvDecoder.cc and the restore ocalls: batches of a recipe,
                   base queries, container capping, decoding, sending; how many
                   container identifiers a round takes, told from the names alone
    SuperFeature   getSF2 and its random generator (ecallFreqIndex.cc)
    Ingest         ProcessOneBatch and what it calls (ecallFreqIndex.cc, enclaveBase.cc),
                   the query ocalls (storeOCall.cc); what the index types do in their own
                   way is a record, [IndexClass]
    Mega, Debe     the index types SECURE_MEGA and DEBE (ecallMeGA.cc, ecallDEBE.cc)
    Upload         Ecall_Init_Upload (storeECall.cc), enclaveIndex.cc, the loop of the
                   data receiver
    Writer         dataWriter.cc and the end of a session: the directories as they are
                   and as they will be when the open containers are written
    Library        the index and the containers as one invariant: every entry of the
                   index stands for a chunk and a place where a restore finds it
    Classify, IngestStore, IngestQuery, IngestCorrect, IndexLaws
                   what the upload does to that invariant: classification against a
                   reference; storing a chunk (base, delta, IVs); queries and search for
                   a base; the batch, the recipe, the top-k index, for any class that
                   keeps a contract ([ClassLaws]); the classes that keep it
    Session        clientVar.cc, ecallClient.cc (the buffers of an upload),
                   serverOptThread.cc: sessions one after the other
    DebeCorrect    what the index type DEBE stores, and what a restore makes of it
    Stale          the enclave's container cache against the offline pass
    Offline        ecallOffline.cc, Easy_update and what it calls, its ocalls, and
                   ProcessOffline: which chunk becomes a delta of which
    Vault          all entries in all containers, the live and the dead ones; from it
                   the library that a restore needs
    OfflineSteps, OfflineMove, OfflinePairs, OfflineQueue, OfflineCold, OfflineCorrect
                   the pass on a vault: reading and encoding, one chunk that moves, one
                   pair, the queue, cutting and merging, the whole
    OfflineExample a vault to run the pass on
    UploadVault, UploadIndex
                   the uploads again, as they are seen by the pass: the log of the
                   storage core fills the vault, the new chunks enter the indexes, the
                   pairs of old and new chunks enter the queue
    Maintenance    a request of type OFFLINE_OPT: uploads, and then the pass on what they
                   leave
    Trace          the lines of a trace of fingerprints and the chunk made up for one
                   (Client/chunker.cc, Util/compressGen.cc)
    Chunker, ChunkerCorrect, TraceCorrect
                   Client/chunker.cc: FastCDC and chunking at a fixed size, against a
                   reference that has the whole file in memory; chunking from a trace
    Queue          include/messageQueue.h and the loops of the threads at its ends, step
                   by step under a schedule
    Client         dataSender.cc, dataRetriever.cc, restoreWriter.cc, the names of files
    Backup         from a file to the same file: dataReceiver.cc, storageCore.cc and
                   serverOptThread.cc between the clients; recipe files with their heads
    Enclave        storeECall.cc, keyECall.cc, sessionKeyExchange.cc, dbeServer.cc: keys,
                   counters, logins, start and shutdown
    Network        Comm/sslConnect.cc: sending and receiving of messages over an
                   interface of OpenSSL
    Connections    ServerOptThread::Run: the protocol of a connection, the lock of each
                   client number, session keys, any number of connections under a schedule

    Each C++ object is a [Record] with the fields of the object, each method a function
    from the state to a [result] of the new state; [Err ExitError] is the program ending
    itself, [Err Undefined] an access or a value the language leaves undefined, [Err Fuel]
    a bound of the model that was too small.  Integers have the width they have in the
    code, with the wrap-around written out ([u32], [u64]).  The server's maps are finite
    maps; where a program iterates over an unordered map the order is a parameter
    ([MapOrder]).

    ** What the theorems show

    - Codec: a delta decodes to the chunk it was made from ([ed3_roundtrip]); when the
      encoder is defined, what size its result has, and that its records fit their array
      ([BaseLink_capacity]); the decoder ends on any input, and gives what a script means
      exactly when that fits the receiver's buffer ([ed3_decode_script]).
    - Frequencies: bounds of the sketch's estimate, the heap order and the back pointers,
      the eviction policy, and that index and sketch survive a restart.
    - Caches: the two container caches refine a list of most recently used containers,
      and a fetch delivers the bytes of the container on disk.
    - Index: persistence round trip, totality of loading on any file, and what the
      super-feature index answers.
    - Containers: storing appends one entry to a log, offsets and names in the recipe
      are those of the entry, entries can be taken out again, and a container rewritten
      or merged by the offline pass holds the entries it should.
    - Super-features: the generator is the Mersenne twister, the rolling hash is the
      maximum over all windows.
    - Restore ([Run_ok]): the client receives exactly the chunks of the recipe, in order,
      when there are slots enough for the identifiers of the containers.  With the 16 slots
      of [InitRestoreBuffer] this is decided by [ids_fit], which counts containers by their
      names: either the client receives its chunks, or a seventeenth identifier is written
      past the buffer ([InitRestoreBuffer_exact]).  The theorems about the whole system say
      the same of each file they promise ([gives_back], [comes_back]).
    - Upload ([classify_spec], [upload_IVs_distinct]): deduplication inside the enclave
      follows a reference, the IVs in the containers of a session differ.
    - The whole system ([uploads_restore]): any number of files, uploaded in sessions of
      any number of batches, with any progress of the data writer, are all given back:
      the upload establishes what a restore asks for, with every index type but DEBE.
      [DEBE_restores_others] shows why not with that one, although what it stores is
      there ([ProcessUniqueChunk_ok]): a restore reads every chunk 272 bytes too far on.
    - Client and server together ([backups_restore]): what is uploaded under a name is
      what a restore of this name writes, byte for byte, under any fair schedule of the
      clients' threads, if the restore has room for its identifiers; [FastCDC_is_reference] is the chunker's part of it
      ([trace_is_chunked] with chunks made up from a trace),
      [queue_delivers] the queue's.  [shutdown_loses_keys] and [enclave_restarts] are
      about the keys: what is written is read again, but the server's shutdown comes too
      late to write them, so that every start makes new ones while the counters go on.
    - Connections: at most one connection of a client number is served at a time, with
      the keys that its own client agreed on ([clients_exclude]); under a fair schedule
      all clients that follow the protocol are served ([clients_are_served]); but one
      that waits keeps all others out ([waiting_client_keeps_all_out]).  Below that,
      messages arrive as they were sent ([messages_arrive]); when the connection breaks
      within a message neither side reports it ([broken_connection]).
    - The offline pass ([ProcessOff_restores]): on a vault in order it ends, the vault is
      in order again, and every file that was given back before is given back after it.
    - Uploads and the pass together ([offline_request_restores]): from a new server, or
      any state in order, the uploads leave a vault in order and a queue that the pass can
      take, so every file is given back after the pass too.  What the next request
      needs besides is a container cache that holds none of the rewritten containers, and
      [cache_is_stale] shows that the program does not see to that.

    ** Bounds and fuel

    Loops over a counter are structural on their length ([forM]).  The others have fuel:
    the encoder's loop [Z.to_nat newSize], because every turn but those that close a
    range consumes input; the decoder's [length delta], four bytes a turn; [prune_loop]
    the length of the list; the loading of the database one more than the length of the
    file; [copy_to] the number of cold entries, [merge_loop] one more than the number of
    pairs, [reverse_loop] the length of the buffer, [Run] one more than the length of the
    recipe; [add_mod] 2; the loops of the offline pass over batches one more than the length
    of the queue, because a batch takes at least one element; the chunker's loops two more than
    the length of the file ([chunking_fuel]), every turn cuts a chunk or reads a buffer, and in
    the trace modes one more than the number of lines; sending a message two turns, receiving
    one more than its length.  Each is shown to be enough where the function is used.

    ** What is assumed

    [EVP] (OpenSSL): decryption inverts encryption and keeps sizes ([EVPLaws]); ciphertexts
    and digests are bytes ([EVPBytes]).  [LZ4] is a pair of functions of which nothing is
    assumed unless a theorem says so.  [uploads_restore] is about a [universe] of chunks:
    chunks of the size the chunker cuts whose hashes do not collide, that decompressing
    gives back also when they were stored as they are, and whose deltas the encoder
    defines and the receiver has room for (where these fail is what the theorems of Codec
    show).  [ProcessOff_restores] and [offline_request_restores] ask in addition that the chunks leave 11 bytes of the
    largest size free and that LZ4 does not decode a stored form to nothing ([roomy]).
    [SSLConn]: a write is complete or fails, a read gives bytes of one record, a call that
    fails returns some number that is not positive ([SSLLaws]).
    [ECDH]: both sides of a key agreement derive the same secret.  A call into a destroyed
    enclave does nothing (the SDK returns SGX_ERROR_INVALID_ENCLAVE_ID).  The queue between
    threads is bounded and first in first out.  [MapOrder]: an unordered map is iterated over in some order, each entry once.

    ** Not modelled

    Vendored code (LZ4, xdelta3, MD5, xxHash, the lock-free queue), the set-up of connections,
    remote attestation, file handles, configuration, statistics and timing.
    MULTI_CLIENT, EDR_BREAKDOWN, SGX_BREAKDOWN and QUICK_CHECK are 0 in the configuration
    that is modelled, CONTAINER_SEPARATE and IS_MERGE_CONTAINER are 1.  Threads appear
    where they can be seen: how many containers the data writer has written when a chunk
    is stored is an argument of the upload ([rq_written]), any number at any time; the two
    threads of a client step under a schedule ([Schedule]).  The connections of
    the server and its locks are in Connections, where a call into the enclave is one step
    (as the lock of MULTI_CLIENT makes it), an upload or restore is a number of steps, and
    what these do is in the models of one session after the other.  A container is on
    disk or not: the half-written file that a reader could meet is not modelled.  Nor is
    the read past a string literal in [ProcRecipeBatch], whose bytes are not used, nor the
    statistics of Ecall_UpdateOnlineInfo; what the destructor of the index does in
    [Ecall_Destroy_Upload] is in TopK ([PersistDedupIndex]).
    The candidate blocks of the chunker's trace modes, from a random generator on floating
    point numbers, are a parameter ([CompressGen]).  The index
    types have their own copies of the batch loop and of what it calls; where the text is
    the same it is modelled once, from ecallFreqIndex.cc. *)
From Stdlib Require Import ZArith Lia.
From stdpp Require Import base list gmap.

#[global] Open Scope Z_scope.

(** ** Machine integers: an n-bit unsigned integer is a [Z], wrapped explicitly *)

Definition u8 (z : Z) : Z := z mod 2 ^ 8.
Definition u32 (z : Z) : Z := z mod 2 ^ 32.
Definition u64 (z : Z) : Z := z mod 2 ^ 64.

Declare Scope word_scope.
Delimit Scope word_scope with word.
Notation "a +32 b" := (u32 (a + b)) (at level 50, left associativity) : word_scope.
Notation "a -32 b" := (u32 (a - b)) (at level 50, left associativity) : word_scope.
Notation "a *32 b" := (u32 (a * b)) (at level 40, left associativity) : word_scope.
Notation "a +64 b" := (u64 (a + b)) (at level 50, left associativity) : word_scope.
Notation "a -64 b" := (u64 (a - b)) (at level 50, left associativity) : word_scope.
Notation "a *64 b" := (u64 (a * b)) (at level 40, left associativity) : word_scope.
Open Scope word_scope.

Create HintDb bytes.
Create HintDb word.

Lemma u8_id z : 0 <= z < 2 ^ 8 -> u8 z = z.
Proof. apply Z.mod_small. Qed.
Lemma u32_id z : 0 <= z < 2 ^ 32 -> u32 z = z.
Proof. apply Z.mod_small. Qed.
Lemma u64_id z : 0 <= z < 2 ^ 64 -> u64 z = z.
Proof. apply Z.mod_small. Qed.
Lemma u8_range z : 0 <= u8 z < 2 ^ 8.
Proof. apply Z.mod_pos_bound. lia. Qed.
Lemma u32_range z : 0 <= u32 z < 2 ^ 32.
Proof. apply Z.mod_pos_bound. lia. Qed.
Lemma u64_range z : 0 <= u64 z < 2 ^ 64.
Proof. apply Z.mod_pos_bound. lia. Qed.
Lemma u32_u32 z : u32 (u32 z) = u32 z.
Proof. apply Z.mod_mod. lia. Qed.
#[export] Hint Resolve u8_range u32_range u64_range : word.

(** Removes every wrap of the goal whose argument [lia] proves to be in range. *)
Ltac unwrap :=
  repeat match goal with
  | |- context [u32 ?x] => rewrite (u32_id x) by lia
  | |- context [u64 ?x] => rewrite (u64_id x) by lia
  | |- context [u8 ?x] => rewrite (u8_id x) by lia
  end.
Ltac unwrap_in H :=
  repeat match type of H with
  | context [u32 ?x] => rewrite (u32_id x) in H by lia
  | context [u64 ?x] => rewrite (u64_id x) in H by lia
  | context [u8 ?x] => rewrite (u8_id x) in H by lia
  end.

(** Turns the boolean comparisons of [Z] in the context and the goal into
    propositions. *)
Ltac boolz :=
  repeat match goal with
  | H : (_ =? _) = true |- _ => apply Z.eqb_eq in H
  | H : (_ =? _) = false |- _ => apply Z.eqb_neq in H
  | H : (_ <? _) = true |- _ => apply Z.ltb_lt in H
  | H : (_ <? _) = false |- _ => apply Z.ltb_ge in H
  | H : (_ <=? _) = true |- _ => apply Z.leb_le in H
  | H : (_ <=? _) = false |- _ => apply Z.leb_gt in H
  | H : (_ && _) = true |- _ => apply andb_true_iff in H as [? ?]
  | H : (_ || _) = false |- _ => apply orb_false_iff in H as [? ?]
  | H : negb _ = true |- _ => apply negb_true_iff in H
  | H : negb _ = false |- _ => apply negb_false_iff in H
  end.

(** Proves a decidable proposition on concrete values by evaluation. *)
Ltac by_decide :=
  match goal with |- ?P => apply (@bool_decide_eq_true_1 P _); vm_compute; reflexivity end.

(** Case analysis on the condition of the first [if] of the goal or of [H]. *)
Ltac case_if :=
  match goal with |- context [if ?b then _ else _] =>
    let E := fresh "E" in destruct b eqn:E; boolz end.
Ltac case_if_in H :=
  match type of H with context [if ?b then _ else _] =>
    let E := fresh "E" in destruct b eqn:E; boolz end.

(** ** Byte buffers *)

(** A byte is a [Z] in [0, 256); a buffer is a list of bytes, addressed by [Z]
    offsets as the code does with pointer arithmetic. *)
Abbreviation bytes := (list Z).

Definition byte_ok (b : Z) : Prop := 0 <= b < 256.
Definition bytes_ok (l : bytes) : Prop := Forall byte_ok l.

#[export] Instance byte_ok_dec b : Decision (byte_ok b).
Proof. unfold byte_ok. apply _. Defined.

Definition blen {A} (l : list A) : Z := Z.of_nat (length l).

(** [slice l off n]: the [n] bytes that [memcpy] reads at [l + off]. *)
Definition slice {A} (l : list A) (off n : Z) : list A :=
  take (Z.to_nat n) (drop (Z.to_nat off) l).

(** [write l off d]: the buffer after [memcpy (l + off, d, |d|)].  A buffer whose
    capacity is not modelled grows when the copy goes past its end. *)
Definition write {A} (l : list A) (off : Z) (d : list A) : list A :=
  take (Z.to_nat off) l ++ d ++ drop (Z.to_nat off + length d) l.

(** [rd l i]: the byte at [l[i]]. *)
Definition rd (l : bytes) (i : Z) : Z := nth (Z.to_nat i) l 0.

Lemma blen_nonneg {A} (l : list A) : 0 <= blen l.
Proof. unfold blen. lia. Qed.
#[export] Hint Resolve blen_nonneg : bytes.
Lemma blen_nil {A} : blen (@nil A) = 0.
Proof. reflexivity. Qed.
Lemma blen_cons {A} (x : A) l : blen (x :: l) = 1 + blen l.
Proof. unfold blen. cbn [length]. lia. Qed.
Lemma blen_app {A} (l k : list A) : blen (l ++ k) = blen l + blen k.
Proof. unfold blen. rewrite length_app. lia. Qed.
Lemma blen_slice {A} (l : list A) off n :
  0 <= off -> 0 <= n -> off + n <= blen l -> blen (slice l off n) = n.
Proof. unfold blen, slice. intros. rewrite length_take, length_drop. lia. Qed.
Lemma blen_write {A} (l d : list A) off :
  0 <= off -> off + blen d <= blen l -> blen (write l off d) = blen l.
Proof.
  unfold blen, write. intros. rewrite !length_app, length_take, length_drop. lia.
Qed.
Lemma blen_take {A} (l : list A) n : 0 <= n <= blen l -> blen (take (Z.to_nat n) l) = n.
Proof. unfold blen. intros. rewrite length_take. lia. Qed.

Lemma slice_0 {A} (l : list A) n : slice l 0 n = take (Z.to_nat n) l.
Proof. reflexivity. Qed.
Lemma slice_nil_len {A} (l : list A) off : slice l off 0 = [].
Proof. reflexivity. Qed.
Lemma slice_full {A} (l : list A) : slice l 0 (blen l) = l.
Proof. unfold slice, blen. rewrite Nat2Z.id. apply take_ge. lia. Qed.

(** Consecutive reads compose. *)
Lemma slice_app_slice {A} (l : list A) off n m :
  0 <= off -> 0 <= n -> 0 <= m ->
  slice l off n ++ slice l (off + n) m = slice l off (n + m).
Proof.
  intros. unfold slice. rewrite !Z2Nat.inj_add by lia.
  rewrite <- drop_drop. apply take_take_drop.
Qed.
Lemma take_app_slice {A} (l : list A) n m :
  0 <= n -> 0 <= m -> take (Z.to_nat n) l ++ slice l n m = take (Z.to_nat (n + m)) l.
Proof. intros. rewrite <- !slice_0. rewrite <- (slice_app_slice l 0 n m) by lia. reflexivity. Qed.

Lemma slice_slice {A} (l : list A) off n i m :
  0 <= off -> 0 <= i -> 0 <= m -> i + m <= n ->
  slice (slice l off n) i m = slice l (off + i) m.
Proof.
  intros. unfold slice. rewrite skipn_firstn_comm, take_take, drop_drop.
  f_equal; [lia|f_equal; lia].
Qed.
Lemma slice_app_l {A} (l k : list A) off n :
  0 <= off -> 0 <= n -> off + n <= blen l -> slice (l ++ k) off n = slice l off n.
Proof.
  unfold blen, slice. intros.
  rewrite drop_app_le by lia. apply take_app_le. rewrite length_drop. lia.
Qed.
Lemma slice_app_r {A} (l k : list A) off n :
  blen l <= off -> slice (l ++ k) off n = slice k (off - blen l) n.
Proof.
  unfold blen, slice. intros. rewrite drop_app_ge by lia. do 2 f_equal. lia.
Qed.
Lemma slice_app_exact {A} (l k m : list A) :
  slice (l ++ k ++ m) (blen l) (blen k) = k.
Proof.
  rewrite slice_app_r by lia. replace (blen l - blen l) with 0 by lia.
  rewrite slice_app_l by (pose proof (blen_nonneg k); lia). apply slice_full.
Qed.

Lemma take_write {A} (l d : list A) off :
  0 <= off <= blen l ->
  take (Z.to_nat (off + blen d)) (write l off d) = take (Z.to_nat off) l ++ d.
Proof.
  intros H. unfold write. rewrite app_assoc. apply take_app_length'.
  rewrite length_app, length_take. unfold blen in *. lia.
Qed.
Lemma take_write_lt {A} (l d : list A) off n :
  0 <= n <= off -> off <= blen l ->
  take (Z.to_nat n) (write l off d) = take (Z.to_nat n) l.
Proof.
  unfold blen. intros. unfold write.
  rewrite take_app_le by (rewrite length_take; lia).
  rewrite take_take. f_equal. lia.
Qed.
Lemma slice_write_same {A} (l d : list A) off :
  0 <= off <= blen l -> slice (write l off d) off (blen d) = d.
Proof.
  intros. unfold write.
  pose proof (blen_take l off ltac:(lia)) as E.
  rewrite <- E at 3. apply slice_app_exact.
Qed.
Lemma slice_write_before {A} (l d : list A) off i n :
  0 <= i -> 0 <= n -> i + n <= off -> off <= blen l ->
  slice (write l off d) i n = slice l i n.
Proof.
  intros. unfold write. rewrite slice_app_l by (rewrite ?blen_take; lia).
  unfold slice. rewrite skipn_firstn_comm, take_take. f_equal. lia.
Qed.
Lemma slice_write_after {A} (l d : list A) off i n :
  0 <= off -> off + blen d <= i -> off + blen d <= blen l -> 
  slice (write l off d) i n = slice l i n.
Proof.
  unfold blen, slice, write. intros. f_equal.
  rewrite drop_app_ge by (rewrite length_take; lia).
  rewrite drop_app_ge by (rewrite length_take; lia).
  rewrite drop_drop, length_take. f_equal. lia.
Qed.
Lemma blen_write_grow {A} (l d : list A) off :
  0 <= off <= blen l -> blen (write l off d) = Z.max (blen l) (off + blen d).
Proof. unfold blen, write. intros. rewrite !length_app, length_take, length_drop. lia. Qed.

(** Consecutive copies write the concatenation. *)
Lemma write_write {A} (l a b : list A) off :
  0 <= off <= blen l -> write (write l off a) (off + blen a) b = write l off (a ++ b).
Proof.
  intros H. unfold write at 1. rewrite take_write by done. unfold write.
  rewrite <- !app_assoc. do 3 f_equal. unfold blen in *. rewrite length_app.
  rewrite drop_app_ge by (rewrite length_take; lia). rewrite length_take.
  rewrite drop_app_ge by lia. rewrite drop_drop. f_equal. lia.
Qed.

Lemma slice_1 (l : bytes) o : 0 <= o < blen l -> slice l o 1 = [rd l o].
Proof.
  intros Ho. unfold slice, rd, blen in *.
  destruct (drop (Z.to_nat o) l) as [|x t] eqn:E.
  - apply (f_equal length) in E. rewrite length_drop in E. cbn in E. lia.
  - cbn. f_equal. rewrite <- (take_drop (Z.to_nat o) l) at 1.
    rewrite E, app_nth2; rewrite length_take; [|lia].
    replace (Z.to_nat o - Z.to_nat o `min` length l)%nat with O by lia. reflexivity.
Qed.

Lemma last_cons_default {A} (x d : A) l : List.last (x :: l) d = List.last l x.
Proof.
  revert x d. induction l as [|y l IH]; intros x d; [done|].
  change (List.last (y :: l) d = List.last (y :: l) x). by rewrite !IH.
Qed.

Lemma sum_perm (l k : list Z) : l ≡ₚ k -> foldr Z.add 0 l = foldr Z.add 0 k.
Proof. induction 1; cbn; lia. Qed.

(** ** Little-endian words *)

Fixpoint le_bytes (n : nat) (z : Z) : bytes :=
  match n with
  | O => []
  | S n => z mod 256 :: le_bytes n (z / 256)
  end.

Fixpoint le_val (l : bytes) : Z :=
  match l with
  | [] => 0
  | b :: t => b + 256 * le_val t
  end.

Lemma length_le_bytes n z : length (le_bytes n z) = n.
Proof. revert z. induction n; intros; cbn; auto. Qed.
Lemma blen_le_bytes n z : blen (le_bytes n z) = Z.of_nat n.
Proof. unfold blen. by rewrite length_le_bytes. Qed.
Create Rewrite HintDb bytes.
#[export] Hint Rewrite @blen_le_bytes @blen_app @blen_nil @blen_cons : bytes.

Lemma le_val_le_bytes n z : 0 <= z < 256 ^ Z.of_nat n -> le_val (le_bytes n z) = z.
Proof.
  revert z. induction n as [|n IH]; intros z Hz; cbn [le_bytes le_val].
  - change (256 ^ Z.of_nat 0) with 1 in Hz. lia.
  - rewrite Nat2Z.inj_succ, Z.pow_succ_r in Hz by lia.
    rewrite IH; [pose proof (Z.div_mod z 256); lia|].
    split; [apply Z.div_pos; lia|apply Z.div_lt_upper_bound; lia].
Qed.
Lemma le_bytes_le_val l : bytes_ok l -> le_bytes (length l) (le_val l) = l.
Proof.
  induction 1 as [|b t Hb _ IH]; [done|]. unfold byte_ok in Hb. cbn [length le_bytes le_val].
  replace ((b + 256 * le_val t) mod 256) with b.
  2: { rewrite (Z.mul_comm 256), Z.mod_add, Z.mod_small; lia. }
  replace ((b + 256 * le_val t) / 256) with (le_val t).
  2: { rewrite (Z.mul_comm 256), Z.div_add, Z.div_small; lia. }
  by rewrite IH.
Qed.
Lemma le_bytes_ok n z : bytes_ok (le_bytes n z).
Proof.
  revert z. induction n; intros z; constructor; [|apply IHn].
  apply Z.mod_pos_bound. lia.
Qed.
Lemma le_val_range l : bytes_ok l -> 0 <= le_val l < 256 ^ blen l.
Proof.
  induction 1 as [|b t Hb _ IH]; [split; reflexivity || easy|]. unfold byte_ok in Hb.
  cbn [le_val]. replace (blen (b :: t)) with (Z.succ (blen t)) by (rewrite blen_cons; lia).
  rewrite Z.pow_succ_r by apply blen_nonneg. lia.
Qed.

Lemma le_val_inj (a b : bytes) :
  bytes_ok a -> bytes_ok b -> length a = length b -> le_val a = le_val b -> a = b.
Proof.
  intros Ha Hb L E. rewrite <- (le_bytes_le_val a), <- (le_bytes_le_val b) by done. congruence.
Qed.
Lemma slice_bytes_ok l off n : bytes_ok l -> bytes_ok (slice l off n).
Proof. intros. unfold slice. by apply Forall_take, Forall_drop. Qed.

(** The word that a typed read [*(uintN_t* )(l + off)] returns. *)
Definition rd32 (l : bytes) (off : Z) : Z := le_val (slice l off 4).
Definition rd64 (l : bytes) (off : Z) : Z := le_val (slice l off 8).

(** ** Results of code that can exit or leave the behaviour the language defines *)

(** [ExitError] is [Ocall_SGX_Exit_Error] or [exit(EXIT_FAILURE)]; [Undefined] is
    an execution the C++ standard leaves undefined (an uninitialised read, an
    access outside a container); [Fuel] is a bound given to a loop that was too
    small, which the termination theorems exclude. *)
Inductive error := ExitError | Undefined | Fuel.

Inductive result (A : Type) :=
| Ok (a : A)
| Err (e : error).
Arguments Ok {A} a.
Arguments Err {A} e.

Definition rbind {A B} (r : result A) (f : A -> result B) : result B :=
  match r with Ok a => f a | Err e => Err e end.

Declare Scope result_scope.
Delimit Scope result_scope with result.
Notation "x <-- c ;; k" := (rbind c (fun x => k))
  (at level 60, c at next level, right associativity) : result_scope.
Open Scope result_scope.

Definition of_option {A} (e : error) (o : option A) : result A :=
  match o with Some a => Ok a | None => Err e end.

Lemma rbind_ok {A B} (r : result A) (f : A -> result B) b :
  rbind r f = Ok b <-> exists a, r = Ok a /\ f a = Ok b.
Proof.
  destruct r; cbn; split; [eauto|by intros (? & [= ->] & ?)|done|by intros (? & ? & _)].
Qed.

Ltac inv_bind H :=
  let a := fresh "a" in let E := fresh "E" in
  apply rbind_ok in H as (a & E & H).

#[export] Instance error_eq_dec : EqDecision error.
Proof. solve_decision. Defined.
#[export] Instance result_eq_dec {A} `{EqDecision A} : EqDecision (result A).
Proof. solve_decision. Defined.

(** [for (i = from; i < from + n; i++)], threading a state and stopping at the
    first error. *)
Fixpoint forM {S} (n : nat) (i : Z) (body : Z -> S -> result S) (s : S) : result S :=
  match n with
  | O => Ok s
  | S n => s' <-- body i s ;; forM n (i + 1) body s'
  end.

(** The rule for such a loop: an invariant indexed by the counter. *)
Lemma forM_inv {St} (P : Z -> St -> Prop) body n i s s' :
  P i s ->
  (forall j t t', i <= j < i + Z.of_nat n -> P j t -> body j t = Ok t' -> P (j + 1) t') ->
  forM n i body s = Ok s' -> P (i + Z.of_nat n) s'.
Proof.
  revert i s. induction n as [|n IH]; intros i s Hs Hb; cbn.
  - intros [= <-]. by rewrite Z.add_0_r.
  - intros H. inv_bind H. replace (i + Z.of_nat (S n)) with (i + 1 + Z.of_nat n) by lia.
    eapply IH; [| |exact H]; [eapply Hb; eauto; lia|].
    intros. eapply Hb; eauto. lia.
Qed.
Lemma forM_total {St} (P : Z -> St -> Prop) body n i s :
  P i s ->
  (forall j t, i <= j < i + Z.of_nat n -> P j t -> exists t', body j t = Ok t' /\ P (j + 1) t') ->
  exists s', forM n i body s = Ok s' /\ P (i + Z.of_nat n) s'.
Proof.
  revert i s. induction n as [|n IH]; intros i s Hs Hb; cbn.
  - exists s. by rewrite Z.add_0_r.
  - destruct (Hb i s ltac:(lia) Hs) as (t & -> & Ht). cbn.
    destruct (IH (i + 1) t Ht) as (s' & H1 & H2).
    { intros. apply Hb; [lia|done]. }
    exists s'. split; [done|]. by replace (i + Z.of_nat (S n)) with (i + 1 + Z.of_nat n) by lia.
Qed.
