(* ===== verification/Types.v ===== *)
(** The data structures that cross component boundaries (include/chunkStructure.h,
    include/constVar.h): constants, recipe entries, heap items, and their layout in
    memory, which is what [memcpy] of a struct writes. *)
From Stdlib Require Import ZArith Lia.
From stdpp Require Import base list.
From S2P Require Import Prelude.

(** ** Constants *)

Definition CRYPTO_BLOCK_SIZE : Z := 16.
Definition CHUNK_HASH_SIZE : Z := 32.
Definition MIN_CHUNK_SIZE : Z := 4096.
Definition AVG_CHUNK_SIZE : Z := 8192.
Definition MAX_CHUNK_SIZE : Z := 16384.
Definition AVG_SEGMENT_SIZE : Z := 1024 * 1024 * 10.
Definition MIN_SEGMENT_SIZE : Z := AVG_SEGMENT_SIZE / 2.
Definition MAX_SEGMENT_SIZE : Z := AVG_SEGMENT_SIZE * 2.
Definition DIVISOR : Z := (AVG_SEGMENT_SIZE - MIN_SEGMENT_SIZE) / AVG_CHUNK_SIZE.
Definition PATTERN : Z := 1.
Definition MAX_CONTAINER_SIZE : Z := Z.shiftl 1 22.
Definition CONTAINER_ID_LENGTH : Z := 7.
Definition CONTAINER_CAPPING_VALUE : Z := 16.

(** [enum DELTA_STATUS] and the dedup flags are the small integers the code stores
    in a byte. *)
Definition NO_DELTA : Z := 0.
Definition DELTA : Z := 1.

(** ** Types with a memory layout *)

(** The interface of a type that is copied to and from buffers byte by byte: [put]
    is the bytes that [memcpy] of a value writes, [get] the value that a copy of the
    first [lsize] bytes has. *)
Class Layout (A : Type) := {
  lsize : nat;
  put : A -> bytes;
  get : bytes -> A;
  lwf : A -> Prop;
  put_length : forall a, lwf a -> length (put a) = lsize;
  get_put : forall a rest, lwf a -> get (put a ++ rest) = a
}.
Arguments lsize A {_}.

Section layout.
Context {A : Type} `{Layout A}.

(** An array of [n] values. *)
Definition put_array (l : list A) : bytes := concat (map put l).
Fixpoint get_array (n : nat) (b : bytes) : list A :=
  match n with
  | O => []
  | S n => get b :: get_array n (drop (lsize A) b)
  end.

Lemma put_array_length l : Forall lwf l -> length (put_array l) = (length l * lsize A)%nat.
Proof.
  induction 1 as [|a l Ha _ IH]; [done|]. unfold put_array in *. cbn [map concat].
  rewrite length_app, put_length, IH by done. reflexivity.
Qed.
Lemma get_put_array l rest : Forall lwf l -> get_array (length l) (put_array l ++ rest) = l.
Proof.
  induction 1 as [|a l Ha _ IH]; [done|]. unfold put_array in *. cbn [map concat length get_array].
  rewrite <- app_assoc, get_put by done. f_equal.
  rewrite drop_app_length' by (symmetry; by apply put_length). exact IH.
Qed.
End layout.

(** *** 32-bit words and byte strings of a fixed length *)

Definition fixed (n : nat) (b : bytes) : Prop := length b = n /\ bytes_ok b.
Definition word32 (z : Z) : Prop := 0 <= z < 2 ^ 32.
Definition word8 (z : Z) : Prop := 0 <= z < 2 ^ 8.

#[export] Instance fixed_dec n b : Decision (fixed n b).
Proof. unfold fixed, bytes_ok. apply _. Defined.
#[export] Instance word32_dec z : Decision (word32 z).
Proof. unfold word32. apply _. Defined.
#[export] Instance word8_dec z : Decision (word8 z).
Proof. unfold word8. apply _. Defined.

Lemma slice_field (pre f rest : bytes) off n :
  off = blen pre -> n = blen f -> slice (pre ++ f ++ rest) off n = f.
Proof. intros -> ->. apply slice_app_exact. Qed.

Definition u32_put (z : Z) : bytes := le_bytes 4 z.
Lemma le4_field pre z rest off :
  word32 z -> off = blen pre -> rd32 (pre ++ le_bytes 4 z ++ rest) off = z.
Proof.
  intros Hz ->. unfold rd32. rewrite (slice_field pre (le_bytes 4 z)); [|done|by rewrite blen_le_bytes].
  by apply le_val_le_bytes.
Qed.

(** *** [RecipeEntry_t]: 7 + 1 + 4 + 4 + 32 + 96 bytes, without padding *)

Record RecipeEntry_t := mk_recipe {
  re_containerName : bytes;
  re_deltaFlag : Z;
  re_offset : Z;
  re_length : Z;
  re_basechunkHash : bytes;
  re_superfeature : bytes
}.

(** [sizeof(RecipeEntry_t)]. *)
Definition sizeof_RecipeEntry : Z := 144.

Definition recipe_put (r : RecipeEntry_t) : bytes :=
  re_containerName r ++ [re_deltaFlag r] ++ le_bytes 4 (re_offset r) ++
  le_bytes 4 (re_length r) ++ re_basechunkHash r ++ re_superfeature r.

Definition recipe_get (b : bytes) : RecipeEntry_t :=
  {| re_containerName := slice b 0 7; re_deltaFlag := rd b 7;
     re_offset := rd32 b 8; re_length := rd32 b 12;
     re_basechunkHash := slice b 16 32; re_superfeature := slice b 48 96 |}.

Record recipe_ok (r : RecipeEntry_t) : Prop := {
  rok_name : fixed 7 (re_containerName r);
  rok_delta : word8 (re_deltaFlag r);
  rok_offset : word32 (re_offset r);
  rok_length : word32 (re_length r);
  rok_base : fixed 32 (re_basechunkHash r);
  rok_sf : fixed 96 (re_superfeature r)
}.

Lemma recipe_put_length r : recipe_ok r -> length (recipe_put r) = 144%nat.
Proof.
  intros [[H1 _] _ _ _ [H2 _] [H3 _]]. unfold recipe_put.
  rewrite !length_app, !length_le_bytes, H1, H2, H3. reflexivity.
Qed.

Lemma recipe_get_put r rest : recipe_ok r -> recipe_get (recipe_put r ++ rest) = r.
Proof.
  intros [[H1 _] _ Ho Hl [H2 _] [H3 _]]. destruct r as [name fl off len base sf]. cbn in H1, Ho, Hl, H2, H3.
  unfold recipe_get, recipe_put. cbn [re_containerName re_deltaFlag re_offset re_length re_basechunkHash re_superfeature].
  rewrite <- !app_assoc.
  assert (E1 : 7 = blen name) by (unfold blen; lia).
  assert (E2 : 8 = blen (name ++ [fl])) by (rewrite blen_app; unfold blen in *; cbn; lia).
  assert (E3 : 12 = blen ((name ++ [fl]) ++ le_bytes 4 off)) by (rewrite blen_app, blen_le_bytes; lia).
  assert (E4 : 16 = blen (((name ++ [fl]) ++ le_bytes 4 off) ++ le_bytes 4 len))
    by (rewrite blen_app, blen_le_bytes; lia).
  assert (E5 : 48 = blen ((((name ++ [fl]) ++ le_bytes 4 off) ++ le_bytes 4 len) ++ base))
    by (rewrite blen_app; unfold blen in *; lia).
  f_equal.
  - by apply (slice_field [] name).
  - unfold rd. rewrite app_nth2; unfold blen in E1; [|lia].
    by replace (Z.to_nat 7 - length name)%nat with O by lia.
  - rewrite (app_assoc name). by apply le4_field.
  - rewrite (app_assoc name), (app_assoc (name ++ [fl])). by apply le4_field.
  - rewrite (app_assoc name), (app_assoc (name ++ [fl])), (app_assoc ((name ++ [fl]) ++ _)).
    apply slice_field; [done|unfold blen; lia].
  - rewrite (app_assoc name), (app_assoc (name ++ [fl])), (app_assoc ((name ++ [fl]) ++ _)),
      (app_assoc (((name ++ [fl]) ++ _) ++ _)).
    apply slice_field; [done|unfold blen; lia].
Qed.

#[export] Instance recipe_layout : Layout RecipeEntry_t := {|
  lsize := 144; put := recipe_put; get := recipe_get; lwf := recipe_ok;
  put_length := recipe_put_length; get_put := recipe_get_put |}.

(** *** [HeapItem_t]: an address, a frequency and a heap position *)

Record HeapItem_t := mk_heap_item { hi_address : RecipeEntry_t; hi_chunkFreq : Z; hi_idx : Z }.

Definition heap_item_put (h : HeapItem_t) : bytes :=
  recipe_put (hi_address h) ++ le_bytes 4 (hi_chunkFreq h) ++ le_bytes 4 (hi_idx h).
Definition heap_item_get (b : bytes) : HeapItem_t :=
  {| hi_address := recipe_get b; hi_chunkFreq := rd32 b 144; hi_idx := rd32 b 148 |}.
Record heap_item_ok (h : HeapItem_t) : Prop := {
  hok_address : recipe_ok (hi_address h);
  hok_freq : word32 (hi_chunkFreq h);
  hok_idx : word32 (hi_idx h)
}.

Lemma heap_item_put_length h : heap_item_ok h -> length (heap_item_put h) = 152%nat.
Proof.
  intros [H _ _]. unfold heap_item_put.
  rewrite !length_app, !length_le_bytes, recipe_put_length by done. reflexivity.
Qed.
Lemma heap_item_get_put h rest : heap_item_ok h -> heap_item_get (heap_item_put h ++ rest) = h.
Proof.
  intros [H Hf Hi]. destruct h as [a f i]. cbn in H, Hf, Hi. unfold heap_item_get, heap_item_put.
  cbn [hi_address hi_chunkFreq hi_idx]. rewrite <- !app_assoc.
  pose proof (recipe_put_length a H) as L.
  f_equal.
  - by apply recipe_get_put.
  - apply le4_field; [done|unfold blen; lia].
  - rewrite (app_assoc (recipe_put a)). apply le4_field; [done|].
    rewrite blen_app, blen_le_bytes. unfold blen. lia.
Qed.
#[export] Instance heap_item_layout : Layout HeapItem_t := {|
  lsize := 152; put := heap_item_put; get := heap_item_get; lwf := heap_item_ok;
  put_length := heap_item_put_length; get_put := heap_item_get_put |}.

(** *** Fingerprints *)

Lemma fp_put_length (b : bytes) : fixed 32 b -> length b = 32%nat.
Proof. by intros []. Qed.
Lemma fp_get_put (b rest : bytes) : fixed 32 b -> take 32 (b ++ rest) = b.
Proof. intros [H _]. by apply take_app_length'. Qed.
(** A fingerprint is a string of [CHUNK_HASH_SIZE] bytes. *)
Definition fp_layout : Layout bytes := {|
  lsize := 32; put := fun b => b; get := take 32; lwf := fixed 32;
  put_length := fp_put_length; get_put := fp_get_put |}.

(** ** Queries *)

Record InQueryEntry_t := mk_in_query {
  iq_dedupFlag : Z;
  iq_deltaFlag : Z;
  iq_chunkHash : bytes;
  iq_chunkAddr : RecipeEntry_t;
  iq_chunkFreq : Z;
  iq_chunkSize : Z;
  iq_superfeature : bytes;
  iq_basechunkAddr : RecipeEntry_t
}.
