(* ===== verification/Gear.v ===== *)
(** Gear hashing and block hashing of the delta encoder (edelta/util.cc, edelta/util.h):
    the gear matrix, [weakHash] (an inlined XXH64 variant), the content-defined
    cutters [rolling_gear_v3] and [chunk_gear], and their bounds. *)
From Stdlib Require Import ZArith Lia.
From stdpp Require Import base list.
From S2P Require Import Prelude.

(** ** The gear matrix *)

Definition GEAR : list Z :=
  [
   0x4b8fbc70; 0x95a75be0; 0x7fa97617; 0xdb51a0d; 0x7c71d5b3; 0x97842403;
   0x87d60b89; 0x10c081cb; 0x176c2faf; 0xc7392648; 0x2f15cf70; 0x842062ac;
   0x7d19bc1b; 0xc9a22b6d; 0x29f65703; 0x54f0a470; 0x4913c078; 0x91dd2661;
   0xce401296; 0x1080796b; 0x3c6ba084; 0x291fd606; 0x1be96ae; 0x5e104df3;
   0x953a3946; 0xd59e7f77; 0x9f4734d9; 0xf095c27c; 0xe4448418; 0x47ca4676;
   0xe9131404; 0xc6965ee3; 0x2f46c05a; 0x8ba2c750; 0x5fb2fec6; 0xaae07db7;
   0xf96ad818; 0xaed74a8d; 0x3b73296d; 0x42b47c83; 0x3f14fa76; 0xe775583b;
   0x8583a649; 0xe347effd; 0x1814ed33; 0xd747a499; 0x1241b4c; 0xc2ba1de6;
   0x9e459ecd; 0xf2cb801a; 0xb1575ba0; 0x57230ea3; 0xfd6e88ca; 0x1d0501a2;
   0xf33ed508; 0x531f339c; 0xece73621; 0x2171ee60; 0xc545563a; 0x3b68b071;
   0x480657e4; 0x69b955c1; 0x954a24b1; 0xc458ee33; 0x48958571; 0xccdd1652;
   0xa67ad0f0; 0xa93e0890; 0x8255fe6; 0xc190ff58; 0x6d2966a; 0x1e3e1a20;
   0x1649fd23; 0xa5452efe; 0x247ce55; 0xf4220d84; 0xf817eb4b; 0xab0ff6bf;
   0xd98c80da; 0xbb660cad; 0xce39b4a0; 0xebfa6bfe; 0xc4baba1b; 0x5cfd0930;
   0x7cdba262; 0xab2c4cdb; 0xdd1858e7; 0x7aa35c54; 0x36c7793b; 0xc3298957;
   0x5212e006; 0x772a10b3; 0x4b412801; 0x6348ea44; 0x90b7a8c; 0xf3903817;
   0x55ec8d5; 0xd39bca5e; 0xa19e4f8b; 0xf8472700; 0xd792025e; 0xcfdc83e0;
   0x576880c7; 0xcbaa6558; 0x692f5350; 0x1400ee49; 0x3a89aa8b; 0x46873d99;
   0x63ecb853; 0x9860b122; 0x31685257; 0x32874e3d; 0x6b44e063; 0x87525cd0;
   0xf0a5025c; 0x6ccb4020; 0xf1d8849d; 0x414f66e7; 0x6afed5a4; 0x9a9befeb;
   0xd6e18fdc; 0x27129a4c; 0x7d6bcf28; 0x37fa944a; 0xe9b09b54; 0x9159093;
   0x4a31242; 0x28d0d7d2; 0x97e8d65a; 0xfcf68625; 0x1800702; 0x39dbe43f;
   0x35da0210; 0xa6c68d9; 0x68500f4e; 0xc8a5ab6e; 0x8b2b756a; 0xd5fb25bd;
   0xb0c0405d; 0xc453b18c; 0xe2e66ea4; 0xda553370; 0x7dbc5759; 0x886eeab;
   0x9fafd0e5; 0x4e430b; 0x8331c2e5; 0x5a5d06b4; 0xe43f7b9d; 0xf3ec3644;
   0x6a46d11; 0xcd41e503; 0xa18a2e19; 0xadde1ea1; 0x36f7488e; 0x455255bd;
   0x8075175e; 0x88d32d58; 0x9a0a25b0; 0x970e0c67; 0x77b009e; 0x12d5bf75;
   0xdc7fd18; 0xde77a2bb; 0x6ab176e0; 0xa6ab6c09; 0x6210efa8; 0xd947e049;
   0x5fb01605; 0xde4bd448; 0x5b2af7ba; 0xd2b49fe9; 0x1783f531; 0x66fffd39;
   0x59e8a9ba; 0xc2ee818b; 0x1f3b0f3c; 0x4cd0e620; 0xeaf278ba; 0x92045e3d;
   0x64e6ebca; 0x9b70573; 0x3aaf57a4; 0xe287e26; 0x54dcafbb; 0x8c25a8;
   0x99642381; 0x5c8de9f0; 0x51fda6c0; 0x910e0b6d; 0xf6328e12; 0xec5e5389;
   0x8ed195f; 0xe80f0583; 0xa7185a25; 0xa83c3268; 0xa4e79433; 0xe6def4b;
   0x77065b1f; 0x43678dc7; 0x7e506399; 0x88503f60; 0x62c4983d; 0x70ece12;
   0xe0d421a4; 0x71821295; 0x801310e8; 0x3bd7bf4b; 0xe42779be; 0xefee3449;
   0xd6aaaffc; 0xa5608bae; 0xf6e0b8ae; 0xdd79aa9f; 0x8bd6606d; 0x3b83977a;
   0x512a0c70; 0x2c6de88; 0x25f5ea97; 0x68ceb140; 0xdaa87097; 0x602b8497;
   0x7767467a; 0xfee216a8; 0x14512325; 0x142c4e04; 0x7bf5ac09; 0x384364d5;
   0xf58188a8; 0xa410598; 0x799223f; 0xc1b76b42; 0xd828d74b; 0x931ecbb1;
   0x41922ad3; 0x787fb489; 0xf41c1d00; 0x3dbc3f88; 0x12a70e39; 0x26ae363d;
   0x47f7274; 0x86385074; 0x2ffb7263; 0xb8e3de33; 0x9496a61; 0x92025809;
   0xbf8b296d; 0xf1a57003; 0xa8057fb6; 0x2ce2e565; 0x56d7a64a; 0xa6e30007;
   0xe0562996; 0xabec18bd; 0x6b8c68ed].

(** [GEAR[b]] for a byte [b]; an entry the initialiser does not list is zero. *)
Definition gear (b : Z) : Z := nth (Z.to_nat b) GEAR 0.

(** ** [weakHash] *)

Definition P1 : Z := 0x9e3779b185ebca87.
Definition P2 : Z := 0xc2b2ae3d27d4eb4f.
Definition P3 : Z := 0x165667b19e3779f9.
Definition P4 : Z := 0x85ebca77c2b2ae63.
Definition P5 : Z := 0x27d4eb2f165667c5.

(** [XXHR]: rotation of a 64-bit word. *)
Definition XXHR (x r : Z) : Z := Z.lor (u64 (Z.shiftl x r)) (Z.shiftr x (64 - r)).

(** [XXHS]: one lane absorbs the word [x]. *)
Definition XXHS (v x : Z) : Z := u64 (XXHR (u64 (v + u64 (x * P2))) 31 * P1).

(** [XXHF]: the lane [v] is folded into [h]. *)
Definition XXHF (h v : Z) : Z :=
  let v := u64 (XXHR (u64 (v * P2)) 31 * P1) in
  u64 (u64 (Z.lxor h v * P1) + P4).

(** The 32-byte stripes: [do ... while (len >= 32)], entered with 32 bytes or
    more. *)
Fixpoint xxh_stripes (fuel : nat) (p : bytes) (v0 v1 v2 v3 : Z) :=
  match fuel with
  | O => (p, v0, v1, v2, v3)
  | S fuel =>
    if 32 <=? blen p then
      xxh_stripes fuel (drop 32 p) (XXHS v0 (rd64 p 0)) (XXHS v1 (rd64 p 8))
        (XXHS v2 (rd64 p 16)) (XXHS v3 (rd64 p 24))
    else (p, v0, v1, v2, v3)
  end.

Fixpoint xxh_words (fuel : nat) (p : bytes) (h : Z) : bytes * Z :=
  match fuel with
  | O => (p, h)
  | S fuel =>
    if 8 <=? blen p then
      let x := u64 (XXHR (u64 (rd64 p 0 * P2)) 31 * P1) in
      xxh_words fuel (drop 8 p) (u64 (u64 (XXHR (Z.lxor h x) 27 * P1) + P4))
    else (p, h)
  end.

Fixpoint xxh_bytes (p : bytes) (h : Z) : Z :=
  match p with
  | [] => h
  | b :: p => xxh_bytes p (u64 (XXHR (Z.lxor h (u64 (b * P5))) 11 * P1))
  end.

(** [weakHash buf len]: the [len] bytes of [buf] are [p]. *)
Definition weakHash (p : bytes) : Z :=
  let seed := 0x7fcaf1 in
  let n := u64 (blen p) in
  let fuel := length p in
  let '(p, h) :=
    if n <? 32 then (p, u64 (u64 (seed + P5) + n))
    else
      let '(p, v0, v1, v2, v3) :=
        xxh_stripes fuel p (u64 (seed + P1 + P2)) (u64 (seed + P2)) seed (u64 (seed - P1)) in
      let h := u64 (XXHR v0 1 + XXHR v1 7 + XXHR v2 12 + XXHR v3 18) in
      (p, u64 (XXHF (XXHF (XXHF (XXHF h v0) v1) v2) v3 + n)) in
  let '(p, h) := xxh_words fuel p h in
  let '(p, h) :=
    if 4 <=? blen p then
      (drop 4 p, u64 (u64 (XXHR (Z.lxor h (u64 (rd32 p 0 * P1))) 23 * P2) + P3))
    else (p, h) in
  let h := xxh_bytes p h in
  let h := u64 (Z.lxor h (Z.shiftr h 33) * P2) in
  let h := u64 (Z.lxor h (Z.shiftr h 29) * P3) in
  Z.lxor h (Z.shiftr h 32).

(** ** The cutters *)

Definition STRMIN : Z := 12.
Definition STRMAX : Z := 64.
Definition STRAVG : Z := 28.

(** [fingerprint = (fingerprint << 1) + GEAR[p[i]]], on 32 bits. *)
Definition gear_step (fingerprint : Z) (b : Z) : Z :=
  u32 (u32 (Z.shiftl fingerprint 1) + gear b).

(** The loop of [chunk_gear]; [fuel] bounds the increments of [i]. *)
Fixpoint chunk_gear_loop (fuel : nat) (p : bytes) (n i fingerprint : Z) : Z :=
  match fuel with
  | O => i
  | S fuel =>
    if i <=? n then
      let fingerprint := gear_step fingerprint (rd p i) in
      if i <=? STRMAX then
        if Z.land fingerprint STRAVG =? 0 then i
        else chunk_gear_loop fuel p n (i + 1) fingerprint
      else i
    else i
  end.

(** [p] is the memory from the pointer on; the cutter may look at [p[n]]. *)
Definition chunk_gear (p : bytes) (n : Z) : Z :=
  if n <=? STRMAX then n
  else chunk_gear_loop (Z.to_nat n) p n (STRMIN + 1) 0.

(** [rolling_gear_v3]: the cuts after [cut[count-1] = last], [k] of them.  A
    cut at [i] is [cut[count++] = i; i += STRMIN; fingerprint = 0; j++; i++]. *)
Fixpoint rolling_loop (fuel k : nat) (p : bytes) (n i fingerprint last : Z)
  : result (list Z) :=
  match k with
  | O => Ok []
  | S k' =>
    match fuel with
    | O => Err Fuel
    | S fuel =>
      if i <? n then
        let fingerprint := gear_step fingerprint (rd p i) in
        if (i <=? last + STRMAX) && negb (Z.land fingerprint STRAVG =? 0)
        then rolling_loop fuel k p n (i + 1) fingerprint last
        else l <-- rolling_loop fuel k' p n (i + STRMIN + 1) 0 i ;; Ok (i :: l)
      else Ok (replicate k n)
    end
  end.

(** The array [cut]; the code returns its last entry. *)
Definition rolling_gear_v3 (p : bytes) (n : Z) (num_of_chunks : nat) : result (list Z) :=
  l <-- rolling_loop (Z.to_nat n + 1) num_of_chunks p n (STRMIN + 1) 0 0 ;; Ok (0 :: l).

(** ** Bounds *)

Lemma chunk_gear_loop_bounds fuel p n i fp :
  STRMIN + 1 <= i <= STRMAX + 1 -> STRMAX < n -> n - i < Z.of_nat fuel ->
  STRMIN + 1 <= chunk_gear_loop fuel p n i fp <= STRMAX + 1.
Proof.
  unfold STRMIN, STRMAX. revert i fp. induction fuel as [|fuel IH]; intros i fp ? ? ?; cbn [chunk_gear_loop].
  - lia.
  - repeat case_if; unfold STRMAX in *; try lia. apply IH; lia.
Qed.

Lemma chunk_gear_small p n : n <= STRMAX -> chunk_gear p n = n.
Proof. intros. unfold chunk_gear. by rewrite (proj2 (Z.leb_le _ _)). Qed.

Lemma chunk_gear_large p n :
  STRMAX < n -> STRMIN + 1 <= chunk_gear p n <= STRMAX + 1.
Proof.
  intros. unfold chunk_gear. case_if; [lia|].
  apply chunk_gear_loop_bounds; unfold STRMIN, STRMAX in *; lia.
Qed.

(** A chunk of the input never runs past the bytes it is cut from, and is empty
    only when there is nothing left. *)
Lemma chunk_gear_range p n : 0 <= n -> 0 <= chunk_gear p n <= n.
Proof.
  intros. destruct (Z.le_gt_cases n STRMAX).
  - rewrite chunk_gear_small; lia.
  - pose proof (chunk_gear_large p n ltac:(lia)). unfold STRMIN, STRMAX in *. lia.
Qed.
Lemma chunk_gear_pos p n : 0 < n -> 0 < chunk_gear p n.
Proof.
  intros. destruct (Z.le_gt_cases n STRMAX).
  - rewrite chunk_gear_small; lia.
  - pose proof (chunk_gear_large p n ltac:(lia)). unfold STRMIN, STRMAX in *. lia.
Qed.
#[export] Hint Resolve chunk_gear_range chunk_gear_pos : bytes.

(** The cutters look at [p[i]] for [i < n] only, as far as their result goes:
    [chunk_gear] reads [p[n]] when [n = 65] but returns [65] whatever it holds. *)
Lemma chunk_gear_loop_local fuel p q n i fp :
  STRMAX < n -> 0 <= i -> (forall o, 0 <= o < n -> rd p o = rd q o) ->
  chunk_gear_loop fuel p n i fp = chunk_gear_loop fuel q n i fp.
Proof.
  unfold STRMAX. intros Hn Hi Heq. revert i fp Hi. induction fuel as [|fuel IH]; intros i fp Hi; [done|].
  cbn [chunk_gear_loop]. case_if; [|done].
  destruct (i <=? STRMAX) eqn:E1; [|done]. unfold STRMAX in E1. boolz.
  rewrite Heq by lia. case_if; [done|]. apply IH. lia.
Qed.

(** [cuts_from n last l]: the cuts [l] that follow [last] are increasing, at
    most [STRMAX + 1] apart, at least [STRMIN + 1] apart unless the end [n] is
    reached, and never past [n]. *)
Fixpoint cuts_from (n last : Z) (l : list Z) : Prop :=
  match l with
  | [] => True
  | c :: l => last <= c <= n /\ c <= last + STRMAX + 1 /\
              (c = n \/ last + STRMIN + 1 <= c) /\ cuts_from n c l
  end.

Lemma cuts_from_replicate n k : cuts_from n n (replicate k n).
Proof. induction k; cbn; unfold STRMAX; [done|]. repeat split; auto; lia. Qed.

Lemma rolling_loop_ok fuel k p n i fp last :
  0 <= last <= n -> last + STRMIN + 1 <= i <= last + STRMAX + 1 -> n - i < Z.of_nat fuel ->
  (0 < fuel)%nat ->
  exists l, rolling_loop fuel k p n i fp last = Ok l /\ length l = k /\ cuts_from n last l.
Proof.
  unfold STRMIN, STRMAX. revert k i fp last.
  induction fuel as [|fuel IH]; intros k i fp last Hl Hi Hf Hp; [lia|].
  destruct k as [|k]; [by exists []|]. cbn [rolling_loop].
  destruct (i <? n) eqn:E; boolz.
  2: { exists (replicate (S k) n). split; [done|]. split; [by rewrite length_replicate|].
       cbn. unfold STRMIN, STRMAX. repeat split; try lia. apply cuts_from_replicate. }
  assert (Hcut : exists l, rolling_loop fuel k p n (i + STRMIN + 1) 0 i = Ok l /\
            length l = k /\ cuts_from n i l) by (apply IH; unfold STRMIN; lia).
  destruct Hcut as (l & El & Len & Hc).
  assert (G : exists l0, (l <-- rolling_loop fuel k p n (i + STRMIN + 1) 0 i ;; Ok (i :: l)) = Ok l0 /\
            length l0 = S k /\ cuts_from n last l0).
  { rewrite El. exists (i :: l). cbn. rewrite Len. unfold STRMIN, STRMAX. repeat split; auto; lia. }
  case_if; [|done]. unfold STRMAX in *. apply IH; lia.
Qed.

(** [rolling_gear_v3] never runs out of steps, fills [cut] and ends at [n] or
    before it. *)
Lemma rolling_gear_v3_ok p n k :
  0 <= n -> exists l, rolling_gear_v3 p n k = Ok (0 :: l) /\ length l = k /\ cuts_from n 0 l.
Proof.
  intros. unfold rolling_gear_v3.
  destruct (rolling_loop_ok (Z.to_nat n + 1) k p n (STRMIN + 1) 0 0) as (l & -> & ? & ?);
    unfold STRMIN, STRMAX in *; try lia.
  by exists l.
Qed.

Lemma cuts_from_last n last l : last <= n -> cuts_from n last l -> last <= List.last l last <= n.
Proof.
  revert last. induction l as [|c l IH]; intros last H; cbn [cuts_from]; [cbn; lia|].
  intros (H1 & _ & _ & H2). specialize (IH c ltac:(lia) H2).
  rewrite last_cons_default. lia.
Qed.
