(* ===== verification/HTable.v ===== *)
(** The hash table of the delta encoder (edelta/htable.cc, edelta/htable.h).

    An item is what the code calls [item]; the [hlink] inside it is reached by
    [loffset], so a chain is the list of the (key, item) pairs that its [next]
    pointers thread, most recent first.  [walkptr] is the rest of the chain it
    points into, empty for NULL. *)
From Stdlib Require Import ZArith Lia.
From stdpp Require Import base list.
From S2P Require Import Prelude.

Section htable.
Context {I : Type}.

Definition chain : Type := list (Z * I).

Record htable := mk_htable {
  table : list chain;
  hashlength : Z;
  loffset : Z;
  num_items : Z;
  max_items : Z;
  buckets : Z;
  mask : Z;
  rshift : Z;
  walkptr : chain;
  walk_index : Z
}.

(** ** Operations *)

(** The loop [for (pwr=0; tsize; pwr++) tsize >>= 1]: the bit length. *)
Fixpoint init_pwr (fuel : nat) (tsize pwr : Z) : Z :=
  match fuel with
  | O => pwr
  | S fuel => if tsize =? 0 then pwr else init_pwr fuel (Z.shiftr tsize 1) (pwr + 1)
  end.

Definition init (offset nhlen tsize : Z) : htable :=
  let tsize := Z.shiftr tsize 2 in
  let pwr := init_pwr 32 tsize 0 in
  let buckets := Z.shiftl 1 pwr in
  {| loffset := offset;
     mask := Z.lnot (Z.shiftl (Z.lnot 0) pwr);
     rshift := 30 - pwr;
     num_items := 0;
     buckets := buckets;
     max_items := u32 (buckets * 4);
     table := replicate (Z.to_nat buckets) [];
     walkptr := [];
     walk_index := 0;
     hashlength := nhlen |}.

(** [index = ( *(uint64_t* ) key * 2654435761U) & mask] *)
Definition hash_slot (mask key : Z) : Z := Z.land (u64 (key * 2654435761)) mask.

Definition bucket (t : list chain) (i : Z) : chain := nth (Z.to_nat i) t [].

Definition set_table (t : htable) (tab : list chain) (num : Z) : htable :=
  {| table := tab; hashlength := hashlength t; loffset := loffset t;
     num_items := num; max_items := max_items t; buckets := buckets t;
     mask := mask t; rshift := rshift t; walkptr := walkptr t;
     walk_index := walk_index t |}.
Definition set_walk (t : htable) (w : chain) (i : Z) : htable :=
  {| table := table t; hashlength := hashlength t; loffset := loffset t;
     num_items := num_items t; max_items := max_items t; buckets := buckets t;
     mask := mask t; rshift := rshift t; walkptr := w; walk_index := i |}.

Fixpoint lookup_chain (key : Z) (hp : chain) : option I :=
  match hp with
  | [] => None
  | (k, item) :: hp => if k =? key then Some item else lookup_chain key hp
  end.

Definition lookup (t : htable) (key : Z) : option I :=
  lookup_chain key (bucket (table t) (hash_slot (mask t) key)).

(** [search] returns the [hlink]: the rest of the chain from the match on. *)
Fixpoint search_chain (key : Z) (hp : chain) : chain :=
  match hp with
  | [] => []
  | (k, item) :: hp' => if k =? key then hp else search_chain key hp'
  end.
Definition search (t : htable) (key : Z) : chain :=
  search_chain key (bucket (table t) (hash_slot (mask t) key)).

(** [while (!walkptr && walk_index < buckets) walkptr = table[walk_index++];] *)
Fixpoint walk (fuel : nat) (t : htable) : htable :=
  match fuel with
  | O => t
  | S fuel =>
    match walkptr t with
    | _ :: _ => t
    | [] => if walk_index t <? buckets t
            then walk fuel (set_walk t (bucket (table t) (walk_index t)) (walk_index t + 1))
            else t
    end
  end.

Definition cur_item (t : htable) : option I :=
  match walkptr t with [] => None | (_, i) :: _ => Some i end.

Definition first (t : htable) : htable * option I :=
  let t := walk (Z.to_nat (buckets t)) (set_walk t (bucket (table t) 0) 1) in
  (t, cur_item t).

Definition next (t : htable) : htable * option I :=
  let t := set_walk t (tail (walkptr t)) (walk_index t) in
  let t := walk (Z.to_nat (buckets t)) t in
  (t, cur_item t).

Definition SetOffset (t : htable) (offset : Z) : htable :=
  {| table := table t; hashlength := hashlength t; loffset := offset;
     num_items := num_items t; max_items := max_items t; buckets := buckets t;
     mask := mask t; rshift := rshift t; walkptr := walkptr t;
     walk_index := walk_index t |}.

Definition ResetTable (t : htable) : htable :=
  set_table t (replicate (Z.to_nat (buckets t)) []) 0.

Definition size (t : htable) : Z := num_items t.

(** The empty table twice as large that [grow_table] allocates. *)
Definition grow_big (t : htable) : htable :=
  {| loffset := loffset t; hashlength := hashlength t;
     mask := u32 (Z.lor (Z.shiftl (mask t) 1) 1);
     rshift := u32 (rshift t - 1); num_items := 0;
     buckets := u32 (buckets t * 2);
     max_items := u32 (u32 (buckets t * 2) * 4);
     table := replicate (Z.to_nat (u32 (buckets t * 2))) [];
     walkptr := []; walk_index := 0 |}.

(** The loop of [grow_table]: [big->insert] each item of the chain that
    [walkptr] heads, saving its [next] first, then [next()] for the following
    chain. *)
Fixpoint grow_loop (insert : htable -> Z -> I -> result htable) (fuel : nat)
    (t big : htable) : result htable :=
  match walkptr t with
  | [] => Ok big
  | (key, item) :: ni =>
    match fuel with
    | O => Err Fuel
    | S fuel =>
      big <-- insert big key item ;;
      match ni with
      | _ :: _ => grow_loop insert fuel (set_walk t ni (walk_index t)) big
      | [] => grow_loop insert fuel (fst (next (set_walk t [] (walk_index t)))) big
      end
    end
  end.

(** [depth] bounds the nesting of [insert] inside [grow_table]. *)
Fixpoint insert_rec (depth : nat) (t : htable) (key : Z) (item : I) : result htable :=
  let index := hash_slot (mask t) key in
  let t' := set_table t
    (<[Z.to_nat index := (key, item) :: bucket (table t) index]> (table t))
    (u32 (num_items t + 1)) in
  if max_items t' <=? num_items t' then
    match depth with
    | O => Err Fuel
    | S depth => grow_loop (insert_rec depth) (Z.to_nat (num_items t')) (fst (first t')) (grow_big t')
    end
  else Ok t'.

(** One level of growth is enough: the bigger table never grows while it is
    being filled ([insert_ok]). *)
Definition insert : htable -> Z -> I -> result htable := insert_rec 1.
Definition grow_table (t : htable) : result htable :=
  grow_loop (insert_rec 0) (Z.to_nat (num_items t)) (fst (first t)) (grow_big t).

(** ** Invariant *)

Definition elements (t : htable) : list (Z * I) := concat (table t).

(** A table of [2^p] buckets, each item in the bucket of its key. *)
Record wf (p : Z) (t : htable) : Prop := {
  wf_p : 0 <= p < 28;
  wf_buckets : buckets t = 2 ^ p;
  wf_length : blen (table t) = buckets t;
  wf_mask : mask t = Z.ones p;
  wf_max : max_items t = 4 * buckets t;
  wf_num : num_items t = blen (elements t);
  wf_room : num_items t < max_items t;
  wf_slots : forall b c k i, table t !! b = Some c -> (k, i) ∈ c ->
             Z.of_nat b = hash_slot (mask t) k
}.

(** ** Slots and chains *)

Lemma hash_slot_range p m key : 0 <= p -> m = Z.ones p -> 0 <= hash_slot m key < 2 ^ p.
Proof. intros ? ->. unfold hash_slot. rewrite Z.land_ones by done. apply Z.mod_pos_bound. lia. Qed.

Lemma bucket_lookup (tab : list chain) i :
  0 <= i < blen tab -> tab !! Z.to_nat i = Some (bucket tab i).
Proof.
  unfold blen, bucket. intros.
  destruct (nth_lookup_or_length tab (Z.to_nat i) []); [done|lia].
Qed.

Lemma concat_insert (tab : list chain) n c x :
  tab !! n = Some c -> concat (<[n := x :: c]> tab) ≡ₚ x :: concat tab.
Proof.
  revert n. induction tab as [|d tab IH]; intros [|n]; cbn; try done.
  - by intros [= ->].
  - intros H. rewrite (IH n H). by rewrite Permutation_middle.
Qed.

Lemma lookup_chain_Some key (c : chain) i : lookup_chain key c = Some i -> (key, i) ∈ c.
Proof.
  induction c as [|[k j] c IH]; cbn; [done|]. case_if; [|by auto using list_elem_of_further].
  intros [= ->]. subst. apply list_elem_of_here.
Qed.
Lemma lookup_chain_None key (c : chain) : lookup_chain key c = None <-> forall i, (key, i) ∉ c.
Proof.
  induction c as [|[k j] c IH]; cbn.
  - split; [intros _ i; apply not_elem_of_nil|done].
  - case_if.
    + split; [done|]. intros H. subst. destruct (H j). apply list_elem_of_here.
    + rewrite IH. split; intros H i' Hi.
      * apply elem_of_cons in Hi as [[= -> ->]|Hi]; [done|by apply (H i')].
      * apply (H i'). by apply list_elem_of_further.
Qed.

Lemma elem_bucket p t k i :
  wf p t -> (k, i) ∈ elements t <-> (k, i) ∈ bucket (table t) (hash_slot (mask t) k).
Proof.
  intros W. pose proof (hash_slot_range p _ k (proj1 (wf_p _ _ W)) (wf_mask _ _ W)) as R.
  rewrite <- (wf_buckets _ _ W), <- (wf_length _ _ W) in R.
  unfold elements. rewrite list_elem_of_In, in_concat. split.
  - intros (c & Hc & Hk). apply list_elem_of_In in Hc, Hk.
    apply list_elem_of_lookup in Hc as [b Hb].
    pose proof (wf_slots _ _ W _ _ k i Hb Hk) as E.
    unfold bucket. rewrite <- E, Nat2Z.id. by rewrite (nth_lookup_Some _ _ _ _ Hb).
  - intros H. exists (bucket (table t) (hash_slot (mask t) k)).
    split; apply list_elem_of_In; [|done].
    eapply list_elem_of_lookup_2, bucket_lookup, R.
Qed.

(** ** Insertion *)

Definition insert_link (t : htable) (key : Z) (item : I) : htable :=
  let index := hash_slot (mask t) key in
  set_table t (<[Z.to_nat index := (key, item) :: bucket (table t) index]> (table t))
    (u32 (num_items t + 1)).

(** [wf] without the bound on [num_items], which holds between the insertion and
    the growth that restores it. *)
Record wf0 (p : Z) (t : htable) : Prop := {
  wf0_p : 0 <= p < 28;
  wf0_buckets : buckets t = 2 ^ p;
  wf0_length : blen (table t) = buckets t;
  wf0_mask : mask t = Z.ones p;
  wf0_max : max_items t = 4 * buckets t;
  wf0_num : num_items t = blen (elements t);
  wf0_slots : forall b c k i, table t !! b = Some c -> (k, i) ∈ c ->
             Z.of_nat b = hash_slot (mask t) k
}.
Lemma wf_wf0 p t : wf p t <-> wf0 p t /\ num_items t < max_items t.
Proof. split; [intros []; split; [by constructor|done]|intros [[] ?]; by constructor]. Qed.

Lemma pow_p_small p : 0 <= p < 28 -> 1 <= 2 ^ p <= 2 ^ 27.
Proof.
  intros. split; [|apply Z.pow_le_mono_r; lia].
  pose proof (Z.pow_pos_nonneg 2 p). lia.
Qed.

Lemma insert_link_ok p t key item :
  wf p t -> wf0 p (insert_link t key item) /\
            elements (insert_link t key item) ≡ₚ (key, item) :: elements t /\
            num_items (insert_link t key item) = num_items t + 1.
Proof.
  intros W. pose proof (hash_slot_range p _ key (proj1 (wf_p _ _ W)) (wf_mask _ _ W)) as R.
  rewrite <- (wf_buckets _ _ W), <- (wf_length _ _ W) in R.
  pose proof (bucket_lookup _ _ R) as B.
  pose proof (pow_p_small _ (wf_p _ _ W)) as P.
  pose proof (wf_room _ _ W) as M. rewrite (wf_max _ _ W), (wf_buckets _ _ W) in M.
  pose proof (wf_num _ _ W) as N. pose proof (blen_nonneg (elements t)).
  assert (E : elements (insert_link t key item) ≡ₚ (key, item) :: elements t)
    by (apply concat_insert, B).
  assert (U : num_items (insert_link t key item) = num_items t + 1)
    by (cbn; apply u32_id; lia).
  split; [|done]. constructor; try apply W.
  - cbn. unfold blen. rewrite length_insert. apply W.
  - rewrite U, N. unfold blen. rewrite E. cbn. lia.
  - cbn. intros b c k i Hb Hk. apply list_lookup_insert_Some in Hb as [(<- & <- & _)|[_ Hb]].
    + apply elem_of_cons in Hk as [[= -> ->]|Hk]; [lia|].
      by eapply (wf_slots _ _ W).
    + by eapply (wf_slots _ _ W).
Qed.

Lemma insert_rec_unfold d t key item :
  insert_rec d t key item =
  if max_items t <=? num_items (insert_link t key item) then
    match d with
    | O => Err Fuel
    | S d => grow_loop (insert_rec d) (Z.to_nat (num_items (insert_link t key item)))
               (fst (first (insert_link t key item))) (grow_big (insert_link t key item))
    end
  else Ok (insert_link t key item).
Proof. destruct d; reflexivity. Qed.

(** Insertion while there is room, at any depth. *)
Lemma insert_rec_room d p t key item :
  wf p t -> num_items t + 1 < max_items t ->
  insert_rec d t key item = Ok (insert_link t key item) /\
  wf p (insert_link t key item) /\
  elements (insert_link t key item) ≡ₚ (key, item) :: elements t /\
  num_items (insert_link t key item) = num_items t + 1.
Proof.
  intros W R. destruct (insert_link_ok p t key item W) as (W0 & E & N).
  split; [|split; [|done]].
  - rewrite insert_rec_unfold, N. case_if; [lia|done].
  - apply wf_wf0. split; [done|]. rewrite N. apply R.
Qed.

(** ** Walking the table *)

Definition remaining (t : htable) : list (Z * I) :=
  walkptr t ++ concat (drop (Z.to_nat (walk_index t)) (table t)).

Lemma drop_concat_step (tab : list chain) i :
  0 <= i < blen tab ->
  concat (drop (Z.to_nat i) tab) = bucket tab i ++ concat (drop (Z.to_nat (i + 1)) tab).
Proof.
  intros. pose proof (bucket_lookup _ _ H) as B.
  rewrite (drop_S _ _ _ B). cbn. do 3 f_equal. lia.
Qed.

Lemma walk_ok fuel t :
  blen (table t) = buckets t -> 0 <= walk_index t -> buckets t - walk_index t <= Z.of_nat fuel ->
  remaining (walk fuel t) = remaining t /\ table (walk fuel t) = table t /\
  buckets (walk fuel t) = buckets t /\ 0 <= walk_index (walk fuel t) /\
  (walkptr (walk fuel t) = [] -> remaining t = []).
Proof.
  revert t. induction fuel as [|fuel IH]; intros t L W F.
  - cbn. repeat split; try done. intros E. unfold remaining. rewrite E. cbn.
    rewrite drop_ge; [done|]. unfold blen in L. lia.
  - cbn [walk]. destruct (walkptr t) as [|x w] eqn:E.
    + case_if.
      * destruct (IH (set_walk t (bucket (table t) (walk_index t)) (walk_index t + 1)))
          as (H1 & H2 & H3 & H4 & H5); cbn; try lia.
        assert (R : remaining (set_walk t (bucket (table t) (walk_index t)) (walk_index t + 1)) = remaining t).
        { unfold remaining. cbn. rewrite E. cbn. symmetry. apply drop_concat_step. lia. }
        rewrite H1, H2, H3, R. repeat split; try done. rewrite <- R. apply H5.
      * repeat split; try done. intros _. unfold remaining. rewrite E. cbn.
        rewrite drop_ge; [done|]. unfold blen in L. lia.
    + repeat split; try done. by rewrite E.
Qed.

(** A walk in progress: [todo] is what it has still to visit. *)
Definition walking (t : htable) (todo : list (Z * I)) : Prop :=
  blen (table t) = buckets t /\ 0 <= walk_index t /\ remaining t = todo /\
  (walkptr t = [] -> todo = []).

Lemma first_walking t :
  blen (table t) = buckets t -> 0 < buckets t -> walking (fst (first t)) (elements t).
Proof.
  intros L P. unfold first. cbn -[walk].
  destruct (walk_ok (Z.to_nat (buckets t)) (set_walk t (bucket (table t) 0) 1))
    as (H1 & H2 & H3 & H4 & H5); cbn; try lia.
  assert (R : remaining (set_walk t (bucket (table t) 0) 1) = elements t).
  { unfold remaining, elements. cbn [walkptr walk_index set_walk table].
    rewrite <- (drop_concat_step _ 0) by lia. done. }
  rewrite R in *. unfold walking. rewrite H1, H2, H3. auto.
Qed.

Lemma next_walking t x todo :
  walking t (x :: todo) -> walking (fst (next t)) todo.
Proof.
  intros (L & P & R & N). unfold next. cbn -[walk].
  destruct (walkptr t) as [|y w] eqn:E; [by specialize (N eq_refl)|].
  destruct (walk_ok (Z.to_nat (buckets t)) (set_walk t w (walk_index t)))
    as (H1 & H2 & H3 & H4 & H5); cbn; try lia.
  assert (R' : remaining (set_walk t w (walk_index t)) = todo).
  { unfold remaining in *. rewrite E in R. cbn in *. by injection R. }
  rewrite R' in *. unfold walking. rewrite H1, H2, H3. auto.
Qed.

Lemma walking_cur t todo : walking t todo -> cur_item t = snd <$> head todo.
Proof.
  intros (_ & _ & R & N). unfold cur_item, remaining in *.
  destruct (walkptr t) as [|[k i] w]; [by rewrite N|]. rewrite <- R. done.
Qed.

(** ** Growth *)

Fixpoint insert_all (ins : htable -> Z -> I -> result htable) (l : list (Z * I)) (t : htable)
  : result htable :=
  match l with
  | [] => Ok t
  | (k, i) :: l => t <-- ins t k i ;; insert_all ins l t
  end.

(** The loop inserts what the walk visits, in its order. *)
Lemma grow_loop_insert_all ins fuel t big todo :
  walking t todo -> (length todo <= fuel)%nat ->
  grow_loop ins fuel t big = insert_all ins todo big.
Proof.
  revert t big todo. induction fuel as [|fuel IH]; intros t big todo W F.
  - destruct todo; [|cbn in F; lia]. cbn. destruct W as (_ & _ & R & _).
    unfold remaining in R. apply app_eq_nil in R as [-> _]. done.
  - destruct W as (L & P & R & N). cbn [grow_loop].
    destruct (walkptr t) as [|[k i] ni] eqn:E; [by rewrite N|].
    unfold remaining in R. rewrite E in R. subst todo. cbn in F |- *.
    destruct (ins big k i) as [big'|e]; cbn; [|done].
    destruct ni as [|y ni].
    + apply IH; [|cbn in *; lia].
      replace (set_walk t [] (walk_index t)) with (set_walk t (tail [(k, i)]) (walk_index t)) by done.
      apply (next_walking (set_walk t [(k, i)] (walk_index t)) (k, i)).
      repeat split; try done.
    + apply IH; [|cbn in *; lia]. repeat split; try done.
Qed.

Lemma insert_all_room d p l t :
  wf p t -> num_items t + blen l < max_items t ->
  exists t', insert_all (insert_rec d) l t = Ok t' /\ wf p t' /\
             elements t' ≡ₚ l ++ elements t.
Proof.
  revert t. induction l as [|[k i] l IH]; intros t W R; cbn.
  - by exists t.
  - rewrite blen_cons in R. pose proof (blen_nonneg l).
    destruct (insert_rec_room d p t k i W ltac:(lia)) as (-> & W' & E & N). cbn.
    assert (max_items (insert_link t k i) = max_items t) as Mx by done.
    destruct (IH _ W' ltac:(lia)) as (t' & -> & W2 & E2).
    exists t'. split; [done|]. split; [done|]. rewrite E2, E. by rewrite Permutation_middle.
Qed.

Lemma concat_replicate_nil n : concat (replicate n (@nil (Z * I))) = [].
Proof. by induction n. Qed.
Lemma bucket_replicate_nil n b (c : chain) : replicate n [] !! b = Some c -> c = [].
Proof. intros H. by apply lookup_replicate in H as [-> _]. Qed.

Lemma ones_double p : 0 <= p -> Z.lor (Z.shiftl (Z.ones p) 1) 1 = Z.ones (p + 1).
Proof.
  intros. apply Z.bits_inj'. intros n Hn. rewrite Z.lor_spec.
  destruct (Z.eq_dec n 0) as [->|]; [rewrite (Z.ones_spec_low (p + 1)) by lia; apply orb_true_r|].
  rewrite Z.shiftl_spec by lia.
  replace (Z.testbit 1 n) with false by (symmetry; apply Z.bits_above_log2; [done|]; change (Z.log2 1) with 0; lia).
  rewrite orb_false_r, !Z.testbit_ones by lia.
  apply eq_true_iff_eq. rewrite !andb_true_iff, !Z.leb_le, !Z.ltb_lt. lia.
Qed.

Lemma grow_big_wf p t : wf0 p t -> p < 27 -> wf (p + 1) (grow_big t) /\ elements (grow_big t) = [].
Proof.
  intros W P. pose proof (pow_p_small (p + 1) ltac:(destruct (wf0_p _ _ W); lia)) as Q.
  assert (D : 2 ^ (p + 1) = 2 ^ p * 2) by (rewrite Z.pow_add_r; [lia|destruct (wf0_p _ _ W); lia|lia]).
  assert (B : u32 (buckets t * 2) = 2 ^ (p + 1)) by (rewrite (wf0_buckets _ _ W), D; apply u32_id; lia).
  assert (E : elements (grow_big t) = []) by apply concat_replicate_nil.
  split; [|done]. constructor; try (rewrite E); cbn -[u32]; rewrite ?B; try done.
  - destruct (wf0_p _ _ W); lia.
  - unfold blen. rewrite length_replicate. lia.
  - rewrite (wf0_mask _ _ W), ones_double by (destruct (wf0_p _ _ W); lia).
    rewrite Z.ones_equiv in *. apply u32_id. lia.
  - rewrite u32_id; lia.
  - rewrite u32_id; lia.
  - intros b c k i Hb Hk. apply bucket_replicate_nil in Hb as ->. by apply not_elem_of_nil in Hk.
Qed.

Lemma grow_ok p t :
  wf0 p t -> p < 27 -> num_items t <= max_items t ->
  exists t', grow_table t = Ok t' /\ wf (p + 1) t' /\ elements t' ≡ₚ elements t.
Proof.
  intros W P M. destruct (grow_big_wf p t W P) as [Wb Eb].
  pose proof (pow_p_small _ (wf0_p _ _ W)) as Q.
  pose proof (wf0_buckets _ _ W) as B. pose proof (wf0_max _ _ W) as X. pose proof (wf0_num _ _ W) as N.
  unfold grow_table. rewrite (grow_loop_insert_all _ _ _ _ (elements t)).
  - destruct (insert_all_room 0 (p + 1) (elements t) (grow_big t) Wb) as (t' & -> & W' & E').
    + rewrite (wf_max _ _ Wb), (wf_buckets _ _ Wb), Z.pow_add_r by (destruct (wf0_p _ _ W); lia).
      cbn -[blen]. rewrite <- N. lia.
    + exists t'. split; [done|]. split; [done|]. rewrite E', Eb. by rewrite app_nil_r.
  - apply first_walking; [apply W|lia].
  - rewrite N. unfold blen. lia.
Qed.

(** [init] makes an empty well-formed table. *)
Lemma ones_lnot p : 0 <= p -> Z.lnot (Z.shiftl (Z.lnot 0) p) = Z.ones p.
Proof. intros. rewrite Z.shiftl_mul_pow2 by done. unfold Z.lnot, Z.pred. rewrite Z.ones_equiv. lia. Qed.

Lemma init_wf offset nhlen tsize p :
  init_pwr 32 (Z.shiftr tsize 2) 0 = p -> 0 <= p < 28 ->
  wf p (init offset nhlen tsize) /\ elements (init offset nhlen tsize) = [].
Proof.
  intros Hp P. pose proof (pow_p_small _ P).
  assert (E : elements (init offset nhlen tsize) = []) by apply concat_replicate_nil.
  split; [|done]. constructor; try (rewrite E); cbn -[u32 init_pwr]; rewrite ?Hp, ?Z.shiftl_1_l; try done.
  - unfold blen. rewrite length_replicate. lia.
  - apply ones_lnot. lia.
  - rewrite u32_id; lia.
  - rewrite u32_id; lia.
  - intros b c k i Hb Hk. apply bucket_replicate_nil in Hb as ->. by apply not_elem_of_nil in Hk.
Qed.

Lemma ResetTable_wf p t : wf p t -> wf p (ResetTable t) /\ elements (ResetTable t) = [].
Proof.
  intros W. assert (E : elements (ResetTable t) = []) by apply concat_replicate_nil.
  pose proof (pow_p_small _ (wf_p _ _ W)). pose proof (wf_buckets _ _ W).
  split; [|done]. constructor; try (rewrite E); try apply W; cbn; try done.
  - unfold blen. rewrite length_replicate. lia.
  - rewrite (wf_max _ _ W). lia.
  - intros b c k i Hb Hk. apply bucket_replicate_nil in Hb as ->. by apply not_elem_of_nil in Hk.
Qed.

Lemma SetOffset_wf p t o : wf p t -> wf p (SetOffset t o).
Proof. intros []. by constructor. Qed.

(** [insert] always succeeds, growing the table or not; the items are those of
    before and the new one. *)
Lemma insert_total p t key item :
  wf p t -> p < 27 ->
  exists q t', insert t key item = Ok t' /\ wf q t' /\
    (q = p \/ q = p + 1 /\ max_items t <= num_items t + 1) /\
    elements t' ≡ₚ (key, item) :: elements t.
Proof.
  intros W P. destruct (insert_link_ok p t key item W) as (W0 & E & N).
  unfold insert. rewrite insert_rec_unfold. pose proof (wf_room _ _ W). case_if.
  - destruct (grow_ok p _ W0 P) as (t' & G & W' & E'); [rewrite N; cbn; lia|].
    exists (p + 1), t'. split; [exact G|]. split; [done|]. split; [right; lia|]. by rewrite E'.
  - exists p, (insert_link t key item). split; [done|]. split; [apply wf_wf0; split; [done|]|].
    + cbn [max_items insert_link set_table] in *. lia.
    + split; [by left|done].
Qed.

(** [lookup] finds an item of the key exactly when the table has one. *)
Lemma lookup_Some p t key i : wf p t -> lookup t key = Some i -> (key, i) ∈ elements t.
Proof. intros W H. apply (elem_bucket p); [done|]. by apply lookup_chain_Some. Qed.
Lemma lookup_None p t key : wf p t -> lookup t key = None <-> forall i, (key, i) ∉ elements t.
Proof.
  intros W. unfold lookup. rewrite lookup_chain_None.
  split; intros H i; specialize (H i); by rewrite (elem_bucket p) in *.
Qed.

End htable.
Arguments htable I : clear implicits.
Arguments init {I} offset nhlen tsize.
