(* ===== verification/EDelta.v ===== *)
(** The delta codec: [EDeltaEncode], [EDeltaDecode] and their helpers, as they
    stand in ecallFreqIndex.cc, ecallMeGA.cc, ecallOffline.cc and
    RecvDecoder.cc.

    A buffer is the memory from the pointer on; [newSize], [baseSize] and the
    cursors are [uint32_t] and wrap.  The local counters [match], [matchsum],
    [matchnum], [unmatchnum] and the variables [numBytes_old], [numBytes_accu] and
    [input_last_chunk_beg], which no computed value depends on, are left out. *)
From Stdlib Require Import ZArith Lia SpecFloat.
From stdpp Require Import base list.
From S2P Require Import Prelude Gear HTable.

(** ** Records of the delta *)

(** Bit 31 of [flag_length] is the flag (0 for a copy, 1 for inserted bytes), the
    other 31 bits are the length. *)
Definition set_flag (flag_length flag : Z) : Z :=
  if flag =? 0 then Z.land flag_length (Z.shiftr (u32 (Z.lnot 0)) 1)
  else Z.lor flag_length (u32 (Z.shiftl 1 31)).
Definition get_flag (flag_length : Z) : Z := Z.land flag_length (u32 (Z.shiftl 1 31)).
Definition set_length (flag_length length : Z) : Z :=
  let musk := Z.land flag_length (u32 (Z.shiftl 1 31)) in Z.lor length musk.
Definition get_length (flag_length : Z) : Z :=
  Z.land flag_length (Z.shiftr (u32 (Z.lnot 0)) 1).

Record DeltaUnit1 := mk_unit1 { u1_flag_length : Z; u1_nOffset : Z }.
Definition sizeof_unit1 : Z := 8.
Definition sizeof_unit2 : Z := 4.
Definition unit1_bytes (r : DeltaUnit1) : bytes :=
  le_bytes 4 (u1_flag_length r) ++ le_bytes 4 (u1_nOffset r).
(** A [DeltaUnit2] is its [flag_length] alone. *)
Definition unit2_bytes (r : Z) : bytes := le_bytes 4 r.
#[global] Arguments unit1_bytes r : simpl never.
#[global] Arguments unit2_bytes r : simpl never.

Record DeltaRecord := mk_delta_record {
  nHash : Z; nOffset : Z; nLength : Z; DupFlag : Z
}.

(** ** [Chunking_v3] *)

Fixpoint sub_chunks (data : bytes) (cut : list Z) : list DeltaRecord :=
  match cut with
  | c :: ((c' :: _) as rest) =>
    {| nLength := c' - c; nOffset := c; DupFlag := 0;
       nHash := weakHash (slice data c (c' - c)) |} :: sub_chunks data rest
  | _ => []
  end.

(** The [num_of_chunks] records and [numBytes], the last cut. *)
Definition Chunking_v3 (data : bytes) (len : Z) (num_of_chunks : nat)
  : result (list DeltaRecord * Z) :=
  cut <-- rolling_gear_v3 data len num_of_chunks ;;
  Ok (sub_chunks data cut, List.last cut 0).

(** ** The test that paces the chunking of the base *)

Definition float_of (z : Z) : spec_float := binary_normalize 24 128 z 0 false.
Definition double_of_float (x : spec_float) : spec_float :=
  match x with
  | S754_finite s m e => binary_normalize 53 1024 (cond_Zopp s (Zpos m)) e s
  | _ => x
  end.
Definition half : spec_float := S754_finite false 4503599627370496 (-53).

(** [(cursor_input / (float)newSize) + 0.5 >= (cursor_base / (float)baseSize)]:
    the quotients are floats, the sum and the comparison are on doubles. *)
Definition base_due (cursor_input newSize cursor_base baseSize : Z) : bool :=
  SFleb (double_of_float (SFdiv 24 128 (float_of cursor_base) (float_of baseSize)))
    (SFadd 53 1024
       (double_of_float (SFdiv 24 128 (float_of cursor_input) (float_of newSize))) half).

Definition BASE_BEGIN : Z := 5.
Definition BASE_EXPAND : Z := 3.
Definition BASE_STEP : nat := 3.
Definition INPUT_TRY : nat := 5.

(** ** The encoder *)

(** What is written: [deltaBuf], [deltaLen] and the records being built; [flag] is
    the last record written (1 for a copy, 2 for inserted bytes). *)
Record out := mk_out {
  deltaBuf : bytes; deltaLen : Z; record1 : DeltaUnit1; record2 : Z; flag : Z
}.

(** The loop state.  An uninitialised variable is [None].  The items of the table
    are the [BaseLink] records themselves: a slot of [BaseLink] is written before
    it is inserted and never after. *)
Record enc := mk_enc {
  e_out : out;
  inputPos : Z; cursor_input : Z; cursor_base : Z;
  BaseLink : list DeltaRecord;
  psHTable : htable DeltaRecord;
  flag_chunk : bool;
  flag_handle_probe : option bool;
  probe_match : Z;
  InputLink : list (option (Z * Z));
  psDupSubCnk : option DeltaRecord
}.

Section encode.
Context (newBuf : bytes) (newSize : Z) (baseBuf : bytes) (baseSize : Z).

(** *** Common head and tail *)

(** [while (bc(s) + w - 1 < blim && nc(s) + w - 1 < nlim) if (same(s)) s += w; else
    break;]: the scans of the encoder, by words ([w = 8]) and then by bytes. *)
Fixpoint extend (fuel : nat) (w : Z) (bc nc : Z -> Z) (blim nlim : Z) (same : Z -> bool)
    (s : Z) : Z :=
  match fuel with
  | O => s
  | S fuel =>
    if (u32 (bc s + (w - 1)) <? blim) && (u32 (nc s + (w - 1)) <? nlim) then
      if same s then extend fuel w bc nc blim nlim same (u32 (s + w)) else s
    else s
  end.

(** The words, or the bytes, at [baseBuf + b] and [newBuf + n]. *)
Definition same8 (b n : Z) : bool := rd64 baseBuf b =? rd64 newBuf n.
Definition same1 (b n : Z) : bool := rd baseBuf b =? rd newBuf n.

Definition fuel : nat := S (Z.to_nat newSize).

Definition head_scan : Z :=
  let s := extend fuel 8 id id baseSize newSize (fun s => same8 s s) 0 in
  let s := extend fuel 1 id id baseSize newSize (fun s => same1 s s) s in
  if 16 <? s then s else 0.

Definition tail_scan (begSize : Z) : Z :=
  let s := extend fuel 8 id id baseSize newSize
    (fun s => same8 (u32 (baseSize - s - 8)) (u32 (newSize - s - 8))) 0 in
  let s := extend fuel 1 id id baseSize newSize
    (fun s => same1 (u32 (baseSize - s - 1)) (u32 (newSize - s - 1))) s in
  let s := if newSize <? u32 (begSize + s) then u32 (newSize - begSize) else s in
  if 16 <? s then s else 0.

Context (begSize endSize : Z).

(** *** Writing records *)

Definition put_unit1 (o : out) (r : DeltaUnit1) : out :=
  {| deltaBuf := write (deltaBuf o) (deltaLen o) (unit1_bytes r);
     deltaLen := u32 (deltaLen o + sizeof_unit1);
     record1 := r; record2 := record2 o; flag := flag o |}.

Definition set_out_flag (o : out) (f : Z) : out :=
  {| deltaBuf := deltaBuf o; deltaLen := deltaLen o; record1 := record1 o;
     record2 := record2 o; flag := f |}.

(** The bytes [newBuf[inputPos..inputPos+length)] match nothing: they are appended
    to the open run of inserted bytes, or open one. *)
Definition emit_unmatch (o : out) (inputPos length : Z) : out :=
  if flag o =? 2 then
    {| deltaBuf := write (deltaBuf o) (deltaLen o) (slice newBuf inputPos length);
       deltaLen := u32 (deltaLen o + length);
       record1 := record1 o;
       record2 := set_length (record2 o) (u32 (get_length (record2 o) + length));
       flag := flag o |}
  else
    let r2 := set_length (record2 o) length in
    let b1 := write (deltaBuf o) (deltaLen o) (unit2_bytes r2) in
    let d1 := u32 (deltaLen o + sizeof_unit2) in
    {| deltaBuf := write b1 d1 (slice newBuf inputPos length);
       deltaLen := u32 (d1 + length);
       record1 := record1 o; record2 := r2; flag := 2 |}.

(** The header of the open run is overwritten with its final length. *)
Definition close_run (o : out) : out :=
  if flag o =? 2 then
    {| deltaBuf := write (deltaBuf o)
         (u32 (u32 (deltaLen o - get_length (record2 o)) - sizeof_unit2))
         (unit2_bytes (record2 o));
       deltaLen := deltaLen o; record1 := record1 o; record2 := record2 o;
       flag := flag o |}
  else o.

(** *** A match *)

(** [while (k + 1 <= nOffset && k + 1 <= get_length(&record2))], backwards. *)
Fixpoint backward (fuel : nat) (off len2 pos k : Z) : Z :=
  match fuel with
  | O => k
  | S fuel =>
    if (u32 (k + 1) <=? off) && (u32 (k + 1) <=? len2) then
      if rd baseBuf (u32 (off - u32 (k + 1))) =? rd newBuf (u32 (pos - u32 (k + 1)))
      then backward fuel off len2 pos (u32 (k + 1)) else k
    else k
  end.

(** [j], the bytes after the match that are equal too. *)
Definition forward (off length cursor_input : Z) : Z :=
  let b j := u32 (u32 (off + length) + j) in
  let n j := u32 (cursor_input + j) in
  let blim := u32 (baseSize - endSize) in
  let nlim := u32 (newSize - endSize) in
  let j := extend fuel 8 b n blim nlim (fun j => same8 (b j) (n j)) 0 in
  extend fuel 1 b n blim nlim (fun j => same1 (b j) (n j)) j.

(** Takes back [k] bytes of the open run, or the whole run. *)
Definition retract (o : out) (k : Z) : out :=
  if 0 <? k then
    let d := u32 (u32 (deltaLen o - get_length (record2 o)) - sizeof_unit2) in
    let r2 := set_length (record2 o) (u32 (get_length (record2 o) - k)) in
    if 0 <? get_length r2 then
      {| deltaBuf := write (deltaBuf o) d (unit2_bytes r2);
         deltaLen := u32 (u32 (d + sizeof_unit2) + get_length r2);
         record1 := record1 o; record2 := r2; flag := flag o |}
    else
      {| deltaBuf := deltaBuf o; deltaLen := d; record1 := record1 o;
         record2 := r2; flag := flag o |}
  else o.

(** The block labelled [match], its condition true: the writer, [cursor_input] and
    [cursor_base] after it. *)
Definition do_match (o : out) (d : DeltaRecord) (inputPos cursor_input cursor_base length : Z)
  : out * Z * Z :=
  let o := close_run o in
  let j := forward (nOffset d) length cursor_input in
  let cursor_input := u32 (cursor_input + j) in
  let reach := u32 (u32 (nOffset d + length) + j) in
  let cursor_base := if cursor_base <? reach then reach else cursor_base in
  let fl := set_length (u1_flag_length (record1 o)) (u32 (cursor_input - inputPos)) in
  let k := if flag o =? 2
           then backward (S (Z.to_nat (nOffset d))) (nOffset d) (get_length (record2 o)) inputPos 0
           else 0 in
  let o := retract o k in
  let r1 := if 0 <? k
            then mk_unit1 (set_length fl (u32 (get_length fl + k))) (u32 (nOffset d - k))
            else mk_unit1 fl (nOffset d) in
  (set_out_flag (put_unit1 o r1) 1, cursor_input, cursor_base).

(** [length == psDupSubCnk->nLength && memcmp(...) == 0] *)
Definition is_match (d : DeltaRecord) (inputPos length : Z) : bool :=
  (length =? nLength d) &&
  bool_decide (slice newBuf inputPos length = slice baseBuf (nOffset d) length).

(** From the label [match] or [handle_hash_error] to the end of the iteration,
    where [inputPos = cursor_input]. *)
Definition finish (s : enc) (d : option DeltaRecord) (o : out) (pos cur length : Z)
    (probe : option bool) : enc :=
  let '(o, cur, cb) :=
    match d with
    | Some d => if is_match d pos length then do_match o d pos cur (cursor_base s) length
                else (emit_unmatch o pos length, cur, cursor_base s)
    | None => (emit_unmatch o pos length, cur, cursor_base s)
    end in
  {| e_out := o; inputPos := cur; cursor_input := cur; cursor_base := cb;
     BaseLink := BaseLink s; psHTable := psHTable s; flag_chunk := flag_chunk s;
     flag_handle_probe := probe; probe_match := probe_match s;
     InputLink := InputLink s; psDupSubCnk := d |}.

(** *** Chunking the base and probing the input *)

(** The records of a step go into the table, up to the first empty one, which
    means that the base is exhausted ([flag_chunk = 0]). *)
Fixpoint insert_base (recs : list DeltaRecord) (cursor_base : Z) (t : htable DeltaRecord)
  : result (list DeltaRecord * htable DeltaRecord * bool) :=
  match recs with
  | [] => Ok ([], t, true)
  | r :: recs' =>
    if nLength r =? 0 then Ok (recs, t, false)
    else
      let r := {| nHash := nHash r; nOffset := u32 (nOffset r + cursor_base);
                  nLength := nLength r; DupFlag := DupFlag r |} in
      t <-- insert t (nHash r) r ;;
      x <-- insert_base recs' cursor_base t ;;
      let '(recs', t, fc) := x in Ok (r :: recs', t, fc)
  end.

(** The [INPUT_TRY] chunks of the input, from [j] on, until one is in the table:
    the loop of the first step. *)
Fixpoint input_try (k : nat) (j cursor_input1 : Z) (t : htable DeltaRecord)
    (links : list (option (Z * Z))) : list (option (Z * Z)) * option (Z * DeltaRecord) :=
  match k with
  | O => (links, None)
  | S k =>
    let cursor_input2 := cursor_input1 in
    let cursor_input1 := u32 (chunk_gear (drop (Z.to_nat cursor_input2) newBuf)
                                (u32 (u32 (newSize - cursor_input2) - endSize)) + cursor_input2) in
    let len := u32 (cursor_input1 - cursor_input2) in
    let hash := weakHash (slice newBuf cursor_input2 len) in
    let links := <[Z.to_nat j := Some (len, hash)]> links in
    match lookup t hash with
    | Some d => (links, Some (j, d))
    | None => input_try k (j + 1) cursor_input1 t links
    end
  end.

(** The same chunks looked up again, in the later steps. *)
Fixpoint retry (k : nat) (j : Z) (t : htable DeltaRecord) (links : list (option (Z * Z)))
  : result (option (Z * DeltaRecord)) :=
  match k with
  | O => Ok None
  | S k =>
    match links !! Z.to_nat j with
    | Some (Some (_, hash)) =>
      match lookup t hash with
      | Some d => Ok (Some (j, d))
      | None => retry k (j + 1) t links
      end
    | _ => Err Undefined
    end
  end.

Fixpoint base_steps (k : nat) (i chunk_number : Z) (s : enc) : result enc :=
  match k with
  | O => Ok s
  | S k =>
    x <-- Chunking_v3 (drop (Z.to_nat (cursor_base s)) baseBuf)
            (u32 (u32 (baseSize - endSize) - cursor_base s)) (Z.to_nat chunk_number) ;;
    let '(recs, numBytes) := x in
    y <-- insert_base recs (cursor_base s) (psHTable s) ;;
    let '(recs, t, more) := y in
    z <-- (if i =? 0 then Ok (input_try INPUT_TRY 0 (cursor_input s) t (InputLink s))
           else m <-- retry INPUT_TRY 0 t (InputLink s) ;; Ok (InputLink s, m)) ;;
    let '(links, m) := z in
    let s := {| e_out := e_out s; inputPos := inputPos s; cursor_input := cursor_input s;
                cursor_base := u32 (cursor_base s + numBytes);
                BaseLink := BaseLink s ++ recs; psHTable := t;
                flag_chunk := flag_chunk s && more;
                flag_handle_probe := flag_handle_probe s;
                probe_match := match m with Some (j, _) => j | None => probe_match s end;
                InputLink := links;
                psDupSubCnk := match m with Some (_, d) => Some d | None => None end |} in
    match m with
    | Some _ => Ok s
    | None => if flag_chunk s then base_steps k (i + 1) (chunk_number * BASE_EXPAND) s
              else Ok s
    end
  end.

Definition chunk_base (s : enc) : result enc :=
  if flag_chunk s && base_due (cursor_input s) newSize (cursor_base s) baseSize then
    base_steps BASE_STEP 0 BASE_BEGIN
      {| e_out := e_out s; inputPos := inputPos s; cursor_input := cursor_input s;
         cursor_base := cursor_base s; BaseLink := BaseLink s; psHTable := psHTable s;
         flag_chunk := flag_chunk s; flag_handle_probe := Some true;
         probe_match := Z.of_nat INPUT_TRY; InputLink := InputLink s;
         psDupSubCnk := psDupSubCnk s |}
  else Ok s.

(** The probed chunks: [(o, inputPos, Some length)] when the chunk at [probe_match]
    is reached ([goto match]), [None] when all of them went out unmatched. *)
Fixpoint probe (k : nat) (i probe_match : Z) (links : list (option (Z * Z))) (o : out)
    (inputPos : Z) : result (out * Z * option Z) :=
  match k with
  | O => Ok (o, inputPos, None)
  | S k =>
    match links !! Z.to_nat i with
    | Some (Some (length, _)) =>
      if i =? probe_match then Ok (o, inputPos, Some length)
      else probe k (i + 1) probe_match links (emit_unmatch o inputPos length)
             (u32 (length + inputPos))
    | _ => Err Undefined
    end
  end.

(** *** The loop *)

(** From the end of the probing on: the next chunk of the input. *)
Definition next_chunk (s : enc) (o : out) (pos : Z) : enc :=
  let cur := u32 (chunk_gear (drop (Z.to_nat pos) newBuf) (u32 (u32 (newSize - pos) - endSize)) + pos) in
  let length := u32 (cur - pos) in
  let hash := weakHash (slice newBuf pos length) in
  finish s (lookup (psHTable s) hash) o pos cur length (Some false).

Definition step (s : enc) : result enc :=
  s <-- chunk_base s ;;
  match flag_handle_probe s with
  | None => Err Undefined
  | Some true =>
    x <-- probe INPUT_TRY 0 (probe_match s) (InputLink s) (e_out s) (inputPos s) ;;
    let '(o, pos, m) := x in
    match m with
    | Some length =>
      match psDupSubCnk s with
      | Some d => Ok (finish s (Some d) o pos (u32 (length + pos)) length (Some false))
      | None => Err Undefined
      end
    | None => Ok (next_chunk s o pos)
    end
  | Some false => Ok (next_chunk s (e_out s) (inputPos s))
  end.

Fixpoint loop (fuel : nat) (s : enc) : result enc :=
  if inputPos s <? u32 (newSize - endSize) then
    match fuel with
    | O => Err Fuel
    | S fuel => s <-- step s ;; loop fuel s
    end
  else Ok s.
End encode.

(** ** [EDeltaEncode] *)

(** The branch taken when the head and the tail cover the base.  [junk] is the
    content of the uninitialised [record1] and [record2]. *)
Definition encode_covered (newBuf : bytes) (newSize baseSize begSize endSize : Z)
    (deltaBuf0 : bytes) (junk : Z) : out :=
  let o := {| deltaBuf := deltaBuf0; deltaLen := 0; record1 := mk_unit1 junk junk;
              record2 := junk; flag := 0 |} in
  let o := if 0 <? begSize then
      put_unit1 o (mk_unit1 (set_length (set_flag (u1_flag_length (record1 o)) 0) begSize) 0)
    else o in
  let n := u32 (u32 (newSize - begSize) - endSize) in
  let o := if 0 <? n then
      let r2 := set_length (set_flag (record2 o) 1) n in
      let b := write (deltaBuf o) (deltaLen o) (unit2_bytes r2) in
      let d := u32 (deltaLen o + sizeof_unit2) in
      {| deltaBuf := write b d (slice newBuf begSize (get_length r2));
         deltaLen := u32 (d + get_length r2); record1 := record1 o; record2 := r2;
         flag := flag o |}
    else o in
  if 0 <? endSize then
    put_unit1 o (mk_unit1 (set_length (set_flag (u1_flag_length (record1 o)) 0) endSize)
                   (u32 (baseSize - endSize)))
  else o.

Definition encode_start (deltaBuf0 : bytes) (table : htable DeltaRecord) (begSize : Z) : enc :=
  let o := {| deltaBuf := deltaBuf0; deltaLen := 0; record1 := mk_unit1 (set_flag 0 0) 0;
              record2 := set_flag 0 1; flag := 0 |} in
  {| e_out := if 0 <? begSize
              then set_out_flag (put_unit1 o (mk_unit1 (set_length (u1_flag_length (record1 o)) begSize) 0)) 1
              else o;
     inputPos := begSize; cursor_input := begSize; cursor_base := begSize;
     BaseLink := []; psHTable := SetOffset table 24; flag_chunk := true;
     flag_handle_probe := None; probe_match := 0;
     InputLink := replicate INPUT_TRY None; psDupSubCnk := None |}.

Definition encode_end (baseSize endSize : Z) (o : out) : out :=
  let o := close_run o in
  if 0 <? endSize then
    put_unit1 o (mk_unit1 (set_length (u1_flag_length (record1 o)) endSize) (u32 (baseSize - endSize)))
  else o.

(** The delta buffer, [*deltaSize] and the table that the next call finds.
    [deltaBuf0] is what the buffer held. *)
Definition EDeltaEncode (newBuf : bytes) (newSize : Z) (baseBuf : bytes) (baseSize : Z)
    (deltaBuf0 : bytes) (table : htable DeltaRecord) (junk : Z)
  : result (bytes * Z * htable DeltaRecord) :=
  let begSize := head_scan newBuf newSize baseBuf baseSize in
  let endSize := tail_scan newBuf newSize baseBuf baseSize begSize in
  if baseSize <=? u32 (begSize + endSize) then
    let o := encode_covered newBuf newSize baseSize begSize endSize deltaBuf0 junk in
    Ok (deltaBuf o, deltaLen o, table)
  else
    s <-- loop newBuf newSize baseBuf baseSize endSize (Z.to_nat newSize)
            (encode_start deltaBuf0 table begSize) ;;
    let o := encode_end baseSize endSize (e_out s) in
    Ok (deltaBuf o, deltaLen o, ResetTable (psHTable s)).

(** ** [EDeltaDecode] *)

(** A read outside [deltaBuf] or [baseBuf] is undefined behaviour.  [outBuf] grows
    as it is written. *)
Definition in_buf (l : bytes) (off n : Z) : bool := off + n <=? blen l.

Fixpoint decode_loop (fuel : nat) (deltaBuf : bytes) (deltaSize : Z) (baseBuf outBuf : bytes)
    (dataLength readLength : Z) : result (bytes * Z) :=
  match fuel with
  | O => Err Fuel
  | S fuel =>
    if negb (in_buf deltaBuf readLength 4) then Err Undefined else
    let fl := rd32 deltaBuf readLength in
    x <-- (if get_flag fl =? 0 then
             if negb (in_buf deltaBuf readLength sizeof_unit1) then Err Undefined else
             let record := mk_unit1 fl (rd32 deltaBuf (readLength + 4)) in
             let readLength := u32 (readLength + sizeof_unit1) in
             let n := get_length (u1_flag_length record) in
             if negb (in_buf baseBuf (u1_nOffset record) n) then Err Undefined else
             Ok (write outBuf dataLength (slice baseBuf (u1_nOffset record) n),
                 u32 (dataLength + n), readLength)
           else
             let readLength := u32 (readLength + sizeof_unit2) in
             let n := get_length fl in
             if negb (in_buf deltaBuf readLength n) then Err Undefined else
             Ok (write outBuf dataLength (slice deltaBuf readLength n),
                 u32 (dataLength + n), u32 (readLength + n))) ;;
    let '(outBuf, dataLength, readLength) := x in
    if deltaSize <=? readLength then Ok (outBuf, dataLength)
    else decode_loop fuel deltaBuf deltaSize baseBuf outBuf dataLength readLength
  end.

(** The output buffer and [*outSize]. *)
Definition EDeltaDecode (deltaBuf : bytes) (deltaSize : Z) (baseBuf outBuf0 : bytes)
  : result (bytes * Z) :=
  decode_loop (S (Z.to_nat deltaSize)) deltaBuf deltaSize baseBuf outBuf0 0 0.
