(* ===== verification/EDeltaFormat.v ===== *)
(** The delta format: an abstract syntax of edit scripts, its encoding, and what
    [EDeltaDecode] makes of an encoded script. *)
From Stdlib Require Import ZArith Lia.
From stdpp Require Import base list.
From S2P Require Import Prelude EDelta.

(** ** The header word *)

Definition FLAG : Z := 2 ^ 31.

Lemma flag_mask : u32 (Z.shiftl 1 31) = FLAG.
Proof. reflexivity. Qed.
Lemma length_mask : Z.shiftr (u32 (Z.lnot 0)) 1 = Z.ones 31.
Proof. reflexivity. Qed.

Lemma get_length_mod w : get_length w = w mod 2 ^ 31.
Proof. unfold get_length. rewrite length_mask. apply Z.land_ones. lia. Qed.

Lemma land_flag w : 0 <= w -> Z.land w FLAG = 0 \/ Z.land w FLAG = FLAG.
Proof.
  intros. unfold FLAG. destruct (Z.testbit w 31) eqn:E; [right|left];
    apply Z.bits_inj'; intros n Hn; rewrite Z.land_spec, ?Z.pow2_bits_eqb, ?Z.bits_0 by lia;
    destruct (31 =? n) eqn:F; boolz; subst; rewrite ?E; auto using andb_false_r.
Qed.

(** [set_length] keeps the flag and stores the length. *)
Lemma set_length_copy w n : 0 <= n < 2 ^ 31 -> get_flag w = 0 -> set_length w n = n.
Proof. unfold get_flag, set_length. rewrite flag_mask. intros ? ->. apply Z.lor_0_r. Qed.

Lemma get_flag_copy n : 0 <= n < 2 ^ 31 -> get_flag n = 0.
Proof.
  intros. unfold get_flag. rewrite flag_mask.
  destruct (land_flag n ltac:(lia)) as [E|E]; [done|].
  apply (f_equal (fun z => Z.testbit z 31)) in E. rewrite Z.land_spec in E.
  change (Z.testbit FLAG 31) with true in E. rewrite andb_true_r in E.
  rewrite Z.bits_above_log2 in E; [done|lia|].
  destruct (Z.eq_dec n 0) as [->|]; [done|apply Z.log2_lt_pow2; lia].
Qed.
Lemma lor_flag n : 0 <= n < 2 ^ 31 -> Z.lor n FLAG = FLAG + n.
Proof.
  intros. pose proof (get_flag_copy n H) as E. unfold get_flag in E. rewrite flag_mask in E.
  pose proof (Z.add_lor_land n FLAG). lia.
Qed.

Lemma set_length_insert w n : 0 <= n < 2 ^ 31 -> get_flag w = FLAG -> set_length w n = FLAG + n.
Proof. unfold get_flag, set_length. rewrite flag_mask. intros ? ->. by apply lor_flag. Qed.

Lemma get_length_copy n : 0 <= n < 2 ^ 31 -> get_length n = n.
Proof. intros. rewrite get_length_mod. by apply Z.mod_small. Qed.
Lemma get_length_insert n : 0 <= n < 2 ^ 31 -> get_length (FLAG + n) = n.
Proof.
  intros. rewrite get_length_mod. unfold FLAG.
  replace (2 ^ 31 + n) with (n + 1 * 2 ^ 31) by lia. rewrite Z.mod_add by lia. by apply Z.mod_small.
Qed.
Lemma get_flag_insert n : 0 <= n < 2 ^ 31 -> get_flag (FLAG + n) = FLAG.
Proof.
  intros. rewrite <- lor_flag by done. unfold get_flag. rewrite flag_mask, Z.land_lor_distr_l, Z.land_diag.
  pose proof (get_flag_copy n H) as E. unfold get_flag in E. rewrite flag_mask in E. by rewrite E.
Qed.
Lemma set_flag_copy w : get_flag (set_flag w 0) = 0.
Proof.
  cbn [Z.eqb set_flag]. unfold get_flag. rewrite flag_mask.
  change (Z.shiftr (u32 (Z.lnot 0)) 1) with (Z.ones 31). rewrite <- Z.land_assoc.
  change (Z.land (Z.ones 31) FLAG) with 0. apply Z.land_0_r.
Qed.
Lemma set_flag_insert w f : f <> 0 -> get_flag (set_flag w f) = FLAG.
Proof.
  intros. unfold set_flag, get_flag. rewrite (proj2 (Z.eqb_neq f 0)) by done. rewrite flag_mask.
  rewrite Z.land_lor_distr_l, Z.land_diag, Z.lor_comm. apply Z.bits_inj'. intros n Hn.
  rewrite Z.lor_spec, Z.land_spec. destruct (Z.testbit FLAG n), (Z.testbit w n); done.
Qed.

(** ** Edit scripts *)

(** [Copy off len] takes bytes of the base, [Insert d] brings its own. *)
Inductive op := Copy (off len : Z) | Insert (d : bytes).

Definition enc_op (o : op) : bytes :=
  match o with
  | Copy off len => unit1_bytes (mk_unit1 len off)
  | Insert d => unit2_bytes (FLAG + blen d) ++ d
  end.
Definition encs (ops : list op) : bytes := concat (map enc_op ops).

Definition apply_op (base : bytes) (o : op) : bytes :=
  match o with
  | Copy off len => slice base off len
  | Insert d => d
  end.
Definition apply_ops (base : bytes) (ops : list op) : bytes := concat (map (apply_op base) ops).

Definition op_ok (base : bytes) (o : op) : Prop :=
  match o with
  | Copy off len => 0 <= off < 2 ^ 32 /\ 0 <= len < 2 ^ 31 /\ off + len <= blen base
  | Insert d => blen d < 2 ^ 31
  end.

Lemma encs_app a b : encs (a ++ b) = encs a ++ encs b.
Proof. unfold encs. by rewrite map_app, concat_app. Qed.
Lemma encs_one o : encs [o] = enc_op o.
Proof. unfold encs. cbn. apply app_nil_r. Qed.
Lemma apply_ops_app base a b : apply_ops base (a ++ b) = apply_ops base a ++ apply_ops base b.
Proof. unfold apply_ops. by rewrite map_app, concat_app. Qed.
Lemma apply_ops_one base o : apply_ops base [o] = apply_op base o.
Proof. unfold apply_ops. cbn. apply app_nil_r. Qed.

Lemma blen_unit1 r : blen (unit1_bytes r) = 8.
Proof. unfold unit1_bytes. by rewrite blen_app, !blen_le_bytes. Qed.
Lemma blen_unit2 r : blen (unit2_bytes r) = 4.
Proof. unfold unit2_bytes. by rewrite blen_le_bytes. Qed.
#[export] Hint Rewrite blen_unit1 blen_unit2 : bytes.

(** ** Reading back *)

Lemma rd32_app pre z rest :
  0 <= z < 2 ^ 32 -> rd32 (pre ++ le_bytes 4 z ++ rest) (blen pre) = z.
Proof.
  intros. unfold rd32. replace 4 with (blen (le_bytes 4 z)) by apply blen_le_bytes.
  rewrite slice_app_exact. apply le_val_le_bytes. apply H.
Qed.

Lemma in_buf_app (pre d rest : bytes) n :
  n = blen pre -> in_buf (pre ++ d ++ rest) n (blen d) = true.
Proof. intros ->. apply Z.leb_le. rewrite !blen_app. pose proof (blen_nonneg rest). lia. Qed.

(** One turn of the decoder on an encoded operation. *)
Lemma decode_loop_op fuel pre o rest base out n size :
  op_ok base o -> blen (pre ++ enc_op o) < 2 ^ 31 -> 0 <= n -> n + blen (apply_op base o) < 2 ^ 32 ->
  decode_loop (S fuel) (pre ++ enc_op o ++ rest) size base out n (blen pre) =
  let out := write out n (apply_op base o) in
  let n := n + blen (apply_op base o) in
  let r := blen (pre ++ enc_op o) in
  if size <=? r then Ok (out, n)
  else decode_loop fuel (pre ++ enc_op o ++ rest) size base out n r.
Proof.
  intros Hop Hr Hn Hn'. cbn zeta. rewrite blen_app in Hr |- *.
  pose proof (blen_nonneg pre). cbn [decode_loop].
  destruct o as [off len|d]; cbn [enc_op op_ok apply_op] in *.
  - destruct Hop as (Ho & Hl & Hb). unfold unit1_bytes in *. cbn [u1_flag_length u1_nOffset] in *.
    rewrite blen_slice in Hn' by lia. rewrite blen_app, !blen_le_bytes in Hr.
    rewrite <- !app_assoc.
    rewrite rd32_app by lia.
    replace (in_buf (pre ++ le_bytes 4 len ++ le_bytes 4 off ++ rest) (blen pre) 4) with true
      by (symmetry; apply (in_buf_app pre (le_bytes 4 len)); done).
    rewrite get_flag_copy by done. cbn [Z.eqb negb].
    replace (in_buf (pre ++ le_bytes 4 len ++ le_bytes 4 off ++ rest) (blen pre) sizeof_unit1) with true.
    2: { symmetry. rewrite (app_assoc (le_bytes 4 len)).
         apply (in_buf_app pre (le_bytes 4 len ++ le_bytes 4 off)); done. }
    replace (rd32 (pre ++ le_bytes 4 len ++ le_bytes 4 off ++ rest) (blen pre + 4)) with off.
    2: { rewrite app_assoc. symmetry. replace (blen pre + 4) with (blen (pre ++ le_bytes 4 len)).
         - by apply rd32_app.
         - by rewrite blen_app, blen_le_bytes. }
    cbn [negb]. rewrite get_length_copy by done.
    unfold in_buf at 1. rewrite (proj2 (Z.leb_le _ _)) by lia. cbn [negb rbind].
    unfold sizeof_unit1. rewrite blen_app, !blen_le_bytes, blen_slice by lia. unwrap. done.
  - unfold unit2_bytes in *. rewrite blen_app, blen_le_bytes in Hr |- *.
    rewrite <- !app_assoc. pose proof (blen_nonneg d).
    rewrite rd32_app by (unfold FLAG; lia).
    replace (in_buf (pre ++ le_bytes 4 (FLAG + blen d) ++ d ++ rest) (blen pre) 4) with true
      by (symmetry; apply (in_buf_app pre (le_bytes 4 (FLAG + blen d))); done).
    rewrite get_flag_insert, get_length_insert by lia. cbn [negb Z.eqb FLAG].
    change (FLAG =? 0) with false. cbn [negb].
    unfold sizeof_unit2. rewrite (u32_id (blen pre + 4)) by lia. rewrite app_assoc.
    replace (blen pre + 4) with (blen (pre ++ le_bytes 4 (FLAG + blen d)))
      by (by rewrite blen_app, blen_le_bytes).
    rewrite in_buf_app by done. cbn [negb rbind]. rewrite slice_app_exact, blen_app, blen_le_bytes.
    rewrite <- app_assoc. unwrap. by rewrite Z.add_assoc.
Qed.

Lemma blen_enc_op o : 4 <= blen (enc_op o).
Proof.
  destruct o; cbn [enc_op]; rewrite ?blen_app; autorewrite with bytes; [lia|].
  pose proof (blen_nonneg d). lia.
Qed.
Lemma length_ops_encs ops : 4 * blen ops <= blen (encs ops).
Proof.
  induction ops as [|o ops IH]; [by cbn|]. change (encs (o :: ops)) with (enc_op o ++ encs ops).
  rewrite blen_cons, blen_app. pose proof (blen_enc_op o). lia.
Qed.

(** The decoder runs a script from any position on. *)
Lemma decode_loop_ops base ops : forall fuel pre rest out n size,
  ops <> [] -> Forall (op_ok base) ops -> (length ops <= fuel)%nat ->
  size = blen (pre ++ encs ops) -> size < 2 ^ 31 ->
  0 <= n <= blen out -> n + blen (apply_ops base ops) < 2 ^ 32 ->
  exists out',
    decode_loop fuel (pre ++ encs ops ++ rest) size base out n (blen pre) =
      Ok (out', n + blen (apply_ops base ops)) /\
    take (Z.to_nat (n + blen (apply_ops base ops))) out' =
      take (Z.to_nat n) out ++ apply_ops base ops /\
    blen out' = Z.max (blen out) (n + blen (apply_ops base ops)).
Proof.
  induction ops as [|o ops IH]; intros fuel pre rest out n size Hne Hok Hf -> Hs Hn Hn'; [done|].
  apply Forall_cons in Hok as [Ho Hok]. destruct fuel as [|fuel]; [cbn in Hf; lia|].
  change (encs (o :: ops)) with (enc_op o ++ encs ops) in *.
  change (apply_ops base (o :: ops)) with (apply_op base o ++ apply_ops base ops) in *.
  rewrite !blen_app in *. pose proof (blen_nonneg (encs ops)). pose proof (blen_nonneg (apply_ops base ops)).
  pose proof (blen_nonneg (apply_op base o)). rewrite <- app_assoc.
  rewrite decode_loop_op by (rewrite ?blen_app; done || lia). cbn zeta.
  rewrite blen_app. pose proof (length_ops_encs ops) as L.
  pose proof (take_write out (apply_op base o) n ltac:(lia)) as T.
  destruct ops as [|o' ops].
  - replace (encs []) with (@nil Z) by done. rewrite blen_nil.
    rewrite (proj2 (Z.leb_le _ _)) by lia.
    exists (write out n (apply_op base o)). change (apply_ops base []) with (@nil Z).
    rewrite blen_nil, app_nil_r, Z.add_0_r. rewrite blen_write_grow by lia. auto.
  - rewrite (proj2 (Z.leb_gt _ _)) by (rewrite blen_cons in L; pose proof (blen_nonneg ops); lia).
    replace (pre ++ enc_op o ++ encs (o' :: ops) ++ rest)
      with ((pre ++ enc_op o) ++ encs (o' :: ops) ++ rest) by (by rewrite <- app_assoc).
    destruct (IH fuel (pre ++ enc_op o) rest (write out n (apply_op base o))
                (n + blen (apply_op base o)) (blen pre + (blen (enc_op o) + blen (encs (o' :: ops)))))
      as (out' & E & T' & B'); try done; rewrite ?blen_app; try lia.
    + cbn in Hf |- *. lia.
    + rewrite blen_write_grow by lia. lia.
    + exists out'. rewrite (blen_app pre) in E. rewrite E, !Z.add_assoc. split; [done|].
      rewrite T', T, B', blen_write_grow by lia. rewrite app_assoc. split; [done|lia].
Qed.

(** A delta that is an encoded script decodes to what the script means. *)
Lemma decode_encs base ops delta size out0 :
  ops <> [] -> Forall (op_ok base) ops -> size < 2 ^ 31 ->
  0 <= size <= blen delta -> take (Z.to_nat size) delta = encs ops ->
  blen (apply_ops base ops) < 2 ^ 32 ->
  exists out, EDeltaDecode delta size base out0 = Ok (out, blen (apply_ops base ops)) /\
              take (Z.to_nat (blen (apply_ops base ops))) out = apply_ops base ops /\
              blen out = Z.max (blen out0) (blen (apply_ops base ops)).
Proof.
  intros Hne Hok Hs Hd He Ha. unfold EDeltaDecode.
  assert (Es : size = blen (encs ops)) by (rewrite <- He, blen_take; lia).
  rewrite <- (take_drop (Z.to_nat size) delta), He.
  destruct (decode_loop_ops base ops (S (Z.to_nat size)) [] (drop (Z.to_nat size) delta) out0 0 size)
    as (out & E & T & B); try done; try lia.
  - pose proof (length_ops_encs ops). unfold blen in *. lia.
  - split; [lia|apply blen_nonneg].
  - exists out. change (blen []) with 0 in E. rewrite !Z.add_0_l in *. split; [exact E|]. split; [exact T|exact B].
Qed.

(** ** Termination *)

(** The decoder ends on any buffer: each turn reads at least four bytes. *)
Lemma decode_loop_no_fuel fuel delta size base out n r :
  blen delta < 2 ^ 31 -> 0 <= r -> size - r <= 4 * Z.of_nat fuel -> (0 < fuel)%nat ->
  decode_loop fuel delta size base out n r <> Err Fuel.
Proof.
  intros Hd. revert out n r. induction fuel as [|fuel IH]; intros out n r Hr Hf Hp; [lia|].
  cbn [decode_loop].
  assert (G : forall (c : bool) (x : bytes * Z * Z),
    r + 4 <= snd x ->
    match (if c then @Err (bytes * Z * Z) Undefined else Ok x) with
    | Ok (out, n, r') => if size <=? r' then Ok (out, n) else decode_loop fuel delta size base out n r'
    | Err e => Err e
    end <> Err Fuel).
  { intros [] [[out' n'] r'] H; cbn in *; [done|]. case_if; [done|]. apply IH; lia. }
  unfold in_buf, sizeof_unit1, sizeof_unit2 in *.
  case_if; [done|]. pose proof (get_length_mod (rd32 delta r)).
  pose proof (Z.mod_pos_bound (rd32 delta r) (2 ^ 31) ltac:(lia)).
  case_if.
  - destruct (negb (r + 8 <=? blen delta)) eqn:E8; [done|]. boolz.
    refine (G _ (_, _, u32 (r + 8)) _). cbn [snd]. rewrite u32_id; lia.
  - rewrite (u32_id (r + 4)) by lia.
    destruct (negb (r + 4 + get_length (rd32 delta r) <=? blen delta)) eqn:E8; [done|]. boolz.
    refine (G false (_, _, u32 (r + 4 + get_length (rd32 delta r))) _). cbn [snd]. rewrite u32_id; lia.
Qed.
