(* ===== verification/EDeltaEnc.v ===== *)
(** The encoder: what its scans find, the invariant of its loop, and that the delta
    it writes is the encoding of an edit script from the base to the input. *)
From Stdlib Require Import ZArith Lia.
From stdpp Require Import base list.
From S2P Require Import Prelude Gear HTable EDelta EDeltaFormat.

(** The largest chunk is 16 KiB ([MAX_CHUNK_SIZE]); the bound here is 1 MiB. *)
Definition size_max : Z := 2 ^ 20.

Section enc.
Context (newBuf : bytes) (newSize : Z) (baseBuf : bytes) (baseSize : Z).
Context (Hnew : bytes_ok newBuf) (Hbase : bytes_ok baseBuf).
Context (Hns : 0 < newSize <= size_max) (Hbs : 0 <= baseSize <= size_max).
Context (Hnl : newSize <= blen newBuf) (Hbl : baseSize <= blen baseBuf).

Ltac sizes := unfold size_max in *; try lia.

(** ** Scans *)

(** [k] bytes are the same at [b] in the base and at [n] in the input. *)
Definition agree (b n k : Z) : Prop := slice baseBuf b k = slice newBuf n k.

Lemma agree_app b n k w :
  0 <= b -> 0 <= n -> 0 <= k -> 0 <= w ->
  agree b n k -> agree (b + k) (n + k) w -> agree b n (k + w).
Proof. unfold agree. intros. rewrite <- !slice_app_slice by done. congruence. Qed.

Lemma same8_agree b n :
  0 <= b -> 0 <= n -> b + 8 <= baseSize -> n + 8 <= newSize ->
  same8 newBuf baseBuf b n = true -> agree b n 8.
Proof.
  unfold same8, agree, rd64. intros. boolz.
  apply le_val_inj; [by apply slice_bytes_ok..| |done].
  pose proof (blen_slice baseBuf b 8). pose proof (blen_slice newBuf n 8). unfold blen in *. lia.
Qed.
Lemma same1_agree b n :
  0 <= b -> 0 <= n -> b + 1 <= baseSize -> n + 1 <= newSize ->
  same1 newBuf baseBuf b n = true -> agree b n 1.
Proof. unfold same1, agree. intros. boolz. rewrite !slice_1 by lia. congruence. Qed.

Lemma extend_ind (P : Z -> Prop) fuel w bc nc blim nlim same s :
  P s ->
  (forall t, P t -> u32 (bc t + (w - 1)) < blim -> u32 (nc t + (w - 1)) < nlim -> same t = true ->
             P (u32 (t + w))) ->
  P (extend fuel w bc nc blim nlim same s).
Proof.
  intros Hs Hstep. revert s Hs. induction fuel as [|fuel IH]; intros s Hs; [done|].
  cbn [extend]. case_if; [|done]. case_if; [|done]. apply IH, Hstep; done || lia.
Qed.

(** The common head. *)
Definition head_ok (s : Z) : Prop := 0 <= s <= newSize /\ s <= baseSize /\ agree 0 0 s.

Lemma head_step w same s :
  0 < w <= 8 -> (forall t, 0 <= t -> t + w <= baseSize -> t + w <= newSize -> same t = true -> agree t t w) ->
  head_ok s -> head_ok (extend (fuel newSize) w id id baseSize newSize same s).
Proof.
  intros Hw Hsame Hs. apply extend_ind; [done|]. unfold head_ok, id. intros t (? & ? & Ha) B N S.
  rewrite u32_id in B, N by sizes. rewrite u32_id by sizes. split; [lia|]. split; [lia|].
  apply agree_app; try lia; [done|]. apply Hsame; try lia. done.
Qed.

Lemma head_scan_ok : head_ok (head_scan newBuf newSize baseBuf baseSize).
Proof.
  unfold head_scan. cbn zeta.
  assert (Z0 : head_ok 0) by (unfold head_ok, agree; rewrite !slice_nil_len; lia || auto with lia).
  case_if; [|done].
  apply head_step; [lia|intros; by apply same1_agree|].
  apply head_step; [lia|intros; by apply same8_agree|done].
Qed.

(** The common tail. *)
Definition tail_ok (s : Z) : Prop :=
  0 <= s <= newSize /\ s <= baseSize /\ agree (baseSize - s) (newSize - s) s.

Lemma tail_step w same s :
  0 < w <= 8 ->
  (forall t, 0 <= t -> t + w <= baseSize -> t + w <= newSize -> same t = true ->
             agree (baseSize - t - w) (newSize - t - w) w) ->
  tail_ok s -> tail_ok (extend (fuel newSize) w id id baseSize newSize same s).
Proof.
  intros Hw Hsame Hs. apply extend_ind; [done|]. unfold tail_ok, id. intros t (? & ? & Ha) B N S.
  rewrite u32_id in B, N by sizes. rewrite u32_id by sizes. split; [lia|]. split; [lia|].
  replace (t + w) with (w + t) by lia. apply agree_app; try lia.
  - replace (baseSize - (w + t)) with (baseSize - t - w) by lia.
    replace (newSize - (w + t)) with (newSize - t - w) by lia. by apply Hsame; try lia.
  - replace (baseSize - (w + t) + w) with (baseSize - t) by lia.
    by replace (newSize - (w + t) + w) with (newSize - t) by lia.
Qed.

Lemma tail_ok_le s s' : tail_ok s -> 0 <= s' <= s -> tail_ok s'.
Proof.
  intros (? & ? & Ha) ?. split; [lia|]. split; [lia|]. unfold agree in *.
  replace (baseSize - s') with (baseSize - s + (s - s')) by lia.
  replace (newSize - s') with (newSize - s + (s - s')) by lia.
  rewrite <- (slice_slice baseBuf _ s), <- (slice_slice newBuf _ s) by lia. by rewrite Ha.
Qed.

Lemma tail_scan_ok begSize :
  0 <= begSize <= newSize ->
  tail_ok (tail_scan newBuf newSize baseBuf baseSize begSize) /\
  begSize + tail_scan newBuf newSize baseBuf baseSize begSize <= newSize.
Proof.
  intros Hbeg. unfold tail_scan. cbn zeta.
  assert (Z0 : tail_ok 0) by (unfold tail_ok, agree; rewrite !slice_nil_len; lia || auto with lia).
  set (s := extend _ 1 _ _ _ _ _ _).
  assert (Hs : tail_ok s).
  { apply tail_step; [lia| |].
    - intros t Ht ? ?. rewrite !u32_id by sizes. apply same1_agree; lia.
    - apply tail_step; [lia| |done].
      intros t Ht ? ?. rewrite !u32_id by sizes. apply same8_agree; lia. }
  destruct (Hs) as (? & ? & _). rewrite (u32_id (begSize + s)) by sizes.
  rewrite (u32_id (newSize - begSize)) by sizes.
  destruct (newSize <? begSize + s) eqn:E; boolz;
    case_if; (split; [|lia]); try done; eapply tail_ok_le; eauto; lia.
Qed.

(** ** The writer *)

(** What the buffer holds when [newBuf[0..pos)] has been encoded: a script, then,
    when [flag = 2], an open run of inserted bytes whose header is still stale. *)
Definition plain (o : out) (pos : Z) (ops : list op) : Prop :=
  take (Z.to_nat (deltaLen o)) (deltaBuf o) = encs ops /\
  apply_ops baseBuf ops = take (Z.to_nat pos) newBuf.
Definition open_run (o : out) (pos : Z) (ops : list op) (h d : bytes) : Prop :=
  blen h = 4 /\ record2 o = FLAG + blen d /\
  take (Z.to_nat (deltaLen o)) (deltaBuf o) = encs ops ++ h ++ d /\
  apply_ops baseBuf ops ++ d = take (Z.to_nat pos) newBuf.

Record regs (o : out) : Prop := {
  r_len : 0 <= deltaLen o <= blen (deltaBuf o);
  r_one : get_flag (u1_flag_length (record1 o)) = 0;
  r_two : get_flag (record2 o) = FLAG
}.

Definition written (o : out) (pos : Z) : Prop :=
  regs o /\
  exists ops, Forall (op_ok baseBuf) ops /\
    (flag o <> 2 /\ plain o pos ops \/ flag o = 2 /\ exists h d, open_run o pos ops h d).

(** The delta is never longer than what it encodes, the last header apart. *)
Definition room (o : out) (pos : Z) : Prop :=
  deltaLen o <= pos + (if flag o =? 2 then 4 else 0).

Lemma take_len_blen o n (l : bytes) :
  0 <= deltaLen o <= blen (deltaBuf o) -> take (Z.to_nat (deltaLen o)) (deltaBuf o) = l ->
  n = blen l -> deltaLen o = n.
Proof. intros H <- ->. symmetry. by apply blen_take. Qed.

Lemma emit_unmatch_ok o pos len :
  written o pos -> room o pos -> 0 <= len -> 0 <= pos -> pos + len <= newSize ->
  written (emit_unmatch newBuf o pos len) (pos + len) /\
  room (emit_unmatch newBuf o pos len) (pos + len) /\
  flag (emit_unmatch newBuf o pos len) = 2.
Proof.
  intros [R (ops & Hok & W)] Rm Hl Hp Hn. destruct R as [RL R1 R2]. unfold room in Rm.
  pose proof (blen_slice newBuf pos len ltac:(lia) ltac:(lia) ltac:(lia)) as B.
  unfold emit_unmatch. destruct (flag o =? 2) eqn:F; boolz.
  - destruct W as [[? _]|[_ (h & d & Hh & H2 & Ht & Ha)]]; [done|].
    pose proof (blen_nonneg d). pose proof (blen_nonneg (encs ops)).
    assert (Hd : blen d <= pos).
    { apply (f_equal blen) in Ha. rewrite blen_app, blen_take in Ha by lia.
      pose proof (blen_nonneg (apply_ops baseBuf ops)). lia. }
    assert (G : get_length (record2 o) = blen d) by (rewrite H2; apply get_length_insert; sizes).
    rewrite G, (u32_id (blen d + len)), set_length_insert by (done || sizes).
    rewrite (u32_id (deltaLen o + len)) by sizes.
    unfold written, room. cbn [flag deltaLen]. rewrite F. split; [|split; [cbn; lia|done]].
    split.
    { constructor; cbn; [rewrite blen_write_grow by lia; rewrite B; lia|done|].
      apply get_flag_insert; sizes. }
    exists ops. split; [done|]. right. split; [done|]. exists h, (d ++ slice newBuf pos len).
    unfold open_run. cbn. rewrite blen_app, B. split; [done|]. split; [done|]. split.
    + rewrite <- B at 1. rewrite take_write by lia. rewrite Ht. by rewrite <- !app_assoc.
    + rewrite app_assoc, Ha. apply take_app_slice; lia.
  - destruct W as [[_ [Ht Ha]]|[? _]]; [|done].
    rewrite set_length_insert by (done || sizes).
    unfold sizeof_unit2. rewrite (u32_id (deltaLen o + 4)), (u32_id (deltaLen o + 4 + len)) by sizes.
    pose proof (blen_unit2 (FLAG + len)) as B2.
    assert (L1 : blen (write (deltaBuf o) (deltaLen o) (unit2_bytes (FLAG + len))) >= deltaLen o + 4)
      by (rewrite blen_write_grow by lia; lia).
    unfold written, room. cbn [flag deltaLen]. split; [|split; [cbn; lia|done]].
    split.
    { constructor; cbn; [rewrite blen_write_grow by lia; rewrite B; lia|done|].
      apply get_flag_insert; sizes. }
    exists ops. split; [done|]. right. split; [done|].
    exists (unit2_bytes (FLAG + len)), (slice newBuf pos len).
    unfold open_run. cbn. rewrite B, B2. split; [done|]. split; [done|]. split.
    + rewrite <- B at 1. rewrite take_write by lia. rewrite <- B2. rewrite take_write by lia.
      rewrite Ht. by rewrite <- app_assoc.
    + rewrite Ha. apply take_app_slice; lia.
Qed.

Lemma open_run_len o pos ops h d :
  regs o -> open_run o pos ops h d -> 0 <= pos <= newSize ->
  deltaLen o = blen (encs ops) + 4 + blen d /\ blen d <= pos /\ blen d < 2 ^ 31 /\
  get_length (record2 o) = blen d.
Proof.
  intros [RL _ _] (Hh & H2 & Ht & Ha) Hp. pose proof (blen_nonneg d).
  assert (Hd : blen d <= pos).
  { apply (f_equal blen) in Ha. rewrite blen_app, blen_take in Ha by lia.
    pose proof (blen_nonneg (apply_ops baseBuf ops)). lia. }
  split; [|split; [done|split; [sizes|]]].
  - eapply take_len_blen; [done|exact Ht|rewrite !blen_app, Hh; lia].
  - rewrite H2. apply get_length_insert; sizes.
Qed.

(** [close_run] makes the script complete. *)
Lemma close_run_open_run o pos ops h d :
  regs o -> flag o = 2 -> open_run o pos ops h d -> 0 <= pos <= newSize -> deltaLen o <= 2 ^ 22 ->
  regs (close_run o) /\ deltaLen (close_run o) = deltaLen o /\
  record2 (close_run o) = record2 o /\ flag (close_run o) = flag o /\
  record1 (close_run o) = record1 o /\
  open_run (close_run o) pos ops (unit2_bytes (record2 o)) d.
Proof.
  intros R F W Hp Hm. destruct (open_run_len _ _ _ _ _ R W Hp) as (D & Hd & Hd' & G).
  destruct W as (Hh & H2 & Ht & Ha). destruct R as [RL R1 R2].
  pose proof (blen_nonneg d). pose proof (blen_nonneg (encs ops)).
  unfold close_run. rewrite F. cbn [Z.eqb Pos.eqb].
  rewrite G. unfold sizeof_unit2. rewrite (u32_id (deltaLen o - blen d)), u32_id by sizes.
  replace (deltaLen o - blen d - 4) with (blen (encs ops)) by lia.
  pose proof (blen_unit2 (record2 o)) as B2.
  split; [constructor; cbn; [rewrite blen_write by lia; lia|done|done]|].
  do 4 (split; [done|]).
  unfold open_run. cbn. split; [done|]. split; [done|]. split; [|done].
  replace (deltaLen o) with (blen (encs ops) + 4 + blen d).
  rewrite <- take_app_slice by lia.
  rewrite <- B2 at 1. rewrite take_write by lia.
  rewrite slice_write_after by lia.
  rewrite <- (take_drop (Z.to_nat (deltaLen o)) (deltaBuf o)), Ht.
  rewrite <- !app_assoc.
  replace (take (Z.to_nat (blen (encs ops))) (encs ops ++ h ++ d ++ drop (Z.to_nat (deltaLen o)) (deltaBuf o)))
    with (encs ops) by (unfold blen; rewrite Nat2Z.id; symmetry; by apply take_app_length').
  f_equal. f_equal. rewrite (app_assoc (encs ops)), (app_assoc (encs ops ++ h)), <- (app_assoc (encs ops ++ h)).
  replace (blen (encs ops) + 4) with (blen (encs ops ++ h)) by (rewrite blen_app; lia).
  apply slice_app_exact.
Qed.

Lemma close_run_ok o pos :
  written o pos -> 0 <= pos <= newSize -> deltaLen o <= 2 ^ 22 ->
  regs (close_run o) /\ deltaLen (close_run o) = deltaLen o /\
  record2 (close_run o) = record2 o /\ flag (close_run o) = flag o /\
  record1 (close_run o) = record1 o /\
  exists ops, Forall (op_ok baseBuf) ops /\
    (flag o <> 2 /\ plain (close_run o) pos ops \/
     flag o = 2 /\ exists d, open_run (close_run o) pos ops (unit2_bytes (record2 o)) d).
Proof.
  intros [R (ops & Hok & W)] Hp Hm. destruct W as [[F W]|[F (h & d & W)]].
  - unfold close_run. rewrite (proj2 (Z.eqb_neq _ _) F). do 5 (split; [done|]).
    exists ops. split; [done|]. by left.
  - destruct (close_run_open_run o pos ops h d R F W Hp Hm) as (? & ? & ? & ? & ? & ?).
    do 5 (split; [done|]). exists ops. split; [done|]. right. split; [done|]. by exists d.
Qed.

(** A complete run is one more operation of the script. *)
Lemma open_run_plain o pos ops d :
  open_run o pos ops (unit2_bytes (record2 o)) d -> Forall (op_ok baseBuf) ops -> blen d < 2 ^ 31 ->
  exists ops', Forall (op_ok baseBuf) ops' /\ plain o pos ops'.
Proof.
  intros (Hh & H2 & Ht & Ha) Hok Hd. exists (ops ++ [Insert d]). split.
  { apply Forall_app. split; [done|]. by constructor. }
  split; [|by rewrite apply_ops_app, apply_ops_one].
  rewrite Ht, encs_app, encs_one. cbn [enc_op]. by rewrite H2.
Qed.

(** Dropping the last [k] bytes of a script's result. *)
Lemma take_app_drop (a d : bytes) pos k :
  a ++ d = take (Z.to_nat pos) newBuf -> 0 <= k <= blen d -> pos <= blen newBuf -> 0 <= pos ->
  a ++ take (Z.to_nat (blen d - k)) d = take (Z.to_nat (pos - k)) newBuf.
Proof.
  intros E Hk Hp Hp'. pose proof (f_equal blen E) as L. rewrite blen_app, blen_take in L by lia.
  replace (take (Z.to_nat (pos - k)) newBuf)
    with (take (Z.to_nat (pos - k)) (take (Z.to_nat pos) newBuf))
    by (rewrite take_take; f_equal; lia).
  rewrite <- E, take_app_ge by (unfold blen in *; lia). do 2 f_equal. unfold blen in *. lia.
Qed.

(** [retract] takes [k] bytes back off the script. *)
Lemma retract_ok o pos ops d k :
  regs o -> flag o = 2 -> Forall (op_ok baseBuf) ops ->
  open_run o pos ops (unit2_bytes (record2 o)) d -> 0 <= pos <= newSize -> 0 <= k <= blen d ->
  deltaLen o <= pos + 4 ->
  let o' := retract o k in
  regs o' /\ deltaLen o' <= pos - k + 4 /\ record1 o' = record1 o /\
  exists ops', Forall (op_ok baseBuf) ops' /\ plain o' (pos - k) ops'.
Proof.
  intros R F Hok W Hp Hk Rm o'. destruct (open_run_len _ _ _ _ _ R W Hp) as (D & Hd & Hd' & G).
  destruct W as (Hh & H2 & Ht & Ha). pose proof R as [RL R1 R2]. pose proof (blen_nonneg (encs ops)).
  subst o'. unfold retract. rewrite G. case_if.
  - unfold sizeof_unit2. rewrite (u32_id (deltaLen o - blen d)), (u32_id (deltaLen o - blen d - 4)) by sizes.
    rewrite (u32_id (blen d - k)), set_length_insert, get_length_insert by (done || sizes).
    replace (deltaLen o - blen d - 4) with (blen (encs ops)) by lia.
    assert (T0 : take (Z.to_nat (blen (encs ops))) (deltaBuf o) = encs ops).
    { rewrite <- (take_drop (Z.to_nat (deltaLen o)) (deltaBuf o)), Ht, <- !app_assoc.
      unfold blen. rewrite Nat2Z.id. by apply take_app_length'. }
    case_if.
    + rewrite (u32_id (blen (encs ops) + 4)), u32_id by sizes.
      pose proof (blen_unit2 (FLAG + (blen d - k))) as B2.
      split; [constructor; cbn; [rewrite blen_write by lia; lia|done|apply get_flag_insert; sizes]|].
      split; [cbn; lia|]. split; [done|].
      exists (ops ++ [Insert (take (Z.to_nat (blen d - k)) d)]). split.
      { apply Forall_app. split; [done|]. constructor; [|done]. cbn. rewrite blen_take; lia. }
      split.
      * cbn. rewrite <- take_app_slice by lia. rewrite <- B2 at 1. rewrite take_write by lia.
        rewrite slice_write_after by lia. rewrite T0, encs_app, encs_one. cbn [enc_op].
        rewrite blen_take by lia. rewrite <- app_assoc. do 2 f_equal.
        rewrite <- (take_drop (Z.to_nat (deltaLen o)) (deltaBuf o)), Ht, <- !app_assoc.
        rewrite (app_assoc (encs ops)). replace (blen (encs ops) + 4) with (blen (encs ops ++ unit2_bytes (record2 o)))
          by (rewrite blen_app, blen_unit2; lia).
        rewrite slice_app_r, Z.sub_diag by lia. rewrite slice_app_l by lia. apply slice_0.
      * rewrite apply_ops_app, apply_ops_one. cbn [apply_op]. apply take_app_drop; done || lia.
    + split; [constructor; cbn; [lia|done|apply get_flag_insert; sizes]|].
      split; [cbn; lia|]. split; [done|]. exists ops. split; [done|]. split; [done|].
      rewrite <- (app_nil_r (apply_ops baseBuf ops)).
      replace (@nil Z) with (take (Z.to_nat (blen d - k)) d) by (by replace (blen d - k) with 0 by lia).
      apply take_app_drop; done || lia.
  - replace k with 0 by lia. rewrite Z.sub_0_r.
    split; [done|]. split; [lia|]. split; [done|]. by eapply open_run_plain.
Qed.

(** Appending a copy, or inserted bytes, to a complete script. *)
Lemma put_copy_plain o pos ops r :
  0 <= deltaLen o <= blen (deltaBuf o) -> Forall (op_ok baseBuf) ops -> plain o pos ops ->
  deltaLen o <= 2 ^ 22 ->
  0 <= u1_flag_length r < 2 ^ 31 -> 0 <= u1_nOffset r -> u1_nOffset r + u1_flag_length r <= baseSize ->
  0 <= pos -> pos + u1_flag_length r <= newSize -> agree (u1_nOffset r) pos (u1_flag_length r) ->
  deltaLen (put_unit1 o r) = deltaLen o + 8 /\ deltaLen o + 8 <= blen (deltaBuf (put_unit1 o r)) /\
  exists ops', Forall (op_ok baseBuf) ops' /\ plain (put_unit1 o r) (pos + u1_flag_length r) ops'.
Proof.
  intros RL Hok [Ht Ha] Hd Hl Ho Hb Hp Hn A. pose proof (blen_unit1 r) as B1.
  unfold put_unit1, sizeof_unit1. rewrite (u32_id (deltaLen o + 8)) by sizes.
  split; [done|]. split; [cbn; rewrite blen_write_grow by lia; lia|].
  exists (ops ++ [Copy (u1_nOffset r) (u1_flag_length r)]). split.
  { apply Forall_app. split; [done|]. constructor; [|done]. cbn. sizes. }
  split; cbn.
  - rewrite encs_app, encs_one. cbn [enc_op]. rewrite <- B1. rewrite take_write by lia. rewrite Ht.
    by destruct r.
  - rewrite apply_ops_app, apply_ops_one. cbn [apply_op]. rewrite Ha, A. apply take_app_slice; lia.
Qed.
Lemma put_insert_plain o o' pos ops n :
  0 <= deltaLen o <= blen (deltaBuf o) -> Forall (op_ok baseBuf) ops -> plain o pos ops ->
  0 <= n -> 0 <= pos -> pos + n <= newSize ->
  deltaBuf o' = write (write (deltaBuf o) (deltaLen o) (unit2_bytes (FLAG + n))) (deltaLen o + 4)
                  (slice newBuf pos n) ->
  deltaLen o' = deltaLen o + 4 + n ->
  deltaLen o' <= blen (deltaBuf o') /\
  exists ops', Forall (op_ok baseBuf) ops' /\ plain o' (pos + n) ops'.
Proof.
  intros RL Hok [Ht Ha] Hn Hp Hb Eb El. pose proof (blen_unit2 (FLAG + n)) as B2.
  pose proof (blen_slice newBuf pos n ltac:(lia) ltac:(lia) ltac:(lia)) as Bs.
  pose proof (blen_write_grow (deltaBuf o) (unit2_bytes (FLAG + n)) (deltaLen o) ltac:(lia)) as G1.
  split; [rewrite Eb, El, blen_write_grow by lia; lia|].
  exists (ops ++ [Insert (slice newBuf pos n)]). split.
  { apply Forall_app. split; [done|]. constructor; [|done]. cbn. rewrite Bs. sizes. }
  split.
  - rewrite Eb, El, encs_app, encs_one. cbn [enc_op]. rewrite Bs.
    rewrite <- Bs at 1. rewrite take_write by lia. rewrite <- B2 at 1. rewrite take_write by lia.
    by rewrite Ht, <- app_assoc.
  - rewrite apply_ops_app, apply_ops_one. cbn [apply_op]. rewrite Ha. apply take_app_slice; lia.
Qed.

Lemma put_copy_ok o pos ops r :
  regs o -> Forall (op_ok baseBuf) ops -> plain o pos ops -> deltaLen o <= 2 ^ 22 ->
  0 <= u1_flag_length r < 2 ^ 31 -> 0 <= u1_nOffset r -> u1_nOffset r + u1_flag_length r <= baseSize ->
  0 <= pos -> pos + u1_flag_length r <= newSize -> agree (u1_nOffset r) pos (u1_flag_length r) ->
  regs (put_unit1 o r) /\ deltaLen (put_unit1 o r) = deltaLen o + 8 /\
  exists ops', Forall (op_ok baseBuf) ops' /\ plain (put_unit1 o r) (pos + u1_flag_length r) ops'.
Proof.
  intros [RL R1 R2] Hok P Hd Hl Ho Hb Hp Hn A.
  destruct (put_copy_plain o pos ops r RL Hok P Hd Hl Ho Hb Hp Hn A) as (E & B & O).
  split; [|done]. constructor; [lia| |done]. by apply get_flag_copy.
Qed.

(** ** A match *)

Context (endSize : Z) (Hend : 0 <= endSize) (Hen : endSize <= newSize) (Heb : endSize < baseSize).
Local Abbreviation nlim := (newSize - endSize).
Local Abbreviation blim := (baseSize - endSize).

Lemma forward_ok off len cur :
  0 <= off -> 0 <= len -> off + len <= blim -> 0 <= cur <= nlim ->
  let j := forward newBuf newSize baseBuf baseSize endSize off len cur in
  0 <= j /\ off + len + j <= blim /\ cur + j <= nlim /\ agree (off + len) cur j.
Proof.
  intros Ho Hl Hb Hc. unfold forward. cbn zeta.
  set (P j := 0 <= j /\ off + len + j <= blim /\ cur + j <= nlim /\ agree (off + len) cur j).
  assert (P0 : P 0) by (unfold P, agree; rewrite !slice_nil_len; repeat split; lia || done).
  assert (St : forall w same t, 0 < w <= 8 ->
    (forall b n, 0 <= b -> 0 <= n -> b + w <= baseSize -> n + w <= newSize -> same b n = true -> agree b n w) ->
    P t -> u32 (u32 (u32 (off + len) + t) + (w - 1)) < u32 (baseSize - endSize) ->
    u32 (u32 (cur + t) + (w - 1)) < u32 (newSize - endSize) ->
    same (u32 (u32 (off + len) + t)) (u32 (cur + t)) = true -> P (u32 (t + w))).
  { intros w same t Hw Hsame (? & ? & ? & A) B N S.
    rewrite !(u32_id (off + len)), !(u32_id (off + len + t)), !(u32_id (cur + t)) in * by sizes.
    rewrite (u32_id (off + len + t + (w - 1))), (u32_id (baseSize - endSize)) in B by sizes.
    rewrite (u32_id (cur + t + (w - 1))), (u32_id (newSize - endSize)) in N by sizes.
    rewrite u32_id by sizes. unfold P. repeat split; try lia.
    apply agree_app; try lia; [done|]. apply Hsame; try lia. done. }
  match goal with |- 0 <= ?j /\ _ => change (P j) end.
  apply extend_ind; [apply extend_ind; [done|]|]; intros t Ht B N S.
  - eapply (St 8); eauto; [lia|]. intros. by apply same8_agree.
  - eapply (St 1); eauto; [lia|]. intros. by apply same1_agree.
Qed.

Lemma backward_ok fuel off len2 pos k :
  0 <= k <= off -> k <= len2 -> len2 <= pos -> off <= baseSize -> pos <= newSize ->
  agree (off - k) (pos - k) k ->
  let k' := backward newBuf baseBuf fuel off len2 pos k in
  k <= k' <= off /\ k' <= len2 /\ agree (off - k') (pos - k') k'.
Proof.
  intros Hk H2 Hp Ho Hn A. revert k Hk H2 A. induction fuel as [|fuel IH]; intros k Hk H2 A; cbn zeta.
  - cbn. repeat split; auto; lia.
  - cbn [backward]. destruct ((u32 (k + 1) <=? off) && (u32 (k + 1) <=? len2)) eqn:E; [|repeat split; auto; lia].
    boolz. rewrite (u32_id (k + 1)) in * by sizes.
    destruct (rd _ _ =? rd _ _) eqn:F; [|repeat split; auto; lia]. boolz.
    rewrite !u32_id in F by sizes.
    destruct (IH (k + 1)) as (? & ? & ?); [lia|lia| |repeat split; auto; lia].
    replace (k + 1) with (1 + k) by lia. apply agree_app; try lia.
    + unfold agree. rewrite !slice_1 by lia. f_equal. by replace (1 + k) with (k + 1) by lia.
    + replace (off - (1 + k) + 1) with (off - k) by lia. by replace (pos - (1 + k) + 1) with (pos - k) by lia.
Qed.

Definition rec_ok (d : DeltaRecord) : Prop :=
  0 <= nOffset d /\ 0 < nLength d /\ nOffset d + nLength d <= blim.

(** The space left for a match, which may end at the limit with a short chunk. *)
Definition room_end (o : out) (pos : Z) : Prop := room o pos \/ pos = nlim /\ deltaLen o <= pos + 11.

Lemma do_match_ok o d pos len cb :
  written o pos -> room o pos -> rec_ok d -> is_match newBuf baseBuf d pos len = true ->
  0 <= pos -> pos + len <= nlim -> (13 <= len \/ pos + len = nlim) -> 0 <= cb <= blim ->
  let '(o', cur, cb') := do_match newBuf newSize baseBuf baseSize endSize o d pos (pos + len) cb len in
  written o' cur /\ room_end o' cur /\ flag o' = 1 /\ pos < cur <= nlim /\ cb <= cb' <= blim.
Proof.
  intros W Rm (Ho & Hl & Hb) M Hp Hn Hlen Hcb. unfold is_match in M. boolz. subst len.
  apply bool_decide_eq_true in H0. set (len := nLength d) in *. set (off := nOffset d) in *.
  assert (A0 : agree off pos len) by (symmetry; exact H0).
  pose proof (forward_ok off len (pos + len) Ho ltac:(lia) Hb ltac:(lia)) as (J0 & J1 & J2 & J3).
  unfold do_match. fold off len. set (j := forward _ _ _ _ _ off len (pos + len)) in *.
  pose proof (agree_app off pos len j Ho Hp ltac:(lia) J0 A0 J3) as A1.
  rewrite (u32_id (pos + len + j)), (u32_id (off + len)), (u32_id (off + len + j)) by sizes.
  rewrite (u32_id (pos + len + j - pos)) by sizes. replace (pos + len + j - pos) with (len + j) by lia.
  pose proof Rm as Rm0. unfold room in Rm0.
  destruct (close_run_ok o pos W ltac:(lia) ltac:(case_if_in Rm0; sizes)) as (R & Dl & H2 & Fl & H1 & ops & Hok & C).
  rewrite Fl, H1. pose proof (r_one _ (proj1 W)) as R1. rewrite (set_length_copy _ (len + j)) by (done || sizes).
  unfold room in Rm.
  set (k := if flag o =? 2 then _ else 0).
  assert (K : 0 <= k <= off /\ k <= pos /\ agree (off - k) (pos - k) k /\
    regs (retract (close_run o) k) /\ deltaLen (retract (close_run o) k) <= pos - k + 4 /\
    (k = 0 -> flag o <> 2 -> deltaLen (retract (close_run o) k) <= pos) /\
    record1 (retract (close_run o) k) = record1 o /\
    exists ops', Forall (op_ok baseBuf) ops' /\ plain (retract (close_run o) k) (pos - k) ops').
  { destruct C as [[F P]|[F (dd & O)]].
    - subst k. rewrite (proj2 (Z.eqb_neq _ _) F) in *. unfold agree. rewrite !slice_nil_len, Z.sub_0_r.
      cbn [retract Z.ltb Z.compare]. rewrite Dl. split_and!; try lia; try done. by exists ops.
    - destruct (open_run_len _ _ _ _ _ R O ltac:(lia)) as (D & Hd & Hd' & G).
      pose proof (blen_nonneg dd).
      subst k. rewrite F in Rm |- *. cbn [Z.eqb Pos.eqb] in *.
      destruct (backward_ok (S (Z.to_nat off)) off (get_length (record2 (close_run o))) pos 0)
        as (K1 & K2 & K3); try lia; [unfold agree; by rewrite !slice_nil_len|].
      set (k := backward _ _ _ _ _ _ _) in *. rewrite G in K2.
      rewrite <- H2 in O.
      destruct (retract_ok (close_run o) pos ops dd k R ltac:(congruence) Hok O ltac:(lia) ltac:(lia) ltac:(lia))
        as (R' & D' & E1 & ops' & Hok' & P').
      split_and!; try lia; try congruence. by exists ops'. }
  clearbody k. destruct K as (K0 & K1 & K2 & R' & D' & D0 & E1 & ops' & Hok' & P').
  assert (A2 : agree (off - k) (pos - k) (k + (len + j))).
  { apply agree_app; try lia; [done|]. by replace (off - k + k) with off by lia; replace (pos - k + k) with pos by lia. }
  set (r1 := if 0 <? k then _ else _).
  assert (Er : r1 = mk_unit1 (k + (len + j)) (off - k)).
  { subst r1. case_if.
    - rewrite get_length_copy by sizes. rewrite !u32_id by sizes.
      rewrite set_length_copy by (unfold size_max in *; first [lia | apply get_flag_copy; lia]). f_equal. lia.
    - replace k with 0 by lia. f_equal; lia. }
  rewrite Er. clear Er r1.
  destruct (put_copy_ok (retract (close_run o) k) (pos - k) ops' (mk_unit1 (k + (len + j)) (off - k)))
    as (R3 & D3 & ops3 & Hok3 & P3); try done; cbn [u1_flag_length u1_nOffset]; sizes.
  set (o3 := put_unit1 _ _) in *. cbn [u1_flag_length] in P3.
  replace (pos - k + (k + (len + j))) with (pos + len + j) in P3 by lia.
  split; [|split; [|split; [done|split; [lia|case_if; lia]]]].
  - destruct R3 as [? ? ?]. split; [constructor; done|]. exists ops3. split; [done|]. left. split; [done|]. exact P3.
  - unfold room_end, room. cbn [flag deltaLen set_out_flag]. rewrite D3. change (1 =? 2) with false. cbn match.
    destruct Hlen; lia.
Qed.

(** ** Chunking *)

Definition raw_ok (n : Z) (r : DeltaRecord) : Prop :=
  0 <= nOffset r /\ 0 <= nLength r /\ nOffset r + nLength r <= n.
Definition nonempty (r : DeltaRecord) : Prop := nLength r <> 0.

Lemma sub_chunks_ok data n c l :
  0 <= c -> cuts_from n c l ->
  length (sub_chunks data (c :: l)) = length l /\
  Forall (raw_ok n) (sub_chunks data (c :: l)) /\
  (Forall nonempty (sub_chunks data (c :: l)) ->
   13 * blen l <= List.last l c - c \/ List.last l c = n /\ 13 * blen l <= n - c + 12).
Proof.
  revert c. induction l as [|c' l IH]; intros c Hc H.
  - cbn. split; [done|]. split; [done|]. left. unfold blen. cbn. lia.
  - destruct H as (H1 & H2 & H3 & H4). destruct (IH c' ltac:(lia) H4) as (IL & IF & IN).
    change (sub_chunks data (c :: c' :: l)) with
      ({| nLength := c' - c; nOffset := c; DupFlag := 0;
          nHash := weakHash (slice data c (c' - c)) |} :: sub_chunks data (c' :: l)).
    split; [cbn [length]; by rewrite IL|]. split.
    { constructor; [|done]. unfold raw_ok. cbn. lia. }
    intros N. apply Forall_cons in N as [N0 N]. specialize (IN N). unfold nonempty in N0. cbn in N0.
    rewrite blen_cons. pose proof (blen_nonneg l). unfold STRMIN in H3.
    rewrite last_cons_default.
    destruct H3 as [->|H3]; [|lia].
    destruct l as [|c2 l]; [unfold blen; cbn; lia|].
    destruct H4 as (? & _). apply Forall_cons in N as [N1 _]. unfold nonempty in N1. cbn in N1. lia.
Qed.

Lemma Chunking_v3_ok data n k :
  0 <= n ->
  exists recs nb, Chunking_v3 data n k = Ok (recs, nb) /\ length recs = k /\ 0 <= nb <= n /\
    Forall (raw_ok n) recs /\
    (Forall nonempty recs -> 13 * Z.of_nat k <= nb \/ nb = n /\ 13 * Z.of_nat k <= n + 12) /\
    (Forall nonempty recs -> (0 < k)%nat -> 0 < n).
Proof.
  intros Hn. unfold Chunking_v3. destruct (rolling_gear_v3_ok data n k Hn) as (l & -> & L & C).
  cbn [rbind]. destruct (sub_chunks_ok data n 0 l ltac:(lia) C) as (S1 & S2 & S3).
  pose proof (cuts_from_last n 0 l Hn C) as B.
  exists (sub_chunks data (0 :: l)), (List.last (0 :: l) 0).
  rewrite last_cons_default.
  split; [done|]. split; [congruence|]. split; [lia|]. split; [done|]. unfold blen in S3. rewrite L in S3.
  split; [intros N; specialize (S3 N); lia|].
  intros N K. destruct l as [|c l]; [cbn in *; lia|]. apply Forall_cons in N as [N0 _].
  destruct C as (? & _). unfold nonempty in N0. cbn in N0. lia.
Qed.

(** ** The table *)

Record table_ok (t : htable DeltaRecord) (nb : Z) : Prop := {
  to_wf : exists p, wf p t /\ p <= 20;
  to_rec : forall k d, (k, d) ∈ elements t -> rec_ok d;
  to_num : num_items t <= nb
}.

Lemma table_ok_lookup t nb k d : table_ok t nb -> lookup t k = Some d -> rec_ok d.
Proof. intros [(p & W & _) R _] H. eapply R, lookup_Some; eauto. Qed.

Lemma table_ok_insert t nb k d :
  table_ok t nb -> rec_ok d -> nb < 2 ^ 20 ->
  exists t', insert t k d = Ok t' /\ table_ok t' (nb + 1).
Proof.
  intros [(p & W & P) R N] Hd Hn.
  destruct (insert_total p t k d W ltac:(lia)) as (q & t' & E & W' & Q & El).
  exists t'. split; [done|]. split.
  - exists q. split; [done|]. destruct Q as [->|[-> Q]]; [done|].
    rewrite (wf_max _ _ W), (wf_buckets _ _ W) in Q.
    destruct (Z.le_gt_cases p 19); [lia|]. replace p with 20 in Q by lia. lia.
  - intros k' d' H. rewrite El in H. apply elem_of_cons in H as [[= -> ->]|H]; [done|by eapply R].
  - rewrite (wf_num _ _ W'). unfold blen. rewrite El. pose proof (wf_num _ _ W). unfold blen in *. cbn. lia.
Qed.

Lemma table_ok_mono t nb nb' : table_ok t nb -> nb <= nb' -> table_ok t nb'.
Proof. intros [] ?. constructor; auto; lia. Qed.

Lemma insert_base_ok recs cb t nb :
  table_ok t nb -> Forall (raw_ok (blim - cb)) recs -> 0 <= cb -> nb + blen recs <= 2 ^ 20 ->
  exists recs' t' more, insert_base recs cb t = Ok (recs', t', more) /\
    length recs' = length recs /\ table_ok t' (nb + blen recs) /\
    (more = true -> Forall nonempty recs).
Proof.
  revert t nb. induction recs as [|r recs IH]; intros t nb T F Hc Hn.
  - exists [], t, true. split; [done|]. split; [done|]. split; [by rewrite blen_nil, Z.add_0_r|by constructor].
  - apply Forall_cons in F as [(F1 & F2 & F3) F]. rewrite blen_cons in *. pose proof (blen_nonneg recs).
    cbn [insert_base]. case_if.
    { exists (r :: recs), t, false. split; [done|]. split; [done|]. split; [|done].
      eapply table_ok_mono; [done|lia]. }
    set (r' := {| nHash := _; nOffset := _; nLength := _; DupFlag := _ |}).
    assert (R : rec_ok r') by (unfold rec_ok; subst r'; cbn -[u32]; rewrite u32_id by sizes; lia).
    destruct (table_ok_insert t nb (nHash r') r' T R ltac:(lia)) as (t1 & E1 & T1).
    destruct (IH t1 (nb + 1) T1 F Hc ltac:(lia)) as (recs' & t' & more & E2 & L & T' & M).
    cbn zeta. rewrite E1. cbn [rbind]. rewrite E2. cbn [rbind].
    exists (r' :: recs'), t', more. split; [done|]. split; [cbn; by rewrite L|].
    split; [eapply table_ok_mono; [done|lia]|]. intros Hm. constructor; auto.
Qed.

(** ** Probing the input *)

(** The chunks [InputLink[i..i+k)], up to the one that matched ([pm]), are
    consecutive pieces of the input from [pos] on. *)
Fixpoint probe_ok (k : nat) (i pm : Z) (links : list (option (Z * Z))) (pos : Z) : Prop :=
  match k with
  | O => True
  | S k =>
    exists len h, links !! Z.to_nat i = Some (Some (len, h)) /\ 0 <= len /\ pos + len <= nlim /\
      (0 < len \/ pos = nlim) /\ (13 <= len \/ pos + len = nlim) /\
      (i = pm \/ i <> pm /\ probe_ok k (i + 1) pm links (pos + len))
  end.

Definition try5 : Z := 5.

Lemma next_input_chunk pos :
  0 <= pos <= nlim ->
  let c := chunk_gear (drop (Z.to_nat pos) newBuf) (u32 (u32 (newSize - pos) - endSize)) in
  u32 (c + pos) = pos + c /\ u32 (pos + c - pos) = c /\
  0 <= c /\ pos + c <= nlim /\ (0 < c \/ pos = nlim) /\ (13 <= c \/ pos + c = nlim).
Proof.
  intros Hp. cbn zeta. rewrite (u32_id (newSize - pos)), (u32_id (newSize - pos - endSize)) by sizes.
  set (c := chunk_gear _ _).
  pose proof (chunk_gear_range (drop (Z.to_nat pos) newBuf) (newSize - pos - endSize) ltac:(lia)) as R.
  fold c in R. rewrite !u32_id by sizes.
  split_and!; try lia.
  - destruct (Z.eq_dec pos nlim); [by right|left]. apply chunk_gear_pos. lia.
  - destruct (Z.le_gt_cases (newSize - pos - endSize) STRMAX).
    + right. subst c. rewrite chunk_gear_small by done. lia.
    + left. pose proof (chunk_gear_large (drop (Z.to_nat pos) newBuf) _ H). fold c in H0.
      unfold STRMIN in *. lia.
Qed.

Lemma input_try_ok t nb k : forall j cur links,
  table_ok t nb -> 0 <= j -> j + Z.of_nat k <= try5 -> length links = INPUT_TRY -> 0 <= cur <= nlim ->
  let '(links', m) := input_try newBuf newSize endSize k j cur t links in
  length links' = INPUT_TRY /\
  (forall i, (i < Z.to_nat j)%nat -> links' !! i = links !! i) /\
  match m with
  | Some (j', d) => probe_ok k j j' links' cur /\ j <= j' < j + Z.of_nat k /\ rec_ok d
  | None => probe_ok k j try5 links' cur
  end.
Proof.
  unfold try5, INPUT_TRY. induction k as [|k IH]; intros j cur links T Hj Hk L Hc.
  - cbn. split_and!; done.
  - cbn [input_try]. destruct (next_input_chunk cur Hc) as (E1 & E2 & C0 & C1 & C2 & C3).
    rewrite !E1, !E2. set (c := chunk_gear _ _) in *. set (h := weakHash _).
    set (links1 := <[Z.to_nat j := _]> links).
    assert (L1 : length links1 = 5%nat) by (subst links1; by rewrite length_insert).
    assert (G : links1 !! Z.to_nat j = Some (Some (c, h))) by (apply list_lookup_insert_eq; lia).
    assert (Hlt : forall i, (i < Z.to_nat j)%nat -> links1 !! i = links !! i)
      by (intros; apply list_lookup_insert_ne; lia).
    destruct (lookup t h) as [d|] eqn:Lk.
    + split_and!; try done; try lia; [|by eapply table_ok_lookup].
      exists c, h. split_and!; auto; lia.
    + specialize (IH (j + 1) (cur + c) links1 T ltac:(lia) ltac:(lia) L1 ltac:(lia)).
      destruct (input_try _ _ _ k (j + 1) _ t links1) as [links' m]. destruct IH as (L' & Hlt' & M).
      split_and!; [done|intros; rewrite Hlt' by lia; auto|].
      rewrite <- (Hlt' (Z.to_nat j)) in G by lia.
      destruct m as [[j' d]|]; [destruct M as (M & Mj & Md); split_and!; try done; try lia|];
        exists c, h; split_and!; auto; try lia; right; split; auto; lia.
Qed.

Lemma probe_ok_any k i pm links pos :
  probe_ok k i try5 links pos -> i + Z.of_nat k <= try5 -> probe_ok k i pm links pos.
Proof.
  unfold try5. revert i pos. induction k as [|k IH]; intros i pos H Hk; [done|].
  destruct H as (len & h & H1 & H2 & H3 & H4 & H5 & [->|[N H6]]); [lia|].
  exists len, h. split_and!; auto. destruct (decide (i = pm)); [by left|right]. split; [done|].
  apply IH; [done|lia].
Qed.

Lemma retry_ok t nb k j links pos :
  table_ok t nb -> probe_ok k j try5 links pos -> j + Z.of_nat k <= try5 -> 0 <= j ->
  exists m, retry k j t links = Ok m /\
    match m with Some (j', d) => j <= j' < j + Z.of_nat k /\ rec_ok d | None => True end.
Proof.
  unfold try5. intros T. revert j pos. induction k as [|k IH]; intros j pos H Hk Hj; [by exists None|].
  destruct H as (len & h & H1 & H2 & H3 & H4 & H5 & [->|[N H6]]); [lia|].
  cbn [retry]. rewrite H1. destruct (lookup t h) as [d|] eqn:Lk.
  - exists (Some (j, d)). split; [done|]. split; [lia|by eapply table_ok_lookup].
  - destruct (IH _ _ H6 ltac:(lia) ltac:(lia)) as (m & E & M). exists m. split; [done|].
    destruct m as [[j' d]|]; [|done]. split; [lia|apply M].
Qed.

(** ** The loop invariant *)

(** How many [BaseLink] slots are in use when the base is cut up to [cb]: every
    record but the last covers 13 bytes, and the step that meets the end of the
    base leaves at most 45 empty ones. *)
Definition count_ok (nb cb : Z) (more : bool) : Prop :=
  if more then 13 * nb <= cb \/ cb = blim /\ 13 * nb <= cb + 12
  else 13 * nb <= blim + 12 + 13 * 45.

Record base_inv (s : enc) : Prop := {
  bi_cb : 0 <= cursor_base s <= blim;
  bi_table : table_ok (psHTable s) (blen (BaseLink s));
  bi_count : count_ok (blen (BaseLink s)) (cursor_base s) (flag_chunk s);
  bi_links : length (InputLink s) = INPUT_TRY
}.

(** The probe is ready: [InputLink] is filled from [inputPos] on, and a match has
    a record. *)
Definition probe_ready (s : enc) : Prop :=
  (probe_match s = try5 \/ 0 <= probe_match s < try5 /\
     exists d, psDupSubCnk s = Some d /\ rec_ok d) /\
  probe_ok INPUT_TRY 0 (probe_match s) (InputLink s) (inputPos s).

(** What chunking the base leaves alone. *)
Definition same_input (s s' : enc) : Prop :=
  e_out s' = e_out s /\ inputPos s' = inputPos s /\ cursor_input s' = cursor_input s /\
  flag_handle_probe s' = flag_handle_probe s /\ cursor_base s <= cursor_base s'.

Lemma base_steps_ok k : forall i cn s,
  base_inv s -> flag_chunk s = true -> 0 <= inputPos s <= nlim -> cursor_input s = inputPos s ->
  probe_match s = try5 -> 0 < cn -> cn * 3 ^ Z.of_nat k <= 135 -> 0 <= i ->
  (i = 0 /\ (0 < k)%nat \/ 0 < i /\ probe_ok INPUT_TRY 0 try5 (InputLink s) (inputPos s)) ->
  exists s', base_steps newBuf newSize baseBuf baseSize endSize k i cn s = Ok s' /\
    base_inv s' /\ same_input s s' /\ probe_ready s'.
Proof.
  induction k as [|k IH]; intros i cn s B Fc Hp Hc Hm Hcn Hpow Hi Hlinks.
  - exists s. split; [done|]. split; [done|]. split; [unfold same_input; lia || (split_and!; done || lia)|].
    split; [by left|]. rewrite Hm. by destruct Hlinks as [[_ ?]|[_ ?]]; [lia|].
  - cbn [base_steps]. destruct B as [Bcb Bt Bc Bl]. rewrite Fc in Bc. cbn [count_ok] in Bc.
    rewrite (u32_id (baseSize - endSize)), u32_id by sizes.
    rewrite Nat2Z.inj_succ, Z.pow_succ_r in Hpow by lia.
    pose proof (Z.pow_pos_nonneg 3 (Z.of_nat k) ltac:(lia) ltac:(lia)) as P3.
    assert (Hcn45 : cn <= 45) by nia.
    destruct (Chunking_v3_ok (drop (Z.to_nat (cursor_base s)) baseBuf) (baseSize - endSize - cursor_base s)
                (Z.to_nat cn) ltac:(lia)) as (recs & nb & -> & Lr & Hnb & Fr & Hne & Hne0).
    cbn [rbind]. assert (Lb : blen recs = cn) by (unfold blen; lia).
    destruct (insert_base_ok recs (cursor_base s) (psHTable s) (blen (BaseLink s)) Bt Fr ltac:(lia))
      as (recs' & t' & more & -> & L' & T' & M).
    { sizes. }
    cbn [rbind]. assert (Lb' : blen recs' = cn) by (unfold blen in *; lia).
    assert (Q : exists links m,
      (if i =? 0 then Ok (input_try newBuf newSize endSize INPUT_TRY 0 (cursor_input s) t' (InputLink s))
       else m <-- retry INPUT_TRY 0 t' (InputLink s) ;; Ok (InputLink s, m)) = Ok (links, m) /\
      length links = INPUT_TRY /\
      match m with
      | Some (j', d) => probe_ok INPUT_TRY 0 j' links (inputPos s) /\ 0 <= j' < try5 /\ rec_ok d
      | None => probe_ok INPUT_TRY 0 try5 links (inputPos s)
      end).
    { destruct Hlinks as [[-> _]|[Hi0 Hlinks]].
      - rewrite Hc. pose proof (input_try_ok t' _ INPUT_TRY 0 (inputPos s) (InputLink s) T'
          ltac:(lia) ltac:(unfold try5, INPUT_TRY; lia) Bl Hp) as Q.
        destruct (input_try _ _ _ INPUT_TRY 0 _ _ _) as [links m]. destruct Q as (Q1 & _ & Q2).
        exists links, m. split; [done|]. split; [done|]. destruct m as [[j' d]|]; [|done].
        destruct Q2 as (? & ? & ?). unfold INPUT_TRY in *. unfold try5. split_and!; auto; lia.
      - rewrite (proj2 (Z.eqb_neq i 0)) by lia.
        destruct (retry_ok t' _ INPUT_TRY 0 (InputLink s) (inputPos s) T' Hlinks) as (m & -> & Q);
          [unfold try5, INPUT_TRY; lia|lia|].
        exists (InputLink s), m. split; [done|]. split; [done|]. destruct m as [[j' d]|]; [|done].
        destruct Q as [Q ?]. unfold INPUT_TRY, try5 in Q |- *. split_and!; try done; try lia.
        apply probe_ok_any; [done|unfold try5, INPUT_TRY; lia]. }
    destruct Q as (links & m & -> & Ll & Q). cbn [rbind].
    set (s1 := {| e_out := _ |}).
    assert (Ecb : cursor_base s1 = cursor_base s + nb) by (subst s1; cbn -[u32]; apply u32_id; sizes).
    assert (B1 : base_inv s1).
    { constructor; rewrite ?Ecb; [lia| | |done]; subst s1; cbn [psHTable BaseLink flag_chunk];
        rewrite blen_app, Lb'; [by rewrite Lb in T'|]. rewrite Fc. cbn [andb].
      destruct more; cbn [count_ok]; [|lia]. specialize (M eq_refl).
      specialize (Hne M). specialize (Hne0 M). lia. }
    assert (S1 : same_input s s1) by (unfold same_input; rewrite Ecb; split_and!; done || lia).
    destruct m as [[j' d]|].
    + exists s1. split; [done|]. split; [done|]. split; [done|]. destruct Q as (Q1 & Q2 & Q3).
      split; [right; split; [done|]; by exists d|done].
    + destruct (flag_chunk s1) eqn:F1.
      * destruct (IH (i + 1) (cn * BASE_EXPAND) s1) as (s' & -> & B' & S' & R'); try done.
        -- unfold BASE_EXPAND. lia.
        -- unfold BASE_EXPAND. nia.
        -- lia.
        -- right. split; [lia|exact Q].
        -- exists s'. split; [done|]. split; [done|]. split; [|done].
           unfold same_input in *. destruct S1 as (-> & -> & -> & -> & ?) in S'.
           destruct S' as (? & ? & ? & ? & ?). split_and!; try done; lia.
      * exists s1. split; [done|]. split; [done|]. split; [done|].
        split; [left; exact Hm|]. change (probe_match s1) with (probe_match s). rewrite Hm. exact Q.
Qed.

(** Whether this iteration cuts the base. *)
Definition due (s : enc) : bool :=
  flag_chunk s && base_due (cursor_input s) newSize (cursor_base s) baseSize.

Lemma chunk_base_ok s :
  base_inv s -> 0 <= inputPos s <= nlim -> cursor_input s = inputPos s ->
  exists s', chunk_base newBuf newSize baseBuf baseSize endSize s = Ok s' /\ base_inv s' /\
    e_out s' = e_out s /\ inputPos s' = inputPos s /\
    (if due s then flag_handle_probe s' = Some true /\ probe_ready s' else s' = s).
Proof.
  intros B Hp Hc. unfold chunk_base, due. case_if; [|by exists s].
  set (s0 := {| e_out := _ |}).
  destruct (base_steps_ok BASE_STEP 0 BASE_BEGIN s0) as (s' & E' & B' & (S1 & S2 & S3 & S4 & S5) & R'); try done.
  - destruct B. by constructor.
  - left. split; [done|]. unfold BASE_STEP. lia.
  - exists s'. split; [exact E'|]. split; [done|]. split; [done|]. split; [done|]. split; [by rewrite S4|done].
Qed.

(** ** Probing writes what does not match *)

Lemma probe_run_ok k i pm links o pos :
  written o pos -> room o pos -> 0 <= pos <= nlim -> probe_ok k i pm links pos ->
  exists o' pos' m, probe newBuf k i pm links o pos = Ok (o', pos', m) /\
    written o' pos' /\ room o' pos' /\ pos <= pos' <= nlim /\
    (pos < nlim -> (0 < k)%nat -> pos < pos' \/ exists len, m = Some len /\ 0 < len) /\
    (forall len, m = Some len -> 0 <= len /\ pos' + len <= nlim /\
       (13 <= len \/ pos' + len = nlim) /\ i <= pm < i + Z.of_nat k).
Proof.
  revert i o pos. induction k as [|k IH]; intros i o pos W R Hp P.
  - exists o, pos, None. cbn. split_and!; try done; lia.
  - destruct P as (len & h & E & P1 & P2 & P3 & P4 & P5). cbn [probe]. rewrite E.
    destruct (i =? pm) eqn:Ei; boolz.
    + exists o, pos, (Some len). split_and!; try done; try lia.
      * intros ? _. right. exists len. split; [done|lia].
      * intros ? [= <-]. split_and!; lia || done.
    + destruct P5 as [?|[_ P5]]; [done|].
      destruct (emit_unmatch_ok o pos len W R P1 ltac:(lia) ltac:(lia)) as (W1 & R1 & _).
      rewrite (u32_id (len + pos)) by sizes. replace (len + pos) with (pos + len) by lia.
      destruct (IH (i + 1) _ (pos + len) W1 R1 ltac:(lia) P5) as (o' & pos' & m & -> & W' & R' & Hp' & _ & Hm).
      exists o', pos', m. split_and!; try done; try lia.
      intros len' Em. destruct (Hm len' Em) as (? & ? & ? & ?). split_and!; auto; lia.
Qed.

(** ** One iteration *)

Record inv (s : enc) : Prop := {
  i_base : base_inv s;
  i_cur : cursor_input s = inputPos s;
  i_pos : 0 <= inputPos s <= nlim;
  i_out : written (e_out s) (inputPos s);
  i_room : room_end (e_out s) (inputPos s)
}.

Lemma finish_ok s d o pos len :
  base_inv s -> written o pos -> room o pos -> 0 <= pos -> 0 <= len -> pos + len <= nlim ->
  (13 <= len \/ pos + len = nlim) -> match d with Some d => rec_ok d | None => True end ->
  let s' := finish newBuf newSize baseBuf baseSize endSize s d o pos (pos + len) len (Some false) in
  inv s' /\ pos + len <= inputPos s' /\ flag_handle_probe s' = Some false.
Proof.
  intros B W R Hp Hl Hn H13 Hd.
  pose proof (emit_unmatch_ok o pos len W R Hl Hp ltac:(lia)) as (W1 & R1 & _).
  destruct B as [Bcb Bt Bc Bl].
  assert (U : forall d', let s' := {| e_out := emit_unmatch newBuf o pos len;
      inputPos := pos + len; cursor_input := pos + len; cursor_base := cursor_base s;
      BaseLink := BaseLink s; psHTable := psHTable s; flag_chunk := flag_chunk s;
      flag_handle_probe := Some false; probe_match := probe_match s; InputLink := InputLink s;
      psDupSubCnk := d' |} in
    inv s' /\ pos + len <= inputPos s' /\ flag_handle_probe s' = Some false).
  { intros d'. split; [|split; [cbn; lia|done]]. constructor; try done; cbn; [lia|by left]. }
  unfold finish. destruct d as [d|]; [|apply U]. case_if; [|apply U].
  pose proof (do_match_ok o d pos len (cursor_base s) W R Hd E Hp Hn H13 Bcb) as D.
  pose proof (forward_ok (nOffset d) len (pos + len)) as Fw.
  assert (Hcur : pos + len <= (let '(_, cur, _) := do_match newBuf newSize baseBuf baseSize endSize o d pos (pos + len) (cursor_base s) len in cur)).
  { unfold is_match in E. boolz. destruct Hd as (? & ? & ?). unfold do_match.
    destruct (Fw ltac:(lia) ltac:(lia) ltac:(lia) ltac:(lia)) as (? & ? & ? & _). rewrite u32_id; sizes. }
  destruct (do_match _ _ _ _ _ o d pos _ _ len) as [[o' cur] cb'].
  destruct D as (W' & R' & F' & Hc & Hcb). split; [|split; [exact Hcur|done]].
  constructor; cbn; try done; try lia. constructor; cbn; try done; try lia.
  unfold count_ok in *. destruct (flag_chunk s); lia.
Qed.

Lemma next_chunk_ok s o pos :
  base_inv s -> written o pos -> room o pos -> 0 <= pos <= nlim ->
  let s' := next_chunk newBuf newSize baseBuf baseSize endSize s o pos in
  inv s' /\ pos <= inputPos s' /\ (pos < nlim -> pos < inputPos s') /\ flag_handle_probe s' = Some false.
Proof.
  intros B W R Hp. unfold next_chunk. cbn zeta.
  destruct (next_input_chunk pos Hp) as (E1 & E2 & C0 & C1 & C2 & C3). rewrite !E1, !E2.
  set (c := chunk_gear _ _) in *.
  destruct (finish_ok s (lookup (psHTable s) (weakHash (slice newBuf pos c))) o pos c)
    as (I & P & F); try done; try lia.
  - destruct (lookup _ _) as [d|] eqn:Lk; [|done]. eapply table_ok_lookup; [apply B|done].
  - split_and!; try done; lia.
Qed.

(** An iteration keeps the invariant and goes forward; it is undefined exactly
    when [flag_handle_probe] is read before it is set. *)
Lemma step_ok s :
  inv s -> inputPos s < nlim -> flag_handle_probe s <> Some true ->
  (flag_handle_probe s <> None \/ due s = true) ->
  exists s', step newBuf newSize baseBuf baseSize endSize s = Ok s' /\ inv s' /\
    inputPos s < inputPos s' /\ flag_handle_probe s' = Some false.
Proof.
  intros [B Hc Hp W R] Hlt Hf Hd. unfold step.
  destruct (chunk_base_ok s B Hp Hc) as (s1 & -> & B1 & E1 & E2 & D). cbn [rbind].
  assert (Rm : room (e_out s) (inputPos s)) by (destruct R as [R|[? _]]; [done|lia]).
  destruct (due s).
  - destruct D as [-> [PM P]]. rewrite E1, E2 in *.
    destruct (probe_run_ok INPUT_TRY 0 (probe_match s1) (InputLink s1) (e_out s) (inputPos s) W Rm Hp P)
      as (o' & pos' & m & -> & W' & R' & Hp' & Hprog & Hm).
    cbn [rbind]. destruct m as [len|].
    + destruct (Hm len eq_refl) as (M1 & M2 & M3 & M4).
      destruct PM as [PM|(_ & d & -> & Hd')]; [unfold try5, INPUT_TRY in *; lia|].
      rewrite (u32_id (len + pos')) by sizes. replace (len + pos') with (pos' + len) by lia.
      destruct (finish_ok s1 (Some d) o' pos' len) as (I & P' & F'); try done; try lia.
      eexists. split; [reflexivity|]. split; [done|]. split; [|done].
      destruct (Hprog Hlt) as [?|(len' & [= ->] & ?)]; [unfold INPUT_TRY; lia|lia|lia].
    + destruct (next_chunk_ok s1 o' pos' B1 W' R' ltac:(lia)) as (I & P1 & P2 & F').
      eexists. split; [reflexivity|]. split; [done|]. split; [|done].
      destruct (Hprog Hlt) as [?|(len' & ? & ?)]; [unfold INPUT_TRY; lia|lia|done].
  - subst s1. destruct Hd as [Hd|]; [|done].
    destruct (flag_handle_probe s) as [[]|] eqn:F; [done| |done].
    destruct (next_chunk_ok s (e_out s) (inputPos s) B W Rm ltac:(lia)) as (I & P1 & P2 & F').
    eexists. split; [reflexivity|]. split; [done|]. split; [auto|done].
Qed.

Lemma step_undefined s :
  inv s -> flag_handle_probe s = None -> due s = false ->
  step newBuf newSize baseBuf baseSize endSize s = Err Undefined.
Proof.
  intros [B Hc Hp W R] F D. unfold step.
  destruct (chunk_base_ok s B Hp Hc) as (s1 & -> & B1 & E1 & E2 & Q). rewrite D in Q. subst s1.
  cbn [rbind]. by rewrite F.
Qed.

(** The loop ends at the common tail, with fuel to spare. *)
Lemma loop_ok fuel s :
  inv s -> flag_handle_probe s <> Some true -> (flag_handle_probe s <> None \/ due s = true) ->
  nlim - inputPos s <= Z.of_nat fuel ->
  exists s', loop newBuf newSize baseBuf baseSize endSize fuel s = Ok s' /\ inv s' /\ inputPos s' = nlim.
Proof.
  revert s. induction fuel as [|fuel IH]; intros s I Hf Hd Hfu; pose proof (i_pos _ I);
    cbn [loop]; rewrite (u32_id (newSize - endSize)) by sizes;
    (case_if; [|exists s; split; [done|]; split; [done|]; lia]); [lia|].
  destruct (step_ok s I ltac:(lia) Hf Hd) as (s1 & -> & I1 & P1 & F1). cbn [rbind].
  apply IH; [done|by rewrite F1|left; by rewrite F1|lia].
Qed.

Lemma loop_inv fuel s s' :
  inv s -> flag_handle_probe s <> Some true ->
  loop newBuf newSize baseBuf baseSize endSize fuel s = Ok s' -> inv s'.
Proof.
  revert s. induction fuel as [|fuel IH]; intros s I Hf; pose proof (i_pos _ I);
    cbn [loop]; rewrite (u32_id (newSize - endSize)) by sizes;
    (case_if; [|by intros [= <-]]); [done|]. intros H'. inv_bind H'.
  assert (D : (flag_handle_probe s <> None \/ due s = true) \/ flag_handle_probe s = None /\ due s = false).
  { destruct (flag_handle_probe s), (due s); auto. }
  destruct D as [D|[D1 D2]]; [|by rewrite step_undefined in E0].
  destruct (step_ok s I ltac:(lia) Hf D) as (s1 & E1 & I1 & P1 & F1).
  rewrite E1 in E0. injection E0 as <-. apply (IH s1); [done|by rewrite F1|done].
Qed.

(** ** Before and after the loop *)

Lemma encode_start_ok buf0 t p begSize :
  wf p t -> p <= 20 -> elements t = [] -> head_ok begSize -> (begSize = 0 \/ 16 < begSize) ->
  begSize <= nlim -> begSize <= blim ->
  inv (encode_start buf0 t begSize).
Proof.
  intros W P El (Hs & Hb & A) H16 Hn Hbl'.
  assert (Tk : table_ok (SetOffset t 24) 0).
  { constructor; [exists p; split; [by apply SetOffset_wf|done]| |].
    - intros k d. change (elements (SetOffset t 24)) with (elements t). rewrite El. intros H.
      by apply elem_of_nil in H.
    - cbn. rewrite (wf_num _ _ W), El. by cbn. }
  constructor; try done; cbn [encode_start inputPos]; [|lia| |].
  - constructor; cbn; [lia|exact Tk|left; unfold blen; cbn; lia|done].
  - cbn [encode_start e_out]. set (o := {| deltaBuf := buf0 |}).
    assert (R0 : regs o) by (constructor; [cbn; pose proof (blen_nonneg buf0); lia|done|done]).
    assert (P0 : plain o 0 []) by done.
    case_if; [|replace begSize with 0 by lia; split; [done|]; exists []; split; [by constructor|left; done]].
    rewrite (set_length_copy _ begSize) by (done || sizes).
    destruct (put_copy_ok o 0 [] (mk_unit1 begSize 0) R0) as (R1 & D1 & ops & Hok & Pl); try done; cbn; sizes.
    split; [destruct R1; constructor; done|]. exists ops. split; [done|]. left. split; [done|exact Pl].
  - cbn [encode_start e_out]. left. unfold room. case_if; cbn; [|lia].
    unfold sizeof_unit1. rewrite u32_id; lia.
Qed.

(** A finished delta: a script that rebuilds the input. *)
Definition complete (buf : bytes) (len : Z) : Prop :=
  0 <= len <= blen buf /\ len <= newSize + 11 /\
  exists ops, ops <> [] /\ Forall (op_ok baseBuf) ops /\
    take (Z.to_nat len) buf = encs ops /\ apply_ops baseBuf ops = take (Z.to_nat newSize) newBuf.

Lemma plain_complete o ops :
  0 <= deltaLen o <= blen (deltaBuf o) -> deltaLen o <= newSize + 11 ->
  Forall (op_ok baseBuf) ops -> plain o newSize ops -> complete (deltaBuf o) (deltaLen o).
Proof.
  intros L B Hok [P1 P2]. split; [done|]. split; [done|]. exists ops. split_and!; try done.
  intros ->. apply (f_equal blen) in P2. rewrite blen_take in P2 by lia. unfold blen in P2. cbn in P2. lia.
Qed.

Lemma encode_end_ok o :
  written o nlim -> room_end o nlim -> tail_ok endSize -> (endSize = 0 \/ 16 < endSize) ->
  complete (deltaBuf (encode_end baseSize endSize o)) (deltaLen (encode_end baseSize endSize o)).
Proof.
  intros W R (_ & _ & A) H16.
  assert (Rl : deltaLen o <= nlim + 11) by (destruct R as [R|[_ R]]; [unfold room in R; case_if_in R; lia|lia]).
  assert (C : exists o1, o1 = close_run o /\ regs o1 /\ deltaLen o1 = deltaLen o /\
            exists ops, Forall (op_ok baseBuf) ops /\ plain o1 nlim ops).
  { exists (close_run o). split; [done|].
    destruct (close_run_ok o nlim W ltac:(lia) ltac:(sizes)) as (Rg & Dl & H2 & Fl & H1 & ops & Hok & C).
    split; [done|]. split; [done|]. destruct C as [[_ P]|[_ (d & O)]]; [by exists ops|].
    destruct (open_run_len _ _ _ _ _ Rg O ltac:(lia)) as (_ & _ & Hd & _).
    rewrite <- H2 in O. by eapply open_run_plain. }
  destruct C as (o1 & E1 & Rg & Dl & ops & Hok & P).
  unfold encode_end. rewrite <- E1.
  case_if.
  - rewrite (set_length_copy _ endSize) by (try apply Rg; sizes).
    rewrite (u32_id (baseSize - endSize)) by sizes.
    destruct (put_copy_ok o1 nlim ops (mk_unit1 endSize blim) Rg) as (R1 & D1 & ops' & Hok' & P');
      try done; cbn [u1_flag_length u1_nOffset]; sizes.
    cbn [u1_flag_length] in P'. replace (nlim + endSize) with newSize in P' by lia.
    eapply plain_complete; [apply R1|lia|done|done].
  - replace nlim with newSize in * by lia. eapply plain_complete; [apply Rg|lia|done|done].
Qed.
End enc.
