(* ===== verification/EDeltaCorrect.v ===== *)
(** The delta codec's contract: what is encoded decodes to itself, the length of a
    delta, when the encoder's result is defined, termination. *)
From Stdlib Require Import ZArith Lia.
From stdpp Require Import base list.
From S2P Require Import Prelude Gear HTable EDelta EDeltaFormat EDeltaEnc.

(** ** The branch where head and tail cover the base *)

Section covered.
Context (newBuf : bytes) (newSize : Z) (baseBuf : bytes) (baseSize : Z).
Context (Hns : 0 < newSize <= size_max) (Hbs : 0 <= baseSize <= size_max).
Context (Hnl : newSize <= blen newBuf) (Hbl : baseSize <= blen baseBuf).

(** The state of the writer between two records. *)
Definition ready (o : out) (pos slack : Z) : Prop :=
  0 <= deltaLen o <= blen (deltaBuf o) /\ deltaLen o <= pos + slack /\
  exists ops, Forall (op_ok baseBuf) ops /\ plain newBuf baseBuf o pos ops.

Lemma ready_copy o pos slack len off :
  ready o pos slack -> 0 <= slack <= 4 -> 16 < len -> 0 <= pos -> pos + len <= newSize ->
  0 <= off -> off + len <= baseSize -> agree newBuf baseBuf off pos len ->
  ready (put_unit1 o (mk_unit1 len off)) (pos + len) slack.
Proof.
  intros (L & B & ops & Hok & P) Hs Hl Hp Hn Ho Hb A.
  destruct (put_copy_plain newBuf newSize baseBuf baseSize Hbs Hbl o pos ops (mk_unit1 len off))
    as (E & G & ops' & Hok' & P'); try done; cbn [u1_flag_length u1_nOffset]; unfold size_max in *; try lia.
  unfold ready. rewrite E. split; [lia|]. split; [lia|]. by exists ops'.
Qed.

Lemma covered_ok beg fin buf0 junk :
  head_ok newBuf newSize baseBuf baseSize beg -> (beg = 0 \/ 16 < beg) ->
  tail_ok newBuf newSize baseBuf baseSize fin -> (fin = 0 \/ 16 < fin) -> beg + fin <= newSize ->
  let o := encode_covered newBuf newSize baseSize beg fin buf0 junk in
  complete newBuf newSize baseBuf (deltaBuf o) (deltaLen o).
Proof.
  intros (Hb & Hbb & Ab) B16 (Hf & Hfb & Af) F16 Hsum. unfold encode_covered. cbn zeta.
  set (o0 := {| deltaBuf := buf0 |}).
  assert (R0 : ready o0 0 0).
  { pose proof (blen_nonneg buf0). split; [cbn; lia|]. split; [cbn; lia|]. exists []. by split. }
  set (o1 := if 0 <? beg then _ else o0).
  assert (R1 : ready o1 beg 0).
  { subst o1. case_if; [|by replace beg with 0 by lia].
    rewrite set_length_copy by (try apply set_flag_copy; unfold size_max in *; lia).
    apply (ready_copy o0 0 0 beg 0); try done; lia. }
  rewrite (u32_id (newSize - beg)), u32_id by (unfold size_max in *; lia).
  set (n := newSize - beg - fin). set (o2 := if 0 <? n then _ else o1).
  assert (R2 : ready o2 (newSize - fin) 4).
  { destruct R1 as (L1 & D1 & ops & Hok & P). subst o2. case_if.
    - rewrite set_length_insert by (try (by apply set_flag_insert); unfold size_max in *; lia).
      rewrite get_length_insert by (unfold size_max in *; lia). unfold sizeof_unit2.
      rewrite (u32_id (deltaLen o1 + 4)), u32_id by (unfold size_max in *; lia).
      set (o' := {| deltaBuf := _ |}).
      destruct (put_insert_plain newBuf newSize baseBuf Hns Hnl o1 o' beg ops n)
        as (G & ops' & Hok' & P'); try done; try lia.
      replace (beg + n) with (newSize - fin) in P' by lia.
      split; [split; [cbn; lia|done]|]. split; [cbn; lia|]. by exists ops'.
    - replace (newSize - fin) with beg by lia. split; [done|]. split; [lia|]. by exists ops. }
  assert (R3 : ready (if 0 <? fin then put_unit1 o2 (mk_unit1
      (set_length (set_flag (u1_flag_length (record1 o2)) 0) fin) (u32 (baseSize - fin))) else o2) newSize 4).
  { case_if; [|by replace (newSize - fin) with newSize in R2 by lia].
    rewrite set_length_copy by (try apply set_flag_copy; unfold size_max in *; lia).
    rewrite u32_id by (unfold size_max in *; lia).
    pose proof (ready_copy o2 (newSize - fin) 4 fin (baseSize - fin)) as C.
    replace (newSize - fin + fin) with newSize in C by lia. apply C; try done; lia. }
  destruct R3 as (L & D & ops & Hok & P). cbn zeta.
  eapply plain_complete; try done; try lia.
Qed.
End covered.

(** ** The contract *)

(** The encoder reads [flag_handle_probe] uninitialised: the head and the tail cover
    neither the base nor the input, and the first turn of the loop does not cut the base. *)
Definition encode_undefined (newBuf : bytes) (newSize : Z) (baseBuf : bytes) (baseSize : Z) : bool :=
  let beg := head_scan newBuf newSize baseBuf baseSize in
  let fin := tail_scan newBuf newSize baseBuf baseSize beg in
  negb (baseSize <=? u32 (beg + fin)) && (beg + fin <? newSize) &&
  negb (base_due beg newSize beg baseSize).

(** The arguments a caller passes: two non-empty buffers of bytes holding the sizes
    given with them, and the empty table that the previous call left. *)
Record encode_pre (newBuf : bytes) (newSize : Z) (baseBuf : bytes) (baseSize : Z)
    (t : htable DeltaRecord) : Prop := {
  ep_new : bytes_ok newBuf;
  ep_base : bytes_ok baseBuf;
  ep_ns : 0 < newSize <= size_max;
  ep_bs : 0 <= baseSize <= size_max;
  ep_nl : newSize <= blen newBuf;
  ep_bl : baseSize <= blen baseBuf;
  ep_table : exists p, wf p t /\ p <= 20;
  ep_empty : elements t = []
}.

Section contract.
Context (newBuf : bytes) (newSize : Z) (baseBuf : bytes) (baseSize : Z).
Context (buf0 : bytes) (t : htable DeltaRecord) (junk : Z).
Context (Pre : encode_pre newBuf newSize baseBuf baseSize t).

Lemma if_gt16 s : (if 16 <? s then s else 0) = 0 \/ 16 < (if 16 <? s then s else 0).
Proof. case_if; [by right|by left]. Qed.

Lemma encode_cases :
  let beg := head_scan newBuf newSize baseBuf baseSize in
  let fin := tail_scan newBuf newSize baseBuf baseSize beg in
  head_ok newBuf newSize baseBuf baseSize beg /\ (beg = 0 \/ 16 < beg) /\
  tail_ok newBuf newSize baseBuf baseSize fin /\ (fin = 0 \/ 16 < fin) /\ beg + fin <= newSize /\
  u32 (beg + fin) = beg + fin.
Proof.
  cbn zeta. destruct Pre as [Hnew Hbase Hns Hbs Hnl Hbl _ _].
  pose proof (head_scan_ok newBuf newSize baseBuf baseSize Hnew Hbase Hns Hbs Hnl Hbl) as H.
  set (beg := head_scan _ _ _ _) in *. pose proof (proj1 H) as Hr.
  destruct (tail_scan_ok newBuf newSize baseBuf baseSize Hnew Hbase Hns Hbs Hnl Hbl beg Hr) as (T & S).
  split; [done|]. split; [apply if_gt16|]. split; [done|]. split; [apply if_gt16|]. split; [done|].
  destruct T as (? & _). apply u32_id. unfold size_max in *. lia.
Qed.

Lemma loop_end s fin :
  inv newBuf newSize baseBuf baseSize fin s -> flag_handle_probe s = None ->
  due newSize baseSize s = true \/ newSize - fin <= inputPos s ->
  0 <= fin <= newSize -> fin < baseSize ->
  exists s', loop newBuf newSize baseBuf baseSize fin (Z.to_nat newSize) s = Ok s' /\
    inv newBuf newSize baseBuf baseSize fin s' /\ inputPos s' = newSize - fin.
Proof.
  destruct Pre as [Hnew Hbase Hns Hbs Hnl Hbl _ _]. intros I F D Hf Hfb.
  pose proof (i_pos _ _ _ _ _ _ I) as Hp. destruct (Z.lt_ge_cases (inputPos s) (newSize - fin)).
  - destruct D as [D|D]; [|lia].
    apply loop_ok; try done; try lia; [by rewrite F|by right].
  - exists s. destruct (Z.to_nat newSize) as [|f] eqn:E; [lia|]. cbn [loop].
    rewrite u32_id by (unfold size_max in *; lia). rewrite (proj2 (Z.ltb_ge _ _)) by lia.
    split; [done|]. split; [done|lia].
Qed.

(** Either the behaviour is undefined, or the encoder returns a complete delta and
    leaves the table empty for the next call. *)
Lemma EDeltaEncode_cases :
  if encode_undefined newBuf newSize baseBuf baseSize
  then EDeltaEncode newBuf newSize baseBuf baseSize buf0 t junk = Err Undefined
  else exists d n t', EDeltaEncode newBuf newSize baseBuf baseSize buf0 t junk = Ok (d, n, t') /\
         complete newBuf newSize baseBuf d n /\ (exists p, wf p t' /\ p <= 20) /\ elements t' = [].
Proof.
  destruct encode_cases as (Hh & H16 & Ht & T16 & Hsum & U).
  unfold encode_undefined, EDeltaEncode. cbn zeta.
  set (beg := head_scan _ _ _ _) in *. set (fin := tail_scan _ _ _ _ beg) in *. rewrite U.
  destruct Pre as [Hnew Hbase Hns Hbs Hnl Hbl (p & W & Pp) El].
  destruct (baseSize <=? beg + fin) eqn:C; cbn [negb andb]; boolz.
  { eexists _, _, t. split; [reflexivity|]. split; [|split; [by exists p|done]].
    by apply covered_ok. }
  pose proof Hh as (Hb0 & Hb1 & _). pose proof Ht as (Hf0 & _ & _).
  pose proof (encode_start_ok newBuf newSize baseBuf baseSize Hns Hbs Hbl fin
    buf0 t p beg W Pp El Hh H16 ltac:(lia) ltac:(lia)) as I.
  set (s0 := encode_start buf0 t beg) in *.
  assert (P0 : inputPos s0 = beg) by done. assert (F0 : flag_handle_probe s0 = None) by done.
  assert (D0 : due newSize baseSize s0 = base_due beg newSize beg baseSize) by done.
  assert (G : due newSize baseSize s0 = true \/ newSize - fin <= beg ->
    exists d n t', (s <-- loop newBuf newSize baseBuf baseSize fin (Z.to_nat newSize) s0 ;;
      Ok (deltaBuf (encode_end baseSize fin (e_out s)), deltaLen (encode_end baseSize fin (e_out s)),
          ResetTable (psHTable s))) = Ok (d, n, t') /\
    complete newBuf newSize baseBuf d n /\ (exists p, wf p t' /\ p <= 20) /\ elements t' = []).
  { intros Hd. destruct (loop_end s0 fin I F0 Hd) as (s & E1 & I' & E2); try done; try lia.
    rewrite E1. cbn [rbind]. eexists _, _, _. split; [reflexivity|].
    pose proof (i_out _ _ _ _ _ _ I') as Wo. pose proof (i_room _ _ _ _ _ _ I') as Ro. rewrite E2 in Wo, Ro.
    split; [apply encode_end_ok; try done; lia|].
    destruct (to_wf _ _ _ _ (bi_table _ _ _ (i_base _ _ _ _ _ _ I'))) as (q & Wq & Q).
    destruct (ResetTable_wf q _ Wq) as [? ?]. split; [by exists q|done]. }
  destruct (beg + fin <? newSize) eqn:Lt; cbn [andb]; boolz; [|apply G; right; lia].
  destruct (base_due beg newSize beg baseSize) eqn:Due; cbn [negb]; [apply G; by left|].
  destruct (Z.to_nat newSize) as [|f] eqn:F; [lia|]. cbn [loop].
  rewrite (u32_id (newSize - fin)), P0, (proj2 (Z.ltb_lt _ _)) by (unfold size_max in *; lia).
  rewrite step_undefined by (done || lia). done.
Qed.

(** A complete delta decodes to the input. *)
Lemma complete_decodes d n out0 :
  complete newBuf newSize baseBuf d n ->
  exists out, EDeltaDecode d n baseBuf out0 = Ok (out, newSize) /\
    take (Z.to_nat newSize) out = take (Z.to_nat newSize) newBuf /\
    blen out = Z.max (blen out0) newSize.
Proof.
  destruct Pre as [_ _ Hns _ Hnl _ _ _]. intros (L & B & ops & Hne & Hok & Ht & Ha).
  unfold size_max in *. assert (E : blen (apply_ops baseBuf ops) = newSize) by (rewrite Ha; apply blen_take; lia).
  destruct (decode_encs baseBuf ops d n out0) as (out & D & T & Bo); try done; try lia.
  rewrite E in *. exists out. rewrite <- Ha. done.
Qed.

(** The records of the base stay within what the loop can count. *)
Lemma loop_BaseLink fin s :
  0 <= fin <= newSize -> fin < baseSize -> 
  inv newBuf newSize baseBuf baseSize fin s ->
  13 * blen (BaseLink s) <= baseSize + 12 + 13 * 45.
Proof.
  intros Hf Hfb I. pose proof (bi_count _ _ _ (i_base _ _ _ _ _ _ I)) as C.
  pose proof (bi_cb _ _ _ (i_base _ _ _ _ _ _ I)). unfold count_ok in C. case_if_in C; lia.
Qed.
End contract.

(** What the two records hold before they are set plays no part. *)
Lemma encode_covered_junk newBuf newSize baseSize beg fin buf0 j k :
  0 <= beg < 2 ^ 31 -> 0 <= fin < 2 ^ 31 -> 0 <= newSize - beg - fin < 2 ^ 31 -> newSize < 2 ^ 31 ->
  let o := encode_covered newBuf newSize baseSize beg fin buf0 in
  deltaBuf (o j) = deltaBuf (o k) /\ deltaLen (o j) = deltaLen (o k).
Proof.
  intros Hb Hf Hn Hs. cbn zeta. unfold encode_covered. cbn zeta.
  rewrite (u32_id (newSize - beg)), (u32_id (newSize - beg - fin)) by lia.
  rewrite !(set_length_copy _ beg) by (try apply set_flag_copy; lia).
  rewrite !(set_length_copy _ fin) by (try apply set_flag_copy; lia).
  rewrite !(set_length_insert _ (newSize - beg - fin)) by (try (by apply set_flag_insert); lia).
  split; destruct (0 <? beg), (0 <? newSize - beg - fin), (0 <? fin); reflexivity.
Qed.
