(* ===== verification/Codec.v ===== *)
(** The delta codec as its owners expose it: [ed3_encode] of [EcallFreqIndex] and
    [EcallMeGA], the buffer variants of [OFFLineBackward], [ed3_decode] of
    [EcallRecvDecoder]; and the codec's properties. *)
From Stdlib Require Import ZArith Lia.
From stdpp Require Import base list.
From S2P Require Import Prelude Types Gear HTable EDelta EDeltaFormat EDeltaEnc EDeltaCorrect.

(** ** The owners *)

Module EcallFreqIndex.
(** The sizes are [size_t] here and [uint32_t] in [EDeltaEncode]. *)
Definition ed3_encode (chunk : bytes) (in_size : Z) (ref : bytes) (ref_size : Z)
    (tmpbuffer : bytes) (psHTable2_ : htable DeltaRecord) (junk : Z)
  : result (bytes * Z * htable DeltaRecord) :=
  EDeltaEncode chunk (u32 in_size) ref (u32 ref_size) tmpbuffer psHTable2_ junk.
End EcallFreqIndex.

Module EcallMeGA.
(** The same text as in [EcallFreqIndex]. *)
Definition EDeltaEncode := EDelta.EDeltaEncode.
Definition ed3_encode (chunk : bytes) (in_size : Z) (ref : bytes) (ref_size : Z)
    (tmpbuffer : bytes) (psHTable2_ : htable DeltaRecord) (junk : Z)
  : result (bytes * Z * htable DeltaRecord) :=
  EDeltaEncode chunk (u32 in_size) ref (u32 ref_size) tmpbuffer psHTable2_ junk.
End EcallMeGA.

Module OFFLineBackward.
(** The same text again, but the table is also reset before the loop. *)
Definition EDeltaEncode (newBuf : bytes) (newSize : Z) (baseBuf : bytes) (baseSize : Z)
    (deltaBuf0 : bytes) (table : htable DeltaRecord) (junk : Z)
  : result (bytes * Z * htable DeltaRecord) :=
  let begSize := head_scan newBuf newSize baseBuf baseSize in
  let endSize := tail_scan newBuf newSize baseBuf baseSize begSize in
  EDelta.EDeltaEncode newBuf newSize baseBuf baseSize deltaBuf0
    (if baseSize <=? u32 (begSize + endSize) then table else ResetTable table) junk.
Definition EDeltaDecode := EDelta.EDeltaDecode.

Definition ed3_encode_buffer (chunk : bytes) (in_size : Z) (ref : bytes) (ref_size : Z)
    (res : bytes) (psHTable2_ : htable DeltaRecord) (junk : Z)
  : result (bytes * Z * htable DeltaRecord) :=
  EDeltaEncode chunk (u32 in_size) ref (u32 ref_size) res psHTable2_ junk.
(** The result buffer and its size. *)
Definition ed3_decode_buffer (delta : bytes) (in_size : Z) (ref : bytes) (ref_size : Z)
    (res : bytes) : result (bytes * Z) :=
  EDeltaDecode delta (u32 in_size) ref res.
End OFFLineBackward.

Module EcallRecvDecoder.
Definition EDeltaDecode := EDelta.EDeltaDecode.
(** The output goes through a heap buffer of [max_buffer_size] bytes; writing past
    it is undefined.  The result is the fresh buffer [res]. *)
Definition ed3_decode (delta : bytes) (in_size : Z) (ref : bytes) (ref_size : Z)
  : result bytes :=
  let max_buffer_size := u64 (u64 (in_size + ref_size) * 2) in
  x <-- EDeltaDecode delta (u32 in_size) ref [] ;;
  let '(buffer, sz) := x in
  if max_buffer_size <? blen buffer then Err Undefined else Ok (take (Z.to_nat sz) buffer).
End EcallRecvDecoder.

(** ** Properties *)

(** The arguments at hand, with room for a caller's table: [htable::init(0, 8, 64)]. *)
Definition small_table : htable DeltaRecord := init 0 8 64.
Lemma small_table_ok : (exists p, wf p small_table /\ p <= 20) /\ elements small_table = [].
Proof.
  destruct (@init_wf DeltaRecord 0 8 64 5 eq_refl) as [W E]; [lia|].
  split; [exists 5; split; [exact W|lia]|exact E].
Qed.
(** The table of the client: [htable::init(0, 8, 16 * 1024)] of ecallClient.cc. *)
Lemma client_table_ok :
  (exists p, wf p (@init DeltaRecord 0 8 (16 * 1024)) /\ p <= 20) /\
  elements (@init DeltaRecord 0 8 (16 * 1024)) = [].
Proof.
  destruct (@init_wf DeltaRecord 0 8 (16 * 1024) 13 eq_refl) as [W E]; [lia|].
  split; [exists 13; split; [exact W|lia]|exact E].
Qed.

Lemma small_pre newBuf baseBuf :
  bool_decide (bytes_ok newBuf) && bool_decide (bytes_ok baseBuf) &&
  (0 <? blen newBuf) && (blen newBuf <=? size_max) && (blen baseBuf <=? size_max) = true ->
  encode_pre newBuf (blen newBuf) baseBuf (blen baseBuf) small_table.
Proof.
  intros H. boolz. destruct small_table_ok. pose proof (blen_nonneg baseBuf).
  constructor; try by eapply bool_decide_eq_true_1. all: try done; lia.
Qed.

(** A pseudo-random sequence of bytes, for the examples. *)
Fixpoint noise (n : nat) (x : Z) : bytes :=
  match n with
  | O => []
  | S n => let x := (x * 1103515245 + 12345) mod 2 ^ 31 in (x / 2 ^ 16) mod 256 :: noise n x
  end.

Definition ex_base : bytes := noise 200 7.
Definition ex_new : bytes := noise 20 1 ++ take 150 ex_base ++ noise 20 2 ++ drop 170 ex_base ++ [1].

(** The two halves of the round trip: the encoder completes a delta, and a complete
    delta decodes to the chunk. *)
Lemma encode_complete newBuf newSize baseBuf baseSize buf0 t junk :
  encode_pre newBuf newSize baseBuf baseSize t ->
  encode_undefined newBuf newSize baseBuf baseSize = false ->
  exists d n t',
    EcallFreqIndex.ed3_encode newBuf newSize baseBuf baseSize buf0 t junk = Ok (d, n, t') /\
    encode_pre newBuf newSize baseBuf baseSize t' /\ complete newBuf newSize baseBuf d n.
Proof.
  intros P U. pose proof (EDeltaEncode_cases newBuf newSize baseBuf baseSize buf0 t junk P) as C.
  rewrite U in C. destruct C as (d & n & t' & E & Cm & T & El). exists d, n, t'.
  pose proof P as [Hnew Hbase Hns Hbs Hnl Hbl _ _]. unfold size_max in *.
  split; [|split; [by constructor|done]]. unfold EcallFreqIndex.ed3_encode. unwrap. exact E.
Qed.
Lemma complete_decode newBuf newSize baseBuf baseSize t d n :
  encode_pre newBuf newSize baseBuf baseSize t -> complete newBuf newSize baseBuf d n -> newSize <= 2 * (n + baseSize) ->
  EcallRecvDecoder.ed3_decode d n baseBuf baseSize = Ok (take (Z.to_nat newSize) newBuf).
Proof.
  intros P Cm Hroom. pose proof P as [Hnew Hbase Hns Hbs Hnl Hbl _ _]. unfold size_max in *.
  unfold EcallRecvDecoder.ed3_decode, EcallRecvDecoder.EDeltaDecode.
  destruct (complete_decodes newBuf newSize baseBuf baseSize t P d n [] Cm) as (out & D & Ho & Bo).
  destruct Cm as (Hd & Hn & _). change (blen (@nil Z)) with 0 in Bo. unwrap.
  rewrite D. cbn [rbind]. rewrite (proj2 (Z.ltb_ge _ _)) by lia. by rewrite Ho.
Qed.

(** What is stored is the delta without the rest of the encoder's buffer. *)
Lemma complete_slice newBuf newSize baseBuf d n :
  complete newBuf newSize baseBuf d n -> complete newBuf newSize baseBuf (slice d 0 n) n.
Proof.
  intros (Hd & Hn & ops & H1 & H2 & H3 & H4). split; [rewrite blen_slice; lia|]. split; [lia|].
  exists ops. split; [done|]. split; [done|]. split; [|done]. rewrite slice_0, take_take. by rewrite Nat.min_id.
Qed.

(** C12. A chunk encoded against a base by [ed3_encode] is rebuilt exactly by
    [ed3_decode] of the receiver from the delta and the same base, when the decoder's
    buffer, [2 * (in_size + ref_size)] bytes, holds it; the encoder leaves the hash
    table empty for the next chunk. *)
Theorem ed3_roundtrip newBuf newSize baseBuf baseSize buf0 t junk :
  encode_pre newBuf newSize baseBuf baseSize t ->
  encode_undefined newBuf newSize baseBuf baseSize = false ->
  exists d n t',
    EcallFreqIndex.ed3_encode newBuf newSize baseBuf baseSize buf0 t junk = Ok (d, n, t') /\
    encode_pre newBuf newSize baseBuf baseSize t' /\
    (newSize <= 2 * (n + baseSize) ->
     EcallRecvDecoder.ed3_decode d n baseBuf baseSize = Ok (take (Z.to_nat newSize) newBuf)).
Proof.
  intros P U. destruct (encode_complete newBuf newSize baseBuf baseSize buf0 t junk P U) as (d & n & t' & E & P' & C).
  exists d, n, t'. split; [done|]. split; [done|]. by eapply complete_decode.
Qed.

Lemma ed3_roundtrip_witness :
  exists d n t',
    EcallFreqIndex.ed3_encode ex_new (blen ex_new) ex_base (blen ex_base) [] small_table 0 = Ok (d, n, t') /\
    encode_pre ex_new (blen ex_new) ex_base (blen ex_base) t' /\
    (blen ex_new <= 2 * (n + blen ex_base) ->
     EcallRecvDecoder.ed3_decode d n ex_base (blen ex_base) = Ok (take (Z.to_nat (blen ex_new)) ex_new)).
Proof.
  apply (ed3_roundtrip ex_new (blen ex_new) ex_base (blen ex_base) [] small_table 0).
  - apply small_pre. vm_compute. reflexivity.
  - vm_compute. reflexivity.
Defined.

(** C16. [EDeltaEncode] returns a result for every input, except exactly when the
    common head and tail cover neither buffer and the pacing test of the first turn
    fails: then it reads [flag_handle_probe] before any assignment to it. *)
Theorem EDeltaEncode_defined newBuf newSize baseBuf baseSize buf0 t junk :
  encode_pre newBuf newSize baseBuf baseSize t ->
  (EDeltaEncode newBuf newSize baseBuf baseSize buf0 t junk = Err Undefined <->
   encode_undefined newBuf newSize baseBuf baseSize = true) /\
  (encode_undefined newBuf newSize baseBuf baseSize = false <->
   exists r, EDeltaEncode newBuf newSize baseBuf baseSize buf0 t junk = Ok r).
Proof.
  intros P. pose proof (EDeltaEncode_cases newBuf newSize baseBuf baseSize buf0 t junk P) as C.
  destruct (encode_undefined newBuf newSize baseBuf baseSize).
  - rewrite C. split; [done|]. split; [done|]. by intros [r ?].
  - destruct C as (d & n & t' & -> & _). split; [done|]. split; [by eexists|done].
Qed.

(** Thirty bytes of a 40-byte base start a long input: the head is most of the base. *)
Definition ex_ub_base : bytes := noise 40 3.
Definition ex_ub_new : bytes := take 30 ex_ub_base ++ noise 400 5.

Lemma EDeltaEncode_defined_witness :
  EDeltaEncode ex_ub_new (blen ex_ub_new) ex_ub_base (blen ex_ub_base) [] small_table 0 = Err Undefined.
Proof.
  apply (EDeltaEncode_defined ex_ub_new (blen ex_ub_new) ex_ub_base (blen ex_ub_base) [] small_table 0).
  - apply small_pre. vm_compute. reflexivity.
  - vm_compute. reflexivity.
Defined.

(** C35. The delta of a chunk is at most 11 bytes longer than the chunk. *)
Theorem EDeltaEncode_size newBuf newSize baseBuf baseSize buf0 t junk d n t' :
  encode_pre newBuf newSize baseBuf baseSize t ->
  EDeltaEncode newBuf newSize baseBuf baseSize buf0 t junk = Ok (d, n, t') ->
  0 <= n <= newSize + 11 /\ n <= blen d.
Proof.
  intros P E. pose proof (EDeltaEncode_cases newBuf newSize baseBuf baseSize buf0 t junk P) as C.
  destruct (encode_undefined _ _ _ _); [congruence|].
  destruct C as (d' & n' & t'' & E' & (L & B & _) & _). rewrite E in E'. injection E' as -> -> ->. lia.
Qed.

Lemma EDeltaEncode_size_witness :
  exists d n t', EDeltaEncode ex_new (blen ex_new) ex_base (blen ex_base) [] small_table 0 = Ok (d, n, t') /\
  (0 <= n <= blen ex_new + 11 /\ n <= blen d).
Proof.
  eexists _, _, _. split; [vm_compute; reflexivity|].
  eapply (EDeltaEncode_size ex_new (blen ex_new) ex_base (blen ex_base) [] small_table 0);
    [apply small_pre|]; vm_compute; reflexivity.
Defined.

(** C38. [EDeltaDecode] ends on any buffer, well formed or not: it reads at least
    four bytes of the delta in every turn. *)
Theorem EDeltaDecode_terminates delta deltaSize base out0 :
  0 <= deltaSize -> blen delta < 2 ^ 31 ->
  EDeltaDecode delta deltaSize base out0 <> Err Fuel.
Proof. intros. unfold EDeltaDecode. apply decode_loop_no_fuel; lia. Qed.

Lemma EDeltaDecode_terminates_witness :
  EDeltaDecode [1; 2; 3; 255; 0; 0; 0; 128] 8 [] [] <> Err Fuel.
Proof. apply EDeltaDecode_terminates; vm_compute; done. Defined.

(** What the client allocates for the encoder (ecallClient.cc): the slots of [BaseLink_]
    and the hash table. *)
Definition BaseLink_slots : Z := MAX_CHUNK_SIZE / STRMIN + 50.
Definition client_table : htable DeltaRecord := init 0 8 (16 * 1024).

Lemma encode_run newBuf newSize baseBuf baseSize buf0 t :
  encode_pre newBuf newSize baseBuf baseSize t -> encode_undefined newBuf newSize baseBuf baseSize = false ->
  let begSize := head_scan newBuf newSize baseBuf baseSize in
  let endSize := tail_scan newBuf newSize baseBuf baseSize begSize in
  begSize + endSize < baseSize ->
  exists s, loop newBuf newSize baseBuf baseSize endSize (Z.to_nat newSize) (encode_start buf0 t begSize) = Ok s /\
    inv newBuf newSize baseBuf baseSize endSize s /\ 0 <= endSize <= newSize /\ endSize < baseSize.
Proof.
  intros P Un begSize endSize Hc.
  destruct (encode_cases newBuf newSize baseBuf baseSize t P) as (Hh & H16 & Ht & _ & Hsum & U).
  unfold encode_undefined in Un. cbn zeta in Un. fold begSize endSize in Hh, H16, Ht, Hsum, U, Un. rewrite U in Un.
  pose proof P as [Hnew Hbase Hns Hbs Hnl Hbl (p & W & Pp) El].
  pose proof Hh as (Hb0 & Hb1 & _). pose proof Ht as (Hf0 & _ & _).
  assert (I : inv newBuf newSize baseBuf baseSize endSize (encode_start buf0 t begSize))
    by (eapply encode_start_ok; try done; lia).
  destruct (loop_end newBuf newSize baseBuf baseSize t P (encode_start buf0 t begSize) endSize I eq_refl) as (s & E & I' & _); try lia.
  - rewrite (proj2 (Z.leb_gt _ _)) in Un by lia. cbn [negb andb] in Un.
    destruct (begSize + endSize <? newSize) eqn:Lt; cbn [andb] in Un; boolz; [left|right; cbn; lia].
    exact Un.
  - exists s. split; [done|]. split; [done|]. lia.
Qed.

(** C40. The encoder stays within what the client allocates for it.  For any new chunk,
    and any base of at most [MAX_CHUNK_SIZE] bytes, whose comparison is defined, the loop
    ends; the records it has made of the base, which it only adds to, fit the slots of
    [BaseLink_], and the hash table has not reached the size at which the client's would
    grow. *)
Theorem BaseLink_capacity newBuf newSize baseBuf baseSize buf0 t :
  encode_pre newBuf newSize baseBuf baseSize t -> baseSize <= MAX_CHUNK_SIZE ->
  encode_undefined newBuf newSize baseBuf baseSize = false ->
  let begSize := head_scan newBuf newSize baseBuf baseSize in
  let endSize := tail_scan newBuf newSize baseBuf baseSize begSize in
  begSize + endSize < baseSize ->
  exists s, loop newBuf newSize baseBuf baseSize endSize (Z.to_nat newSize) (encode_start buf0 t begSize) = Ok s /\
    blen (BaseLink s) <= BaseLink_slots /\ num_items (psHTable s) < max_items client_table.
Proof.
  intros P Hb Un begSize endSize Hc.
  destruct (encode_run newBuf newSize baseBuf baseSize buf0 t P Un Hc) as (s & E & I & Hf & Hfb).
  exists s. split; [exact E|].
  pose proof (loop_BaseLink newBuf newSize baseBuf baseSize endSize s Hf Hfb I) as L.
  pose proof (to_num _ _ _ _ (bi_table _ _ _ (i_base _ _ _ _ _ _ I))).
  change BaseLink_slots with 1415. change (max_items client_table) with 32768. unfold MAX_CHUNK_SIZE in Hb. lia.
Qed.

Lemma BaseLink_capacity_witness :
  exists s, loop ex_new (blen ex_new) ex_base (blen ex_base) 0 (Z.to_nat (blen ex_new))
    (encode_start [] small_table 0) = Ok s /\
  blen (BaseLink s) <= BaseLink_slots /\ num_items (psHTable s) < max_items client_table.
Proof.
  apply (BaseLink_capacity ex_new (blen ex_new) ex_base (blen ex_base) [] small_table).
  - apply small_pre. vm_compute. reflexivity.
  - by_decide.
  - vm_compute. reflexivity.
  - vm_compute. reflexivity.
Defined.

(** What the uninitialised records of the encoder hold does not show in the
    delta. *)
Theorem EDeltaEncode_junk newBuf newSize baseBuf baseSize buf0 t j k :
  encode_pre newBuf newSize baseBuf baseSize t ->
  EDeltaEncode newBuf newSize baseBuf baseSize buf0 t j = EDeltaEncode newBuf newSize baseBuf baseSize buf0 t k.
Proof.
  intros P. destruct (encode_cases newBuf newSize baseBuf baseSize t P) as (Hh & _ & Ht & _ & Hsum & _).
  destruct P as [_ _ Hns _ _ _ _ _]. unfold EDeltaEncode. cbn zeta.
  set (beg := head_scan _ _ _ _) in *. set (fin := tail_scan _ _ _ _ beg) in *.
  destruct Hh as (Hb & _). destruct Ht as (Hf & _). unfold size_max in *.
  case_if; [|done].
  destruct (encode_covered_junk newBuf newSize baseSize beg fin buf0 j k) as [-> ->]; done || lia.
Qed.

Lemma EDeltaEncode_junk_witness :
  EDeltaEncode ex_base (blen ex_base) ex_base (blen ex_base) [] small_table 0 =
  EDeltaEncode ex_base (blen ex_base) ex_base (blen ex_base) [] small_table (2 ^ 32 - 1).
Proof.
  apply (EDeltaEncode_junk ex_base (blen ex_base) ex_base (blen ex_base) [] small_table 0 (2 ^ 32 - 1)).
  apply small_pre. vm_compute. reflexivity.
Defined.

(** ** The decoder's buffer can be too small *)

(** One base block of 64 bytes, eight times over. *)
Definition ex_rep_base : bytes := noise 64 7.
Definition ex_rep_new : bytes := noise 1 9 ++ concat (replicate 8 ex_rep_base) ++ [1].

(** The encoder makes such a delta of a chunk that repeats its base. *)
Example ex_rep_encodes :
  match EcallFreqIndex.ed3_encode ex_rep_new (blen ex_rep_new) ex_rep_base (blen ex_rep_base) [] small_table 0 with
  | Ok (d, n, _) => EcallRecvDecoder.ed3_decode d n ex_rep_base (blen ex_rep_base) = Err Undefined /\
      2 * (n + blen ex_rep_base) < blen ex_rep_new
  | Err _ => False
  end.
Proof. vm_compute. split; reflexivity. Qed.

(** C39. What [ed3_decode] of the receiver makes of any delta that is a script of copies and
    insertions within the base, whoever has written it: exactly what the script means,
    when that fits the buffer of [2 * (in_size + ref_size)] bytes that is sized without
    looking at the script; when it does not, the decoder writes past the buffer. *)
Theorem ed3_decode_script (base delta : bytes) (ops : list op) (in_size ref_size : Z) :
  ops <> [] -> Forall (op_ok base) ops -> 0 <= in_size <= blen delta -> in_size < 2 ^ 31 -> 0 <= ref_size < 2 ^ 31 ->
  take (Z.to_nat in_size) delta = encs ops -> blen (apply_ops base ops) < 2 ^ 32 ->
  EcallRecvDecoder.ed3_decode delta in_size base ref_size =
    if 2 * (in_size + ref_size) <? blen (apply_ops base ops) then Err Undefined else Ok (apply_ops base ops).
Proof.
  intros Hne Hok Hi Hs Hr Ht Ha. unfold EcallRecvDecoder.ed3_decode, EcallRecvDecoder.EDeltaDecode. unwrap.
  destruct (decode_encs base ops delta in_size [] Hne Hok Hs Hi Ht Ha) as (out & -> & To & Bo). cbn [rbind].
  change (blen (@nil Z)) with 0 in Bo. pose proof (blen_nonneg (apply_ops base ops)). rewrite To, Bo, Z.max_r by lia.
  by rewrite (Z.mul_comm 2).
Qed.

(** A script that copies the base once, and one that copies it five times. *)
Lemma ed3_decode_script_witness :
  EcallRecvDecoder.ed3_decode (encs [Copy 0 64; EDeltaFormat.Insert [1; 2]]) 14 ex_rep_base 64 = Ok (ex_rep_base ++ [1; 2]) /\
  EcallRecvDecoder.ed3_decode (encs (replicate 5 (Copy 0 64))) 40 ex_rep_base 64 = Err Undefined.
Proof.
  split.
  - rewrite (ed3_decode_script ex_rep_base _ [Copy 0 64; EDeltaFormat.Insert [1; 2]] 14 64); [reflexivity|discriminate|..].
    + repeat constructor; cbn; by_decide.
    + by_decide.
    + done.
    + done.
    + reflexivity.
    + by_decide.
  - rewrite (ed3_decode_script ex_rep_base _ (replicate 5 (Copy 0 64)) 40 64); [reflexivity|discriminate|..].
    + repeat constructor; cbn; by_decide.
    + by_decide.
    + done.
    + done.
    + reflexivity.
    + by_decide.
Defined.
