(* ===== verification/CMSketch.v ===== *)
(** The count-min sketch of the frequency index (ecallUtil/ecallCMSketch.cc): [depth_]
    rows of [width_] 32-bit counters; row [i] is addressed by the [i]-th 32-bit word
    of the chunk hash itself. *)
From Stdlib Require Import ZArith Lia.
From stdpp Require Import base list.
From S2P Require Import Prelude.

Record EcallCMSketch := mk_sketch {
  width_ : nat;
  depth_ : nat;
  total_ : Z;
  counterArray_ : list (list Z)
}.

(** ** Operations *)

(** The constructor. *)
Definition sketch_init (width depth : nat) : EcallCMSketch :=
  {| width_ := width; depth_ := depth; total_ := 0;
     counterArray_ := replicate depth (replicate width 0) |}.

(** [chunkHashPtr[i] % width_] *)
Definition sketch_pos (width : nat) (chunkHash : bytes) (i : nat) : nat :=
  Z.to_nat (rd32 chunkHash (4 * Z.of_nat i) mod Z.of_nat width).

Definition UINT32_MAX : Z := 2 ^ 32 - 1.

(** The loop of [Estimate] over the rows from [i] on; reading outside a row is
    undefined. *)
Fixpoint estimate_rows (width : nat) (chunkHash : bytes) (i : nat) (rows : list (list Z))
    (minVal : Z) : result Z :=
  match rows with
  | [] => Ok minVal
  | row :: rows =>
    c <-- of_option Undefined (row !! sketch_pos width chunkHash i) ;;
    estimate_rows width chunkHash (S i) rows (Z.min minVal c)
  end.

Definition Estimate (s : EcallCMSketch) (chunkHash : bytes) : result Z :=
  estimate_rows (width_ s) chunkHash 0 (counterArray_ s) UINT32_MAX.

Definition TotalCount (s : EcallCMSketch) : Z := total_ s.

Fixpoint update_rows (width : nat) (chunkHash : bytes) (count : Z) (i : nat)
    (rows : list (list Z)) : result (list (list Z)) :=
  match rows with
  | [] => Ok []
  | row :: rows =>
    let pos := sketch_pos width chunkHash i in
    c <-- of_option Undefined (row !! pos) ;;
    rows <-- update_rows width chunkHash count (S i) rows ;;
    Ok (<[pos := u32 (c + count)]> row :: rows)
  end.

(** [total_] is a [size_t]. *)
Definition Update (s : EcallCMSketch) (chunkHash : bytes) (count : Z) : result EcallCMSketch :=
  rows <-- update_rows (width_ s) chunkHash count 0 (counterArray_ s) ;;
  Ok {| width_ := width_ s; depth_ := depth_ s; total_ := u64 (total_ s + count);
        counterArray_ := rows |}.

Definition ClearUp (s : EcallCMSketch) : EcallCMSketch :=
  {| width_ := width_ s; depth_ := depth_ s; total_ := total_ s;
     counterArray_ := replicate (depth_ s) (replicate (width_ s) 0) |}.

(** A run: the updates of a list of (hash, count), in order. *)
Fixpoint updates (s : EcallCMSketch) (l : list (bytes * Z)) : result EcallCMSketch :=
  match l with
  | [] => Ok s
  | (h, c) :: l => s <-- Update s h c ;; updates s l
  end.

(** ** What a counter counts *)

(** The sum of the counts whose hash falls on column [p] of row [i]. *)
Definition column (width i p : nat) (l : list (bytes * Z)) : Z :=
  foldr Z.add 0 (map snd (filter (fun x => sketch_pos width (fst x) i = p) l)).

(** The true count of a hash. *)
Definition true_count (h : bytes) (l : list (bytes * Z)) : Z :=
  foldr Z.add 0 (map snd (filter (fun x => fst x = h) l)).
Definition sum_count (l : list (bytes * Z)) : Z := foldr Z.add 0 (map snd l).

Definition counts_ok (l : list (bytes * Z)) : Prop := Forall (fun x => 0 <= snd x < 2 ^ 32) l.

(** The sketch that has seen [l], in any order: each counter is its column, modulo
    the width of a counter. *)
Record sees (s : EcallCMSketch) (l : list (bytes * Z)) : Prop := {
  sees_width : (0 < width_ s)%nat;
  sees_rows : length (counterArray_ s) = depth_ s;
  sees_cells : forall i row, counterArray_ s !! i = Some row ->
    length row = width_ s /\
    forall p c, row !! p = Some c -> c = u32 (column (width_ s) i p l)
}.

Lemma sketch_pos_lt width h i : (0 < width)%nat -> (sketch_pos width h i < width)%nat.
Proof.
  intros. unfold sketch_pos.
  pose proof (Z.mod_pos_bound (rd32 h (4 * Z.of_nat i)) (Z.of_nat width)). lia.
Qed.

Lemma column_cons width i p h c l :
  column width i p ((h, c) :: l) =
  (if decide (sketch_pos width h i = p) then c else 0) + column width i p l.
Proof. unfold column. rewrite filter_cons. cbn [fst]. case_decide; cbn; lia. Qed.
Lemma true_count_cons h c k l :
  true_count h ((k, c) :: l) = (if decide (k = h) then c else 0) + true_count h l.
Proof. unfold true_count. rewrite filter_cons. cbn [fst]. case_decide; cbn; lia. Qed.

Lemma true_count_le_column width i h l :
  counts_ok l -> 0 <= true_count h l <= column width i (sketch_pos width h i) l.
Proof.
  induction 1 as [|[k c] l Hc _ IH]; [done|]. rewrite column_cons, true_count_cons. cbn in Hc.
  destruct (decide (k = h)) as [->|]; [rewrite decide_True by done; lia|case_decide; lia].
Qed.
Lemma column_le_sum width i p l : counts_ok l -> 0 <= column width i p l <= sum_count l.
Proof.
  induction 1 as [|[k c] l Hc _ IH]; [done|]. rewrite column_cons. unfold sum_count in *. cbn in *.
  case_decide; lia.
Qed.

Lemma sketch_init_sees width depth : (0 < width)%nat -> sees (sketch_init width depth) [].
Proof.
  intros. constructor; cbn; [done|by rewrite length_replicate|].
  intros i row Hi. apply lookup_replicate in Hi as [-> _].
  split; [by rewrite length_replicate|]. intros p c Hp. apply lookup_replicate in Hp as [-> _]. done.
Qed.

Lemma ClearUp_sees s l : sees s l -> sees (ClearUp s) [].
Proof. intros [W _ _]. apply (sketch_init_sees _ (depth_ s)) in W. destruct W. by constructor. Qed.

(** [update_rows] adds the count in one column of each row. *)
Lemma update_rows_ok width h count i rows :
  (0 < width)%nat -> Forall (fun row => length row = width) rows ->
  exists rows', update_rows width h count i rows = Ok rows' /\ length rows' = length rows /\
    forall j row', rows' !! j = Some row' -> exists row, rows !! j = Some row /\
      length row' = width /\
      forall p c, row' !! p = Some c -> exists c0, row !! p = Some c0 /\
        c = if decide (sketch_pos width h (i + j) = p) then u32 (c0 + count) else c0.
Proof.
  intros W. revert i. induction rows as [|row rows IH]; intros i F.
  - exists []. split; [done|]. split; [done|]. intros j row' H. done.
  - apply Forall_cons in F as [L F]. destruct (IH (S i) F) as (rows' & E & Len & Hr).
    pose proof (sketch_pos_lt width h i W) as P.
    destruct (lookup_lt_is_Some_2 row (sketch_pos width h i)) as [c0 Hc0]; [lia|].
    cbn [update_rows]. rewrite Hc0. cbn [of_option rbind]. rewrite E. cbn [rbind].
    eexists. split; [reflexivity|]. split; [cbn; by rewrite Len|].
    intros [|j] row'; cbn.
    + intros [= <-]. exists row. split; [done|]. split; [by rewrite length_insert|].
      rewrite Nat.add_0_r. intros p c Hp. case_decide as D.
      * subst p. rewrite list_lookup_insert_eq in Hp by lia. injection Hp as <-. by exists c0.
      * rewrite list_lookup_insert_ne in Hp by done. by exists c.
    + intros H. destruct (Hr j row' H) as (row0 & ? & ? & H2). exists row0. split; [done|]. split; [done|].
      intros p c Hp. destruct (H2 p c Hp) as (c1 & ? & ->). exists c1. split; [done|].
      by replace (i + S j)%nat with (S i + j)%nat by lia.
Qed.

Lemma Update_sees s l h c :
  sees s l -> exists s', Update s h c = Ok s' /\ sees s' ((h, c) :: l) /\
    width_ s' = width_ s /\ depth_ s' = depth_ s /\ total_ s' = u64 (total_ s + c).
Proof.
  intros [W R C]. unfold Update.
  destruct (update_rows_ok (width_ s) h c 0 (counterArray_ s) W) as (rows & E & L & H).
  { apply Forall_lookup. intros i row Hi. by destruct (C i row Hi). }
  rewrite E. cbn [rbind]. eexists. split; [reflexivity|]. split; [|done].
  constructor; cbn [counterArray_ width_ depth_]; [done|congruence|].
  intros i row' Hi. destruct (H i row' Hi) as (row & Hr & L' & Hc). split; [done|].
  intros p x Hx. destruct (Hc p x Hx) as (c0 & Hp & ->). rewrite column_cons.
  destruct (C i row Hr) as [_ Hcell]. rewrite (Hcell p c0 Hp). cbn [Nat.add].
  destruct (decide (sketch_pos (width_ s) h i = p)); [|reflexivity]. unfold u32. rewrite Zplus_mod_idemp_l. f_equal. lia.
Qed.

Lemma updates_sees s l0 l :
  sees s l0 -> exists s', updates s l = Ok s' /\ sees s' (rev l ++ l0) /\
    width_ s' = width_ s /\ depth_ s' = depth_ s.
Proof.
  revert s l0. induction l as [|[h c] l IH]; intros s l0 S; [by exists s|]. cbn [updates].
  destruct (Update_sees s l0 h c S) as (s1 & -> & S1 & W1 & D1 & _). cbn [rbind].
  destruct (IH s1 _ S1) as (s' & -> & S' & W' & D'). exists s'. split; [done|].
  rewrite W', D', W1, D1. split; [|done]. cbn [rev]. by rewrite <- app_assoc.
Qed.

(** [Estimate] is the least of the columns that the hash falls on. *)
Fixpoint least_column (width : nat) (h : bytes) (i depth : nat) (l : list (bytes * Z)) (m : Z) : Z :=
  match depth with
  | O => m
  | S d => least_column width h (S i) d l (Z.min m (u32 (column width i (sketch_pos width h i) l)))
  end.

Lemma Estimate_sees s l h :
  sees s l -> Estimate s h = Ok (least_column (width_ s) h 0 (depth_ s) l UINT32_MAX).
Proof.
  intros [W R C]. unfold Estimate. rewrite <- R.
  assert (G : forall rows i m, (forall j row, rows !! j = Some row -> length row = width_ s /\
      forall p c, row !! p = Some c -> c = u32 (column (width_ s) (i + j) p l)) ->
    estimate_rows (width_ s) h i rows m = Ok (least_column (width_ s) h i (length rows) l m)).
  { clear R C. induction rows as [|row rows IH]; intros i m H; [done|]. cbn.
    destruct (H 0%nat row eq_refl) as [L Hc]. pose proof (sketch_pos_lt (width_ s) h i W) as P.
    destruct (lookup_lt_is_Some_2 row (sketch_pos (width_ s) h i)) as [c Hp]; [lia|].
    rewrite Hp. cbn [of_option rbind]. rewrite (Hc _ _ Hp), Nat.add_0_r. apply IH.
    intros j row' Hj. destruct (H (S j) row' Hj) as [L' H']. split; [done|].
    by replace (S i + j)%nat with (i + S j)%nat by lia. }
  apply G. intros j row Hj. by apply C.
Qed.

Lemma least_column_bounds width h i depth l m lo hi :
  (forall j, lo <= u32 (column width j (sketch_pos width h j) l)) -> lo <= m ->
  (m <= hi \/ (0 < depth)%nat /\ u32 (column width i (sketch_pos width h i) l) <= hi) ->
  lo <= least_column width h i depth l m <= hi.
Proof.
  intros Hlo. revert i m. induction depth as [|d IH]; intros i m Hm Hhi; cbn.
  - destruct Hhi as [?|[? _]]; lia.
  - apply IH; [specialize (Hlo i); lia|left]. destruct Hhi as [?|[_ ?]]; lia.
Qed.

(** ** Properties *)

(** C30. After any sequence of updates whose counts add up to less than 2^32, the
    estimate of a hash is at least its true count and at most the total. *)
Theorem Estimate_bounds width depth l h :
  (0 < width)%nat -> (0 < depth)%nat -> counts_ok l -> sum_count l < 2 ^ 32 ->
  exists s e, updates (sketch_init width depth) l = Ok s /\ Estimate s h = Ok e /\
    true_count h l <= e <= sum_count l.
Proof.
  intros W D C S. destruct (updates_sees _ [] l (sketch_init_sees width depth W)) as (s & E & V & Hw & Hd).
  rewrite app_nil_r in V. cbn in Hw, Hd.
  assert (P : rev l ≡ₚ l) by (symmetry; apply Permutation_rev).
  assert (C' : counts_ok (rev l)) by (unfold counts_ok; by rewrite P).
  assert (S' : sum_count (rev l) = sum_count l).
  { unfold sum_count. apply sum_perm. by rewrite P. }
  assert (T' : true_count h (rev l) = true_count h l).
  { unfold true_count. apply sum_perm. by rewrite P. }
  exists s. eexists. split; [done|]. split; [by apply Estimate_sees|]. rewrite Hw, Hd.
  assert (U : forall j p, u32 (column width j p (rev l)) = column width j p (rev l)).
  { intros. apply u32_id. pose proof (column_le_sum width j p _ C'). lia. }
  apply least_column_bounds.
  - intros j. rewrite U, <- T'. by apply true_count_le_column.
  - rewrite <- T'. pose proof (true_count_le_column width 0 h _ C').
    pose proof (column_le_sum width 0 (sketch_pos width h 0) _ C'). unfold UINT32_MAX. lia.
  - right. split; [done|]. rewrite U, <- S'. by apply column_le_sum.
Qed.

Lemma Estimate_bounds_witness :
  exists s e, updates (sketch_init 5 4) [(replicate 32 7, 1); (replicate 32 9, 2); (replicate 32 7, 1)] = Ok s /\
    Estimate s (replicate 32 7) = Ok e /\
    true_count (replicate 32 7) [(replicate 32 7, 1); (replicate 32 9, 2); (replicate 32 7, 1)] <= e <=
    sum_count [(replicate 32 7, 1); (replicate 32 9, 2); (replicate 32 7, 1)].
Proof.
  apply (Estimate_bounds 5 4 [(replicate 32 7, 1); (replicate 32 9, 2); (replicate 32 7, 1)] (replicate 32 7));
    [lia|lia| |reflexivity].
  repeat constructor; cbn; lia.
Defined.
