(* ===== verification/EntryHeap.v ===== *)
(** The top-k heap of the frequency index (ecallUtil/ecallEntryHeap.cc): a binary
    min-heap of iterators into a hash map, whose items hold their heap position.

    A key is the chunk fingerprint; an iterator is the key it points to.  Positions
    are vector indices, below 2^32 as the heap holds at most [topKParam_] items. *)
From Stdlib Require Import ZArith Lia.
From stdpp Require Import base list gmap.
From S2P Require Import Prelude Types.

Record EcallEntryHeap := mk_heap {
  _heap : list bytes;
  _index : gmap bytes HeapItem_t
}.

(** ** Operations *)

Definition CompFreq (freq1 freq2 : Z) : bool := freq1 <? freq2.
Definition ParentIdx (idx : nat) : nat := Nat.div2 (idx - 1).
Definition ChildIdx (idx : nat) : nat := (idx * 2 + 1)%nat.

Definition Size (h : EcallEntryHeap) : nat := length (_heap h).

(** [_heap[i]->second.chunkFreq]; outside the vector it is undefined. *)
Definition freq (h : EcallEntryHeap) (i : nat) : result Z :=
  k <-- of_option Undefined (_heap h !! i) ;;
  it <-- of_option Undefined (_index h !! k) ;;
  Ok (hi_chunkFreq it).

Definition set_item_idx (i : Z) (it : HeapItem_t) : HeapItem_t :=
  {| hi_address := hi_address it; hi_chunkFreq := hi_chunkFreq it; hi_idx := i |}.
Definition set_item_freq (f : Z) (it : HeapItem_t) : HeapItem_t :=
  {| hi_address := hi_address it; hi_chunkFreq := f; hi_idx := hi_idx it |}.

(** [_heap[pos]->second.idx = v] *)
Definition set_idx (h : EcallEntryHeap) (pos : nat) (v : Z) : result EcallEntryHeap :=
  k <-- of_option Undefined (_heap h !! pos) ;;
  Ok {| _heap := _heap h; _index := alter (set_item_idx v) k (_index h) |}.

(** [std::swap(_heap[i], _heap[j])] *)
Definition swap_list (l : list bytes) (i j : nat) : list bytes :=
  match l !! i, l !! j with
  | Some a, Some b => <[j := a]> (<[i := b]> l)
  | _, _ => l
  end.
Definition swap (h : EcallEntryHeap) (i j : nat) : EcallEntryHeap :=
  {| _heap := swap_list (_heap h) i j; _index := _index h |}.

Fixpoint SwapUp (fuel : nat) (h : EcallEntryHeap) (idx : nat) : result (EcallEntryHeap * nat) :=
  match fuel with
  | O => Err Fuel
  | S fuel =>
    if (0 <? idx)%nat then
      let parent := ParentIdx idx in
      f1 <-- freq h idx ;;
      f2 <-- freq h parent ;;
      if CompFreq f1 f2 then
        h <-- set_idx (swap h idx parent) idx (Z.of_nat idx) ;;
        SwapUp fuel h parent
      else Ok (h, idx)
    else Ok (h, idx)
  end.

Fixpoint SwapDown (fuel : nat) (h : EcallEntryHeap) (idx : nat) : result (EcallEntryHeap * nat) :=
  match fuel with
  | O => Err Fuel
  | S fuel =>
    let child := ChildIdx idx in
    if (child <? Size h)%nat then
      fc <-- freq h child ;;
      child <-- (if (child + 1 <? Size h)%nat
                 then f1 <-- freq h (child + 1) ;; Ok (if CompFreq f1 fc then (child + 1)%nat else child)
                 else Ok child) ;;
      fc <-- freq h child ;;
      fi <-- freq h idx ;;
      if negb (CompFreq fc fi) then Ok (h, idx)
      else
        h <-- set_idx (swap h child idx) idx (Z.of_nat idx) ;;
        SwapDown fuel h child
    else Ok (h, idx)
  end.

Definition TopEntry (h : EcallEntryHeap) : result Z := freq h 0.

Definition Pop (h : EcallEntryHeap) : result EcallEntryHeap :=
  t <-- of_option Undefined (_heap h !! 0%nat) ;;
  l <-- of_option Undefined (_heap h !! (Size h - 1)%nat) ;;
  let h := {| _heap := take (Size h - 1) (<[0%nat := l]> (_heap h));
              _index := delete t (_index h) |} in
  x <-- SwapDown (S (Size h)) h 0 ;;
  let '(h, idx) := x in
  set_idx h idx (Z.of_nat idx).

(** [_index[key].idx = idx]: the key is in the map at the two places it is used. *)
Definition index_set_idx (h : EcallEntryHeap) (key : bytes) (idx : nat) : EcallEntryHeap :=
  {| _heap := _heap h; _index := alter (set_item_idx (Z.of_nat idx)) key (_index h) |}.

(** [insert] leaves an item that is there already as it is. *)
Definition Add (h : EcallEntryHeap) (key : bytes) (value : HeapItem_t) : result EcallEntryHeap :=
  let index := match _index h !! key with
               | Some _ => _index h
               | None => <[key := value]> (_index h)
               end in
  let h := {| _heap := _heap h ++ [key]; _index := index |} in
  x <-- SwapUp (Size h) h (Size h - 1) ;;
  let '(h, idx) := x in
  Ok (index_set_idx h key idx).

(** [Update] of a key that is not in the map would create it ([_index[key]]); the
    caller asks [Contains] first. *)
Definition Update (h : EcallEntryHeap) (key : bytes) (f : Z) : result EcallEntryHeap :=
  it <-- of_option Undefined (_index h !! key) ;;
  let idx := Z.to_nat (hi_idx it) in
  k <-- of_option Undefined (_heap h !! idx) ;;
  let h := {| _heap := _heap h; _index := alter (set_item_freq f) k (_index h) |} in
  x <-- SwapUp (S idx) h idx ;;
  let '(h, idx) := x in
  x <-- SwapDown (S (Size h)) h idx ;;
  let '(h, idx) := x in
  Ok (index_set_idx h key idx).

Definition Contains (h : EcallEntryHeap) (key : bytes) : bool :=
  bool_decide (is_Some (_index h !! key)).
Definition GetPriority (h : EcallEntryHeap) (key : bytes) : option HeapItem_t := _index h !! key.

Definition empty_heap : EcallEntryHeap := {| _heap := []; _index := ∅ |}.

(** ** Heap order on positions *)

(** The argument about order is about the frequency at each position, a function of
    [nat]. *)
Definition swapf (g : nat -> Z) (i j x : nat) : Z :=
  if decide (x = i) then g j else if decide (x = j) then g i else g x.

Definition ord (g : nat -> Z) (n : nat) : Prop :=
  forall i, (0 < i < n)%nat -> g (ParentIdx i) <= g i.
(** The children of [h] are not below its parent. *)
Definition skip (g : nat -> Z) (n h : nat) : Prop :=
  (0 < h)%nat -> forall c, (0 < c < n)%nat -> ParentIdx c = h -> g (ParentIdx h) <= g c.
(** Order everywhere but between [h] and its parent, its children, or both. *)
Definition ord_up (g : nat -> Z) (n h : nat) : Prop :=
  (forall i, (0 < i < n)%nat -> i <> h -> g (ParentIdx i) <= g i) /\ skip g n h.
Definition ord_down (g : nat -> Z) (n h : nat) : Prop :=
  (forall i, (0 < i < n)%nat -> ParentIdx i <> h -> g (ParentIdx i) <= g i) /\ skip g n h.
Definition ord_but (g : nat -> Z) (n h : nat) : Prop :=
  (forall i, (0 < i < n)%nat -> i <> h -> ParentIdx i <> h -> g (ParentIdx i) <= g i) /\ skip g n h.

Lemma parent_lt i : (0 < i)%nat -> (ParentIdx i < i)%nat.
Proof. intros. unfold ParentIdx. pose proof (Nat.div2_decr (i - 1) (i - 1)). lia. Qed.
Lemma parent_child i c : (0 < c)%nat -> ParentIdx c = i <-> c = ChildIdx i \/ c = (ChildIdx i + 1)%nat.
Proof.
  intros H. unfold ParentIdx, ChildIdx. pose proof (Nat.div2_odd (c - 1)).
  destruct (Nat.odd (c - 1)); cbn [Nat.b2n] in *; lia.
Qed.

Ltac swapf_cases :=
  unfold swapf in *;
  repeat match goal with
  | |- context [decide ?P] => destruct (decide P); subst
  | H : context [decide ?P] |- _ => destruct (decide P); subst
  end.

Lemma ord_but_step g n h :
  ord_but g n h -> (0 < h < n)%nat -> g h < g (ParentIdx h) ->
  ord_but (swapf g h (ParentIdx h)) n (ParentIdx h).
Proof.
  intros [O S] Hh Lt. pose proof (parent_lt h ltac:(lia)) as P.
  split.
  - intros i Hi N1 N2. pose proof (parent_lt i ltac:(lia)). unfold swapf.
    destruct (decide (i = h)) as [->|]; [done|]. rewrite (decide_False (P := i = ParentIdx h)) by done.
    destruct (decide (ParentIdx i = h)) as [E|].
    + apply S; [lia|lia|done].
    + rewrite decide_False by done. by apply O.
  - intros Hp c Hc E. pose proof (parent_lt (ParentIdx h) Hp). pose proof (parent_lt c ltac:(lia)).
    assert (G : g (ParentIdx (ParentIdx h)) <= g (ParentIdx h)) by (apply O; lia).
    unfold swapf. rewrite (decide_False (P := ParentIdx (ParentIdx h) = h)) by lia.
    rewrite (decide_False (P := ParentIdx (ParentIdx h) = ParentIdx h)) by lia.
    destruct (decide (c = h)) as [->|]; [done|]. rewrite decide_False by lia.
    transitivity (g (ParentIdx h)); [done|]. rewrite <- E. apply O; lia.
Qed.

Lemma ord_up_step g n h :
  ord_up g n h -> (0 < h < n)%nat -> g h < g (ParentIdx h) ->
  ord_up (swapf g h (ParentIdx h)) n (ParentIdx h).
Proof.
  intros [O S] Hh Lt. pose proof (parent_lt h ltac:(lia)) as P.
  destruct (ord_but_step g n h) as [_ S']; [split; [|done]; intros; by apply O|done|done|].
  split; [|done].
  intros i Hi N. pose proof (parent_lt i ltac:(lia)). unfold swapf.
  destruct (decide (i = h)) as [->|].
  - rewrite (decide_False (P := ParentIdx h = h)) by lia. rewrite decide_True by done. lia.
  - rewrite (decide_False (P := i = ParentIdx h)) by done.
    destruct (decide (ParentIdx i = h)) as [E|]; [apply S; [lia|lia|done]|].
    destruct (decide (ParentIdx i = ParentIdx h)) as [E|]; [|by apply O].
    transitivity (g (ParentIdx h)); [lia|]. rewrite <- E. by apply O.
Qed.

Lemma ord_down_step g n h c :
  ord_down g n h -> (0 < c < n)%nat -> ParentIdx c = h -> g c < g h ->
  (forall c', (0 < c' < n)%nat -> ParentIdx c' = h -> g c <= g c') ->
  ord_down (swapf g c h) n c.
Proof.
  intros [O S] Hc E Lt Min. pose proof (parent_lt c ltac:(lia)) as P.
  split.
  - intros i Hi N. pose proof (parent_lt i ltac:(lia)). unfold swapf.
    rewrite (decide_False (P := ParentIdx i = c)) by done.
    destruct (decide (i = c)) as [->|].
    + rewrite decide_True by done. lia.
    + destruct (decide (i = h)) as [->|].
      * rewrite decide_False by lia. apply S; [lia|lia|done].
      * destruct (decide (ParentIdx i = h)); [by apply Min|by apply O].
  - intros _ c' Hc' E'. pose proof (parent_lt c' ltac:(lia)). unfold swapf.
    rewrite (decide_False (P := c' = c)), (decide_False (P := c' = h)) by lia.
    rewrite E, (decide_False (P := h = c)), decide_True by (lia || done).
    rewrite <- E'. apply O; [lia|lia].
Qed.

Lemma ord_min g n i : ord g n -> (i < n)%nat -> g 0%nat <= g i.
Proof.
  intros O. induction (lt_wf i) as [i _ IH]. intros Hi. destruct i as [|i]; [lia|].
  pose proof (parent_lt (S i) ltac:(lia)). transitivity (g (ParentIdx (S i))); [apply IH; lia|].
  apply O. lia.
Qed.

(** ** The state invariant *)

Definition gfun (h : EcallEntryHeap) (i : nat) : Z :=
  match _heap h !! i with
  | Some k => match _index h !! k with Some it => hi_chunkFreq it | None => 0 end
  | None => 0
  end.

(** The vector and the map have the same keys, and every item knows its position,
    but for the one at [hole]. *)
Record shape (h : EcallEntryHeap) (hole : option nat) : Prop := {
  sh_nodup : NoDup (_heap h);
  sh_dom : forall k, is_Some (_index h !! k) <-> k ∈ _heap h;
  sh_back : forall i k it, _heap h !! i = Some k -> _index h !! k = Some it -> hole <> Some i ->
            hi_idx it = Z.of_nat i
}.

Definition heap_wf (h : EcallEntryHeap) : Prop := shape h None /\ ord (gfun h) (Size h).

(** The item without its position. *)
Definition content (h : EcallEntryHeap) (k : bytes) : option (RecipeEntry_t * Z) :=
  (fun it => (hi_address it, hi_chunkFreq it)) <$> _index h !! k.
Definition same_content (h h' : EcallEntryHeap) : Prop := forall k, content h' k = content h k.

Lemma sh_item h hole i k :
  shape h hole -> _heap h !! i = Some k -> exists it, _index h !! k = Some it.
Proof.
  intros S Hi. assert (is_Some (_index h !! k)) as [it ?]; [|by exists it].
  apply (sh_dom _ _ S). by eapply list_elem_of_lookup_2.
Qed.

Lemma freq_ok h hole i : shape h hole -> (i < Size h)%nat -> freq h i = Ok (gfun h i).
Proof.
  intros S Hi. destruct (lookup_lt_is_Some_2 (_heap h) i Hi) as [k Hk].
  destruct (sh_item h hole i k S Hk) as [it Hit]. unfold freq, gfun. by rewrite Hk; cbn; rewrite Hit.
Qed.

Lemma gfun_content h i k : _heap h !! i = Some k -> gfun h i = default 0 (snd <$> content h k).
Proof. intros H. unfold gfun, content. rewrite H. by destruct (_index h !! k). Qed.

Lemma shape_hole_any h i : shape h None -> shape h (Some i).
Proof. intros [N D B]. constructor; [done|done|]. intros. by eapply B. Qed.

Lemma alter_content h heap' f k :
  (forall it, hi_address (f it) = hi_address it /\ hi_chunkFreq (f it) = hi_chunkFreq it) ->
  same_content h {| _heap := heap'; _index := alter f k (_index h) |}.
Proof.
  intros Hf k'. unfold content. cbn. destruct (decide (k = k')) as [->|].
  - rewrite lookup_alter_eq. destruct (_index h !! k') as [it|]; [|done]. cbn.
    by destruct (Hf it) as [-> ->].
  - by rewrite lookup_alter_ne.
Qed.

Lemma swap_list_perm l i j : swap_list l i j ≡ₚ l.
Proof.
  unfold swap_list. destruct (l !! i) as [a|] eqn:Hi; [|done]. destruct (l !! j) as [b|] eqn:Hj; [|done].
  by apply Permutation_insert_swap.
Qed.

Lemma swap_list_lookup l i j x :
  (i < length l)%nat -> (j < length l)%nat -> i <> j ->
  swap_list l i j !! x = if decide (x = i) then l !! j else if decide (x = j) then l !! i else l !! x.
Proof.
  intros Hi Hj N. unfold swap_list.
  destruct (lookup_lt_is_Some_2 l i Hi) as [a Ha]. destruct (lookup_lt_is_Some_2 l j Hj) as [b Hb].
  rewrite Ha, Hb. destruct (decide (x = i)) as [->|].
  - rewrite list_lookup_insert_ne by done. by apply list_lookup_insert_eq.
  - destruct (decide (x = j)) as [->|].
    + apply list_lookup_insert_eq. by rewrite length_insert.
    + by rewrite !list_lookup_insert_ne by done.
Qed.

(** One exchange with the delinquent position [i]: the hole moves to [j]. *)
Lemma swap_step h i j :
  shape h (Some i) -> (i < Size h)%nat -> (j < Size h)%nat -> i <> j ->
  exists h', set_idx (swap h i j) i (Z.of_nat i) = Ok h' /\ shape h' (Some j) /\
    Size h' = Size h /\ _heap h' ≡ₚ _heap h /\ _heap h' !! j = _heap h !! i /\ same_content h h' /\
    forall x, (x < Size h)%nat -> gfun h' x = swapf (gfun h) i j x.
Proof.
  intros S Hi Hj N. unfold Size in *.
  destruct (lookup_lt_is_Some_2 _ i Hi) as [a Ha]. destruct (lookup_lt_is_Some_2 _ j Hj) as [b Hb].
  pose proof (swap_list_perm (_heap h) i j) as P.
  assert (Lk : forall x, swap_list (_heap h) i j !! x = if decide (x = i) then Some b
    else if decide (x = j) then Some a else _heap h !! x).
  { intros x. rewrite swap_list_lookup by done. by rewrite Ha, Hb. }
  unfold set_idx. cbn [_heap swap]. rewrite Lk, decide_True by done. cbn [of_option rbind].
  set (h' := {| _heap := _ |}). exists h'. split; [done|].
  assert (C : same_content h h') by (apply (alter_content h); done).
  assert (D : forall k, is_Some (_index h' !! k) <-> is_Some (_index h !! k))
    by (intros k; apply lookup_alter_is_Some).
  split; [|split; [|split; [exact P|split; [|split; [done|]]]]].
  - destruct S as [Nd Dm B]. constructor.
    + subst h'. cbn. by rewrite P.
    + intros k. rewrite D, Dm. subst h'. cbn. by rewrite P.
    + intros x k it Hx Hit Nx. subst h'. cbn in Hx, Hit. rewrite Lk in Hx.
      destruct (decide (x = i)) as [->|].
      * injection Hx as <-. rewrite lookup_alter_eq in Hit. apply fmap_Some in Hit as (it0 & _ & ->). done.
      * destruct (decide (x = j)) as [->|]; [by destruct Nx|].
        assert (k <> b) by (intros ->; assert (x = j) by (by eapply NoDup_lookup); done).
        rewrite lookup_alter_ne in Hit by done. eapply B; [done|done|]. intros [= ->]. done.
  - subst h'. cbn. by rewrite P.
  - subst h'. cbn. rewrite Lk. rewrite decide_False by done. by rewrite decide_True.
  - intros x Hx. destruct (lookup_lt_is_Some_2 _ x Hx) as [c Hc].
    assert (Hx' : exists c', _heap h' !! x = Some c') by (apply lookup_lt_is_Some_2; subst h'; cbn; by rewrite P).
    destruct Hx' as [c' Hc']. rewrite (gfun_content h' x c' Hc'), C.
    unfold swapf. rewrite (gfun_content h i a Ha), (gfun_content h j b Hb), (gfun_content h x c Hc).
    subst h'. cbn in Hc'. rewrite Lk in Hc'. repeat case_decide; congruence.
Qed.

Lemma ord_ext g g' n : (forall x, (x < n)%nat -> g' x = g x) -> ord g n -> ord g' n.
Proof. intros E O i Hi. pose proof (parent_lt i ltac:(lia)). rewrite !E by lia. by apply O. Qed.
Lemma skip_ext g g' n h : (h < n)%nat -> (forall x, (x < n)%nat -> g' x = g x) -> skip g n h -> skip g' n h.
Proof.
  intros Hh E S Hp c Hc Ec. pose proof (parent_lt h Hp). rewrite !E by lia. by apply S.
Qed.
Lemma ord_but_ext g g' n h :
  (h < n)%nat -> (forall x, (x < n)%nat -> g' x = g x) -> ord_but g n h -> ord_but g' n h.
Proof.
  intros Hh E [O S]. split; [|by eapply skip_ext].
  intros i Hi N1 N2. pose proof (parent_lt i ltac:(lia)). rewrite !E by lia. by apply O.
Qed.
Lemma ord_up_ext g g' n h :
  (h < n)%nat -> (forall x, (x < n)%nat -> g' x = g x) -> ord_up g n h -> ord_up g' n h.
Proof.
  intros Hh E [O S]. split; [|by eapply skip_ext].
  intros i Hi N. pose proof (parent_lt i ltac:(lia)). rewrite !E by lia. by apply O.
Qed.
Lemma ord_down_ext g g' n h :
  (h < n)%nat -> (forall x, (x < n)%nat -> g' x = g x) -> ord_down g n h -> ord_down g' n h.
Proof.
  intros Hh E [O S]. split; [|by eapply skip_ext].
  intros i Hi N. pose proof (parent_lt i ltac:(lia)). rewrite !E by lia. by apply O.
Qed.

(** What a sift leaves: the item that was at [idx] is at [idx'], the same items are
    there. *)
Record sifted (h : EcallEntryHeap) (idx : nat) (h' : EcallEntryHeap) (idx' : nat) : Prop := {
  si_shape : shape h' (Some idx');
  si_size : Size h' = Size h;
  si_perm : _heap h' ≡ₚ _heap h;
  si_key : _heap h' !! idx' = _heap h !! idx;
  si_content : same_content h h';
  si_lt : (idx' < Size h)%nat
}.

Lemma sifted_refl h idx : shape h (Some idx) -> (idx < Size h)%nat -> sifted h idx h idx.
Proof. intros. by constructor. Qed.
Lemma sifted_trans h i h1 i1 h2 i2 : sifted h i h1 i1 -> sifted h1 i1 h2 i2 -> sifted h i h2 i2.
Proof.
  intros [S1 L1 P1 K1 C1 I1] [S2 L2 P2 K2 C2 I2].
  constructor; [done|congruence|by etrans|congruence|intros k; by rewrite C2|lia].
Qed.

Lemma SwapUp_ok fuel h idx :
  shape h (Some idx) -> (idx < Size h)%nat -> (idx < fuel)%nat -> ord_but (gfun h) (Size h) idx ->
  exists h' idx', SwapUp fuel h idx = Ok (h', idx') /\ sifted h idx h' idx' /\
    ord_down (gfun h') (Size h) idx' /\
    (ord_up (gfun h) (Size h) idx -> ord (gfun h') (Size h)).
Proof.
  revert h idx. induction fuel as [|fuel IH]; intros h idx S Hi Hf O; [lia|]. cbn [SwapUp].
  assert (Done : ((0 < idx)%nat -> gfun h (ParentIdx idx) <= gfun h idx) ->
    ord_down (gfun h) (Size h) idx /\ (ord_up (gfun h) (Size h) idx -> ord (gfun h) (Size h))).
  { intros G. destruct O as [O Sk]. split; [split; [|done]|].
    - intros i Hi' N. destruct (decide (i = idx)) as [->|]; [apply G; lia|by apply O].
    - intros [O' _] i Hi'. destruct (decide (i = idx)) as [->|]; [apply G; lia|by apply O']. }
  destruct (0 <? idx)%nat eqn:E0.
  2: { apply Nat.ltb_ge in E0. destruct Done as [D1 D2]; [lia|].
       exists h, idx. split; [done|]. split; [by apply sifted_refl|done]. }
  apply Nat.ltb_lt in E0. pose proof (parent_lt idx E0) as P.
  rewrite (freq_ok h _ idx S Hi), (freq_ok h _ (ParentIdx idx) S ltac:(lia)). cbn [rbind].
  unfold CompFreq. destruct (gfun h idx <? gfun h (ParentIdx idx)) eqn:E1; boolz.
  2: { destruct Done as [D1 D2]; [lia|]. exists h, idx. split; [done|].
       split; [by apply sifted_refl|done]. }
  destruct (swap_step h idx (ParentIdx idx) S Hi ltac:(lia) ltac:(lia))
    as (h1 & -> & S1 & L1 & P1 & K1 & C1 & G1). cbn [rbind].
  destruct (IH h1 (ParentIdx idx)) as (h' & idx' & E & Sf & O1 & O2).
  { done. } { lia. } { lia. }
  { rewrite L1. eapply ord_but_ext; [lia|exact G1|]. by apply ord_but_step. }
  exists h', idx'. rewrite L1 in *. split; [done|]. split; [|split; [done|]].
  - apply (sifted_trans h idx h1 (ParentIdx idx)); [|done]. constructor; try done. lia.
  - intros U. apply O2. eapply ord_up_ext; [lia|exact G1|]. by apply ord_up_step.
Qed.

Lemma SwapDown_ok fuel h idx :
  shape h (Some idx) -> (idx < Size h)%nat -> (Size h < fuel + idx)%nat ->
  ord_down (gfun h) (Size h) idx ->
  exists h' idx', SwapDown fuel h idx = Ok (h', idx') /\ sifted h idx h' idx' /\
    ord (gfun h') (Size h).
Proof.
  revert h idx. induction fuel as [|fuel IH]; intros h idx S Hi Hf O; [lia|]. cbn [SwapDown].
  assert (Done : (forall c, (0 < c < Size h)%nat -> ParentIdx c = idx -> gfun h idx <= gfun h c) ->
    ord (gfun h) (Size h)).
  { intros G i Hi'. destruct (decide (ParentIdx i = idx)) as [E|]; [rewrite E; by apply G|by apply O]. }
  destruct (ChildIdx idx <? Size h)%nat eqn:E0.
  2: { apply Nat.ltb_ge in E0. exists h, idx. split; [done|]. split; [by apply sifted_refl|].
       apply Done. intros c Hc E. apply parent_child in E; lia. }
  apply Nat.ltb_lt in E0. rewrite (freq_ok h _ (ChildIdx idx) S E0). cbn [rbind].
  (* the smaller child *)
  assert (Q : exists c,
    (if (ChildIdx idx + 1 <? Size h)%nat
     then f1 <-- freq h (ChildIdx idx + 1) ;;
          Ok (if CompFreq f1 (gfun h (ChildIdx idx)) then (ChildIdx idx + 1)%nat else ChildIdx idx)
     else Ok (ChildIdx idx)) = Ok c /\ (0 < c < Size h)%nat /\ ParentIdx c = idx /\
    forall c', (0 < c' < Size h)%nat -> ParentIdx c' = idx -> gfun h c <= gfun h c').
  { assert (H0 : (0 < ChildIdx idx)%nat) by (unfold ChildIdx; lia).
    destruct (ChildIdx idx + 1 <? Size h)%nat eqn:E1.
    - apply Nat.ltb_lt in E1. rewrite (freq_ok h _ (ChildIdx idx + 1) S E1). cbn [rbind].
      unfold CompFreq. destruct (gfun h (ChildIdx idx + 1) <? gfun h (ChildIdx idx)) eqn:E2; boolz;
        (eexists; split; [reflexivity|]; split; [lia|]; split; [apply parent_child; [lia|auto]|]);
        intros c' Hc' Ec'; apply parent_child in Ec' as [->| ->]; lia.
    - apply Nat.ltb_ge in E1. eexists; split; [reflexivity|]; split; [lia|]; split; [apply parent_child; [lia|auto]|].
      intros c' Hc' Ec'. apply parent_child in Ec' as [->| ->]; lia. }
  destruct Q as (c & -> & Hc & Pc & Min). cbn [rbind].
  rewrite (freq_ok h _ c S ltac:(lia)), (freq_ok h _ idx S Hi). cbn [rbind].
  unfold CompFreq. destruct (gfun h c <? gfun h idx) eqn:E1; cbn [negb]; boolz.
  2: { exists h, idx. split; [done|]. split; [by apply sifted_refl|].
       apply Done. intros c' Hc' Ec'. specialize (Min c' Hc' Ec'). lia. }
  pose proof (parent_lt c ltac:(lia)) as P. rewrite Pc in P.
  assert (Sw : swap h c idx = swap h idx c).
  { unfold swap, swap_list. destruct (lookup_lt_is_Some_2 (_heap h) c) as [a Ha]; [unfold Size in *; lia|].
    destruct (lookup_lt_is_Some_2 (_heap h) idx) as [b Hb]; [unfold Size in *; lia|].
    rewrite Ha, Hb. f_equal. by rewrite list_insert_insert_ne by lia. }
  rewrite Sw.
  destruct (swap_step h idx c S Hi ltac:(lia) ltac:(lia)) as (h1 & -> & S1 & L1 & P1 & K1 & C1 & G1).
  cbn [rbind]. destruct (IH h1 c) as (h' & idx' & E & Sf & O1).
  { done. } { lia. } { lia. }
  { rewrite L1. eapply ord_down_ext; [lia| |apply (ord_down_step (gfun h) (Size h) idx c); done].
    intros x Hx. rewrite (G1 x Hx). unfold swapf. repeat case_decide; congruence. }
  exists h', idx'. rewrite L1 in *. split; [done|]. split; [|done].
  apply (sifted_trans h idx h1 c); [|done]. constructor; try done. lia.
Qed.

(** ** The operations keep the invariant *)

Lemma set_idx_close h i :
  shape h (Some i) -> (i < Size h)%nat ->
  exists h', set_idx h i (Z.of_nat i) = Ok h' /\ shape h' None /\ _heap h' = _heap h /\
    same_content h h'.
Proof.
  intros S Hi. destruct (lookup_lt_is_Some_2 _ i Hi) as [k Hk]. unfold set_idx. rewrite Hk. cbn [of_option rbind].
  eexists. split; [reflexivity|]. destruct S as [Nd Dm B]. split; [constructor; cbn; [done| |]|split; [done|]].
  - intros k'. by rewrite lookup_alter_is_Some, Dm.
  - intros x k' it Hx Hit _. destruct (decide (x = i)) as [->|].
    + assert (k' = k) as -> by congruence. rewrite lookup_alter_eq in Hit.
      apply fmap_Some in Hit as (it0 & _ & ->). done.
    + assert (k <> k') by (intros ->; assert (x = i) by (by eapply NoDup_lookup); done).
      rewrite lookup_alter_ne in Hit by done. eapply B; [done|done|]. intros [= ->]. done.
  - apply (alter_content h). done.
Qed.

Lemma index_set_idx_close h key i :
  shape h (Some i) -> _heap h !! i = Some key ->
  set_idx h i (Z.of_nat i) = Ok (index_set_idx h key i).
Proof. intros S Hk. unfold set_idx, index_set_idx. by rewrite Hk. Qed.

Lemma gfun_same h h' x : _heap h' = _heap h -> same_content h h' -> gfun h' x = gfun h x.
Proof.
  intros E C. destruct (_heap h !! x) as [k|] eqn:Hk.
  - rewrite (gfun_content h' x k), (gfun_content h x k), C by congruence. done.
  - unfold gfun. by rewrite E, Hk.
Qed.

(** A sift that has restored the order, and the last position written. *)
Lemma sifted_close h idx h1 idx1 n :
  sifted h idx h1 idx1 -> Size h = n -> ord (gfun h1) n ->
  exists h', set_idx h1 idx1 (Z.of_nat idx1) = Ok h' /\ heap_wf h' /\ _heap h' ≡ₚ _heap h /\
    same_content h h' /\ Size h' = Size h.
Proof.
  intros [S L P K C I] En O.
  destruct (set_idx_close h1 idx1 S ltac:(lia)) as (h' & E & S' & Eh & C').
  assert (Sz : Size h' = Size h1) by (unfold Size; by rewrite Eh).
  exists h'. split; [done|]. split; [split; [done|]|split; [by rewrite Eh|split; [|congruence]]].
  - rewrite Sz, L, En. eapply ord_ext; [|exact O]. intros. by apply gfun_same.
  - intros k. by rewrite C', C.
Qed.

Lemma Add_ok h key value :
  heap_wf h -> _index h !! key = None ->
  exists h', Add h key value = Ok h' /\ heap_wf h' /\ _heap h' ≡ₚ key :: _heap h /\
    forall k, content h' k = if decide (k = key) then Some (hi_address value, hi_chunkFreq value)
                             else content h k.
Proof.
  intros [S O] Hn. unfold Add. rewrite Hn. set (h0 := {| _heap := _ |}).
  assert (Sz : Size h0 = (Size h + 1)%nat) by (unfold Size; subst h0; cbn; by rewrite length_app).
  assert (Nk : key ∉ _heap h) by (rewrite <- (sh_dom _ _ S), Hn; by intros []).
  assert (C0 : forall k, content h0 k = if decide (k = key) then Some (hi_address value, hi_chunkFreq value)
                             else content h k).
  { intros k. unfold content, h0. cbn. destruct (decide (k = key)) as [->|];
      [by rewrite lookup_insert_eq|by rewrite lookup_insert_ne]. }
  assert (S0 : shape h0 (Some (Size h))).
  { destruct S as [Nd Dm B]. constructor; cbn.
    - apply NoDup_app. split; [done|]. split; [|apply NoDup_singleton].
      intros k Hk ->%list_elem_of_singleton. done.
    - intros k. rewrite elem_of_app, list_elem_of_singleton, <- Dm.
      destruct (decide (k = key)) as [->|N]; [rewrite lookup_insert_eq|rewrite lookup_insert_ne by done].
      + split; [by right|by eexists].
      + split; [by left|by intros [?|?]].
    - intros i k it Hk Hit Ni. apply lookup_snoc_Some in Hk as [[Hi Hk]|[-> _]]; [|by destruct Ni].
      assert (k <> key) by (intros ->; destruct Nk; by eapply list_elem_of_lookup_2).
      rewrite lookup_insert_ne in Hit by done. by eapply B. }
  assert (G0 : forall x, (x < Size h)%nat -> gfun h0 x = gfun h x).
  { intros x Hx. destruct (lookup_lt_is_Some_2 _ x Hx) as [k Hk].
    rewrite (gfun_content h0 x k) by (cbn; by apply lookup_app_l_Some).
    rewrite (gfun_content h x k Hk), C0. rewrite decide_False; [done|].
    intros ->. destruct Nk. by eapply list_elem_of_lookup_2. }
  assert (U : ord_up (gfun h0) (Size h0) (Size h)).
  { rewrite Sz. split.
    - intros i Hi N. pose proof (parent_lt i ltac:(lia)). rewrite !G0 by lia. apply O. lia.
    - intros _ c Hc E. pose proof (parent_lt c ltac:(lia)). lia. }
  replace (Size h0 - 1)%nat with (Size h) by lia.
  destruct (SwapUp_ok (Size h0) h0 (Size h) S0) as (h1 & idx1 & -> & Sf & _ & O1); try lia.
  { destruct U as [U1 U2]. split; [|done]. intros. by apply U1. }
  cbn [rbind]. specialize (O1 U).
  destruct (sifted_close h0 (Size h) h1 idx1 _ Sf eq_refl O1) as (h' & E & W & P & C & _).
  assert (K : _heap h1 !! idx1 = Some key).
  { rewrite (si_key _ _ _ _ Sf). subst h0. cbn. unfold Size. by apply list_lookup_middle. }
  rewrite (index_set_idx_close h1 key idx1 (si_shape _ _ _ _ Sf) K) in E. injection E as E.
  exists h'. rewrite E. split; [done|]. split; [done|]. split.
  - rewrite P. subst h0. cbn. by rewrite Permutation_app_comm.
  - intros k. by rewrite C, C0.
Qed.

Lemma Pop_ok h t :
  heap_wf h -> (2 <= Size h)%nat -> _heap h !! 0%nat = Some t ->
  exists h', Pop h = Ok h' /\ heap_wf h' /\ _heap h ≡ₚ t :: _heap h' /\
    (forall k, content h' k = if decide (k = t) then None else content h k) /\
    forall i, (i < Size h)%nat -> gfun h 0 <= gfun h i.
Proof.
  intros [S O] H2 Ht. unfold Pop. rewrite Ht. cbn [of_option rbind]. unfold Size in H2.
  destruct (lookup_lt_is_Some_2 (_heap h) (Size h - 1)) as [l Hl]; [unfold Size; lia|].
  rewrite Hl. cbn [of_option rbind]. set (h0 := {| _heap := _ |}).
  assert (Sz : Size h0 = (Size h - 1)%nat).
  { unfold Size, h0. cbn. rewrite length_take, length_insert. unfold Size. lia. }
  assert (Lk : forall x, (x < Size h - 1)%nat -> _heap h0 !! x = if decide (x = 0%nat) then Some l else _heap h !! x).
  { intros x Hx. unfold h0. cbn. rewrite lookup_take_lt by done. case_decide.
    - subst x. apply list_lookup_insert_eq. unfold Size in *. lia.
    - by apply list_lookup_insert_ne. }
  assert (P0 : _heap h ≡ₚ t :: _heap h0).
  { destruct (_heap h) as [|t' r] eqn:Eh; [done|]. cbn in Ht. injection Ht as ->.
    unfold h0, Size in *. rewrite ?Eh in *. cbn in *.
    destruct r as [|x r' _] using rev_ind; [cbn in H2; lia|].
    rewrite length_app in *. cbn in *.
    replace (length r' + 1 - 0)%nat with (Datatypes.S (length r')) in * by lia. cbn in Hl.
    assert (Some x = Some l) as [= <-]
      by (etransitivity; [symmetry; exact (list_lookup_middle r' [] x (length r') eq_refl)|exact Hl]).
    cbn. rewrite take_app_length. by rewrite Permutation_app_comm. }
  assert (Nl : l <> t).
  { intros ->. assert (0%nat = (Size h - 1)%nat) by (eapply NoDup_lookup; [apply S|done|done]). unfold Size in *. lia. }
  assert (C0 : forall k, content h0 k = if decide (k = t) then None else content h k).
  { intros k. unfold content, h0. cbn. destruct (decide (k = t)) as [->|];
      [by rewrite lookup_delete_eq|by rewrite lookup_delete_ne]. }
  assert (S0 : shape h0 (Some 0%nat)).
  { destruct S as [Nd Dm B]. pose proof Nd as Nd'. rewrite P0 in Nd'. apply NoDup_cons in Nd' as [Nt Nd'].
    constructor; [done| |].
    - intros k. specialize (Dm k). rewrite P0, elem_of_cons in Dm. unfold h0 at 1. cbn.
      destruct (decide (k = t)) as [->|].
      + rewrite lookup_delete_eq. split; [by intros []|done].
      + rewrite lookup_delete_ne by done. rewrite Dm. split; [by intros [?|?]|by right].
    - intros i k it Hk Hit Ni. pose proof (lookup_lt_Some _ _ _ Hk) as Hi. fold (Size h0) in Hi. rewrite Sz in Hi.
      rewrite Lk, decide_False in Hk by (done || congruence). unfold h0 in Hit. cbn in Hit.
      apply lookup_delete_Some in Hit as [_ Hit]. by eapply B. }
  assert (G0 : forall x, (0 < x < Size h - 1)%nat -> gfun h0 x = gfun h x).
  { intros x Hx. destruct (lookup_lt_is_Some_2 (_heap h) x) as [k Hk]; [unfold Size in *; lia|].
    rewrite (gfun_content h0 x k), (gfun_content h x k Hk), C0.
    - rewrite decide_False; [done|]. intros ->.
      assert (x = 0%nat) by (eapply NoDup_lookup; [apply S|done|done]). lia.
    - rewrite Lk by lia. rewrite decide_False by lia. done. }
  destruct (SwapDown_ok (Datatypes.S (Size h0)) h0 0 S0) as (h1 & idx1 & -> & Sf & O1).
  { rewrite Sz. unfold Size in *. lia. } { lia. }
  { rewrite Sz. split; [|intros ?; lia]. intros i Hi N. pose proof (parent_lt i ltac:(lia)).
    rewrite !G0 by lia. apply O. lia. }
  cbn [rbind]. destruct (sifted_close h0 0 h1 idx1 _ Sf eq_refl O1) as (h' & E & W & P & C & _).
  exists h'. split; [done|]. split; [done|]. split; [by rewrite P, <- P0|]. split.
  - intros k. by rewrite C, C0.
  - intros i Hi. by eapply ord_min.
Qed.

Lemma Update_ok h key f :
  heap_wf h -> is_Some (_index h !! key) ->
  exists h', Update h key f = Ok h' /\ heap_wf h' /\ _heap h' ≡ₚ _heap h /\
    forall k, content h' k = if decide (k = key) then (fun x => (fst x, f)) <$> content h k else content h k.
Proof.
  intros [S O] [it Hit]. unfold Update. rewrite Hit. cbn [of_option rbind].
  assert (Hk : key ∈ _heap h) by (apply (sh_dom _ _ S); by eexists).
  apply list_elem_of_lookup in Hk as [idx Hk].
  rewrite (sh_back _ _ S idx key it Hk Hit ltac:(done)), Nat2Z.id, Hk. cbn [of_option rbind].
  pose proof (lookup_lt_Some _ _ _ Hk) as Hi. fold (Size h) in Hi.
  set (h0 := {| _heap := _heap h; _index := _ |}).
  assert (C0 : forall k, content h0 k = if decide (k = key) then (fun x => (fst x, f)) <$> content h k else content h k).
  { intros k. unfold content, h0. cbn. destruct (decide (k = key)) as [->|].
    - rewrite lookup_alter_eq, Hit. done.
    - by rewrite lookup_alter_ne. }
  assert (S0 : shape h0 (Some idx)).
  { destruct S as [Nd Dm B]. constructor; [done| |].
    - intros k. unfold h0. cbn. by rewrite lookup_alter_is_Some, Dm.
    - intros i k it' Hk' Hit' Ni. unfold h0 in Hk', Hit'. cbn in Hk', Hit'.
      assert (k <> key) by (intros ->; assert (i = idx) by (by eapply NoDup_lookup); congruence).
      rewrite lookup_alter_ne in Hit' by done. by eapply B. }
  assert (G0 : forall x, x <> idx -> gfun h0 x = gfun h x).
  { intros x Nx. unfold gfun, h0. cbn. destruct (_heap h !! x) as [k|] eqn:Hx; [|done].
    assert (k <> key) by (intros ->; assert (x = idx) by (eapply NoDup_lookup; [apply S|done|done]); done).
    by rewrite lookup_alter_ne. }
  destruct (SwapUp_ok (Datatypes.S idx) h0 idx S0 Hi ltac:(lia)) as (h1 & i1 & -> & Sf1 & D1 & _).
  { split.
    - intros i Hi' N1 N2. rewrite !G0 by done. by apply O.
    - intros Hp c Hc Ec. pose proof (parent_lt idx Hp). pose proof (parent_lt c ltac:(lia)).
      rewrite !G0 by lia. transitivity (gfun h idx); [apply O; split; [done|exact Hi]|].
      rewrite <- Ec. apply O. exact Hc. }
  cbn [rbind]. pose proof (si_size _ _ _ _ Sf1) as L1. pose proof (si_lt _ _ _ _ Sf1) as I1.
  destruct (SwapDown_ok (Datatypes.S (Size h1)) h1 i1 (si_shape _ _ _ _ Sf1)) as (h2 & i2 & -> & Sf2 & O2).
  { lia. } { lia. } { by rewrite L1. }
  cbn [rbind]. pose proof (sifted_trans _ _ _ _ _ _ Sf1 Sf2) as Sf. rewrite L1 in O2.
  destruct (sifted_close h0 idx h2 i2 _ Sf eq_refl O2) as (h' & E & W & P & C & _).
  rewrite (index_set_idx_close h2 key i2 (si_shape _ _ _ _ Sf)) in E.
  2: { rewrite (si_key _ _ _ _ Sf). exact Hk. }
  injection E as E. exists h'. rewrite E. split; [done|]. split; [done|]. split; [exact P|].
  intros k. by rewrite C, C0.
Qed.

Lemma empty_heap_wf : heap_wf empty_heap.
Proof.
  split; [constructor; cbn|].
  - constructor.
  - intros k. rewrite lookup_empty. split; [by intros []|by intros ?%elem_of_nil].
  - done.
  - intros i Hi. cbn in Hi. lia.
Qed.

(** On a heap of one item, [Pop] writes through [_heap[0]] of the emptied vector. *)
Lemma Pop_one h t : heap_wf h -> _heap h = [t] -> Pop h = Err Undefined.
Proof. intros _ E. unfold Pop, Size. rewrite E. reflexivity. Qed.
