(* ===== verification/TopK.v ===== *)
(** The frequency part of [EcallFreqIndex] (ecallIndex/ecallFreqIndex.cc): the top-k
    policy over the heap and the sketch, and their persistence in the sealed files
    (commonEnclave.cc, ocallSrc/storeOCall.cc). *)
From Stdlib Require Import ZArith Lia.
From stdpp Require Import base list gmap.
From S2P Require Import Prelude Types CMSketch EntryHeap.

(** ** The top-k policy *)

Definition CheckIfAddToHeap (topThreshold : nat) (h : EcallEntryHeap) (chunkFreq : Z) : result bool :=
  if (Size h <? topThreshold)%nat then Ok true
  else
    currentMin <-- TopEntry h ;;
    Ok (currentMin <=? chunkFreq).

Definition AddChunkToHeap (topThreshold : nat) (h : EcallEntryHeap) (chunkFreq : Z)
    (chunkAddr : RecipeEntry_t) (chunkFp : bytes) : result EcallEntryHeap :=
  h <-- (if (Size h =? topThreshold)%nat then Pop h else Ok h) ;;
  (* [idx] of the new item is not initialised; [Add] sets it *)
  Add h chunkFp {| hi_address := chunkAddr; hi_chunkFreq := chunkFreq; hi_idx := 0 |}.

Definition UpdateInsideIndexFreq (h : EcallEntryHeap) (chunkFp : bytes) (currentFreq : Z)
  : result EcallEntryHeap := Update h chunkFp currentFreq.

(** ** Sealed files *)

Definition SGX_PERSISTENCE_BUFFER_SIZE : Z := 2 * 1024 * 1024.

(** [Ocall_WriteSealedData] appends to the file; the buffer goes out in pieces. *)
Definition Ocall_WriteSealedData (file data : bytes) : bytes := file ++ data.

Fixpoint write_pieces (fuel : nat) (file buffer : bytes) (offset remainSize : Z) : result bytes :=
  if remainSize =? 0 then Ok file
  else match fuel with
  | O => Err Fuel
  | S fuel =>
    if SGX_PERSISTENCE_BUFFER_SIZE <? remainSize then
      write_pieces fuel
        (Ocall_WriteSealedData file (slice buffer offset SGX_PERSISTENCE_BUFFER_SIZE))
        buffer (offset + SGX_PERSISTENCE_BUFFER_SIZE) (remainSize - SGX_PERSISTENCE_BUFFER_SIZE)
    else Ok (Ocall_WriteSealedData file (slice buffer offset remainSize))
  end.
Definition WriteBufferToFile (file buffer : bytes) : result bytes :=
  write_pieces (S (length buffer)) file buffer 0 (blen buffer).

(** [Ocall_ReadSealedData] reads on from the position of the stream: the bytes read
    and the rest of the file. *)
Definition Ocall_ReadSealedData (stream : bytes) (size : Z) : bytes * bytes :=
  (take (Z.to_nat size) stream, drop (Z.to_nat size) stream).

Fixpoint read_pieces (fuel : nat) (stream acc : bytes) (remainSize : Z) : result (bytes * bytes) :=
  if remainSize =? 0 then Ok (acc, stream)
  else match fuel with
  | O => Err Fuel
  | S fuel =>
    if SGX_PERSISTENCE_BUFFER_SIZE <? remainSize then
      let '(d, stream) := Ocall_ReadSealedData stream SGX_PERSISTENCE_BUFFER_SIZE in
      read_pieces fuel stream (acc ++ d) (remainSize - SGX_PERSISTENCE_BUFFER_SIZE)
    else
      let '(d, stream) := Ocall_ReadSealedData stream remainSize in Ok (acc ++ d, stream)
  end.
Definition ReadFileToBuffer (stream : bytes) (bufferSize : Z) : result (bytes * bytes) :=
  read_pieces (S (Z.to_nat bufferSize)) stream [] bufferSize.

Lemma write_pieces_ok fuel file buffer off rem :
  0 <= off -> 0 <= rem -> off + rem <= blen buffer -> rem <= Z.of_nat fuel ->
  write_pieces fuel file buffer off rem = Ok (file ++ slice buffer off rem).
Proof.
  revert file off rem. induction fuel as [|fuel IH]; intros file off rem Ho Hr Hb Hf; cbn [write_pieces].
  - replace rem with 0 by lia. cbn. by rewrite slice_nil_len, app_nil_r.
  - case_if; [subst; by rewrite slice_nil_len, app_nil_r|].
    case_if; [|done]. unfold SGX_PERSISTENCE_BUFFER_SIZE, Ocall_WriteSealedData in *.
    rewrite IH by lia. rewrite <- app_assoc, slice_app_slice by lia. do 3 f_equal. lia.
Qed.
Lemma WriteBufferToFile_ok file buffer : WriteBufferToFile file buffer = Ok (file ++ buffer).
Proof.
  unfold WriteBufferToFile. rewrite write_pieces_ok; [by rewrite slice_full| |apply blen_nonneg| |];
    unfold blen; lia.
Qed.

Lemma read_pieces_ok fuel stream acc rem :
  0 <= rem <= Z.of_nat fuel ->
  read_pieces fuel stream acc rem = Ok (acc ++ take (Z.to_nat rem) stream, drop (Z.to_nat rem) stream).
Proof.
  revert stream acc rem. induction fuel as [|fuel IH]; intros stream acc rem Hr; cbn [read_pieces].
  - replace rem with 0 by lia. cbn. by rewrite app_nil_r.
  - case_if; [subst; cbn; by rewrite app_nil_r|].
    case_if; [|done]. unfold SGX_PERSISTENCE_BUFFER_SIZE, Ocall_ReadSealedData in *.
    rewrite IH by lia. rewrite <- app_assoc, take_take_drop, drop_drop.
    replace (Z.to_nat (2 * 1024 * 1024) + Z.to_nat (rem - 2 * 1024 * 1024))%nat with (Z.to_nat rem) by lia.
    done.
Qed.
Lemma ReadFileToBuffer_ok stream n :
  0 <= n -> ReadFileToBuffer stream n = Ok (take (Z.to_nat n) stream, drop (Z.to_nat n) stream).
Proof. intros. unfold ReadFileToBuffer. rewrite read_pieces_ok by lia. done. Qed.

(** ** [PersistDedupIndex] *)

Definition row_bytes (row : list Z) : bytes := concat (map (le_bytes 4) row).
Fixpoint row_of (n : nat) (b : bytes) : list Z :=
  match n with O => [] | S n => le_val (take 4 b) :: row_of n (drop 4 b) end.

Fixpoint persist_rows (rows : list (list Z)) (file : bytes) : result bytes :=
  match rows with
  | [] => Ok file
  | row :: rows => file <-- WriteBufferToFile file (row_bytes row) ;; persist_rows rows file
  end.

(** The entries of the heap in vector order: the key and the item. *)
Fixpoint persist_items (h : EcallEntryHeap) (keys : list bytes) : result bytes :=
  match keys with
  | [] => Ok []
  | k :: keys =>
    it <-- of_option Undefined (_index h !! k) ;;
    rest <-- persist_items h keys ;;
    Ok (take 32 k ++ heap_item_put it ++ rest)
  end.

(** The two files, both opened with truncation. *)
Definition PersistDedupIndex (s : EcallCMSketch) (h : EcallEntryHeap) : result (bytes * bytes) :=
  sketch <-- persist_rows (counterArray_ s) [] ;;
  items <-- persist_items h (_heap h) ;;
  heap <-- WriteBufferToFile [] (le_bytes 8 (Z.of_nat (Size h)) ++ items) ;;
  Ok (sketch, heap).

(** ** [LoadDedupIndex] *)

Fixpoint load_rows (depth width : nat) (stream : bytes) : result (list (list Z)) :=
  match depth with
  | O => Ok []
  | S depth =>
    x <-- ReadFileToBuffer stream (4 * Z.of_nat width) ;;
    let '(b, stream) := x in
    rows <-- load_rows depth width stream ;;
    Ok (row_of width b :: rows)
  end.

(** The loop over the entries from [b] on: [insert], then [push_back]. *)
Fixpoint load_items (n : nat) (b : bytes) (h : EcallEntryHeap) : EcallEntryHeap :=
  match n with
  | O => h
  | S n =>
    let fp := take 32 b in
    let it := heap_item_get (drop 32 b) in
    load_items n (drop (32 + 152) b)
      {| _heap := _heap h ++ [fp];
         _index := match _index h !! fp with Some _ => _index h | None => <[fp := it]> (_index h) end |}
  end.

(** [false] is [None]; the counters and the heap are those of the constructor. *)
Definition LoadDedupIndex (sketchFile heapFile : bytes) (s : EcallCMSketch) (h : EcallEntryHeap)
  : result (option (EcallCMSketch * EcallEntryHeap)) :=
  if blen sketchFile =? 0 then Ok None else
  rows <-- load_rows (depth_ s) (width_ s) sketchFile ;;
  if blen heapFile =? 0 then Ok None else
  x <-- ReadFileToBuffer heapFile (blen heapFile) ;;
  let '(b, _) := x in
  let itemNum := Z.to_nat (rd64 b 0) in
  Ok (Some ({| width_ := width_ s; depth_ := depth_ s; total_ := total_ s; counterArray_ := rows |},
            load_items itemNum (drop 8 b) h)).

(** ** Round trip *)

Lemma row_of_bytes row rest :
  Forall (fun c => 0 <= c < 2 ^ 32) row -> row_of (length row) (row_bytes row ++ rest) = row.
Proof.
  induction 1 as [|c row Hc _ IH]; [done|]. unfold row_bytes in *. cbn [map concat length row_of].
  rewrite <- app_assoc, take_app_length', drop_app_length' by (by rewrite length_le_bytes).
  rewrite le_val_le_bytes by exact Hc. by rewrite IH.
Qed.
Lemma row_bytes_length row : length (row_bytes row) = (4 * length row)%nat.
Proof.
  induction row as [|c row IH]; [done|]. unfold row_bytes in *. cbn [map concat].
  rewrite length_app, IH, length_le_bytes. cbn. lia.
Qed.

Lemma persist_rows_ok rows file : persist_rows rows file = Ok (file ++ concat (map row_bytes rows)).
Proof.
  revert file. induction rows as [|row rows IH]; intros file; cbn [persist_rows map concat]; [by rewrite app_nil_r|].
  rewrite WriteBufferToFile_ok. cbn [rbind]. by rewrite IH, <- app_assoc.
Qed.
Lemma load_rows_ok width rows :
  Forall (fun row => length row = width /\ Forall (fun c => 0 <= c < 2 ^ 32) row) rows ->
  load_rows (length rows) width (concat (map row_bytes rows)) = Ok rows.
Proof.
  induction 1 as [|row rows [L R] _ IH]; [done|]. cbn [length load_rows map concat].
  rewrite ReadFileToBuffer_ok by lia. cbn [rbind].
  rewrite take_app_length', drop_app_length' by (rewrite row_bytes_length; lia).
  rewrite IH. cbn [rbind]. rewrite <- L. rewrite <- (app_nil_r (row_bytes row)). by rewrite row_of_bytes.
Qed.

Definition entries_ok (h : EcallEntryHeap) : Prop :=
  Forall (fun k => length k = 32%nat /\ forall it, _index h !! k = Some it -> heap_item_ok it) (_heap h).

Lemma persist_items_ok h keys :
  Forall (fun k => is_Some (_index h !! k)) keys ->
  exists b, persist_items h keys = Ok b.
Proof.
  induction 1 as [|k keys [it Hk] _ [b IH]]; [by exists []|]. cbn. rewrite Hk. cbn. rewrite IH. by eexists.
Qed.

(** Loading the entries of [keys] on top of a heap that has the others. *)
Lemma load_items_ok h keys : forall b h0,
  NoDup keys -> Forall (fun k => length k = 32%nat /\ forall it, _index h !! k = Some it -> heap_item_ok it) keys ->
  (forall k, k ∈ keys -> _index h0 !! k = None) ->
  persist_items h keys = Ok b ->
  let h1 := load_items (length keys) b h0 in
  _heap h1 = _heap h0 ++ keys /\
  forall k, _index h1 !! k = if decide (k ∈ keys) then _index h !! k else _index h0 !! k.
Proof.
  induction keys as [|k keys IH]; intros b h0 Nd F Hn E; cbn zeta.
  - cbn. split; [by rewrite app_nil_r|]. intros k. rewrite decide_False; [done|]. apply not_elem_of_nil.
  - apply NoDup_cons in Nd as [Nk Nd]. apply Forall_cons in F as [[Lk Hit] F]. cbn [persist_items] in E.
    destruct (_index h !! k) as [it|] eqn:Hk; [|done]. cbn [of_option rbind] in E.
    destruct (persist_items h keys) as [rest|] eqn:Er; [|done]. cbn [rbind] in E. injection E as <-.
    rewrite (take_ge k) by lia. cbn [length load_items].
    rewrite take_app_length', (drop_app_length' k _ 32) by lia.
    rewrite (heap_item_get_put it rest (Hit it eq_refl)).
    replace (drop (32 + 152) (k ++ heap_item_put it ++ rest)) with rest.
    2: { rewrite app_assoc, drop_app_length'; [done|]. rewrite length_app, Lk.
         by rewrite (heap_item_put_length it (Hit it eq_refl)). }
    rewrite (Hn k) by apply list_elem_of_here.
    destruct (IH rest {| _heap := _heap h0 ++ [k]; _index := <[k := it]> (_index h0) |} Nd F) as [Eh Ei]; [|done|].
    { intros k' Hk'. cbn. rewrite lookup_insert_ne by (intros ->; done). apply Hn. by apply list_elem_of_further. }
    cbn zeta in Eh, Ei. rewrite Eh. cbn [_heap]. rewrite <- app_assoc. split; [done|].
    intros k'. rewrite Ei. cbn [_index]. destruct (decide (k' = k)) as [->|N].
    + rewrite (decide_False (P := k ∈ keys)), decide_True by (done || apply list_elem_of_here).
      by rewrite lookup_insert_eq, Hk.
    + rewrite lookup_insert_ne by done. 
      destruct (decide (k' ∈ keys)) as [H|H].
      * rewrite decide_True by (by apply list_elem_of_further). done.
      * rewrite decide_False; [done|]. intros [->|?]%elem_of_cons; done.
Qed.

(** ** Properties *)

Lemma content_gfun h k a g :
  heap_wf h -> content h k = Some (a, g) -> exists i, (i < Size h)%nat /\ gfun h i = g.
Proof.
  intros [S _] H. unfold content in H. apply fmap_Some in H as (it & Hit & [= -> ->]).
  assert (Hk : k ∈ _heap h) by (apply (sh_dom _ _ S); by eexists).
  apply list_elem_of_lookup in Hk as [i Hi]. exists i. split; [by eapply lookup_lt_Some|].
  unfold gfun. by rewrite Hi, Hit.
Qed.

Lemma heap_content h i k : heap_wf h -> _heap h !! i = Some k -> exists a, content h k = Some (a, gfun h i).
Proof.
  intros [S _] Hi. destruct (sh_item h None i k S Hi) as [it Hit]. exists (hi_address it).
  unfold content, gfun. by rewrite Hi, Hit.
Qed.

Lemma size_pos_top h : heap_wf h -> (0 < Size h)%nat ->
  exists t a, _heap h !! 0%nat = Some t /\ content h t = Some (a, gfun h 0) /\
    TopEntry h = Ok (gfun h 0) /\
    forall k a' g, content h k = Some (a', g) -> gfun h 0 <= g.
Proof.
  intros W H. destruct (lookup_lt_is_Some_2 (_heap h) 0 H) as [t Ht].
  destruct (heap_content h 0 t W Ht) as [a Ha]. exists t, a. split; [done|]. split; [done|].
  split; [eapply freq_ok; [apply W|done]|].
  intros k a' g Hk. destruct (content_gfun h k a' g W Hk) as (i & Hi & <-). eapply ord_min; [apply W|done].
Qed.

Lemma AddChunkToHeap_ok top h f addr fp :
  heap_wf h -> (2 <= top)%nat -> (Size h <= top)%nat -> _index h !! fp = None ->
  exists h', AddChunkToHeap top h f addr fp = Ok h' /\ heap_wf h' /\
    Size h' = Nat.min top (Size h + 1) /\
    ((Size h < top)%nat /\
       (forall k, content h' k = if decide (k = fp) then Some (addr, f) else content h k)
     \/
     Size h = top /\ exists t a m,
       content h t = Some (a, m) /\ (forall k a' g, content h k = Some (a', g) -> m <= g) /\
       (CheckIfAddToHeap top h f = Ok true -> m <= f) /\
       forall k, content h' k = if decide (k = fp) then Some (addr, f)
                                else if decide (k = t) then None else content h k).
Proof.
  intros W Htop Hle Hn. unfold AddChunkToHeap. destruct (Size h =? top)%nat eqn:E.
  - apply Nat.eqb_eq in E. destruct (size_pos_top h W ltac:(lia)) as (t & a & Ht & Ha & Top & Min).
    destruct (Pop_ok h t W ltac:(lia) Ht) as (h1 & -> & W1 & P1 & C1 & _). cbn [rbind].
    assert (N1 : _index h1 !! fp = None).
    { specialize (C1 fp). unfold content in C1. rewrite Hn in C1.
      destruct (_index h1 !! fp); [|done]. cbn in C1. by case_decide. }
    destruct (Add_ok h1 fp {| hi_address := addr; hi_chunkFreq := f; hi_idx := 0 |} W1 N1)
      as (h' & -> & W' & P' & C'). apply Permutation_length in P1, P'. unfold Size in *. cbn in P1, P'.
    exists h'. split; [done|]. split; [done|]. split; [lia|]. right. split; [done|].
    exists t, a, (gfun h 0). split; [done|]. split; [done|]. split.
    + unfold CheckIfAddToHeap, Size. rewrite (proj2 (Nat.ltb_ge _ _)) by lia. rewrite Top. cbn [rbind].
      intros [= C]. boolz. lia.
    + intros k. rewrite C'. cbn. case_decide; [done|]. by rewrite C1.
  - apply Nat.eqb_neq in E. cbn [rbind].
    destruct (Add_ok h fp {| hi_address := addr; hi_chunkFreq := f; hi_idx := 0 |} W Hn)
      as (h' & -> & W' & P' & C'). apply Permutation_length in P'. unfold Size in *. cbn in P'.
    exists h'. split; [done|]. split; [done|]. split; [lia|]. left. split; [lia|]. exact C'.
Qed.

(** C21. Adding a chunk to the heap never exceeds the threshold: below it nothing is
    lost, at it exactly one item of least frequency is evicted, whose frequency is
    at most the new one when [CheckIfAddToHeap] agreed to add. *)
Theorem AddChunkToHeap_topk top h f addr fp :
  heap_wf h -> (2 <= top)%nat -> (Size h <= top)%nat -> _index h !! fp = None ->
  exists h', AddChunkToHeap top h f addr fp = Ok h' /\ heap_wf h' /\
    Size h' = Nat.min top (Size h + 1) /\
    ((Size h < top)%nat /\
       (forall k, content h' k = if decide (k = fp) then Some (addr, f) else content h k)
     \/
     Size h = top /\ exists t a m,
       content h t = Some (a, m) /\ (forall k a' g, content h k = Some (a', g) -> m <= g) /\
       (CheckIfAddToHeap top h f = Ok true -> m <= f) /\
       forall k, content h' k = if decide (k = fp) then Some (addr, f)
                                else if decide (k = t) then None else content h k).
Proof. apply AddChunkToHeap_ok. Qed.

Definition ex_addr : RecipeEntry_t := mk_recipe (repeat 1 7) 0 0 100 (repeat 2 32) (repeat 3 96).

Lemma AddChunkToHeap_topk_witness :
  exists h', AddChunkToHeap 2 empty_heap 5 ex_addr (repeat 9 32) = Ok h' /\ heap_wf h' /\
    Size h' = Nat.min 2 (Size empty_heap + 1) /\
    ((Size empty_heap < 2)%nat /\
       (forall k, content h' k = if decide (k = repeat 9 32) then Some (ex_addr, 5) else content empty_heap k)
     \/
     Size empty_heap = 2%nat /\ exists t a m,
       content empty_heap t = Some (a, m) /\
       (forall k a' g, content empty_heap k = Some (a', g) -> m <= g) /\
       (CheckIfAddToHeap 2 empty_heap 5 = Ok true -> m <= 5) /\
       forall k, content h' k = if decide (k = repeat 9 32) then Some (ex_addr, 5)
                                else if decide (k = t) then None else content empty_heap k).
Proof.
  apply (AddChunkToHeap_topk 2 empty_heap 5 ex_addr (repeat 9 32) empty_heap_wf);
    [lia|cbn; lia|reflexivity].
Defined.

(** With a threshold of one item, the second chunk that is added makes [Pop]
    write through the emptied vector. *)
Theorem AddChunkToHeap_one h t f addr fp :
  heap_wf h -> _heap h = [t] -> AddChunkToHeap 1 h f addr fp = Err Undefined.
Proof.
  intros W E. unfold AddChunkToHeap, Size. rewrite E. cbn [length Nat.eqb]. by rewrite (Pop_one h t W E).
Qed.

Definition ex_one : EcallEntryHeap :=
  match Add empty_heap (repeat 9 32) (mk_heap_item ex_addr 5 0) with Ok h => h | Err _ => empty_heap end.

Lemma AddChunkToHeap_one_witness : AddChunkToHeap 1 ex_one 6 ex_addr (repeat 8 32) = Err Undefined.
Proof.
  apply (AddChunkToHeap_one ex_one (repeat 9 32)); [|vm_compute; reflexivity].
  destruct (Add_ok empty_heap (repeat 9 32) (mk_heap_item ex_addr 5 0) empty_heap_wf eq_refl) as (h & E & W & _).
  unfold ex_one. by rewrite E.
Defined.

(** C33. Raising a chunk's frequency in the heap keeps the heap order, the back
    pointers and every other item. *)
Theorem UpdateInsideIndexFreq_ok h fp f :
  heap_wf h -> Contains h fp = true ->
  exists h', UpdateInsideIndexFreq h fp f = Ok h' /\ heap_wf h' /\
    (forall k, content h' k = if decide (k = fp) then (fun x => (fst x, f)) <$> content h k else content h k) /\
    exists m, TopEntry h' = Ok m /\ forall k a g, content h' k = Some (a, g) -> m <= g.
Proof.
  intros W C. apply bool_decide_eq_true in C.
  destruct (Update_ok h fp f W C) as (h' & E & W' & P & Cn). exists h'. split; [exact E|]. split; [done|].
  split; [done|].
  assert (L : (0 < Size h')%nat).
  { assert (Hk : fp ∈ _heap h) by (apply (sh_dom _ _ (proj1 W)); done). rewrite <- P in Hk.
    unfold Size. destruct (_heap h'); [by apply elem_of_nil in Hk|cbn; lia]. }
  destruct (size_pos_top h' W' L) as (t & a & _ & _ & Top & Min). by exists (gfun h' 0).
Qed.

Lemma UpdateInsideIndexFreq_ok_witness :
  exists h', UpdateInsideIndexFreq ex_one (repeat 9 32) 7 = Ok h' /\ heap_wf h' /\
    (forall k, content h' k = if decide (k = repeat 9 32) then (fun x => (fst x, 7)) <$> content ex_one k
                              else content ex_one k) /\
    exists m, TopEntry h' = Ok m /\ forall k a g, content h' k = Some (a, g) -> m <= g.
Proof.
  apply (UpdateInsideIndexFreq_ok ex_one (repeat 9 32) 7); [|vm_compute; reflexivity].
  destruct (Add_ok empty_heap (repeat 9 32) (mk_heap_item ex_addr 5 0) empty_heap_wf eq_refl) as (h & E & W & _).
  unfold ex_one. by rewrite E.
Defined.

Definition sketch_ok (s : EcallCMSketch) : Prop :=
  length (counterArray_ s) = depth_ s /\ (0 < depth_ s)%nat /\ (0 < width_ s)%nat /\
  Forall (fun row => length row = width_ s /\ Forall (fun c => 0 <= c < 2 ^ 32) row) (counterArray_ s).

(** C29. What [PersistDedupIndex] writes, [LoadDedupIndex] reads back into a new
    index: the counters of the sketch and the whole heap, order and back pointers
    included. *)
Theorem persist_load s h s0 :
  sketch_ok s -> heap_wf h -> entries_ok h -> Z.of_nat (Size h) < 2 ^ 64 ->
  width_ s0 = width_ s -> depth_ s0 = depth_ s ->
  exists sf hf, PersistDedupIndex s h = Ok (sf, hf) /\
    LoadDedupIndex sf hf s0 empty_heap =
      Ok (Some ({| width_ := width_ s; depth_ := depth_ s; total_ := total_ s0;
                   counterArray_ := counterArray_ s |}, h)).
Proof.
  intros (L & Dp & Wp & Fr) W E Sz Ew Ed. unfold PersistDedupIndex.
  rewrite persist_rows_ok. cbn [rbind].
  destruct (persist_items_ok h (_heap h)) as [b Eb].
  { apply Forall_forall. intros k Hk. by apply (sh_dom _ _ (proj1 W)). }
  rewrite Eb. cbn [rbind]. rewrite WriteBufferToFile_ok. cbn [rbind]. rewrite !app_nil_l.
  eexists _, _. split; [reflexivity|]. unfold LoadDedupIndex. rewrite Ew, Ed.
  assert (N1 : blen (concat (map row_bytes (counterArray_ s))) <> 0).
  { destruct (counterArray_ s) as [|row rows]; [cbn in L; lia|]. apply Forall_cons in Fr as [[Lr _] _].
    cbn [map concat]. rewrite blen_app. pose proof (blen_nonneg (concat (map row_bytes rows))).
    pose proof (row_bytes_length row). unfold blen in *. lia. }
  rewrite (proj2 (Z.eqb_neq _ _) N1), <- L, load_rows_ok by done. cbn [rbind].
  assert (N2 : blen (le_bytes 8 (Z.of_nat (Size h)) ++ b) <> 0).
  { rewrite blen_app, blen_le_bytes. pose proof (blen_nonneg b). lia. }
  rewrite (proj2 (Z.eqb_neq _ _) N2), ReadFileToBuffer_ok by apply blen_nonneg. cbn [rbind].
  unfold blen. rewrite Nat2Z.id, firstn_all.
  replace (rd64 (le_bytes 8 (Z.of_nat (Size h)) ++ b) 0) with (Z.of_nat (Size h)).
  2: { unfold rd64. rewrite slice_0. rewrite take_app_length' by (by rewrite length_le_bytes).
       symmetry. apply le_val_le_bytes. lia. }
  rewrite Nat2Z.id, drop_app_length' by (by rewrite length_le_bytes).
  destruct (load_items_ok h (_heap h) b empty_heap (sh_nodup _ _ (proj1 W)) E) as [Eh Ei]; [done|done|].
  fold (Size h) in Eh, Ei. cbn zeta in Eh, Ei.
  set (h1 := load_items (Size h) b empty_heap) in *. do 3 f_equal.
  destruct h as [hp idx], h1 as [hp1 idx1]. cbn in Eh, Ei. f_equal; [exact Eh|].
  apply map_eq. intros k. rewrite Ei. case_decide as D; [done|].
  rewrite lookup_empty. symmetry. apply eq_None_not_Some. intros H. apply D.
  by apply (sh_dom _ _ (proj1 W)).
Qed.

Lemma persist_load_witness :
  exists sf hf, PersistDedupIndex (sketch_init 3 2) ex_one = Ok (sf, hf) /\
    LoadDedupIndex sf hf (sketch_init 3 2) empty_heap =
      Ok (Some ({| width_ := 3; depth_ := 2; total_ := 0;
                   counterArray_ := counterArray_ (sketch_init 3 2) |}, ex_one)).
Proof.
  apply (persist_load (sketch_init 3 2) ex_one (sketch_init 3 2)).
  - split; [reflexivity|]. split; [cbn; lia|]. split; [cbn; lia|].
    cbn. repeat constructor; lia.
  - destruct (Add_ok empty_heap (repeat 9 32) (mk_heap_item ex_addr 5 0) empty_heap_wf eq_refl) as (h & E & W & _).
    unfold ex_one. by rewrite E.
  - assert (E : _heap ex_one = [repeat 9 32]) by (vm_compute; reflexivity).
    unfold entries_ok. rewrite E. constructor; [|constructor]. split; [reflexivity|].
    intros it Hit. vm_compute in Hit. injection Hit as <-.
    constructor; [constructor|..]; by_decide.
  - vm_compute. reflexivity.
  - reflexivity.
  - reflexivity.
Defined.
