(* ===== verification/LruCache.v ===== *)
(** The LRU cache template (include/lruCache.h): a map from keys to nodes of a list
    kept in order of use, most recent first. *)
From Stdlib Require Import ZArith Lia.
From stdpp Require Import base list gmap.
From S2P Require Import Prelude.

Section lru.
Context {V : Type}.

(** The map [cache_] takes a key to its node in [keys_]; an iterator is the key of
    the node it points to, so the map is the set of its keys. *)
Record Cache := mk_cache {
  cache_ : gset bytes;
  keys_ : list (bytes * V);
  maxSize_ : nat;
  elasticity_ : nat
}.

(** ** Operations *)

Definition cache_size (c : Cache) : nat := size (cache_ c).
Definition cache_clear (c : Cache) : Cache :=
  {| cache_ := ∅; keys_ := []; maxSize_ := maxSize_ c; elasticity_ := elasticity_ c |}.
Definition contains (c : Cache) (k : bytes) : bool := bool_decide (k ∈ cache_ c).

(** The node an iterator points to, and the list without it. *)
Fixpoint node (k : bytes) (l : list (bytes * V)) : option V :=
  match l with
  | [] => None
  | (k', v) :: l => if decide (k' = k) then Some v else node k l
  end.
Fixpoint erase (k : bytes) (l : list (bytes * V)) : list (bytes * V) :=
  match l with
  | [] => []
  | (k', v) :: l => if decide (k' = k) then l else (k', v) :: erase k l
  end.

Definition set_keys (c : Cache) (s : gset bytes) (l : list (bytes * V)) : Cache :=
  {| cache_ := s; keys_ := l; maxSize_ := maxSize_ c; elasticity_ := elasticity_ c |}.

(** [while (cache_.size() > maxSize_) { cache_.erase(keys_.back().key); keys_.pop_back(); }] *)
Fixpoint prune_loop (fuel : nat) (c : Cache) : result Cache :=
  if (maxSize_ c <? size (cache_ c))%nat then
    match fuel with
    | O => Err Fuel
    | S fuel =>
      match last (keys_ c) with
      | None => Err Undefined
      | Some (k, _) =>
        prune_loop fuel (set_keys c (cache_ c ∖ {[k]}) (take (length (keys_ c) - 1) (keys_ c)))
      end
    end
  else Ok c.

Definition prune (c : Cache) : result Cache :=
  if ((maxSize_ c =? 0) || (size (cache_ c) <? maxSize_ c + elasticity_ c))%nat then Ok c
  else prune_loop (length (keys_ c)) c.

Definition cache_insert (c : Cache) (k : bytes) (v : V) : result Cache :=
  if contains c k then
    (* the value is replaced and the node spliced to the front *)
    Ok (set_keys c (cache_ c) ((k, v) :: erase k (keys_ c)))
  else prune (set_keys c (cache_ c ∪ {[k]}) ((k, v) :: keys_ c)).

(** [get] throws [KeyNotFound]; [tryGet] returns false. *)
Definition get (c : Cache) (k : bytes) : result (Cache * V) :=
  if contains c k then
    v <-- of_option Undefined (node k (keys_ c)) ;;
    Ok (set_keys c (cache_ c) ((k, v) :: erase k (keys_ c)), v)
  else Err ExitError.
Definition tryGet (c : Cache) (k : bytes) : result (Cache * option V) :=
  if contains c k then
    v <-- of_option Undefined (node k (keys_ c)) ;;
    Ok (set_keys c (cache_ c) ((k, v) :: erase k (keys_ c)), Some v)
  else Ok (c, None).

Definition remove (c : Cache) (k : bytes) : Cache * bool :=
  if contains c k then (set_keys c (cache_ c ∖ {[k]}) (erase k (keys_ c)), true) else (c, false).

(** The value of the least recently used key. *)
Definition pruneValue (c : Cache) : result V :=
  match last (keys_ c) with
  | None => Err Undefined
  | Some (k, _) => if contains c k then of_option Undefined (node k (keys_ c)) else Err ExitError
  end.

Definition new_cache (maxSize elasticity : nat) : Cache :=
  {| cache_ := ∅; keys_ := []; maxSize_ := maxSize; elasticity_ := elasticity |}.

(** ** Invariant *)

Definition lru_wf (c : Cache) : Prop :=
  NoDup (keys_ c).*1 /\ cache_ c = list_to_set (keys_ c).*1.

Lemma lru_wf_size c : lru_wf c -> size (cache_ c) = length (keys_ c).
Proof. intros [N ->]. rewrite size_list_to_set by done. by rewrite length_fmap. Qed.
Lemma lru_wf_elem c k : lru_wf c -> k ∈ cache_ c <-> k ∈ (keys_ c).*1.
Proof. intros [_ ->]. by rewrite elem_of_list_to_set. Qed.

Lemma erase_keys k l : NoDup l.*1 -> k ∈ l.*1 -> l.*1 ≡ₚ k :: (erase k l).*1.
Proof.
  induction l as [|[k' v] l IH]; cbn; [by intros _ ?%elem_of_nil|].
  intros [N1 N2]%NoDup_cons [->|Hk]%elem_of_cons.
  - rewrite decide_True by done. done.
  - rewrite decide_False by (by intros ->). cbn. rewrite (IH N2 Hk) at 1. by apply Permutation_swap.
Qed.
Lemma erase_notin k l : k ∉ l.*1 -> erase k l = l.
Proof.
  induction l as [|[k' v] l IH]; cbn; [done|]. intros [N1 N2]%not_elem_of_cons.
  rewrite decide_False by done. by rewrite IH.
Qed.
Lemma node_Some k l : k ∈ l.*1 -> exists v, node k l = Some v.
Proof.
  induction l as [|[k' v] l IH]; cbn; [by intros ?%elem_of_nil|].
  case_decide; [by eexists|]. intros [->|Hk]%elem_of_cons; [done|by apply IH].
Qed.
Lemma node_elem k l v : node k l = Some v -> (k, v) ∈ l.
Proof.
  induction l as [|[k' v'] l IH]; cbn; [done|].
  case_decide; [intros [= ->]; subst; apply list_elem_of_here|]. intros Hn. by apply list_elem_of_further, IH.
Qed.

(** Moving a node to the front keeps the invariant. *)
Lemma splice_wf c k v : lru_wf c -> k ∈ cache_ c -> lru_wf (set_keys c (cache_ c) ((k, v) :: erase k (keys_ c))).
Proof.
  intros W H. pose proof H as H'. rewrite (lru_wf_elem _ _ W) in H'. destruct W as [N E].
  pose proof (erase_keys k (keys_ c) N H') as P. split; cbn [keys_ set_keys cache_ fmap list_fmap fst].
  - change (NoDup (k :: (erase k (keys_ c)).*1)). by rewrite <- P.
  - rewrite E. change (list_to_set (keys_ c).*1 =@{gset bytes} list_to_set (k :: (erase k (keys_ c)).*1)).
    apply set_eq. intros x. rewrite !elem_of_list_to_set. by rewrite P.
Qed.

Lemma lru_snoc_erase c l k v :
  lru_wf c -> keys_ c = l ++ [(k, v)] -> lru_wf (set_keys c (cache_ c ∖ {[k]}) l).
Proof.
  intros [N E] K. rewrite K, fmap_app in N, E. apply NoDup_app in N as (N & D & _). split; [done|].
  cbn. rewrite E. apply set_eq. intros x. rewrite elem_of_difference, !elem_of_list_to_set, elem_of_app.
  cbn. rewrite list_elem_of_singleton, elem_of_singleton. specialize (D x). cbn in D.
  rewrite list_elem_of_singleton in D. naive_solver.
Qed.

Lemma prune_loop_ok fuel c :
  lru_wf c -> (length (keys_ c) <= fuel)%nat ->
  exists c', prune_loop fuel c = Ok c' /\ lru_wf c' /\ keys_ c' = take (maxSize_ c) (keys_ c) /\
    maxSize_ c' = maxSize_ c /\ elasticity_ c' = elasticity_ c.
Proof.
  revert c. induction fuel as [|fuel IH]; intros c W F; cbn [prune_loop]; rewrite (lru_wf_size c W).
  - rewrite (proj2 (Nat.ltb_ge _ _)) by lia. exists c. split; [done|]. split; [done|].
    by rewrite take_ge by lia.
  - destruct (maxSize_ c <? length (keys_ c))%nat eqn:E.
    2: { apply Nat.ltb_ge in E. exists c. split; [done|]. split; [done|]. by rewrite take_ge by lia. }
    apply Nat.ltb_lt in E. destruct (keys_ c) as [|x l _] eqn:K using rev_ind; [cbn in E; lia|].
    rewrite last_snoc. destruct x as [k v]. rewrite length_app in *. cbn [length] in *.
    replace (length l + 1 - 1)%nat with (length l) by lia. rewrite take_app_length.
    destruct (IH (set_keys c (cache_ c ∖ {[k]}) l)) as (c' & -> & W' & K' & M' & E').
    { by eapply lru_snoc_erase. } { cbn. lia. }
    exists c'. split; [done|]. split; [done|]. cbn in K', M', E'. rewrite K', M', E'.
    rewrite take_app_le by lia. done.
Qed.

(** [insert] is the LRU policy: the key goes to the front, and the list is cut to
    [maxSize_] when it has outgrown the limit. *)
Lemma cache_insert_ok c k v :
  lru_wf c ->
  exists c', cache_insert c k v = Ok c' /\ lru_wf c' /\ maxSize_ c' = maxSize_ c /\
    elasticity_ c' = elasticity_ c /\
    keys_ c' = (let l := (k, v) :: erase k (keys_ c) in
                if contains c k || (maxSize_ c =? 0)%nat || (length l <? maxSize_ c + elasticity_ c)%nat
                then l else take (maxSize_ c) l).
Proof.
  intros W. unfold cache_insert. destruct (contains c k) eqn:C.
  - apply bool_decide_eq_true in C. eexists. split; [reflexivity|]. split; [by apply splice_wf|done].
  - apply bool_decide_eq_false in C. pose proof C as C'. rewrite (lru_wf_elem _ _ W) in C'.
    rewrite erase_notin by done. set (c1 := set_keys c _ _).
    assert (W1 : lru_wf c1).
    { destruct W as [N E]. split; cbn; [by apply NoDup_cons|]. rewrite E. set_solver. }
    unfold prune. rewrite (lru_wf_size c1 W1).
    change (maxSize_ c1) with (maxSize_ c). change (elasticity_ c1) with (elasticity_ c).
    change (keys_ c1) with ((k, v) :: keys_ c). cbn zeta. cbn [orb].
    destruct ((maxSize_ c =? 0)%nat || (length ((k, v) :: keys_ c) <? maxSize_ c + elasticity_ c)%nat) eqn:E.
    + exists c1. done.
    + destruct (prune_loop_ok (length (keys_ c1)) c1 W1 ltac:(lia)) as (c' & E1 & W' & K & M & El).
      exists c'. split; [exact E1|]. split; [done|]. split; [done|]. split; [done|]. exact K.
Qed.

Lemma get_ok c k :
  lru_wf c -> k ∈ cache_ c ->
  exists v c', get c k = Ok (c', v) /\ node k (keys_ c) = Some v /\ lru_wf c' /\
    keys_ c' = (k, v) :: erase k (keys_ c) /\ maxSize_ c' = maxSize_ c /\ elasticity_ c' = elasticity_ c.
Proof.
  intros W H. unfold get, contains. rewrite bool_decide_true by done.
  pose proof H as H'. rewrite (lru_wf_elem _ _ W) in H'. destruct (node_Some k _ H') as [v Hv].
  rewrite Hv. cbn. eexists v, _. split; [reflexivity|]. split; [done|]. split; [by apply splice_wf|done].
Qed.

Lemma new_cache_wf m e : lru_wf (new_cache m e).
Proof. split; cbn; [constructor|done]. Qed.
End lru.
Arguments Cache V : clear implicits.
