(* ===== verification/ContainerCache.v ===== *)
(** The container caches: [ReadCache] of the server (src/Util/readCache.cc) and
    [InContainercache] of the enclave (ecallUtil/ecallinContainercache.cc).  Both keep
    container bodies in a pool of slots and the slot of each name in an LRU cache. *)
From Stdlib Require Import ZArith Lia.
From stdpp Require Import base list gmap.
From S2P Require Import Prelude Types LruCache.

(** [inCache_]/[readCache_], [containerPool_], [cacheSize_], [currentIndex_]. *)
Record PoolCache := mk_pool_cache {
  pc_lru : Cache nat;
  containerPool_ : list bytes;
  cacheSize_ : nat;
  currentIndex_ : nat
}.

(** [memcpy(containerPool_[i], data, length)].  It is undefined outside the pool, past
    the [MAX_CONTAINER_SIZE] bytes of a slot, and past the end of [data]. *)
Definition pool_write (pool : list bytes) (i : nat) (data : bytes) (length : Z) : result (list bytes) :=
  slot <-- of_option Undefined (pool !! i) ;;
  if (MAX_CONTAINER_SIZE <? length) || (blen data <? length) then Err Undefined
  else Ok (<[i := write slot 0 (slice data 0 length)]> pool).

(** [ReadCache::InsertToCache]. *)
Definition ReadCache_InsertToCache (c : PoolCache) (name data : bytes) (length : Z) : result PoolCache :=
  if (cacheSize_ c <? cache_size (pc_lru c) + 1)%nat then
    replaceIndex <-- pruneValue (pc_lru c) ;;
    pool <-- pool_write (containerPool_ c) replaceIndex data length ;;
    lru <-- cache_insert (pc_lru c) name replaceIndex ;;
    Ok {| pc_lru := lru; containerPool_ := pool; cacheSize_ := cacheSize_ c;
          currentIndex_ := currentIndex_ c |}
  else
    pool <-- pool_write (containerPool_ c) (currentIndex_ c) data length ;;
    lru <-- cache_insert (pc_lru c) name (currentIndex_ c) ;;
    Ok {| pc_lru := lru; containerPool_ := pool; cacheSize_ := cacheSize_ c;
          currentIndex_ := S (currentIndex_ c) |}.

(** [InContainercache::InsertToCache_Offline] copies a whole container, whatever
    [length] says. *)
Definition InsertToCache_Offline (c : PoolCache) (name data : bytes) (length : Z) : result PoolCache :=
  let length := MAX_CONTAINER_SIZE in
  if (cacheSize_ c <? cache_size (pc_lru c) + 1)%nat then
    replaceIndex <-- pruneValue (pc_lru c) ;;
    pool <-- pool_write (containerPool_ c) replaceIndex data length ;;
    lru <-- cache_insert (pc_lru c) name replaceIndex ;;
    Ok {| pc_lru := lru; containerPool_ := pool; cacheSize_ := cacheSize_ c;
          currentIndex_ := currentIndex_ c |}
  else
    pool <-- pool_write (containerPool_ c) (currentIndex_ c) data length ;;
    lru <-- cache_insert (pc_lru c) name (currentIndex_ c) ;;
    Ok {| pc_lru := lru; containerPool_ := pool; cacheSize_ := cacheSize_ c;
          currentIndex_ := S (currentIndex_ c) |}.

Definition ExistsInCache (c : PoolCache) (name : bytes) : bool := contains (pc_lru c) name.

(** A pointer into the pool, to the slot of the name, which [get] makes the most
    recent.  The pointer stays valid, and aliases the slot, after later insertions. *)
Definition ReadFromCache (c : PoolCache) (name : bytes) : result (PoolCache * nat) :=
  x <-- get (pc_lru c) name ;;
  let '(lru, index) := x in
  Ok ({| pc_lru := lru; containerPool_ := containerPool_ c; cacheSize_ := cacheSize_ c;
         currentIndex_ := currentIndex_ c |}, index).
(** The bytes behind such a pointer. *)
Definition deref (c : PoolCache) (p : nat) : result bytes := of_option Undefined (containerPool_ c !! p).

(** The constructors: the LRU cache of [InContainercache] has the size of the pool,
    that of [ReadCache] always has 64. *)
Definition InContainercache_init (Cachesize : nat) : PoolCache :=
  {| pc_lru := new_cache Cachesize 0; containerPool_ := replicate Cachesize [];
     cacheSize_ := Cachesize; currentIndex_ := 0 |}.
Definition ReadCache_init (readCacheSize : nat) : PoolCache :=
  {| pc_lru := new_cache 64 0; containerPool_ := replicate readCacheSize [];
     cacheSize_ := readCacheSize; currentIndex_ := 0 |}.

(** ** Specification: the most recent containers *)

(** What a cache promises: the containers inserted, most recently used first. *)
Definition spec : Type := list (bytes * bytes).
Definition spec_insert (cap : nat) (s : spec) (name data : bytes) : spec :=
  take cap ((name, data) :: s).
Definition spec_read (s : spec) (name : bytes) : option (spec * bytes) :=
  match node name s with
  | Some d => Some ((name, d) :: erase name s, d)
  | None => None
  end.

(** The slots of the cached names are different, in use, and begin with what was
    inserted under the name. *)
Record refines (c : PoolCache) (s : spec) : Prop := {
  rf_lru : lru_wf (pc_lru c);
  rf_max : maxSize_ (pc_lru c) = cacheSize_ c /\ elasticity_ (pc_lru c) = 0%nat;
  rf_cap : (0 < cacheSize_ c)%nat;
  rf_pool : length (containerPool_ c) = cacheSize_ c;
  rf_used : currentIndex_ c = length (keys_ (pc_lru c));
  rf_le : (currentIndex_ c <= cacheSize_ c)%nat;
  rf_slots : NoDup (keys_ (pc_lru c)).*2;
  rf_range : Forall (fun i => i < currentIndex_ c)%nat (keys_ (pc_lru c)).*2;
  rf_data : Forall2 (fun x y => fst x = fst y /\ exists slot,
              containerPool_ c !! snd x = Some slot /\ take (length (snd y)) slot = snd y)
              (keys_ (pc_lru c)) s
}.

Lemma init_refines n : (0 < n)%nat -> refines (InContainercache_init n) [].
Proof.
  intros. constructor; cbn; try done; try lia.
  - apply new_cache_wf.
  - by rewrite length_replicate.
  - constructor.
Qed.

Lemma refines_names c s : refines c s -> (keys_ (pc_lru c)).*1 = s.*1.
Proof.
  intros R. pose proof (rf_data _ _ R) as F. clear R. induction F as [|[k i] [k' d] l m [E _] _ IH]; [done|].
  cbn in E |- *. f_equal; [exact E|exact IH].
Qed.

Lemma refines_length c s : refines c s -> length (keys_ (pc_lru c)) = length s.
Proof. intros R. by eapply Forall2_length, rf_data. Qed.

Lemma contains_refines c s name : refines c s -> ExistsInCache c name = bool_decide (name ∈ s.*1).
Proof.
  intros R. unfold ExistsInCache, contains. apply bool_decide_ext.
  rewrite (lru_wf_elem _ _ (rf_lru _ _ R)). by rewrite (refines_names c s R).
Qed.

Lemma take_write_0 (slot d : bytes) : take (length d) (write slot 0 d) = d.
Proof. unfold write. change (take (Z.to_nat 0) slot) with (@nil Z). rewrite app_nil_l. apply take_app_length. Qed.

(** Writing a slot that no entry of [l] uses keeps the entries' data. *)
Lemma data_other_slot (pool pool' : list bytes) (i : nat) (l : list (bytes * nat)) (m : spec) (slot : bytes) :
  pool' = <[i := slot]> pool -> i ∉ l.*2 ->
  Forall2 (fun x y => fst x = fst y /\ exists slot, pool !! snd x = Some slot /\
             take (length (snd y)) slot = snd y) l m ->
  Forall2 (fun x y => fst x = fst y /\ exists slot, pool' !! snd x = Some slot /\
             take (length (snd y)) slot = snd y) l m.
Proof.
  intros -> Hi F. induction F as [|[k j] y l m [E (sl & Hs & Ht)] _ IH]; [constructor|].
  cbn in Hi. apply not_elem_of_cons in Hi as [N Hi]. constructor; [|by apply IH].
  split; [done|]. exists sl. split; [|done]. cbn. by rewrite list_lookup_insert_ne.
Qed.

(** What a pool cache does when a name that is not cached is inserted: the part that
    both classes share. *)
Lemma insert_refines c s name d :
  refines c s -> name ∉ s.*1 ->
  exists i pool' lru',
    (if (cacheSize_ c <? cache_size (pc_lru c) + 1)%nat then pruneValue (pc_lru c)
     else Ok (currentIndex_ c)) = Ok i /\
    (exists slot, containerPool_ c !! i = Some slot /\ pool' = <[i := write slot 0 d]> (containerPool_ c)) /\
    cache_insert (pc_lru c) name i = Ok lru' /\
    refines {| pc_lru := lru'; containerPool_ := pool'; cacheSize_ := cacheSize_ c;
               currentIndex_ := if (cacheSize_ c <? cache_size (pc_lru c) + 1)%nat
                                then currentIndex_ c else S (currentIndex_ c) |}
            (spec_insert (cacheSize_ c) s name d).
Proof.
  intros R Hn. pose proof R as [W [Mx El] Cap Pl Us Le Nd Rg Dt].
  unfold cache_size. rewrite (lru_wf_size _ W).
  assert (Nn : name ∉ (keys_ (pc_lru c)).*1) by (by rewrite (refines_names c s R)).
  assert (Nc : contains (pc_lru c) name = false) by (apply bool_decide_eq_false; by rewrite (lru_wf_elem _ _ W)).
  pose proof (Forall2_length _ _ _ Dt) as Ls.
  destruct (cacheSize_ c <? length (keys_ (pc_lru c)) + 1)%nat eqn:Full.
  - apply Nat.ltb_lt in Full. destruct (keys_ (pc_lru c)) as [|[k i] l _] eqn:K using rev_ind; [cbn in *; lia|].
    apply Forall2_app_inv_l in Dt as (s1 & s2 & D1 & D2 & ->).
    apply Forall2_cons_inv_l in D2 as (y & s2' & _ & D2 & ->). apply Forall2_nil_inv_l in D2 as ->.
    try rewrite K in Nn. try rewrite K in Nd. try rewrite K in Rg. rewrite fmap_app in Nd. rewrite fmap_app in Rg. rewrite (fmap_app fst l [(k,i)]) in Nn. cbn in Nd, Rg, Nn. apply NoDup_app in Nd as (Nd & Di & _).
    apply Forall_app in Rg as [Rg Ri]. apply Forall_cons in Ri as [Ri _].
    rewrite length_app in *. cbn [length] in *.
    destruct (lookup_lt_is_Some_2 (containerPool_ c) i) as [slot Hs]; [lia|].
    destruct (cache_insert_ok (pc_lru c) name i W) as (lru' & E & W' & M' & E' & K').
    assert (Pv : pruneValue (pc_lru c) = Ok i).
    { unfold pruneValue. rewrite K, last_snoc. unfold contains. rewrite bool_decide_true.
      2: { rewrite (lru_wf_elem _ _ W), K, fmap_app, elem_of_app. right. apply list_elem_of_here. }
      destruct W as [Wn _]. rewrite K, fmap_app in Wn. apply NoDup_app in Wn as (_ & Wd & _).
      assert (Hk : k ∉ l.*1) by (intros Hk; apply (Wd k Hk), list_elem_of_here).
      clear -Hk. induction l as [|[k' j] l IH]; cbn; [by rewrite decide_True|].
      apply not_elem_of_cons in Hk as [N Hk]. rewrite decide_False by (by intros ->). by apply IH. }
    exists i, (<[i := write slot 0 d]> (containerPool_ c)), lru'.
    split; [done|]. split; [by exists slot|]. split; [done|].
    rewrite Nc, K, erase_notin, Mx, El, Nat.add_0_r in K' by (by rewrite fmap_app).
    cbn [orb length] in K'. rewrite length_app in K'. cbn [length] in K'.
    rewrite (proj2 (Nat.eqb_neq _ _)), (proj2 (Nat.ltb_ge _ _)) in K' by lia. cbn [orb] in K'.
    assert (Lc : cacheSize_ c = S (length l)) by lia.
    rewrite Lc in K'. cbn [firstn] in K'. rewrite take_app_length in K'.
    assert (Ni : i ∉ l.*2) by (intros H; apply (Di i H), list_elem_of_here).
    assert (Sp : spec_insert (cacheSize_ c) (s1 ++ [y]) name d = (name, d) :: s1).
    { unfold spec_insert. rewrite Lc. cbn [firstn]. rewrite length_app in Ls. cbn in Ls.
      f_equal. apply take_app_length'. lia. }
    rewrite Sp. constructor; cbn [pc_lru containerPool_ cacheSize_ currentIndex_]; rewrite ?K'; try done; try lia.
    + by rewrite length_insert.
    + cbn. lia.
    + cbn. by apply NoDup_cons.
    + cbn. by apply Forall_cons.
    + constructor.
      * split; [done|]. exists (write slot 0 d). split; [apply list_lookup_insert_eq; lia|]. apply take_write_0.
      * by eapply data_other_slot.
  - apply Nat.ltb_ge in Full.
    destruct (lookup_lt_is_Some_2 (containerPool_ c) (currentIndex_ c)) as [slot Hs]; [lia|].
    destruct (cache_insert_ok (pc_lru c) name (currentIndex_ c) W) as (lru' & E & W' & M' & E' & K').
    exists (currentIndex_ c), (<[currentIndex_ c := write slot 0 d]> (containerPool_ c)), lru'.
    split; [done|]. split; [by exists slot|]. split; [done|].
    rewrite Nc, erase_notin, Mx, El in K' by done. cbn [orb] in K'.
    assert (K2 : keys_ lru' = (name, currentIndex_ c) :: keys_ (pc_lru c)).
    { rewrite K'. case_match; [done|]. rewrite take_ge; [done|]. cbn. lia. }
    clear K'. assert (Ni : currentIndex_ c ∉ (keys_ (pc_lru c)).*2).
    { intros H. rewrite Forall_forall in Rg. specialize (Rg _ H). cbn in Rg. lia. }
    assert (Sp : spec_insert (cacheSize_ c) s name d = (name, d) :: s).
    { unfold spec_insert. apply take_ge. cbn. lia. }
    rewrite Sp. constructor; cbn [pc_lru containerPool_ cacheSize_ currentIndex_]; rewrite ?K2; try done; try lia.
    + by rewrite length_insert.
    + cbn. lia.
    + cbn. by apply NoDup_cons.
    + cbn. apply Forall_cons. split; [lia|]. eapply Forall_impl; [exact Rg|]. cbn. intros; lia.
    + constructor.
      * split; [done|]. exists (write slot 0 d). split; [apply list_lookup_insert_eq; lia|]. apply take_write_0.
      * by eapply data_other_slot.
Qed.

(** Reading moves the same entry to the front on both sides. *)
Lemma data_erase (P : bytes * nat -> bytes * bytes -> Prop) name l (m : spec) :
  (forall x y, P x y -> fst x = fst y) ->
  Forall2 P l m -> name ∈ l.*1 ->
  exists i d, node name l = Some i /\ node name m = Some d /\ P (name, i) (name, d) /\
    Forall2 P (erase name l) (erase name m).
Proof.
  intros HP F. induction F as [|[k i] [k' d] l m Hxy F' IH]; cbn; [by intros ?%elem_of_nil|].
  pose proof (HP _ _ Hxy) as E. cbn in E. subst k'.
  destruct (decide (k = name)) as [->|N].
  - intros _. by exists i, d.
  - intros [->|H]%elem_of_cons; [done|]. destruct (IH H) as (i' & d' & ? & ? & ? & ?).
    exists i', d'. split; [done|]. split; [done|]. split; [done|]. by constructor.
Qed.

Lemma node_None {V} name (m : list (bytes * V)) : name ∉ m.*1 -> node name m = None.
Proof.
  induction m as [|[k d] m IH]; cbn; [done|]. intros [N H]%not_elem_of_cons.
  rewrite decide_False by (by intros ->). by apply IH.
Qed.

Lemma erase_snd (k : bytes) (i : nat) l : node k l = Some i -> l.*2 ≡ₚ i :: (erase k l).*2.
Proof.
  induction l as [|[k' j] l IH]; cbn; [done|]. destruct (decide (k' = k)) as [->|N]; [by intros [= ->]|].
  intros H. cbn. rewrite (IH H) at 1. by apply Permutation_swap.
Qed.

(** ** The operations refine the specification *)

Lemma read_ok c s name :
  refines c s -> name ∈ s.*1 ->
  exists c' p d s' slot, ReadFromCache c name = Ok (c', p) /\ spec_read s name = Some (s', d) /\
    deref c' p = Ok slot /\ take (length d) slot = d /\ refines c' s'.
Proof.
  intros R Hn. pose proof R as [W [Mx El] Cap Pl Us Le Nd Rg Dt].
  assert (Hk : name ∈ (keys_ (pc_lru c)).*1) by (by rewrite (refines_names c s R)).
  pose proof Hk as Hc. rewrite <- (lru_wf_elem _ _ W) in Hc.
  destruct (get_ok (pc_lru c) name W Hc) as (i & lru & G & Ni & W' & K' & M' & E').
  destruct (data_erase _ name _ _ (fun x y H => proj1 H) Dt Hk) as (i' & d & Hi & Hd & (_ & slot & Hs & Ht) & F).
  rewrite Ni in Hi. injection Hi as <-. cbn in Hs, Ht.
  unfold ReadFromCache, spec_read. rewrite G, Hd. cbn.
  eexists _, i, d, _, slot. split; [reflexivity|]. split; [reflexivity|].
  split; [unfold deref; cbn; by rewrite Hs|]. split; [done|].
  pose proof (erase_snd name i _ Ni) as P.
  assert (L : length (keys_ lru) = length (keys_ (pc_lru c))).
  { rewrite K'. apply Permutation_length in P. cbn in P. rewrite !length_fmap in P. cbn. lia. }
  constructor; cbn [pc_lru containerPool_ cacheSize_ currentIndex_]; rewrite ?M', ?E'; try done; try lia.
  - rewrite K'. change (NoDup (i :: (erase name (keys_ (pc_lru c))).*2)). by rewrite <- P.
  - rewrite K'. change (Forall (fun j => (j < currentIndex_ c)%nat) (i :: (erase name (keys_ (pc_lru c))).*2)). by rewrite <- P.
  - rewrite K'. constructor; [|done]. split; [done|]. by exists slot.
Qed.

Lemma ReadCache_insert_ok c s name data length :
  refines c s -> name ∉ s.*1 -> 0 <= length <= MAX_CONTAINER_SIZE -> length <= blen data ->
  exists c', ReadCache_InsertToCache c name data length = Ok c' /\
    refines c' (spec_insert (cacheSize_ c) s name (slice data 0 length)).
Proof.
  intros R Hn Hl Hd. destruct (insert_refines c s name (slice data 0 length) R Hn)
    as (i & pool & lru & Ei & (slot & Hs & ->) & El & R').
  unfold ReadCache_InsertToCache, pool_write.
  rewrite (proj2 (Z.ltb_ge _ _)), (proj2 (Z.ltb_ge _ _)) by lia. cbn [orb].
  destruct (cacheSize_ c <? cache_size (pc_lru c) + 1)%nat.
  - rewrite Ei. cbn. rewrite Hs. cbn. rewrite El. cbn. eexists. split; [reflexivity|exact R'].
  - injection Ei as <-. rewrite Hs. cbn. rewrite El. cbn. eexists. split; [reflexivity|exact R'].
Qed.

Lemma InContainercache_insert_eq c name data length :
  InsertToCache_Offline c name data length = ReadCache_InsertToCache c name data MAX_CONTAINER_SIZE.
Proof. reflexivity. Qed.

Lemma InContainercache_ok (c : PoolCache) (s : spec) (name : bytes) :
  refines c s ->
  ExistsInCache c name = bool_decide (name ∈ s.*1) /\
  (name ∉ s.*1 -> forall data length, blen data = MAX_CONTAINER_SIZE ->
     exists c', InsertToCache_Offline c name data length = Ok c' /\
       refines c' (spec_insert (cacheSize_ c) s name data)) /\
  (name ∈ s.*1 -> exists c' p d s' slot, ReadFromCache c name = Ok (c', p) /\
     spec_read s name = Some (s', d) /\ deref c' p = Ok slot /\
     take (length d) slot = d /\ refines c' s').
Proof.
  intros R. split; [by apply contains_refines|]. split; [|by apply read_ok].
  intros Hn data length Hd. rewrite InContainercache_insert_eq.
  destruct (ReadCache_insert_ok c s name data MAX_CONTAINER_SIZE R Hn) as (c' & E & R').
  { split; [by_decide|reflexivity]. } { by rewrite Hd. }
  exists c'. split; [done|]. by rewrite <- Hd, slice_full in R'.
Qed.

(** C32. The container cache of the enclave implements its specification, the list of
    the containers most recently used: inserting a container that is not cached puts
    it in front and drops the least recent one when the cache is full, reading a cached
    container returns a pointer to its bytes and moves it to the front, and no two
    names ever share a slot. *)
Theorem InContainercache_refines (c : PoolCache) (s : spec) (name : bytes) :
  refines c s ->
  ExistsInCache c name = bool_decide (name ∈ s.*1) /\
  (name ∉ s.*1 -> forall data length, blen data = MAX_CONTAINER_SIZE ->
     exists c', InsertToCache_Offline c name data length = Ok c' /\
       refines c' (spec_insert (cacheSize_ c) s name data)) /\
  (name ∈ s.*1 -> exists c' p d s' slot, ReadFromCache c name = Ok (c', p) /\
     spec_read s name = Some (s', d) /\ deref c' p = Ok slot /\
     take (length d) slot = d /\ refines c' s').
Proof. apply InContainercache_ok. Qed.

Definition two_slots : PoolCache :=
  {| pc_lru := {| cache_ := {[ [65]; [66] ]}; keys_ := [([66], 1%nat); ([65], 0%nat)]; maxSize_ := 2; elasticity_ := 0 |};
     containerPool_ := [[1; 2; 3]; [4; 5]]; cacheSize_ := 2; currentIndex_ := 2 |}.
Lemma two_slots_refines : refines two_slots [([66], [4]); ([65], [1; 2])].
Proof.
  constructor; cbn; try done; try lia.
  - split; [by_decide|]. apply set_eq. intros x. cbn. set_solver.
  - by_decide.
  - by_decide.
  - repeat constructor; by eexists.
Qed.

Lemma InContainercache_refines_witness :
  (exists c', InsertToCache_Offline two_slots [67] (replicate (Z.to_nat MAX_CONTAINER_SIZE) 7) 5 = Ok c' /\
    refines c' [([67], replicate (Z.to_nat MAX_CONTAINER_SIZE) 7); ([66], [4])]) /\
  (exists c' p slot, ReadFromCache two_slots [65] = Ok (c', p) /\ deref c' p = Ok slot /\ take 2 slot = [1; 2]).
Proof.
  split.
  - destruct (InContainercache_refines two_slots _ [67] two_slots_refines) as (_ & I & _).
    assert (Hn : [67] ∉ [([66], [4]); ([65], [1; 2])].*1) by by_decide.
    apply (I Hn). unfold blen. rewrite length_replicate. apply Z2Nat.id. by_decide.
  - destruct (InContainercache_refines two_slots _ [65] two_slots_refines) as (_ & _ & Rd).
    assert (Hn : [65] ∈ [([66], [4]); ([65], [1; 2])].*1) by by_decide.
    destruct (Rd Hn) as (c' & p & d & s' & slot & E & Es & D & T & _).
    injection Es as _ <-. by exists c', p, slot.
Defined.
