(* ===== verification/ReqContainers.v ===== *)
(** The server side of a restore (src/Server/enclaveRecvDecoder.cc): the containers a
    batch of chunks needs are read through the [ReadCache] of the client session. *)
From Stdlib Require Import ZArith Lia.
From stdpp Require Import base list gmap.
From S2P Require Import Prelude Types LruCache ContainerCache.

(** The directories Base-Containers/ and Delta-Containers/, by container name. *)
Record Directories := { base_dir : gmap bytes bytes; delta_dir : gmap bytes bytes }.

(** Opening a container: the base directory first, then the delta directory. *)
Definition open_container (d : Directories) (name : bytes) : result bytes :=
  match base_dir d !! name with
  | Some body => Ok body
  | None => of_option ExitError (delta_dir d !! name)
  end.

Record ReqState := {
  rq_cache : PoolCache;               (* outClient->_containerCache *)
  containerArray : list bytes;
  counter : Z;                        (* cache hits *)
  readFromContainerFileNum_ : Z
}.

Definition containerName (idBuffer : bytes) (i : Z) : bytes :=
  slice idBuffer (i * CONTAINER_ID_LENGTH) CONTAINER_ID_LENGTH.

(** One turn of the loop of [GetReqContainers]. *)
Definition get_container (dirs : Directories) (idBuffer : bytes) (i : Z) (s : ReqState) : result ReqState :=
  let containerNameStr := containerName idBuffer i in
  buf <-- of_option Undefined (containerArray s !! Z.to_nat i) ;;
  if ExistsInCache (rq_cache s) containerNameStr then
    x <-- ReadFromCache (rq_cache s) containerNameStr ;;
    let '(cache, p) := x in
    slot <-- deref cache p ;;
    Ok {| rq_cache := cache;
          containerArray := <[Z.to_nat i := write buf 0 slot]> (containerArray s);
          counter := u64 (counter s + 1);
          readFromContainerFileNum_ := readFromContainerFileNum_ s |}
  else
    body <-- open_container dirs containerNameStr ;;
    let containerSize := blen body in
    let buf' := write buf 0 body in
    if MAX_CONTAINER_SIZE <? containerSize then Err Undefined else
    cache <-- ReadCache_InsertToCache (rq_cache s) containerNameStr buf' containerSize ;;
    Ok {| rq_cache := cache;
          containerArray := <[Z.to_nat i := buf']> (containerArray s);
          counter := counter s;
          readFromContainerFileNum_ := u64 (readFromContainerFileNum_ s + 1) |}.

Definition GetReqContainers (dirs : Directories) (idBuffer : bytes) (idNum : Z) (s : ReqState) : result ReqState :=
  forM (Z.to_nat idNum) 0 (get_container dirs idBuffer) s.

(** ** Correctness *)

(** A cache that only holds containers as the directories have them. *)
Definition coherent (dirs : Directories) (c : PoolCache) : Prop :=
  exists s, refines c s /\ Forall (fun x => open_container dirs (fst x) = Ok (snd x)) s.

Definition delivered (dirs : Directories) (idBuffer : bytes) (arr : list bytes) (i : Z) : Prop :=
  exists body buf, open_container dirs (containerName idBuffer i) = Ok body /\
    arr !! Z.to_nat i = Some buf /\ take (length body) buf = body.

Lemma node_Forall (s : spec) (P : bytes * bytes -> Prop) name d s' :
  Forall P s -> spec_read s name = Some (s', d) -> P (name, d) /\ Forall P s'.
Proof.
  intros F. unfold spec_read. destruct (node name s) as [e|] eqn:N; [|done]. intros [= <- <-].
  pose proof (node_elem _ _ _ N) as H. rewrite Forall_forall in F. pose proof (F _ H) as HP.
  split; [done|]. constructor; [done|]. apply Forall_forall. intros x Hx. apply F.
  clear -Hx. induction s as [|[k v] s IH]; [done|]. cbn in Hx. case_decide; [by apply list_elem_of_further|].
  apply elem_of_cons in Hx as [->|Hx]; [apply list_elem_of_here|by apply list_elem_of_further, IH].
Qed.

Lemma get_container_ok dirs idBuffer i s body :
  coherent dirs (rq_cache s) -> 0 <= i -> (Z.to_nat i < length (containerArray s))%nat ->
  open_container dirs (containerName idBuffer i) = Ok body -> blen body <= MAX_CONTAINER_SIZE ->
  exists s', get_container dirs idBuffer i s = Ok s' /\ coherent dirs (rq_cache s') /\
    length (containerArray s') = length (containerArray s) /\
    delivered dirs idBuffer (containerArray s') i /\
    (forall j, j <> Z.to_nat i -> containerArray s' !! j = containerArray s !! j).
Proof.
  intros (sp & R & F) Hi Ha Ho Hb. unfold get_container.
  destruct (lookup_lt_is_Some_2 (containerArray s) (Z.to_nat i) Ha) as [buf Hbuf].
  rewrite Hbuf. cbn [of_option rbind]. rewrite (contains_refines _ sp) by done.
  destruct (decide (containerName idBuffer i ∈ sp.*1)) as [Hin|Hout].
  - rewrite bool_decide_true by done.
    destruct (read_ok _ _ _ R Hin) as (c' & p & d & sp' & slot & E & Es & D & T & R').
    rewrite E. cbn [rbind]. rewrite D. cbn [rbind]. eexists. split; [reflexivity|].
    destruct (node_Forall sp _ _ _ _ F Es) as [Hd F'].
    cbn in Hd. rewrite Ho in Hd. injection Hd as ->.
    split; [by exists sp'|]. cbn. split; [by rewrite length_insert|]. split.
    + exists d, (write buf 0 slot). split; [done|]. split; [by apply list_lookup_insert_eq|].
      unfold write. change (take (Z.to_nat 0) buf) with (@nil Z). rewrite app_nil_l.
      rewrite take_app_le; [done|]. rewrite <- T. rewrite length_take. lia.
    + intros j Hj. by apply list_lookup_insert_ne.
  - rewrite bool_decide_false by done. rewrite Ho. cbn [rbind].
    rewrite (proj2 (Z.ltb_ge _ _)) by lia.
    assert (L : blen body <= blen (write buf 0 body)).
    { rewrite blen_write_grow; [lia|]. pose proof (blen_nonneg buf). lia. }
    destruct (ReadCache_insert_ok (rq_cache s) sp _ (write buf 0 body) (blen body) R Hout) as (c' & E & R').
    { pose proof (blen_nonneg body). lia. } { done. }
    rewrite E. cbn [rbind]. eexists. split; [reflexivity|]. cbn.
    assert (T : slice (write buf 0 body) 0 (blen body) = body).
    { apply slice_write_same. pose proof (blen_nonneg buf). lia. }
    rewrite T in R'. split.
    { eexists. split; [exact R'|]. unfold spec_insert. apply Forall_take. by constructor. }
    split; [by rewrite length_insert|]. split.
    + exists body, (write buf 0 body). split; [done|]. split; [by apply list_lookup_insert_eq|]. apply take_write_0.
    + intros j Hj. by apply list_lookup_insert_ne.
Qed.

(** The loop: every requested container is delivered, whatever the cache holds. *)
Lemma GetReqContainers_delivers dirs idBuffer idNum s :
  coherent dirs (rq_cache s) -> 0 <= idNum <= blen (containerArray s) ->
  (forall i, 0 <= i < idNum -> exists body,
     open_container dirs (containerName idBuffer i) = Ok body /\ blen body <= MAX_CONTAINER_SIZE) ->
  exists s', GetReqContainers dirs idBuffer idNum s = Ok s' /\ coherent dirs (rq_cache s') /\
    length (containerArray s') = length (containerArray s) /\
    forall i, 0 <= i < idNum -> delivered dirs idBuffer (containerArray s') i.
Proof.
  intros C Hn Hex. unfold GetReqContainers, blen in *.
  destruct (forM_total (fun j t => coherent dirs (rq_cache t) /\
      length (containerArray t) = length (containerArray s) /\
      forall i, 0 <= i < j -> delivered dirs idBuffer (containerArray t) i)
      (get_container dirs idBuffer) (Z.to_nat idNum) 0 s) as (s' & E & C' & L' & D).
  - split; [done|]. split; [done|]. intros; lia.
  - intros j t Hj (Ct & Lt & Dt). destruct (Hex j ltac:(lia)) as (body & Ho & Hb).
    destruct (get_container_ok dirs idBuffer j t body Ct ltac:(lia) ltac:(lia) Ho Hb) as (t' & E & C' & L & D & K).
    exists t'. split; [done|]. split; [done|]. split; [lia|]. intros i Hi.
    destruct (decide (i = j)) as [->|N]; [done|].
    destruct (Dt i ltac:(lia)) as (b & buf & H1 & H2 & H3). exists b, buf. split; [done|]. split; [|done].
    rewrite K by lia. done.
  - exists s'. split; [exact E|]. split; [done|]. split; [done|]. intros i Hi. apply D. lia.
Qed.

(** C28. The cache is transparent: whatever it holds, [GetReqContainers] succeeds when
    every container of the batch exists and fits a slot, and the i-th buffer then
    begins with the bytes of the i-th container as the directories have them. *)
Theorem GetReqContainers_ok (dirs : Directories) (idBuffer : bytes) (idNum : Z) (s : ReqState) :
  coherent dirs (rq_cache s) -> 0 <= idNum <= blen (containerArray s) ->
  (forall i, 0 <= i < idNum -> exists body,
     open_container dirs (containerName idBuffer i) = Ok body /\ blen body <= MAX_CONTAINER_SIZE) ->
  exists s', GetReqContainers dirs idBuffer idNum s = Ok s' /\ coherent dirs (rq_cache s') /\
    forall i, 0 <= i < idNum -> delivered dirs idBuffer (containerArray s') i.
Proof.
  intros C Hn Hex. destruct (GetReqContainers_delivers dirs idBuffer idNum s C Hn Hex) as (s' & E & C' & _ & D).
  by exists s'.
Qed.


Definition one_dir : Directories :=
  {| base_dir := {[ [1;2;3;4;5;6;7] := [10; 11; 12] ]}; delta_dir := {[ [7;6;5;4;3;2;1] := [20] ]} |}.
Definition start : ReqState :=
  {| rq_cache := ReadCache_init 64; containerArray := [[]; []; [9; 9]]; counter := 0;
     readFromContainerFileNum_ := 0 |}.
Definition ids : bytes := [1;2;3;4;5;6;7; 7;6;5;4;3;2;1; 1;2;3;4;5;6;7].

Lemma start_coherent dirs : coherent dirs (rq_cache start).
Proof. exists []. split; [|constructor]. apply (init_refines 64). lia. Qed.

Lemma GetReqContainers_ok_witness :
  exists s', GetReqContainers one_dir ids 3 start = Ok s' /\ coherent one_dir (rq_cache s') /\
    forall i, 0 <= i < 3 -> delivered one_dir ids (containerArray s') i.
Proof.
  apply (GetReqContainers_ok one_dir ids 3 start (start_coherent _)); [by_decide|].
  intros i Hi. assert (i = 0 \/ i = 1 \/ i = 2) as [->|[-> | ->]] by lia;
    (eexists; split; [vm_compute; reflexivity|by_decide]).
Defined.

(** A read cache configured with fewer slots than the 64 entries of its index
    answers with the wrong container: with one slot, which is what a build for several
    clients uses, the second container overwrites the first one's slot while the first
    name stays in the index, and a third request for the first container delivers the
    bytes of the second. *)
Theorem ReadCache_stale :
  exists s', GetReqContainers one_dir ids 3
      {| rq_cache := ReadCache_init 1; containerArray := [[]; []; [9; 9]]; counter := 0;
         readFromContainerFileNum_ := 0 |} = Ok s' /\
    counter s' = 1 /\ ~ delivered one_dir ids (containerArray s') 2.
Proof.
  eexists. split; [vm_compute; reflexivity|]. split; [done|].
  intros (body & buf & H1 & H2 & H3). vm_compute in H1. injection H1 as <-.
  vm_compute in H2. injection H2 as <-. by vm_compute in H3.
Qed.
