(* ===== verification/Util.v ===== *)
(** Helpers of include/define.h (namespace tool): bounds on integers and the
    generation of container identifiers. *)
From Stdlib Require Import ZArith Lia.
From stdpp Require Import base list.
From S2P Require Import Prelude Types.

(** ** Integers *)

Definition CompareLimit (input lower upper : Z) : Z :=
  if input <=? lower then lower else if upper <=? input then upper else input.

Definition DivCeil (a b : Z) : Z :=
  let tmp := a / b in
  if a mod b =? 0 then tmp else u32 (tmp + 1).

Lemma CompareLimit_range input lower upper :
  lower <= upper -> lower <= CompareLimit input lower upper <= upper.
Proof. intros. unfold CompareLimit. repeat case_if; lia. Qed.

Lemma DivCeil_spec a b :
  word32 a -> 1 < b -> b * (DivCeil a b - 1) < a <= b * DivCeil a b \/ a = 0.
Proof.
  unfold word32. intros Ha Hb. unfold DivCeil.
  pose proof (Z.div_mod a b ltac:(lia)). pose proof (Z.mod_pos_bound a b ltac:(lia)).
  assert (a / b < 2 ^ 32 - 1) by (apply Z.div_lt_upper_bound; lia).
  pose proof (Z.div_pos a b ltac:(lia) ltac:(lia)). case_if; unwrap; nia.
Qed.

(** ** Container identifiers *)

(** '0' .. '9', 'a' .. 'z'. *)
Definition ALPHABET : bytes :=
  map (fun i => if (i <? 10)%nat then 48 + Z.of_nat i else 87 + Z.of_nat i) (seq 0 36).

(** The carry loop over [container_id_num], run when the first digit reaches 36; [c]
    is what the digit before added to this one.  A carry out of the last digit writes
    past the array. *)
Fixpoint carry (c : Z) (container_id_num : list Z) : result (list Z) :=
  match container_id_num with
  | [] => if c =? 0 then Ok [] else Err Undefined
  | x :: rest =>
    if x + c =? 36 then rest <-- carry 1 rest ;; Ok (0 :: rest)
    else rest <-- carry 0 rest ;; Ok (x + c :: rest)
  end.

(** One turn of the counting loop. *)
Definition bump (container_id_num : list Z) : result (list Z) :=
  match container_id_num with
  | [] => Err Undefined
  | x :: rest => if x + 1 =? 36 then carry 0 (x + 1 :: rest) else Ok (x + 1 :: rest)
  end.

Fixpoint count_to (times : nat) (container_id_num : list Z) : result (list Z) :=
  match times with
  | O => Ok container_id_num
  | S times => d <-- count_to times container_id_num ;; bump d
  end.

(** [CreateUUID] for identifiers of [CONTAINER_ID_LENGTH] characters, the only length
    its callers ask for: the counter in base 36, most significant digit first. *)
Definition CreateUUID (times : Z) : result bytes :=
  d <-- count_to (Z.to_nat times) (replicate (Z.to_nat CONTAINER_ID_LENGTH) 0) ;;
  Ok (map (fun x => nth (Z.to_nat x) ALPHABET 0) (reverse d)).

Definition digits (d : list Z) : Prop := Forall (fun x => 0 <= x < 36) d.
Fixpoint digits_val (d : list Z) : Z :=
  match d with [] => 0 | x :: rest => x + 36 * digits_val rest end.

Lemma digits_val_range d : digits d -> 0 <= digits_val d < 36 ^ blen d.
Proof.
  induction 1 as [|x d Hx _ IH]; [done|]. rewrite blen_cons, Z.pow_add_r by (pose proof (blen_nonneg d); lia).
  change (36 ^ 1) with 36. cbn [digits_val]. lia.
Qed.

Lemma carry_ok d c :
  digits d -> 0 <= c <= 1 -> digits_val d + c < 36 ^ blen d ->
  exists d', carry c d = Ok d' /\ digits d' /\ length d' = length d /\ digits_val d' = digits_val d + c.
Proof.
  intros D. revert c. induction D as [|x d Hx D IH]; intros c Hc Hv.
  - cbn in Hv. change (36 ^ blen []) with 1 in Hv. assert (c = 0) as -> by lia. cbn. exists []. repeat split. constructor.
  - rewrite blen_cons, Z.pow_add_r in Hv by (pose proof (blen_nonneg d); lia).
    change (36 ^ 1) with 36 in Hv. cbn [carry digits_val] in *. pose proof (digits_val_range d D). destruct (Z.eqb_spec (x + c) 36) as [E|N].
    + destruct (IH 1) as (d' & -> & D' & L & V); [lia|lia|]. cbn. exists (0 :: d').
      split; [done|]. split; [constructor; [lia|done]|]. cbn. split; [lia|]. rewrite V. lia.
    + destruct (IH 0) as (d' & -> & D' & L & V); [lia|lia|]. cbn. exists (x + c :: d').
      split; [done|]. split; [constructor; [lia|done]|]. cbn. split; [lia|]. rewrite V. lia.
Qed.

Lemma bump_ok d :
  digits d -> digits_val d + 1 < 36 ^ blen d ->
  exists d', bump d = Ok d' /\ digits d' /\ length d' = length d /\ digits_val d' = digits_val d + 1.
Proof.
  intros D Hv. destruct D as [|x d Hx D]; [by vm_compute in Hv|].
  cbn [bump]. destruct (Z.eqb_spec (x + 1) 36) as [E|N].
  - rewrite E. assert (x = 35) as -> by lia.
    destruct (carry_ok (35 :: d) 1) as (d' & C & R); [by constructor|lia|done|].
    exists d'. split; [|done]. rewrite <- C. reflexivity.
  - exists (x + 1 :: d). split; [done|]. split; [constructor; [lia|done]|]. cbn. split; [done|lia].
Qed.

Lemma count_to_ok n len :
  Z.of_nat n < 36 ^ Z.of_nat len ->
  exists d, count_to n (replicate len 0) = Ok d /\ digits d /\ length d = len /\ digits_val d = Z.of_nat n.
Proof.
  induction n as [|n IH]; intros Hn.
  - exists (replicate len 0). split; [done|].
    split; [apply Forall_replicate; lia|]. split; [apply length_replicate|].
    clear Hn. induction len as [|len IH]; [done|]. cbn [replicate digits_val]. rewrite IH. done.
  - destruct IH as (d & E & D & L & V); [lia|]. cbn [count_to]. rewrite E. cbn [rbind].
    destruct (bump_ok d D) as (d' & B & D' & L' & V').
    + unfold blen. rewrite L, V. lia.
    + exists d'. split; [done|]. split; [done|]. split; lia.
Qed.

Lemma digits_val_inj d d' :
  digits d -> digits d' -> length d = length d' -> digits_val d = digits_val d' -> d = d'.
Proof.
  intros D. revert d'. induction D as [|x d Hx D IH]; intros [|x' d'] D' L V; try done.
  apply Forall_cons in D' as [Hx' D']. cbn in L, V. assert (x = x') as -> by lia. f_equal. apply IH; [done|lia|lia].
Qed.

Lemma ALPHABET_inj x y :
  0 <= x < 36 -> 0 <= y < 36 -> nth (Z.to_nat x) ALPHABET 0 = nth (Z.to_nat y) ALPHABET 0 -> x = y.
Proof.
  intros Hx Hy E.
  assert (N : NoDup ALPHABET) by by_decide.
  enough (Z.to_nat x = Z.to_nat y) by lia.
  eapply (proj1 (NoDup_nth ALPHABET 0)); [by apply NoDup_ListNoDup| | |exact E]; cbn; lia.
Qed.

Lemma map_alphabet_inj d d' :
  digits d -> digits d' ->
  map (fun x => nth (Z.to_nat x) ALPHABET 0) d = map (fun x => nth (Z.to_nat x) ALPHABET 0) d' -> d = d'.
Proof.
  intros D. revert d'. induction D as [|x d Hx D IH]; intros [|x' d'] D' E; try done.
  apply Forall_cons in D' as [Hx' D']. cbn [map] in E. apply (f_equal (fun l => (hd 0 l, tl l))) in E.
  cbn in E. injection E as E1 E2.
  f_equal; [by apply ALPHABET_inj|by apply IH].
Qed.

Lemma CreateUUID_ok (m n : Z) :
  0 <= m < 2 ^ 31 -> 0 <= n < 2 ^ 31 ->
  exists a b, CreateUUID m = Ok a /\ CreateUUID n = Ok b /\
    blen a = CONTAINER_ID_LENGTH /\ blen b = CONTAINER_ID_LENGTH /\ (a = b <-> m = n).
Proof.
  intros Hm Hn. unfold CreateUUID.
  destruct (count_to_ok (Z.to_nat m) 7) as (d & E & D & L & V); [cbn; lia|].
  destruct (count_to_ok (Z.to_nat n) 7) as (d' & E' & D' & L' & V'); [cbn; lia|].
  change (Z.to_nat CONTAINER_ID_LENGTH) with 7%nat. rewrite E, E'. cbn [rbind].
  eexists _, _. split; [reflexivity|]. split; [reflexivity|].
  unfold blen, CONTAINER_ID_LENGTH. rewrite !length_map, !length_reverse. split; [lia|]. split; [lia|].
  split; [|by intros ->; congruence]. intros M.
  apply map_alphabet_inj in M; [|by apply Forall_reverse|by apply Forall_reverse].
  apply (f_equal reverse) in M. rewrite !reverse_involutive in M. subst d'. lia.
Qed.

(** [CreateUUID] never writes past its digits and gives different identifiers of
    seven characters for different values of the counter, for every non-negative value
    an [int] has: containers of one run of the server have different names. *)
Theorem CreateUUID_unique (m n : Z) :
  0 <= m < 2 ^ 31 -> 0 <= n < 2 ^ 31 ->
  exists a b, CreateUUID m = Ok a /\ CreateUUID n = Ok b /\
    blen a = CONTAINER_ID_LENGTH /\ blen b = CONTAINER_ID_LENGTH /\ (a = b <-> m = n).
Proof. apply CreateUUID_ok. Qed.

Lemma CreateUUID_unique_witness :
  exists a b, CreateUUID 1 = Ok a /\ CreateUUID 46657 = Ok b /\
    blen a = CONTAINER_ID_LENGTH /\ blen b = CONTAINER_ID_LENGTH /\ (a = b <-> 1 = 46657).
Proof. apply (CreateUUID_unique 1 46657); lia. Defined.

Lemma CreateUUID_fixed n : 0 <= n < 2 ^ 31 -> exists id, CreateUUID n = Ok id /\ fixed 7 id.
Proof.
  intros Hn. unfold CreateUUID. destruct (count_to_ok (Z.to_nat n) 7) as (d & E & D & L & _); [cbn; lia|].
  change (Z.to_nat CONTAINER_ID_LENGTH) with 7%nat. rewrite E. cbn [rbind]. eexists. split; [reflexivity|].
  split; [by rewrite length_map, length_reverse|]. apply Forall_forall. intros b Hb.
  apply list_elem_of_In, in_map_iff in Hb as (x & <- & Hx). apply list_elem_of_In in Hx. rewrite elem_of_reverse in Hx.
  unfold digits in D. rewrite Forall_forall in D. specialize (D x Hx).
  assert (A : Forall byte_ok ALPHABET) by by_decide. rewrite Forall_forall in A. apply A.
  apply list_elem_of_In, nth_In. change (length ALPHABET) with 36%nat. lia.
Qed.

Lemma CreateUUID_inj m n a :
  0 <= m < 2 ^ 31 -> 0 <= n < 2 ^ 31 -> CreateUUID m = Ok a -> CreateUUID n = Ok a -> m = n.
Proof.
  intros Hm Hn Ea Eb. destruct (CreateUUID_ok m n Hm Hn) as (x & y & Ex & Ey & _ & _ & I).
  rewrite Ea in Ex. rewrite Eb in Ey. injection Ex as <-. injection Ey as <-. by apply I.
Qed.

Example CreateUUID_20 : CreateUUID 20 = Ok [48; 48; 48; 48; 48; 48; 107].
Proof. reflexivity. Qed.
Example CreateUUID_carry : CreateUUID (36 * 36) = Ok [48; 48; 48; 48; 49; 48; 48].
Proof. reflexivity. Qed.
