(* ===== verification/Database.v ===== *)
(** The index of the server (src/Database/inMemoryDatabase.cc, include/absDatabase.h):
    fingerprints to recipe entries, super-features to base chunks, base chunks to their
    deltas, and the queues of the offline pass; its persistence in two files. *)
From Stdlib Require Import ZArith Lia.
From stdpp Require Import base list gmap.
From S2P Require Import Prelude Types.

(** The order in which an [unordered_map] is traversed is unspecified: any
    enumeration of its entries. *)
Class MapOrder := {
  order : forall {V : Type}, gmap bytes V -> list (bytes * V);
  order_perm : forall (V : Type) (m : gmap bytes V), order m ≡ₚ map_to_list m
}.

(** One such order. *)
Definition some_order : MapOrder := {| order := fun V m => map_to_list m; order_perm := fun V m => Permutation_refl _ |}.

(** ** State *)

Record IndexStore := mk_store {
  indexObj_ : gmap bytes bytes;
  sfObj_ : list (gmap bytes (list bytes));
  delta_index : gmap bytes (list bytes);
  _local_tmp_map : gmap bytes bytes;
  _local_map : list (bytes * bytes);
  skipMap : gmap bytes (list bytes);
  _cold_map : gmap bytes (list (Z * Z));
  _cold_container_vector : list bytes;
  _cold_container_set : list bytes      (* a std::set: in increasing order *)
}.

Definition set_index (db : IndexStore) m := {| indexObj_ := m; sfObj_ := sfObj_ db; delta_index := delta_index db;
  _local_tmp_map := _local_tmp_map db; _local_map := _local_map db; skipMap := skipMap db; _cold_map := _cold_map db;
  _cold_container_vector := _cold_container_vector db; _cold_container_set := _cold_container_set db |}.
Definition set_sf (db : IndexStore) m := {| indexObj_ := indexObj_ db; sfObj_ := m; delta_index := delta_index db;
  _local_tmp_map := _local_tmp_map db; _local_map := _local_map db; skipMap := skipMap db; _cold_map := _cold_map db;
  _cold_container_vector := _cold_container_vector db; _cold_container_set := _cold_container_set db |}.
Definition set_delta (db : IndexStore) m := {| indexObj_ := indexObj_ db; sfObj_ := sfObj_ db; delta_index := m;
  _local_tmp_map := _local_tmp_map db; _local_map := _local_map db; skipMap := skipMap db; _cold_map := _cold_map db;
  _cold_container_vector := _cold_container_vector db; _cold_container_set := _cold_container_set db |}.
Definition set_local (db : IndexStore) t l s := {| indexObj_ := indexObj_ db; sfObj_ := sfObj_ db; delta_index := delta_index db;
  _local_tmp_map := t; _local_map := l; skipMap := s; _cold_map := _cold_map db;
  _cold_container_vector := _cold_container_vector db; _cold_container_set := _cold_container_set db |}.
Definition set_cold (db : IndexStore) m v s := {| indexObj_ := indexObj_ db; sfObj_ := sfObj_ db; delta_index := delta_index db;
  _local_tmp_map := _local_tmp_map db; _local_map := _local_map db; skipMap := skipMap db; _cold_map := m;
  _cold_container_vector := v; _cold_container_set := s |}.

Definition empty_store : IndexStore := {| indexObj_ := ∅; sfObj_ := replicate 3 ∅; delta_index := ∅;
  _local_tmp_map := ∅; _local_map := []; skipMap := ∅; _cold_map := ∅; _cold_container_vector := [];
  _cold_container_set := [] |}.

(** ** The fingerprint index *)

Definition Query (db : IndexStore) (key : bytes) : option bytes := indexObj_ db !! key.
Definition Insert (db : IndexStore) (key value : bytes) : IndexStore := set_index db (<[key := value]> (indexObj_ db)).
Definition InsertBuffer (db : IndexStore) (key buffer : bytes) (bufferSize : Z) : IndexStore :=
  set_index db (<[key := slice buffer 0 bufferSize]> (indexObj_ db)).
Definition InsertBothBuffer (db : IndexStore) (key : bytes) (keySize : Z) (buffer : bytes) (bufferSize : Z) : IndexStore :=
  set_index db (<[slice key 0 keySize := slice buffer 0 bufferSize]> (indexObj_ db)).
Definition QueryBuffer (db : IndexStore) (key : bytes) (keySize : Z) : option bytes := indexObj_ db !! slice key 0 keySize.

(** ** The super-feature index *)

(** [m[k].push_back(v)] on a map of vectors. *)
Definition push {V} (m : gmap bytes (list V)) (k : bytes) (v : V) : gmap bytes (list V) :=
  <[k := default [] (m !! k) ++ [v]]> m.

Definition sf_key (key : bytes) (i : Z) : bytes := slice key (i * CHUNK_HASH_SIZE) CHUNK_HASH_SIZE.

(** One turn of the loop of [InsertSF]: [updateflag] 0 adds the chunk, 1 replaces the
    chunks of the feature, 2 removes them. *)
Definition insert_sf_one (key buffer : bytes) (updateflag : Z) (i : Z)
    (sf : list (gmap bytes (list bytes))) : result (list (gmap bytes (list bytes))) :=
  let keyStr := sf_key key i in
  let valueStr := slice buffer 0 CHUNK_HASH_SIZE in
  m <-- of_option Undefined (sf !! Z.to_nat i) ;;
  Ok (<[Z.to_nat i :=
        if updateflag =? 0 then push m keyStr valueStr
        else if updateflag =? 1 then push (delete keyStr m) keyStr valueStr
        else if updateflag =? 2 then delete keyStr m
        else m]> sf).
Definition InsertSF (db : IndexStore) (key buffer : bytes) (updateflag : Z) : result IndexStore :=
  sf <-- forM 3 0 (insert_sf_one key buffer updateflag) (sfObj_ db) ;;
  Ok (set_sf db sf).

(** The first chunk of the first feature that is indexed; [front] of an empty vector
    is undefined. *)
Fixpoint query_sf_from (n : nat) (i : Z) (db : IndexStore) (key : bytes) : result (option bytes) :=
  match n with
  | O => Ok None
  | S n =>
    m <-- of_option Undefined (sfObj_ db !! Z.to_nat i) ;;
    match m !! sf_key key i with
    | Some l => v <-- of_option Undefined (head l) ;; Ok (Some v)
    | None => query_sf_from n (i + 1) db key
    end
  end.
Definition QuerySF (db : IndexStore) (key : bytes) : result (option bytes) := query_sf_from 3 0 db key.

(** ** The delta index *)

Definition InsertDeltaIndex (db : IndexStore) (baseChunkFp deltaChunkFp : bytes) : IndexStore :=
  set_delta db (push (delta_index db) baseChunkFp deltaChunkFp).
(** The deltas of a base chunk are taken out of the index. *)
Definition QueryDeltaIndex (db : IndexStore) (baseChunkFp : bytes) : IndexStore * option (list bytes) :=
  match delta_index db !! baseChunkFp with
  | Some result => (set_delta db (delete baseChunkFp (delta_index db)), Some result)
  | None => (db, None)
  end.

(** [GetIndexSize]: [deltamapsize], [fpindexsize], [sfindexsize]. *)
Definition GetIndexSize (db : IndexStore) : Z * Z * Z :=
  (u64 (map_fold (fun _ l tmpSize => tmpSize + CHUNK_HASH_SIZE + blen l * CHUNK_HASH_SIZE) 0 (delta_index db)),
   u64 (Z.of_nat (size (indexObj_ db)) * (CHUNK_HASH_SIZE + 48)),
   u64 (foldr (fun m tmpSize => tmpSize + Z.of_nat (size m) * 2 * CHUNK_HASH_SIZE) 0 (sfObj_ db))).

(** ** Persistence *)

(** An [int] is written as its four bytes. *)
Definition write_item (s : bytes) : bytes := le_bytes 4 (u32 (blen s)) ++ s.

Section persist.
Context `{MapOrder}.

(** [~InMemoryDatabase]: the two files. *)
Definition index_file (db : IndexStore) : bytes :=
  concat (map (fun x => write_item (fst x) ++ write_item (snd x)) (order (indexObj_ db))).
Definition sf_items (sf_version : Z) (m : gmap bytes (list bytes)) : list (Z * bytes * bytes) :=
  concat (map (fun x => map (fun v => (sf_version, fst x, v)) (snd x)) (order m)).
Definition write_sf (x : Z * bytes * bytes) : bytes :=
  le_bytes 4 (fst (fst x)) ++ write_item (snd (fst x)) ++ write_item (snd x).
Definition sf_file (db : IndexStore) : bytes :=
  concat (map write_sf (concat (imap (fun i m => sf_items (Z.of_nat i) m) (sfObj_ db)))).
End persist.

(** *** Reading *)

(** An input file stream: what is left, failbit and eofbit. *)
Record istream := { is_rest : bytes; is_fail : bool; is_eof : bool }.
Definition open_stream (body : bytes) : istream := {| is_rest := body; is_fail := false; is_eof := false |}.

(** [read(buf, n)]: nothing happens on a failed stream; a short read sets both bits. *)
Definition sread (s : istream) (n : Z) (buf : bytes) : istream * bytes :=
  if is_fail s then (s, buf) else
  let short := blen (is_rest s) <? n in
  ({| is_rest := drop (Z.to_nat n) (is_rest s); is_fail := short; is_eof := is_eof s || short |},
   write buf 0 (take (Z.to_nat n) (is_rest s))).

(** The [int] with the given bytes, and reading into an [int] variable. *)
Definition s32 (z : Z) : Z := if z <? 2 ^ 31 then z else z - 2 ^ 32.
Definition read_int (s : istream) (v : Z) : istream * Z :=
  let '(s, b) := sread s 4 (le_bytes 4 (u32 v)) in (s, s32 (le_val b)).

(** [str.resize(n, 0)]; a negative size throws. *)
Definition resize (str : bytes) (n : Z) : result bytes :=
  if n <? 0 then Err ExitError
  else Ok (take (Z.to_nat n) str ++ replicate (Z.to_nat n - length str) 0).

(** An item is read into a string variable, sized by the [int] read before. *)
Definition read_item (s : istream) (itemSize : Z) (str : bytes) : result (istream * bytes) :=
  str <-- resize str itemSize ;; Ok (sread s itemSize str).

(** The loops of [OpenDB]. *)
Fixpoint load_index (fuel : nat) (s : istream) (key value : bytes) (m : gmap bytes bytes) : result (gmap bytes bytes) :=
  match fuel with
  | O => Err Fuel
  | S fuel =>
    let '(s, itemSize) := read_int s 0 in
    if itemSize =? 0 then Ok m else
    x <-- read_item s itemSize key ;;
    let '(s, key) := x in
    let '(s, itemSize) := read_int s itemSize in
    x <-- read_item s itemSize value ;;
    let '(s, value) := x in
    let m := match m !! key with Some _ => m | None => <[key := value]> m end in
    if is_eof s then Ok m else load_index fuel s key value m
  end.

Fixpoint load_sf (fuel : nat) (s : istream) (sf_version : Z) (key value : bytes)
    (sf : list (gmap bytes (list bytes))) : result (list (gmap bytes (list bytes))) :=
  match fuel with
  | O => Err Fuel
  | S fuel =>
    let '(s, sf_version) := read_int s sf_version in
    let '(s, itemSize) := read_int s 0 in
    if itemSize =? 0 then Ok sf else
    x <-- read_item s itemSize key ;;
    let '(s, key) := x in
    let '(s, itemSize) := read_int s itemSize in
    x <-- read_item s itemSize value ;;
    let '(s, value) := x in
    m <-- (if sf_version <? 0 then Err Undefined else of_option Undefined (sf !! Z.to_nat sf_version)) ;;
    let sf := <[Z.to_nat sf_version := push m key value]> sf in
    if is_eof s then Ok sf else load_sf fuel s sf_version key value sf
  end.

(** [OpenDB]: a file that does not exist or is empty leaves the index empty.  Every
    turn of a loop consumes at least four bytes, or ends at the end of the file. *)
Definition OpenDB (dbFile sfdbFile : option bytes) : result IndexStore :=
  index <-- match dbFile with
            | Some (b :: body) => load_index (S (length (b :: body))) (open_stream (b :: body)) [] [] ∅
            | _ => Ok ∅
            end ;;
  sf <-- match sfdbFile with
         | Some (b :: body) => load_sf (S (length (b :: body))) (open_stream (b :: body)) 0 [] [] (replicate 3 ∅)
         | _ => Ok (replicate 3 ∅)
         end ;;
  Ok (set_sf (set_index empty_store index) sf).

(** ** Reading back what was written *)

Definition key_ok (k : bytes) : Prop := 1 <= blen k < 2 ^ 31.
Definition val_ok (v : bytes) : Prop := blen v < 2 ^ 31.

(** What the index must satisfy to survive a restart: strings have [int] sizes, no key
    is empty, no feature has an empty vector. *)
Record store_wf (db : IndexStore) : Prop := {
  swf_index : map_Forall (fun k v => key_ok k /\ val_ok v) (indexObj_ db);
  swf_three : length (sfObj_ db) = 3%nat;
  swf_sf : Forall (map_Forall (fun k l => key_ok k /\ l <> [] /\ Forall val_ok l)) (sfObj_ db)
}.

Lemma sread_ok d rest buf :
  length buf = length d -> sread (open_stream (d ++ rest)) (blen d) buf = (open_stream rest, d).
Proof.
  intros L. unfold sread. cbn [is_fail open_stream is_rest is_eof].
  pose proof (blen_nonneg rest). rewrite (proj2 (Z.ltb_ge _ _)) by (rewrite blen_app; lia).
  unfold blen. rewrite Nat2Z.id, drop_app_length, take_app_length. f_equal.
  unfold write. change (take (Z.to_nat 0) buf) with (@nil Z). rewrite app_nil_l.
  rewrite drop_ge by (cbn; lia). apply app_nil_r.
Qed.

Lemma s32_small z : 0 <= z < 2 ^ 31 -> s32 z = z.
Proof. intros. unfold s32. case_if; lia. Qed.

Lemma read_int_ok z rest v :
  0 <= z < 2 ^ 31 -> read_int (open_stream (le_bytes 4 z ++ rest)) v = (open_stream rest, z).
Proof.
  intros Hz. unfold read_int.
  pose proof (sread_ok (le_bytes 4 z) rest (le_bytes 4 (u32 v))) as E.
  rewrite blen_le_bytes in E. change (Z.of_nat 4) with 4 in E.
  rewrite E by (by rewrite !length_le_bytes). f_equal.
  rewrite le_val_le_bytes by (cbn; lia). by apply s32_small.
Qed.

Lemma read_item_ok d rest str : read_item (open_stream (d ++ rest)) (blen d) str = Ok (open_stream rest, d).
Proof.
  unfold read_item, resize. pose proof (blen_nonneg d). rewrite (proj2 (Z.ltb_ge _ _)) by lia. cbn [rbind].
  f_equal. apply sread_ok. unfold blen. rewrite Nat2Z.id, length_app, length_take, length_replicate. lia.
Qed.

Lemma write_item_eq s rest : blen s < 2 ^ 31 -> write_item s ++ rest = le_bytes 4 (blen s) ++ s ++ rest.
Proof. intros. unfold write_item. pose proof (blen_nonneg s). unwrap. by rewrite <- app_assoc. Qed.

Lemma read_int_nil v : 0 <= v < 2 ^ 31 -> read_int (open_stream []) v = ({| is_rest := []; is_fail := true; is_eof := true |}, v).
Proof.
  intros Hv. unfold read_int, sread. cbn [is_fail open_stream is_rest is_eof blen].
  change (0 <? 4) with true. cbn [drop take write]. f_equal.
  change (s32 (le_val (le_bytes 4 (u32 v))) = v).
  unwrap. rewrite le_val_le_bytes by (cbn; lia). by apply s32_small.
Qed.

Lemma load_index_ok l : forall fuel key value m,
  Forall (fun x => key_ok (fst x) /\ val_ok (snd x)) l -> NoDup l.*1 ->
  (forall k, k ∈ l.*1 -> m !! k = None) -> (length l < fuel)%nat ->
  load_index fuel (open_stream (concat (map (fun x => write_item (fst x) ++ write_item (snd x)) l))) key value m =
  Ok (list_to_map l ∪ m).
Proof.
  induction l as [|[k v] l IH]; intros fuel key value m F N D Hf; (destruct fuel as [|fuel]; [cbn in Hf; lia|]).
  - cbn [map concat load_index]. rewrite read_int_nil by lia. cbn [Z.eqb].
    by rewrite list_to_map_nil, (left_id_L ∅ (∪)).
  - apply Forall_cons in F as [[Hk Hv] F]. cbn in Hk, Hv. destruct Hk as [Hk1 Hk2].
    cbn in N. apply NoDup_cons in N as [Nk N]. cbn [map concat load_index fst snd].
    unfold val_ok in Hv. rewrite <- app_assoc, write_item_eq, read_int_ok by lia.
    rewrite (proj2 (Z.eqb_neq _ _)) by lia. rewrite read_item_ok. cbn [rbind].
    pose proof (blen_nonneg v).
    rewrite write_item_eq, read_int_ok by lia. rewrite read_item_ok. cbn [rbind].
    rewrite D by apply list_elem_of_here. cbn [is_eof open_stream].
    change {| is_rest := ?r; is_fail := false; is_eof := false |} with (open_stream r).
    rewrite IH; [|done|done| |cbn in Hf; lia].
    + f_equal. rewrite list_to_map_cons, <- insert_union_l, insert_union_r; [done|].
      by apply not_elem_of_list_to_map_1.
    + intros k' Hk'. rewrite lookup_insert_ne by (by intros ->). apply D. by apply list_elem_of_further.
Qed.

(** The super-feature loop pushes the chunks in the order of the file. *)
Definition push_all (items : list (Z * bytes * bytes)) (sf : list (gmap bytes (list bytes))) : list (gmap bytes (list bytes)) :=
  foldl (fun sf x => alter (fun m => push m (snd (fst x)) (snd x)) (Z.to_nat (fst (fst x))) sf) sf items.

Lemma insert_as_alter {A} (f : A -> A) (i : nat) (x : A) (l : list A) :
  l !! i = Some x -> <[i := f x]> l = alter f i l.
Proof.
  revert i. induction l as [|y l IH]; intros [|i] E; try done.
  - by injection E as ->.
  - cbn in *. f_equal. by apply IH.
Qed.

Lemma load_sf_ok items : forall fuel version key value sf,
  Forall (fun x => 0 <= fst (fst x) < blen sf /\ key_ok (snd (fst x)) /\ val_ok (snd x)) items ->
  blen sf < 2 ^ 31 -> 0 <= version < 2 ^ 31 -> (length items < fuel)%nat ->
  load_sf fuel (open_stream (concat (map write_sf items))) version key value sf = Ok (push_all items sf).
Proof.
  induction items as [|[[i k] v] items IH]; intros fuel version key value sf F Hs Hv Hf;
    (destruct fuel as [|fuel]; [cbn in Hf; lia|]).
  - cbn [map concat load_sf]. rewrite read_int_nil by lia. by vm_compute (read_int _ 0).
  - apply Forall_cons in F as [(Hi & [Hk1 Hk2] & Hval) F]. unfold val_ok in Hval. cbn [fst snd] in *.
    cbn [map concat load_sf]. unfold write_sf at 1. cbn [fst snd]. pose proof (blen_nonneg v).
    rewrite <- !app_assoc, read_int_ok by lia.
    rewrite write_item_eq, read_int_ok by lia. rewrite (proj2 (Z.eqb_neq _ _)) by lia.
    rewrite read_item_ok. cbn [rbind].
    rewrite write_item_eq, read_int_ok by lia. rewrite read_item_ok. cbn [rbind].
    rewrite (proj2 (Z.ltb_ge _ _)) by lia. unfold blen in Hi, Hs.
    destruct (lookup_lt_is_Some_2 sf (Z.to_nat i)) as [m Hm]; [lia|].
    rewrite Hm. cbn [of_option rbind is_eof open_stream].
    change {| is_rest := ?r; is_fail := false; is_eof := false |} with (open_stream r).
    rewrite IH.
    + unfold push_all. cbn [foldl fst snd]. do 2 f_equal. by apply (insert_as_alter (fun m => push m k v)).
    + unfold blen. rewrite length_insert. done.
    + unfold blen. rewrite length_insert. done.
    + lia.
    + cbn in Hf. lia.
Qed.

Definition pushes (m : gmap bytes (list bytes)) (kvs : list (bytes * bytes)) : gmap bytes (list bytes) :=
  foldl (fun m x => push m (fst x) (snd x)) m kvs.

Lemma push_all_app (i : nat) (kvs : list (bytes * bytes)) items sf :
  push_all (map (fun x => (Z.of_nat i, fst x, snd x)) kvs ++ items) sf =
  push_all items (alter (fun m => pushes m kvs) i sf).
Proof.
  unfold push_all. rewrite foldl_app. f_equal. revert sf. induction kvs as [|[k v] kvs IH]; intros sf; cbn [map foldl].
  - unfold pushes. cbn [foldl]. revert i. induction sf as [|m sf IH]; intros [|i]; [done..|]. cbn. f_equal. apply IH.
  - rewrite IH. cbn [fst snd]. rewrite Nat2Z.id. clear IH.
    revert i. induction sf as [|m sf IH]; intros [|i]; [done..|]. cbn. f_equal. apply IH.
Qed.

Lemma pushes_one (k : bytes) (l : list bytes) (m : gmap bytes (list bytes)) :
  l <> [] -> pushes m (map (pair k) l) = <[k := default [] (m !! k) ++ l]> m.
Proof.
  unfold pushes. intros Hl. assert (G : forall (l : list bytes) (m : gmap bytes (list bytes)), foldl (fun m x => push m (fst x) (snd x)) m (map (pair k) l) =
    if decide (l = []) then m else <[k := default [] (m !! k) ++ l]> m).
  { clear. induction l as [|v l IH]; intros m; [done|]. cbn [map foldl fst snd]. rewrite IH. unfold push.
    rewrite (decide_False (P := v :: l = [])) by done. case_decide as D; [by subst l|].
    rewrite lookup_insert, decide_True, insert_insert, decide_True by done. unfold id. cbn [from_option]. by rewrite <- app_assoc. }
  rewrite G, decide_False by done. done.
Qed.

Lemma pushes_entries (L : list (bytes * list bytes)) : forall m,
  NoDup L.*1 -> Forall (fun x => snd x <> []) L -> (forall k, k ∈ L.*1 -> m !! k = None) ->
  pushes m (concat (map (fun x => map (pair (fst x)) (snd x)) L)) = list_to_map L ∪ m.
Proof.
  induction L as [|[k l] L IH]; intros m N F D.
  - by rewrite list_to_map_nil, (left_id_L ∅ (∪)).
  - cbn in N. apply NoDup_cons in N as [Nk N]. apply Forall_cons in F as [Fl F]. cbn [map concat fst snd] in *.
    unfold pushes. rewrite foldl_app. fold (pushes m (map (pair k) l)).
    rewrite pushes_one, D by (done || apply list_elem_of_here). cbn [default app].
    fold (pushes (<[k:=l]> m) (concat (map (fun x => map (pair (fst x)) (snd x)) L))). rewrite IH; [|done|done|].
    + rewrite list_to_map_cons, <- insert_union_l, insert_union_r; [done|]. by apply not_elem_of_list_to_map_1.
    + intros k' Hk'. rewrite lookup_insert_ne by (by intros ->). apply D. by apply list_elem_of_further.
Qed.

Section roundtrip.
Context `{MapOrder}.

Lemma order_NoDup {V} (m : gmap bytes V) : NoDup (order m).*1.
Proof. rewrite order_perm. apply NoDup_fst_map_to_list. Qed.
Lemma order_Forall {V} (P : bytes -> V -> Prop) (m : gmap bytes V) :
  map_Forall P m -> Forall (fun x => P (fst x) (snd x)) (order m).
Proof.
  intros F. rewrite order_perm. apply Forall_forall. intros [k v] Hk. apply elem_of_map_to_list in Hk. by apply F.
Qed.
Lemma order_map {V} (m : gmap bytes V) : list_to_map (order m) = m.
Proof. symmetry. apply list_to_map_flip. by rewrite order_perm. Qed.

Lemma sf_items_kvs (i : nat) (m : gmap bytes (list bytes)) :
  sf_items (Z.of_nat i) m =
  map (fun x => (Z.of_nat i, fst x, snd x)) (concat (map (fun x => map (pair (fst x)) (snd x)) (order m))).
Proof.
  unfold sf_items. induction (order m) as [|[k l] L IH]; [done|]. cbn [map concat fst snd].
  rewrite IH, map_app. f_equal. by rewrite map_map.
Qed.

(** Pushing the items of a feature map on the empty map rebuilds it. *)
Lemma push_map (i : nat) (m : gmap bytes (list bytes)) items sf :
  map_Forall (fun k l => key_ok k /\ l <> [] /\ Forall val_ok l) m -> sf !! i = Some ∅ ->
  push_all (sf_items (Z.of_nat i) m ++ items) sf = push_all items (<[i := m]> sf).
Proof.
  intros F E. rewrite sf_items_kvs, push_all_app. f_equal.
  rewrite <- (insert_as_alter (fun m0 => pushes m0 _) i ∅ sf E). f_equal.
  rewrite pushes_entries, order_map, (right_id_L ∅ (∪)); [done|apply order_NoDup| |done].
  eapply Forall_impl; [by apply order_Forall|]. by intros [k l] (_ & ? & _).
Qed.

Lemma sf_items_ok (i : nat) (m : gmap bytes (list bytes)) (n : nat) :
  map_Forall (fun k l => key_ok k /\ l <> [] /\ Forall val_ok l) m -> (i < n)%nat ->
  Forall (fun x => 0 <= fst (fst x) < Z.of_nat n /\ key_ok (snd (fst x)) /\ val_ok (snd x)) (sf_items (Z.of_nat i) m).
Proof.
  intros F Hi. unfold sf_items. apply order_Forall in F. induction F as [|[k l] L (Hk & _ & Hl) _ IH]; [constructor|].
  cbn [map concat]. apply Forall_app. split; [|done]. cbn [fst snd] in *. apply Forall_map.
  eapply Forall_impl; [exact Hl|]. intros v Hv. cbn. split; [lia|done].
Qed.

Lemma concat_length {A B} (f : A -> list B) l :
  (forall x, f x <> []) -> (length l <= length (concat (map f l)))%nat.
Proof.
  intros Hf. induction l as [|x l IH]; [done|]. cbn [map concat length]. rewrite length_app.
  specialize (Hf x). destruct (f x); [done|cbn; lia].
Qed.

Lemma load_index_file db :
  store_wf db -> load_index (S (length (index_file db))) (open_stream (index_file db)) [] [] ∅ = Ok (indexObj_ db).
Proof.
  intros W. unfold index_file. rewrite load_index_ok.
  - by rewrite order_map, (right_id_L ∅ (∪)).
  - apply (order_Forall (fun k v => key_ok k /\ val_ok v)), W.
  - apply order_NoDup.
  - done.
  - apply Nat.lt_succ_r, concat_length. by intros x.
Qed.

Lemma load_sf_file db :
  store_wf db -> load_sf (S (length (sf_file db))) (open_stream (sf_file db)) 0 [] [] (replicate 3 ∅) = Ok (sfObj_ db).
Proof.
  intros [_ L F]. unfold sf_file. destruct (sfObj_ db) as [|m0 [|m1 [|m2 [|]]]]; try done.
  apply Forall_cons in F as [F0 F]. apply Forall_cons in F as [F1 F]. apply Forall_cons in F as [F2 _].
  cbn [imap concat]. unfold compose. rewrite app_nil_r. rewrite load_sf_ok.
  - rewrite (push_map 0), (push_map 1) by done.
    rewrite <- (app_nil_r (sf_items _ m2)), (push_map 2) by done. done.
  - change (blen _) with (Z.of_nat 3). rewrite !Forall_app. split; [|split]; apply sf_items_ok; (done || lia).
  - done.
  - lia.
  - apply Nat.lt_succ_r, concat_length. by intros x.
Qed.

(** C34. Round trip of the index through a restart: what [OpenDB] reads from the files
    that the destructor wrote is the fingerprint index and the three super-feature
    indexes, with the chunks of every feature in the same order, whatever order the
    maps were traversed in.  The delta index and the queues of the offline pass are
    empty after a restart. *)
Theorem persist_OpenDB (db : IndexStore) :
  store_wf db ->
  OpenDB (Some (index_file db)) (Some (sf_file db)) = Ok (set_sf (set_index empty_store (indexObj_ db)) (sfObj_ db)).
Proof.
  intros W. pose proof (load_index_file db W) as E1. pose proof (load_sf_file db W) as E2. unfold OpenDB.
  destruct (index_file db) as [|b body]; destruct (sf_file db) as [|b' body'].
  - injection E1 as <-. injection E2 as <-. done.
  - injection E1 as <-. cbn [rbind]. rewrite E2. done.
  - injection E2 as <-. rewrite E1. done.
  - rewrite E1. cbn [rbind]. rewrite E2. done.
Qed.
End roundtrip.

Definition small_store : IndexStore :=
  InsertDeltaIndex (Insert (Insert (set_sf empty_store [ {[ [1] := [[7]; [8]] ]}; ∅; {[ [2] := [[9]] ]} ]) [1; 2] [3]) [4] []) [4] [5].
Lemma small_store_wf : store_wf small_store.
Proof. constructor; [|done|]; by_decide. Qed.

Lemma persist_OpenDB_witness :
  OpenDB (Some (@index_file some_order small_store)) (Some (@sf_file some_order small_store)) =
  Ok (set_sf (set_index empty_store (indexObj_ small_store)) (sfObj_ small_store)).
Proof. apply (@persist_OpenDB some_order small_store small_store_wf). Defined.

(** ** Reading any file *)

Definition stream_ok (s : istream) : Prop := is_fail s = true -> is_eof s = true.

Lemma sread_progress s n buf s' b :
  stream_ok s -> sread s n buf = (s', b) ->
  stream_ok s' /\ (is_eof s' = false -> is_eof s = false /\ (length (is_rest s') + Z.to_nat n <= length (is_rest s))%nat).
Proof.
  intros G. unfold sread. destruct (is_fail s) eqn:Fl.
  - intros [= <- <-]. split; [done|]. rewrite (G Fl). done.
  - intros [= <- <-]. split.
    + intros E. cbn in E |- *. rewrite E. apply orb_true_r.
    + cbn. intros [E1 E2]%orb_false_iff. split; [done|]. boolz. rewrite length_drop. unfold blen in E2. lia.
Qed.

Lemma read_int_progress s v s' v' :
  stream_ok s -> read_int s v = (s', v') ->
  stream_ok s' /\ (is_eof s' = false -> is_eof s = false /\ (length (is_rest s') + 4 <= length (is_rest s))%nat).
Proof.
  intros G. unfold read_int. destruct (sread s 4 _) as [s1 b] eqn:E. intros [= <- <-].
  by apply (sread_progress _ _ _ _ _ G E).
Qed.

Lemma read_item_progress s n str s' str' :
  stream_ok s -> read_item s n str = Ok (s', str') ->
  stream_ok s' /\ (is_eof s' = false -> is_eof s = false /\ (length (is_rest s') <= length (is_rest s))%nat).
Proof.
  intros G. unfold read_item. intros H. inv_bind H. injection H as H.
  destruct (sread_progress _ _ _ _ _ G H) as [G' P]. split; [done|]. intros E'. destruct (P E'). split; [done|lia].
Qed.

Lemma read_item_error s n str e : read_item s n str = Err e -> e = ExitError.
Proof. unfold read_item, resize. case_if; [by intros [= <-]|done]. Qed.

(** Takes the next read of a loading loop apart, with what it guarantees. *)
Ltac step_int :=
  match goal with
  | G : stream_ok ?s |- context [read_int ?s ?v] =>
    let E := fresh "E" in let G' := fresh "G" in let P := fresh "P" in
    destruct (read_int s v) as [? ?] eqn:E; destruct (read_int_progress _ _ _ _ G E) as [G' P]; clear E
  end.
Ltac step_item :=
  match goal with
  | G : stream_ok ?s |- context [read_item ?s ?n ?str] =>
    let E := fresh "E" in let G' := fresh "G" in let P := fresh "P" in
    destruct (read_item s n str) as [[? ?]|?] eqn:E;
    [destruct (read_item_progress _ _ _ _ _ G E) as [G' P]; clear E; cbn [rbind]
    |apply read_item_error in E; subst]
  end.

Lemma load_index_fuel fuel s key value m :
  stream_ok s -> (length (is_rest s) < fuel)%nat -> load_index fuel s key value m <> Err Fuel.
Proof.
  revert s key value m. induction fuel as [|fuel IH]; intros s key value m G L; [lia|]. cbn [load_index].
  step_int. case_if; [done|]. step_item; [|done]. step_int. step_item; [|done].
  cbv zeta. match goal with |- context [is_eof ?s] => destruct (is_eof s) eqn:Eof; [discriminate|] end. apply IH; [done|].
  destruct (P2 eq_refl) as [Eof2 ?]. destruct (P1 Eof2) as [Eof1 ?]. destruct (P0 Eof1) as [Eof0 ?]. destruct (P Eof0). lia.
Qed.

Lemma load_sf_fuel fuel s version key value sf :
  stream_ok s -> (length (is_rest s) < fuel)%nat -> load_sf fuel s version key value sf <> Err Fuel.
Proof.
  revert s version key value sf. induction fuel as [|fuel IH]; intros s version key value sf G L; [lia|]. cbn [load_sf].
  step_int. step_int. case_if; [done|]. step_item; [|done]. step_int. step_item; [|done].
  destruct (if z <? 0 then _ else _) as [m|e] eqn:Em; cbn [rbind].
  2: { intros [= ->]. case_if_in Em; [done|]. by destruct (sf !! _). }
  cbv zeta. match goal with |- context [is_eof ?s] => destruct (is_eof s) eqn:Eof; [discriminate|] end. apply IH; [done|].
  destruct (P3 eq_refl) as [Eof3 ?]. destruct (P2 Eof3) as [Eof2 ?]. destruct (P1 Eof2) as [Eof1 ?].
  destruct (P0 Eof1) as [Eof0 ?]. destruct (P Eof0). lia.
Qed.

(** [OpenDB] ends on every pair of files, also on truncated or foreign ones: each
    turn of its loops consumes at least four bytes or stops at the end of the file. *)
Theorem OpenDB_terminates (dbFile sfdbFile : option bytes) : OpenDB dbFile sfdbFile <> Err Fuel.
Proof.
  assert (G : forall b, stream_ok (open_stream b)) by (intros b; done).
  assert (B : forall A B (r : result A) (f : A -> result B), r <> Err Fuel -> (forall a, f a <> Err Fuel) -> rbind r f <> Err Fuel)
    by (intros A B [a|e] f Hr Hf; [apply Hf|by intros [= ->]]).
  unfold OpenDB. apply B; [|intros index; apply B; [|done]].
  - destruct dbFile as [[|b body]|]; [done| |done]. apply load_index_fuel; [apply G|cbn; lia].
  - destruct sfdbFile as [[|b body]|]; [done| |done]. apply load_sf_fuel; [apply G|cbn; lia].
Qed.

(** ** The super-feature index answers with what was indexed last *)

Definition sf_wf (db : IndexStore) : Prop :=
  length (sfObj_ db) = 3%nat /\ Forall (map_Forall (fun _ l => l <> [])) (sfObj_ db).
#[export] Instance sf_wf_dec db : Decision (sf_wf db).
Proof. unfold sf_wf. apply _. Defined.

Lemma insert_sf_map_wf (m : gmap bytes (list bytes)) k v flag :
  map_Forall (fun _ l => l <> []) m ->
  map_Forall (fun _ l => l <> []) (if flag =? 0 then push m k v
        else if flag =? 1 then push (delete k m) k v else if flag =? 2 then delete k m else m).
Proof.
  intros F. assert (P : forall m', map_Forall (fun _ l => l <> []) m' -> map_Forall (fun _ l => l <> []) (push m' k v)).
  { intros m' F'. apply map_Forall_insert_2; [|done]. by destruct (default [] (m' !! k)). }
  repeat case_if; [by apply P|apply P| |done]; by apply map_Forall_delete.
Qed.

Lemma sf_cases db : sf_wf db -> exists m0 m1 m2, sfObj_ db = [m0; m1; m2] /\
  map_Forall (fun _ l => l <> []) m0 /\ map_Forall (fun _ l => l <> []) m1 /\ map_Forall (fun _ l => l <> []) m2.
Proof.
  intros [L F]. destruct (sfObj_ db) as [|m0 [|m1 [|m2 [|]]]]; try done. exists m0, m1, m2.
  apply Forall_cons in F as [F0 F]. apply Forall_cons in F as [F1 F]. by apply Forall_cons in F as [F2 _].
Qed.

Lemma QuerySF_eq db key m0 m1 m2 :
  sfObj_ db = [m0; m1; m2] -> map_Forall (fun _ l => l <> []) m0 -> map_Forall (fun _ l => l <> []) m1 ->
  map_Forall (fun _ l => l <> []) m2 ->
  QuerySF db key = Ok (match m0 !! sf_key key 0 with Some l => head l | None =>
    match m1 !! sf_key key 1 with Some l => head l | None =>
    match m2 !! sf_key key 2 with Some l => head l | None => None end end end).
Proof.
  intros E F0 F1 F2. unfold QuerySF. cbn [query_sf_from]. rewrite E.
  change ([m0; m1; m2] !! Z.to_nat 0) with (Some m0). change ([m0; m1; m2] !! Z.to_nat (0 + 1)) with (Some m1).
  change ([m0; m1; m2] !! Z.to_nat (0 + 1 + 1)) with (Some m2). cbn [of_option rbind].
  change (0 + 1 + 1) with 2. change (0 + 1) with 1.
  destruct (m0 !! _) as [[|]|] eqn:E0; [by apply F0 in E0|done|].
  destruct (m1 !! _) as [[|]|] eqn:E1; [by apply F1 in E1|done|].
  destruct (m2 !! _) as [[|]|] eqn:E2; [by apply F2 in E2|done|done].
Qed.

(** The chunk listed first under the first feature. *)
Definition first_base (db : IndexStore) (key : bytes) : option bytes :=
  sfObj_ db !! 0%nat ≫= (fun m => m !! sf_key key 0 ≫= head).

Lemma InsertSF_ok (db : IndexStore) (key buffer : bytes) (updateflag : Z) :
  sf_wf db -> 0 <= updateflag <= 2 ->
  exists db', InsertSF db key buffer updateflag = Ok db' /\ sf_wf db' /\
    (exists old, QuerySF db key = Ok old) /\
    QuerySF db' key = Ok (if updateflag =? 0 then Some (default (slice buffer 0 CHUNK_HASH_SIZE) (first_base db key))
                          else if updateflag =? 1 then Some (slice buffer 0 CHUNK_HASH_SIZE) else None).
Proof.
  intros W Hu. destruct (sf_cases db W) as (m0 & m1 & m2 & E & F0 & F1 & F2).
  unfold InsertSF, first_base. rewrite E. cbn -[sf_key slice QuerySF].
  set (v := slice buffer 0 CHUNK_HASH_SIZE). set (k0 := sf_key key 0).
  eexists. split; [reflexivity|]. split; [|split].
  - split; [done|]. cbn -[sf_key]. repeat constructor; by apply insert_sf_map_wf.
  - rewrite (QuerySF_eq _ _ _ _ _ E) by done. by eexists.
  - erewrite QuerySF_eq; [|reflexivity|by apply insert_sf_map_wf..]. fold k0.
    assert (C : updateflag = 0 \/ updateflag = 1 \/ updateflag = 2) by lia.
    destruct C as [->|[-> | ->]]; cbn -[sf_key]; unfold push.
    + rewrite lookup_insert, decide_True by done. by destruct (m0 !! k0) as [[|]|].
    + rewrite lookup_insert, decide_True by done. rewrite lookup_delete, decide_True by done. done.
    + rewrite !lookup_delete, !decide_True by done. done.
Qed.

(** C37. The super-feature index is total on a well-formed store and keeps it
    well-formed (three maps, no empty vector).  After a chunk is indexed under its
    features, a query for them answers with the chunk listed first under the first
    feature, which is the new one only when there was none; after a replacement the
    answer is the new chunk; after a removal there is none. *)
Theorem InsertSF_QuerySF (db : IndexStore) (key buffer : bytes) (updateflag : Z) :
  sf_wf db -> 0 <= updateflag <= 2 ->
  exists db', InsertSF db key buffer updateflag = Ok db' /\ sf_wf db' /\
    (exists old, QuerySF db key = Ok old) /\
    QuerySF db' key = Ok (if updateflag =? 0 then Some (default (slice buffer 0 CHUNK_HASH_SIZE) (first_base db key))
                          else if updateflag =? 1 then Some (slice buffer 0 CHUNK_HASH_SIZE) else None).
Proof. apply InsertSF_ok. Qed.

Lemma InsertSF_QuerySF_witness :
  exists db', InsertSF empty_store (replicate 96 5) (replicate 32 6) 0 = Ok db' /\ sf_wf db' /\
    (exists old, QuerySF empty_store (replicate 96 5) = Ok old) /\ QuerySF db' (replicate 96 5) = Ok (Some (replicate 32 6)).
Proof. apply (InsertSF_QuerySF empty_store (replicate 96 5) (replicate 32 6) 0); [by_decide|lia]. Defined.
