(* ===== verification/Container.v ===== *)
(** Containers: the layout of their entries, the upload side that fills them
    (ecallStore/ecallStorage.cc, the container ocalls of ocallSrc/storeOCall.cc,
    Server/dataWriter.cc), the container of the offline pass and the functions that
    take the parts of an entry out of a container (ecallUtil/ecallOffline.cc). *)
From Stdlib Require Import ZArith Lia.
From stdpp Require Import base list gmap.
From S2P Require Import Prelude Types Util.

(** ** Data *)

Record InContainer := mk_in_container { ic_buf : bytes; ic_curSize : Z }.
Record Container_t := mk_container {
  co_containerID : bytes;
  co_deltaFlag : Z;
  co_body : bytes;
  co_currentSize : Z
}.

(** What the storage core works on: the containers inside the enclave, the outside
    ones the full containers are copied to, the queue of the data writer, the counter
    of identifiers, the current IV and the statistics. *)
Record Upload := mk_upload {
  _inContainer : InContainer;
  _deltainContainer : InContainer;
  curContainer : Container_t;
  curDeltaContainer : Container_t;
  inputMQ : list Container_t;
  con_times : Z;
  _iv : bytes;
  writtenDataSize_ : Z;
  writtenChunkNum_ : Z
}.


(** ** Operations *)

(** The copies that store one chunk: recipe entry, fingerprint, super-features,
    content, IV.  Past the end of the container they are undefined. *)
Definition put_entry (buf : bytes) (writeOffset : Z) (chunkAddr : RecipeEntry_t)
    (chunkfp chunksf chunkData : bytes) (chunkSize : Z) (iv : bytes) : result bytes :=
  let buf := write buf writeOffset (recipe_put chunkAddr) in
  let writeOffset := writeOffset + sizeof_RecipeEntry in
  let buf := write buf writeOffset (slice chunkfp 0 CHUNK_HASH_SIZE) in
  let writeOffset := writeOffset + CHUNK_HASH_SIZE in
  let buf := write buf writeOffset (slice chunksf 0 (3 * CHUNK_HASH_SIZE)) in
  let writeOffset := writeOffset + 3 * CHUNK_HASH_SIZE in
  let buf := write buf writeOffset (slice chunkData 0 chunkSize) in
  let writeOffset := writeOffset + chunkSize in
  let buf := write buf writeOffset (slice iv 0 CRYPTO_BLOCK_SIZE) in
  if MAX_CONTAINER_SIZE <? writeOffset + CRYPTO_BLOCK_SIZE then Err Undefined else Ok buf.

(** The guard of [SavebaseChunk] and [SavedeltaChunk]: the sum is computed on 32 bits
    up to the size of the recipe entry. *)
Definition fits (chunkSize saveOffset : Z) : bool :=
  u32 (u32 (u32 (CRYPTO_BLOCK_SIZE + chunkSize) + saveOffset) + 4 * CHUNK_HASH_SIZE) + sizeof_RecipeEntry
    <? MAX_CONTAINER_SIZE.

Definition set_addr (a : RecipeEntry_t) (name : bytes) (offset length : Z) (sf : bytes) : RecipeEntry_t :=
  {| re_containerName := name; re_deltaFlag := re_deltaFlag a; re_offset := offset; re_length := length;
     re_basechunkHash := re_basechunkHash a; re_superfeature := sf |}.

(** A new identifier for a container that was handed over. *)
Definition renew (c : Container_t) (times : Z) : result (Container_t * Z) :=
  id <-- CreateUUID times ;;
  if times =? 2 ^ 31 - 1 then Err Undefined else
  Ok ({| co_containerID := id; co_deltaFlag := co_deltaFlag c; co_body := co_body c; co_currentSize := 0 |}, times + 1).

Definition set_delta_flag (c : Container_t) (f : Z) : Container_t :=
  {| co_containerID := co_containerID c; co_deltaFlag := f; co_body := co_body c; co_currentSize := co_currentSize c |}.

(** [MULTI_CLIENT] is 0: the container is queued for the data writer. *)
Definition Ocall_WriteContainer (st : Upload) : result Upload :=
  let c := set_delta_flag (curContainer st) 0 in
  x <-- renew c (con_times st) ;;
  Ok {| _inContainer := _inContainer st; _deltainContainer := _deltainContainer st;
        curContainer := fst x; curDeltaContainer := curDeltaContainer st; inputMQ := inputMQ st ++ [c];
        con_times := snd x; _iv := _iv st; writtenDataSize_ := writtenDataSize_ st; writtenChunkNum_ := writtenChunkNum_ st |}.
Definition Ocall_WriteDeltaContainer (st : Upload) : result Upload :=
  let c := set_delta_flag (curDeltaContainer st) 1 in
  x <-- renew c (con_times st) ;;
  Ok {| _inContainer := _inContainer st; _deltainContainer := _deltainContainer st;
        curContainer := curContainer st; curDeltaContainer := fst x; inputMQ := inputMQ st ++ [c];
        con_times := snd x; _iv := _iv st; writtenDataSize_ := writtenDataSize_ st; writtenChunkNum_ := writtenChunkNum_ st |}.

(** Copying the full container inside the enclave to the outside one. *)
Definition dump (out : Container_t) (inC : InContainer) : Container_t :=
  {| co_containerID := co_containerID out; co_deltaFlag := co_deltaFlag out;
     co_body := write (co_body out) 0 (slice (ic_buf inC) 0 (ic_curSize inC)); co_currentSize := ic_curSize inC |}.

Definition with_base (st : Upload) (i : InContainer) (o : Container_t) : Upload :=
  {| _inContainer := i; _deltainContainer := _deltainContainer st; curContainer := o;
     curDeltaContainer := curDeltaContainer st; inputMQ := inputMQ st; con_times := con_times st; _iv := _iv st;
     writtenDataSize_ := writtenDataSize_ st; writtenChunkNum_ := writtenChunkNum_ st |}.
Definition with_delta (st : Upload) (i : InContainer) (o : Container_t) : Upload :=
  {| _inContainer := _inContainer st; _deltainContainer := i; curContainer := curContainer st;
     curDeltaContainer := o; inputMQ := inputMQ st; con_times := con_times st; _iv := _iv st;
     writtenDataSize_ := writtenDataSize_ st; writtenChunkNum_ := writtenChunkNum_ st |}.
Definition count (st : Upload) (chunkSize : Z) : Upload :=
  {| _inContainer := _inContainer st; _deltainContainer := _deltainContainer st; curContainer := curContainer st;
     curDeltaContainer := curDeltaContainer st; inputMQ := inputMQ st; con_times := con_times st; _iv := _iv st;
     writtenDataSize_ := u64 (writtenDataSize_ st + chunkSize); writtenChunkNum_ := u64 (writtenChunkNum_ st + 1) |}.

(** [inContainer->curSize] after an entry. *)
Definition grow (curSize chunkSize : Z) : Z :=
  u32 (u32 (u32 (u32 (curSize + chunkSize) + CRYPTO_BLOCK_SIZE) + 4 * CHUNK_HASH_SIZE) + sizeof_RecipeEntry).

(** [SaveChunk] stores only the content and the IV. *)
Definition SaveChunk (st : Upload) (chunkData : bytes) (chunkSize : Z) (chunkAddr : RecipeEntry_t) : result (Upload * RecipeEntry_t) :=
  let put buf writeOffset :=
    let buf := write buf writeOffset (slice chunkData 0 chunkSize) in
    let writeOffset := writeOffset + chunkSize in
    let buf := write buf writeOffset (slice (_iv st) 0 CRYPTO_BLOCK_SIZE) in
    if MAX_CONTAINER_SIZE <? writeOffset + CRYPTO_BLOCK_SIZE then Err Undefined else Ok buf in
  x <-- (if u32 (u32 (CRYPTO_BLOCK_SIZE + chunkSize) + ic_curSize (_inContainer st)) <? MAX_CONTAINER_SIZE then
           Ok (st, ic_curSize (_inContainer st))
         else
           let st := with_base st {| ic_buf := ic_buf (_inContainer st); ic_curSize := 0 |}
                       (dump (curContainer st) (_inContainer st)) in
           st <-- Ocall_WriteContainer st ;; Ok (st, 0)) ;;
  let '(st, saveOffset) := x in
  buf <-- put (ic_buf (_inContainer st)) saveOffset ;;
  let addr := set_addr chunkAddr (co_containerID (curContainer st)) saveOffset chunkSize (re_superfeature chunkAddr) in
  Ok (count (with_base st {| ic_buf := buf;
        ic_curSize := u32 (u32 (ic_curSize (_inContainer st) + chunkSize) + CRYPTO_BLOCK_SIZE) |} (curContainer st)) chunkSize, addr).

(** [SavebaseChunk] also stores the super-features in the address. *)
Definition SavebaseChunk (st : Upload) (chunkData : bytes) (chunkSize : Z) (chunkAddr : RecipeEntry_t)
    (chunksf chunkfp : bytes) : result (Upload * RecipeEntry_t) :=
  x <-- (if fits chunkSize (ic_curSize (_inContainer st)) then Ok (st, ic_curSize (_inContainer st))
         else
           let st := with_base st {| ic_buf := ic_buf (_inContainer st); ic_curSize := 0 |}
                       (dump (curContainer st) (_inContainer st)) in
           st <-- Ocall_WriteContainer st ;; Ok (st, 0)) ;;
  let '(st, saveOffset) := x in
  let addr := set_addr chunkAddr (co_containerID (curContainer st)) saveOffset chunkSize (slice chunksf 0 (3 * CHUNK_HASH_SIZE)) in
  buf <-- put_entry (ic_buf (_inContainer st)) saveOffset addr chunkfp chunksf chunkData chunkSize (_iv st) ;;
  Ok (count (with_base st {| ic_buf := buf; ic_curSize := grow (ic_curSize (_inContainer st)) chunkSize |}
        (curContainer st)) chunkSize, addr).

Definition SavedeltaChunk (st : Upload) (chunkData : bytes) (chunkSize : Z) (chunkAddr : RecipeEntry_t)
    (chunksf chunkfp : bytes) : result (Upload * RecipeEntry_t) :=
  x <-- (if fits chunkSize (ic_curSize (_deltainContainer st)) then Ok (st, ic_curSize (_deltainContainer st))
         else
           let st := with_delta st {| ic_buf := ic_buf (_deltainContainer st); ic_curSize := 0 |}
                       (dump (curDeltaContainer st) (_deltainContainer st)) in
           st <-- Ocall_WriteDeltaContainer st ;; Ok (st, 0)) ;;
  let '(st, saveOffset) := x in
  let addr := set_addr chunkAddr (co_containerID (curDeltaContainer st)) saveOffset chunkSize (re_superfeature chunkAddr) in
  buf <-- put_entry (ic_buf (_deltainContainer st)) saveOffset addr chunkfp chunksf chunkData chunkSize (_iv st) ;;
  Ok (count (with_delta st {| ic_buf := buf; ic_curSize := grow (ic_curSize (_deltainContainer st)) chunkSize |}
        (curDeltaContainer st)) chunkSize, addr).

(** [DataWriter::SaveToFile]: the directory (true for Delta-Containers/), the name and
    the content of the file. *)
Definition SaveToFile (c : Container_t) : bool * bytes * bytes :=
  (negb (co_deltaFlag c =? 0), slice (co_containerID c) 0 CONTAINER_ID_LENGTH, slice (co_body c) 0 (co_currentSize c)).

(** *** The container of the offline pass *)

(** [InsertHot_container]; the second result is the container it saved, if any. *)
Definition InsertHot_container (hot_container : Container_t) (times : Z) (tmpchunkcontent : bytes)
    (tmprecipe : RecipeEntry_t) (tmpfp tmpsf tmpIV : bytes)
    : result (Container_t * Z * option (bytes * bytes) * RecipeEntry_t) :=
  let chunkSize := re_length tmprecipe in
  let saveOffset := co_currentSize hot_container in
  let recipe (name : bytes) (offset : Z) : RecipeEntry_t :=
    {| re_containerName := name; re_deltaFlag := DELTA; re_offset := offset; re_length := re_length tmprecipe;
       re_basechunkHash := re_basechunkHash tmprecipe; re_superfeature := re_superfeature tmprecipe |} in
  x <-- (if u32 (chunkSize + saveOffset) + sizeof_RecipeEntry + 4 * CHUNK_HASH_SIZE + CRYPTO_BLOCK_SIZE <? MAX_CONTAINER_SIZE
         then Ok (hot_container, times, None)
         else
           let saved := (co_containerID hot_container, slice (co_body hot_container) 0 (co_currentSize hot_container)) in
           y <-- renew hot_container times ;; Ok (fst y, snd y, Some saved)) ;;
  let '(c, times, saved) := x in
  let saveOffset := co_currentSize c in
  let tmprecipe := recipe (co_containerID c) saveOffset in
  body <-- put_entry (co_body c) saveOffset tmprecipe tmpfp tmpsf tmpchunkcontent chunkSize tmpIV ;;
  Ok ({| co_containerID := co_containerID c; co_deltaFlag := co_deltaFlag c; co_body := body;
         co_currentSize := u32 (co_currentSize c + chunkSize + sizeof_RecipeEntry + 4 * CHUNK_HASH_SIZE + CRYPTO_BLOCK_SIZE) |},
      times, saved, tmprecipe).

(** *** Taking an entry apart *)

Definition GetChunk_SF (tmpcontainer : bytes) (tmprecipe : RecipeEntry_t) : bytes :=
  slice tmpcontainer (re_offset tmprecipe + sizeof_RecipeEntry + CHUNK_HASH_SIZE) (3 * CHUNK_HASH_SIZE).
Definition GetChunk_FP (tmpcontainer : bytes) (tmprecipe : RecipeEntry_t) : bytes :=
  slice tmpcontainer (re_offset tmprecipe + sizeof_RecipeEntry) CHUNK_HASH_SIZE.
Definition GetChunk_IV (tmpcontainer : bytes) (tmprecipe : RecipeEntry_t) : bytes :=
  slice tmpcontainer (re_offset tmprecipe + sizeof_RecipeEntry + 4 * CHUNK_HASH_SIZE + re_length tmprecipe) CRYPTO_BLOCK_SIZE.
(** The content, and what the pair argument becomes when [cold_flag] is set: the
    offset and the size of the whole entry. *)
Definition GetChunk_content_buffer (tmpcontainer : bytes) (tmprecipe : RecipeEntry_t) (cold_flag : bool)
    (tmppair : Z * Z) : bytes * (Z * Z) :=
  let offset := re_offset tmprecipe in
  let length := re_length tmprecipe in
  let _tmppair := (offset, u32 (length + 4 * CHUNK_HASH_SIZE + sizeof_RecipeEntry + CRYPTO_BLOCK_SIZE)) in
  (slice tmpcontainer (offset + sizeof_RecipeEntry + 4 * CHUNK_HASH_SIZE) length,
   if cold_flag then _tmppair else tmppair).
(** The variant that allocates its result does the same. *)
Definition GetChunk_content (tmpcontainer : bytes) (tmprecipe : RecipeEntry_t) (cold_flag : bool)
    (tmppair : Z * Z) : bytes * (Z * Z) := GetChunk_content_buffer tmpcontainer tmprecipe cold_flag tmppair.

(** [OFFLineBackward::Init]: an empty hot container with a new identifier. *)
Definition Init (hot_container : Container_t) (times : Z) : result (Container_t * Z) := renew hot_container times.

(** ** Specification: a container is a list of entries *)

Record entry := mk_entry { e_recipe : RecipeEntry_t; e_fp : bytes; e_sf : bytes; e_data : bytes; e_iv : bytes }.
Definition entry_bytes (e : entry) : bytes := recipe_put (e_recipe e) ++ e_fp e ++ e_sf e ++ e_data e ++ e_iv e.
Definition body_bytes (es : list entry) : bytes := concat (map entry_bytes es).
Definition entry_size (e : entry) : Z := blen (e_data e) + 288.

Record entry_ok (e : entry) : Prop := {
  eok_recipe : recipe_ok (e_recipe e);
  eok_fp : length (e_fp e) = 32%nat;
  eok_sf : length (e_sf e) = 96%nat;
  eok_iv : length (e_iv e) = 16%nat;
  eok_length : re_length (e_recipe e) = blen (e_data e)
}.

(** The entries are stored one after the other from [off] on, and the recipe of each
    says where it is and in which container. *)
Fixpoint laid_out (off : Z) (name : bytes) (es : list entry) : Prop :=
  match es with
  | [] => True
  | e :: es => entry_ok e /\ re_offset (e_recipe e) = off /\ re_containerName (e_recipe e) = name /\
               laid_out (off + entry_size e) name es
  end.

Lemma entry_bytes_size e : entry_ok e -> blen (entry_bytes e) = entry_size e.
Proof.
  intros [R F S I _]. unfold entry_bytes, entry_size. rewrite !blen_app. unfold blen.
  rewrite (recipe_put_length _ R), F, S, I. lia.
Qed.

Definition total_size (es : list entry) : Z := foldr Z.add 0 (map entry_size es).
Lemma entry_size_pos e : 288 <= entry_size e.
Proof. unfold entry_size. pose proof (blen_nonneg (e_data e)). lia. Qed.
Lemma total_size_nonneg es : 0 <= total_size es.
Proof.
  unfold total_size. induction es as [|e es IH]; cbn; [lia|]. pose proof (entry_size_pos e). lia.
Qed.
Lemma total_size_app es fs : total_size (es ++ fs) = total_size es + total_size fs.
Proof. unfold total_size. induction es as [|e es IH]; cbn; lia. Qed.

Lemma body_bytes_size off name es : laid_out off name es -> blen (body_bytes es) = total_size es.
Proof.
  revert off. induction es as [|e es IH]; intros off; [done|]. intros (E & _ & _ & L).
  unfold body_bytes in *. cbn [map concat]. rewrite blen_app, entry_bytes_size by done.
  rewrite (IH _ L). reflexivity.
Qed.

Lemma laid_out_app off name es fs :
  laid_out off name (es ++ fs) <-> laid_out off name es /\ laid_out (off + total_size es) name fs.
Proof.
  revert off. induction es as [|e es IH]; intros off; cbn [app laid_out].
  - rewrite Z.add_0_r. tauto.
  - rewrite IH. replace (off + entry_size e + total_size es) with (off + total_size (e :: es)) by (unfold total_size; cbn; lia). tauto.
Qed.

Lemma body_bytes_app es fs : body_bytes (es ++ fs) = body_bytes es ++ body_bytes fs.
Proof. unfold body_bytes. by rewrite map_app, concat_app. Qed.

(** The parts of an entry are where the [GetChunk] functions look for them. *)
Lemma entry_parts pre e post :
  entry_ok e -> re_offset (e_recipe e) = blen pre ->
  let body := pre ++ entry_bytes e ++ post in
  recipe_get (drop (length pre) body) = e_recipe e /\
  GetChunk_FP body (e_recipe e) = e_fp e /\ GetChunk_SF body (e_recipe e) = e_sf e /\
  fst (GetChunk_content_buffer body (e_recipe e) false (0, 0)) = e_data e /\ GetChunk_IV body (e_recipe e) = e_iv e.
Proof.
  intros [R F S I L] Off body. pose proof (recipe_put_length _ R) as LR.
  assert (B : body = pre ++ recipe_put (e_recipe e) ++ e_fp e ++ e_sf e ++ e_data e ++ e_iv e ++ post).
  { unfold body, entry_bytes. by rewrite <- !app_assoc. }
  split; [|split; [|split; [|split]]].
  - rewrite B, drop_app_length. by apply recipe_get_put.
  - unfold GetChunk_FP. rewrite B, app_assoc. apply slice_field; rewrite ?blen_app; unfold blen in *; unfold sizeof_RecipeEntry, CHUNK_HASH_SIZE; lia.
  - unfold GetChunk_SF. rewrite B, (app_assoc pre), (app_assoc (pre ++ _)).
    apply slice_field; rewrite ?blen_app; unfold blen in *; unfold sizeof_RecipeEntry, CHUNK_HASH_SIZE; lia.
  - unfold GetChunk_content_buffer. cbn [fst]. rewrite B, (app_assoc pre), (app_assoc (pre ++ _)), (app_assoc ((pre ++ _) ++ _)).
    apply slice_field; [|done]. rewrite ?blen_app; unfold blen in *; unfold sizeof_RecipeEntry, CHUNK_HASH_SIZE; lia.
  - unfold GetChunk_IV. rewrite B, (app_assoc pre), (app_assoc (pre ++ _)), (app_assoc ((pre ++ _) ++ _)), (app_assoc (((pre ++ _) ++ _) ++ _)).
    apply slice_field; rewrite ?blen_app; unfold blen in *; unfold sizeof_RecipeEntry, CHUNK_HASH_SIZE, CRYPTO_BLOCK_SIZE; lia.
Qed.

(** *** An open container *)

Record in_ok (buf : bytes) (cur : Z) (name : bytes) (es : list entry) : Prop := {
  iok_layout : laid_out 0 name es;
  iok_cur : cur = total_size es;
  iok_body : slice buf 0 cur = body_bytes es;
  iok_max : cur < MAX_CONTAINER_SIZE;
  iok_len : cur <= blen buf
}.

Lemma in_ok_empty buf name : in_ok buf 0 name [].
Proof. constructor; try done. apply blen_nonneg. Qed.

Lemma fits_bound size cur :
  0 <= size <= MAX_CHUNK_SIZE -> 0 <= cur < MAX_CONTAINER_SIZE ->
  fits size cur = (size + cur + 288 <? MAX_CONTAINER_SIZE) /\ grow cur size = cur + size + 288 /\ fits size 0 = true.
Proof.
  unfold fits, grow, MAX_CHUNK_SIZE, CRYPTO_BLOCK_SIZE, CHUNK_HASH_SIZE, sizeof_RecipeEntry.
  change MAX_CONTAINER_SIZE with 4194304. intros. unwrap. split; [|split].
  - f_equal. lia.
  - lia.
  - apply Z.ltb_lt. lia.
Qed.

(** Storing an entry at the end of a container in which it fits. *)
Lemma put_entry_ok buf cur name es r fp sf data size iv :
  in_ok buf cur name es -> recipe_ok r -> re_offset r = cur -> re_length r = size -> re_containerName r = name ->
  32 <= blen fp -> 96 <= blen sf -> blen iv = 16 -> 0 <= size <= blen data -> size + cur + 288 < MAX_CONTAINER_SIZE ->
  let e := {| e_recipe := r; e_fp := slice fp 0 32; e_sf := slice sf 0 96; e_data := slice data 0 size; e_iv := iv |} in
  exists buf', put_entry buf cur r fp sf data size iv = Ok buf' /\ in_ok buf' (cur + size + 288) name (es ++ [e]).
Proof.
  intros [La Cu Bo Ma Le] R Off Len Nm Hfp Hsf Hiv Hd Hfit e.
  pose proof (total_size_nonneg es) as TN.
  assert (Ok_e : entry_ok e).
  { constructor; cbn; [done| | | |]; unfold slice, blen in *; rewrite ?length_take, ?length_drop; [lia|lia|lia|].
    rewrite Len. lia. }
  assert (Sz : entry_size e = size + 288).
  { change (blen (slice data 0 size) + 288 = size + 288). rewrite blen_slice by lia. lia. }
  pose proof (entry_bytes_size e Ok_e) as Eb. pose proof (recipe_put_length r R) as Lr.
  assert (P : put_entry buf cur r fp sf data size iv = Ok (write buf cur (entry_bytes e))).
  { unfold put_entry. rewrite (proj2 (Z.ltb_ge _ _)).
    2: { unfold sizeof_RecipeEntry, CHUNK_HASH_SIZE, CRYPTO_BLOCK_SIZE. lia. }
    f_equal. unfold entry_bytes, e. cbn [e_recipe e_fp e_sf e_data e_iv].
    change (3 * CHUNK_HASH_SIZE) with 96. change CHUNK_HASH_SIZE with 32. change CRYPTO_BLOCK_SIZE with 16.
    replace (slice iv 0 16) with iv by (rewrite <- Hiv; symmetry; apply slice_full).
    assert (C : 0 <= cur <= blen buf) by lia.
    replace (cur + sizeof_RecipeEntry) with (cur + blen (recipe_put r)) by (unfold blen, sizeof_RecipeEntry; lia).
    rewrite write_write by done.
    assert (L1 : blen (slice fp 0 32) = 32) by (apply blen_slice; lia).
    assert (L2 : blen (slice sf 0 96) = 96) by (apply blen_slice; lia).
    assert (L3 : blen (slice data 0 size) = size) by (apply blen_slice; lia).
    replace (cur + blen (recipe_put r) + 32) with (cur + blen (recipe_put r ++ slice fp 0 32)) by (rewrite blen_app; lia).
    rewrite write_write by done.
    match goal with |- context [write (write buf cur ?a) ?o ?b] => replace o with (cur + blen a) by (rewrite !blen_app; lia) end.
    rewrite write_write by done.
    match goal with |- context [write (write buf cur ?a) ?o ?b] => replace o with (cur + blen a) by (rewrite !blen_app; lia) end.
    rewrite write_write by done. by rewrite <- !app_assoc. }
  exists (write buf cur (entry_bytes e)). split; [done|].
  constructor.
  - apply laid_out_app. split; [done|]. split; [done|]. split; [cbn; lia|]. done.
  - rewrite total_size_app. unfold total_size at 2. cbn [map foldr]. lia.
  - rewrite body_bytes_app. unfold body_bytes at 2. cbn [map concat]. rewrite app_nil_r, slice_0.
    replace (cur + size + 288) with (cur + blen (entry_bytes e)) by lia. rewrite take_write by lia. f_equal. by rewrite <- slice_0.
  - lia.
  - rewrite blen_write_grow by lia. lia.
Qed.

(** ** The storage core implements a log of entries *)

(** The entries of the two open containers, and the containers handed to the data
    writer: the directory, the name and the entries of each. *)
Record store_spec := mk_spec {
  base_open : list entry;
  delta_open : list entry;
  flushed : list (bool * bytes * list entry)
}.

Record upload_ok (st : Upload) (a : store_spec) : Prop := {
  uok_base : in_ok (ic_buf (_inContainer st)) (ic_curSize (_inContainer st)) (co_containerID (curContainer st)) (base_open a);
  uok_delta : in_ok (ic_buf (_deltainContainer st)) (ic_curSize (_deltainContainer st)) (co_containerID (curDeltaContainer st)) (delta_open a);
  uok_names : fixed 7 (co_containerID (curContainer st)) /\ fixed 7 (co_containerID (curDeltaContainer st));
  uok_iv : blen (_iv st) = 16;
  uok_times : 0 <= con_times st < 2 ^ 31;
  uok_queue : Forall2 (fun c f => SaveToFile c = (fst (fst f), snd (fst f), body_bytes (snd f)) /\
                laid_out 0 (snd (fst f)) (snd f)) (inputMQ st) (flushed a)
}.

(** What an accepted chunk is, as the caller passes it. *)
Record chunk_ok (chunkData : bytes) (chunkSize : Z) (chunkAddr : RecipeEntry_t) (chunksf chunkfp : bytes) : Prop := {
  cok_addr : recipe_ok chunkAddr;
  cok_size : 0 <= chunkSize <= MAX_CHUNK_SIZE;
  cok_data : chunkSize <= blen chunkData;
  cok_sf : 96 <= blen chunksf /\ bytes_ok chunksf;
  cok_fp : 32 <= blen chunkfp
}.

Definition is_entry (e : entry) (addr : RecipeEntry_t) (data : bytes) (size : Z) (sf fp iv : bytes) : Prop :=
  e_recipe e = addr /\ e_fp e = slice fp 0 32 /\ e_sf e = slice sf 0 96 /\ e_data e = slice data 0 size /\ e_iv e = iv.

Lemma set_addr_ok a name off len sf :
  recipe_ok a -> fixed 7 name -> word32 off -> word32 len -> fixed 96 sf -> recipe_ok (set_addr a name off len sf).
Proof. intros [? ? ? ? ? ?] ? ? ? ?. constructor; done. Qed.

Lemma renew_ok c times :
  0 <= times < 2 ^ 31 - 1 -> exists id, renew c times = Ok ({| co_containerID := id; co_deltaFlag := co_deltaFlag c;
    co_body := co_body c; co_currentSize := 0 |}, times + 1) /\ fixed 7 id /\ CreateUUID times = Ok id.
Proof.
  intros Ht. unfold renew. destruct (CreateUUID_fixed times) as (id & E & F); [lia|]. rewrite E. cbn [rbind].
  rewrite (proj2 (Z.eqb_neq _ _)) by lia. by exists id.
Qed.

Lemma dump_file out inC name es f :
  in_ok (ic_buf inC) (ic_curSize inC) name es -> co_containerID out = name -> fixed 7 name ->
  SaveToFile (set_delta_flag (dump out inC) f) = (negb (f =? 0), name, body_bytes es).
Proof.
  intros [_ Cu Bo _ Le] <- [L _]. pose proof (total_size_nonneg es) as TN. unfold SaveToFile. cbn.
  unfold CONTAINER_ID_LENGTH. f_equal; [f_equal|].
  - rewrite slice_0. apply take_ge. lia.
  - rewrite <- Bo. set (d := slice (ic_buf inC) 0 (ic_curSize inC)).
    assert (Ld : blen d = ic_curSize inC) by (apply blen_slice; lia). rewrite <- Ld at 1.
    apply slice_write_same. pose proof (blen_nonneg (co_body out)). lia.
Qed.

Lemma in_ok_range buf cur name es : in_ok buf cur name es -> 0 <= cur < MAX_CONTAINER_SIZE.
Proof. intros [_ -> _ M _]. split; [apply total_size_nonneg|done]. Qed.

Lemma size_word32 size cur :
  0 <= size <= MAX_CHUNK_SIZE -> 0 <= cur < MAX_CONTAINER_SIZE -> word32 size /\ word32 cur.
Proof. unfold word32, MAX_CHUNK_SIZE. change MAX_CONTAINER_SIZE with 4194304. lia. Qed.

(** What saving a chunk does, with the identifiers it uses. *)
Lemma SavebaseChunk_log (st : Upload) (a : store_spec) (chunkData : bytes) (chunkSize : Z)
    (chunkAddr : RecipeEntry_t) (chunksf chunkfp : bytes) :
  upload_ok st a -> con_times st < 2 ^ 31 - 1 -> chunk_ok chunkData chunkSize chunkAddr chunksf chunkfp ->
  exists st' addr e, SavebaseChunk st chunkData chunkSize chunkAddr chunksf chunkfp = Ok (st', addr) /\
    is_entry e addr chunkData chunkSize chunksf chunkfp (_iv st) /\
    re_deltaFlag addr = re_deltaFlag chunkAddr /\ re_basechunkHash addr = re_basechunkHash chunkAddr /\
    upload_ok st' (if total_size (base_open a) + chunkSize + 288 <? MAX_CONTAINER_SIZE
                   then {| base_open := base_open a ++ [e]; delta_open := delta_open a; flushed := flushed a |}
                   else {| base_open := [e]; delta_open := delta_open a;
                           flushed := flushed a ++ [(false, co_containerID (curContainer st), base_open a)] |}) /\
    _iv st' = _iv st /\ curDeltaContainer st' = curDeltaContainer st /\
    (if total_size (base_open a) + chunkSize + 288 <? MAX_CONTAINER_SIZE
     then con_times st' = con_times st /\ curContainer st' = curContainer st
     else con_times st' = con_times st + 1 /\ CreateUUID (con_times st) = Ok (co_containerID (curContainer st')) /\
          co_currentSize (curContainer st') = 0) /\
    re_superfeature addr = slice chunksf 0 96.
Proof.
  intros U Ht [A Sz Da [Sf Sfb] Fp]. pose proof U as [Ub Ud [Nb Nd] Iv Ti Qu].
  pose proof (in_ok_range _ _ _ _ Ub) as Hcur. destruct (fits_bound chunkSize _ Sz Hcur) as (Fi & Gr & F0).
  destruct (size_word32 _ _ Sz Hcur) as [Ws Wc]. pose proof (iok_cur _ _ _ _ Ub) as Cu.
  assert (Fsf : fixed 96 (slice chunksf 0 96)).
  { split; [|by apply slice_bytes_ok]. unfold slice, blen in *. rewrite length_take, length_drop. lia. }
  unfold SavebaseChunk. rewrite Fi, <- Cu. change (3 * CHUNK_HASH_SIZE) with 96.
  replace (ic_curSize (_inContainer st) + chunkSize + 288) with (chunkSize + ic_curSize (_inContainer st) + 288) by lia.
  case_if; cbn [rbind].
  - set (addr := set_addr _ _ _ _ _).
    destruct (put_entry_ok _ _ _ _ addr chunkfp chunksf chunkData chunkSize (_iv st) Ub) as (buf' & P & I');
      try done; try lia; [by apply set_addr_ok|].
    rewrite P. cbn [rbind]. eexists _, addr, (mk_entry addr _ _ _ _). split; [reflexivity|].
    split; [repeat split|]. split; [done|]. split; [done|].
    split; [|done]. constructor; cbn; try done. by rewrite Gr.
  - destruct (renew_ok (set_delta_flag (dump (curContainer st) (_inContainer st)) 0) (con_times st)) as (id & R & Nid & Cu'); [lia|].
    unfold Ocall_WriteContainer. cbn [curContainer with_base con_times]. rewrite R.
    cbn [rbind fst snd _inContainer ic_curSize ic_buf curContainer co_containerID with_base _iv].
    set (addr := set_addr chunkAddr id 0 chunkSize (slice chunksf 0 96)).
    destruct (put_entry_ok (ic_buf (_inContainer st)) 0 id [] addr chunkfp chunksf chunkData chunkSize (_iv st))
      as (buf' & P & I'); try done; try lia.
    { apply in_ok_empty. } { by apply set_addr_ok. } { unfold MAX_CHUNK_SIZE in Sz. change MAX_CONTAINER_SIZE with 4194304. lia. }
    rewrite P. cbn [rbind]. eexists _, addr, (mk_entry addr _ _ _ _). split; [reflexivity|].
    split; [repeat split|]. split; [done|]. split; [done|].
    destruct (fits_bound chunkSize 0 Sz) as (_ & Gr0 & _); [done|].
    split; [|done]. constructor; cbn; try done; [by rewrite Gr0|lia|].
    apply Forall2_app; [done|]. constructor; [|constructor]. cbn.
    split; [by eapply (dump_file _ _ _ _ 0)|by destruct Ub].
Qed.

(** C14. [SavebaseChunk] appends one entry to the log of base chunks: when the entry
    fits it goes to the open container, otherwise the open container is handed to the
    data writer with exactly its entries and the entry starts a new container.  The
    address returned is the recipe of the entry, every recipe of a container names the
    container and the place of its entry, and the container of deltas is untouched. *)
Theorem SavebaseChunk_ok (st : Upload) (a : store_spec) (chunkData : bytes) (chunkSize : Z)
    (chunkAddr : RecipeEntry_t) (chunksf chunkfp : bytes) :
  upload_ok st a -> con_times st < 2 ^ 31 - 1 -> chunk_ok chunkData chunkSize chunkAddr chunksf chunkfp ->
  exists st' addr e, SavebaseChunk st chunkData chunkSize chunkAddr chunksf chunkfp = Ok (st', addr) /\
    is_entry e addr chunkData chunkSize chunksf chunkfp (_iv st) /\
    re_deltaFlag addr = re_deltaFlag chunkAddr /\ re_basechunkHash addr = re_basechunkHash chunkAddr /\
    upload_ok st' (if total_size (base_open a) + chunkSize + 288 <? MAX_CONTAINER_SIZE
                   then {| base_open := base_open a ++ [e]; delta_open := delta_open a; flushed := flushed a |}
                   else {| base_open := [e]; delta_open := delta_open a;
                           flushed := flushed a ++ [(false, co_containerID (curContainer st), base_open a)] |}).
Proof.
  intros U Ht C. destruct (SavebaseChunk_log st a chunkData chunkSize chunkAddr chunksf chunkfp U Ht C)
    as (st' & addr & e & ? & ? & ? & ? & ? & _). by exists st', addr, e.
Qed.

(** What saving a chunk does, with the identifiers it uses. *)
Lemma SavedeltaChunk_log (st : Upload) (a : store_spec) (chunkData : bytes) (chunkSize : Z)
    (chunkAddr : RecipeEntry_t) (chunksf chunkfp : bytes) :
  upload_ok st a -> con_times st < 2 ^ 31 - 1 -> chunk_ok chunkData chunkSize chunkAddr chunksf chunkfp ->
  exists st' addr e, SavedeltaChunk st chunkData chunkSize chunkAddr chunksf chunkfp = Ok (st', addr) /\
    is_entry e addr chunkData chunkSize chunksf chunkfp (_iv st) /\
    re_deltaFlag addr = re_deltaFlag chunkAddr /\ re_basechunkHash addr = re_basechunkHash chunkAddr /\
    upload_ok st' (if total_size (delta_open a) + chunkSize + 288 <? MAX_CONTAINER_SIZE
                   then {| base_open := base_open a; delta_open := delta_open a ++ [e]; flushed := flushed a |}
                   else {| base_open := base_open a; delta_open := [e];
                           flushed := flushed a ++ [(true, co_containerID (curDeltaContainer st), delta_open a)] |}) /\
    _iv st' = _iv st /\ curContainer st' = curContainer st /\
    (if total_size (delta_open a) + chunkSize + 288 <? MAX_CONTAINER_SIZE
     then con_times st' = con_times st /\ curDeltaContainer st' = curDeltaContainer st
     else con_times st' = con_times st + 1 /\ CreateUUID (con_times st) = Ok (co_containerID (curDeltaContainer st')) /\
          co_currentSize (curDeltaContainer st') = 0).
Proof.
  intros U Ht [A Sz Da [Sf Sfb] Fp]. pose proof U as [Ub Ud [Nb Nd] Iv Ti Qu].
  pose proof (in_ok_range _ _ _ _ Ud) as Hcur. destruct (fits_bound chunkSize _ Sz Hcur) as (Fi & Gr & F0).
  destruct (size_word32 _ _ Sz Hcur) as [Ws Wc]. pose proof (iok_cur _ _ _ _ Ud) as Cu.
  pose proof A as [_ _ _ _ _ Fsf].
  unfold SavedeltaChunk. rewrite Fi, <- Cu.
  replace (ic_curSize (_deltainContainer st) + chunkSize + 288) with (chunkSize + ic_curSize (_deltainContainer st) + 288) by lia.
  case_if; cbn [rbind].
  - set (addr := set_addr _ _ _ _ _).
    destruct (put_entry_ok _ _ _ _ addr chunkfp chunksf chunkData chunkSize (_iv st) Ud) as (buf' & P & I');
      try done; try lia; [by apply set_addr_ok|].
    rewrite P. cbn [rbind]. eexists _, addr, (mk_entry addr _ _ _ _). split; [reflexivity|].
    split; [repeat split|]. split; [done|]. split; [done|].
    split; [|done]. constructor; cbn; try done. by rewrite Gr.
  - destruct (renew_ok (set_delta_flag (dump (curDeltaContainer st) (_deltainContainer st)) 1) (con_times st)) as (id & R & Nid & Cu'); [lia|].
    unfold Ocall_WriteDeltaContainer. cbn [curDeltaContainer with_delta con_times]. rewrite R.
    cbn [rbind fst snd _deltainContainer ic_curSize ic_buf curDeltaContainer co_containerID with_delta _iv].
    set (addr := set_addr chunkAddr id 0 chunkSize (re_superfeature chunkAddr)).
    destruct (put_entry_ok (ic_buf (_deltainContainer st)) 0 id [] addr chunkfp chunksf chunkData chunkSize (_iv st))
      as (buf' & P & I'); try done; try lia.
    { apply in_ok_empty. } { by apply set_addr_ok. } { unfold MAX_CHUNK_SIZE in Sz. change MAX_CONTAINER_SIZE with 4194304. lia. }
    rewrite P. cbn [rbind]. eexists _, addr, (mk_entry addr _ _ _ _). split; [reflexivity|].
    split; [repeat split|]. split; [done|]. split; [done|].
    destruct (fits_bound chunkSize 0 Sz) as (_ & Gr0 & _); [done|].
    split; [|done]. constructor; cbn; try done; [by rewrite Gr0|lia|].
    apply Forall2_app; [done|]. constructor; [|constructor]. cbn.
    split; [by eapply (dump_file _ _ _ _ 1)|by destruct Ud].
Qed.

Definition new_upload : Upload :=
  let c id := {| co_containerID := id; co_deltaFlag := 0; co_body := []; co_currentSize := 0 |} in
  {| _inContainer := {| ic_buf := []; ic_curSize := 0 |}; _deltainContainer := {| ic_buf := []; ic_curSize := 0 |};
     curContainer := c (replicate 7 48); curDeltaContainer := c (replicate 7 49); inputMQ := []; con_times := 3;
     _iv := replicate 16 9; writtenDataSize_ := 0; writtenChunkNum_ := 0 |}.
Definition new_spec : store_spec := {| base_open := []; delta_open := []; flushed := [] |}.
Lemma new_upload_ok : upload_ok new_upload new_spec.
Proof.
  constructor; cbn; [by apply in_ok_empty..| | |lia|constructor]; [split; by_decide|done].
Qed.
Definition blank_recipe : RecipeEntry_t := recipe_get (replicate 144 0).
Lemma blank_recipe_ok : recipe_ok blank_recipe.
Proof. constructor; by_decide. Qed.
Lemma chunk_3_ok : chunk_ok [1; 2; 3] 3 blank_recipe (replicate 96 4) (replicate 32 5).
Proof. constructor; [apply blank_recipe_ok|by_decide|by_decide|by_decide|by_decide]. Qed.

Lemma SavebaseChunk_ok_witness :
  exists st' addr, SavebaseChunk new_upload [1; 2; 3] 3 blank_recipe (replicate 96 4) (replicate 32 5) = Ok (st', addr).
Proof.
  destruct (SavebaseChunk_ok new_upload new_spec [1; 2; 3] 3 blank_recipe (replicate 96 4) (replicate 32 5)
    new_upload_ok eq_refl chunk_3_ok) as (st' & addr & _ & E & _). by exists st', addr.
Defined.
(** ** Reading entries back *)

Lemma GetChunk_parts (name : bytes) (pre post : list entry) (e : entry) (rest : bytes) :
  laid_out 0 name (pre ++ e :: post) -> total_size (pre ++ e :: post) <= MAX_CONTAINER_SIZE ->
  GetChunk_FP (body_bytes (pre ++ e :: post) ++ rest) (e_recipe e) = e_fp e /\
  GetChunk_SF (body_bytes (pre ++ e :: post) ++ rest) (e_recipe e) = e_sf e /\
  GetChunk_IV (body_bytes (pre ++ e :: post) ++ rest) (e_recipe e) = e_iv e /\
  GetChunk_content_buffer (body_bytes (pre ++ e :: post) ++ rest) (e_recipe e) true (0, 0) =
    (e_data e, (total_size pre, entry_size e)).
Proof.
  intros L T. rewrite body_bytes_app. change (body_bytes (e :: post)) with (entry_bytes e ++ body_bytes post).
  apply laid_out_app in L as [Lp (Oke & Off & _ & _)]. rewrite Z.add_0_l in Off.
  rewrite <- (body_bytes_size 0 name pre Lp) in Off. rewrite <- !app_assoc.
  destruct (entry_parts (body_bytes pre) e (body_bytes post ++ rest) Oke Off) as (_ & H1 & H2 & H3 & H4).
  split; [done|]. split; [done|]. split; [done|].
  unfold GetChunk_content_buffer in H3 |- *. cbn [fst] in H3. rewrite H3. f_equal.
  rewrite Off, (body_bytes_size 0 name pre Lp). f_equal.
  rewrite (eok_length e Oke). unfold entry_size. rewrite total_size_app in T.
  pose proof (total_size_nonneg pre). pose proof (total_size_nonneg post).
  change (total_size (e :: post)) with (entry_size e + total_size post) in T. unfold entry_size in T.
  pose proof (blen_nonneg (e_data e)). change MAX_CONTAINER_SIZE with 4194304 in T.
  unfold CHUNK_HASH_SIZE, sizeof_RecipeEntry, CRYPTO_BLOCK_SIZE. unwrap. lia.
Qed.

(** From a container with the layout the storage core produces, the offline pass
    takes back the fingerprint, the super-features, the content and the IV of every
    entry, and the position and size it computes for the cold list are those of the
    whole entry. *)
Theorem GetChunk_ok (name : bytes) (pre post : list entry) (e : entry) (rest : bytes) :
  laid_out 0 name (pre ++ e :: post) -> total_size (pre ++ e :: post) <= MAX_CONTAINER_SIZE ->
  GetChunk_FP (body_bytes (pre ++ e :: post) ++ rest) (e_recipe e) = e_fp e /\
  GetChunk_SF (body_bytes (pre ++ e :: post) ++ rest) (e_recipe e) = e_sf e /\
  GetChunk_IV (body_bytes (pre ++ e :: post) ++ rest) (e_recipe e) = e_iv e /\
  GetChunk_content_buffer (body_bytes (pre ++ e :: post) ++ rest) (e_recipe e) true (0, 0) =
    (e_data e, (total_size pre, entry_size e)).
Proof. apply GetChunk_parts. Qed.

(** Entries as the storage core lays them out, for examples. *)
Definition some_entry (name : bytes) (off : Z) (tag : Z) (data : bytes) : entry :=
  {| e_recipe := {| re_containerName := name; re_deltaFlag := 0; re_offset := off; re_length := blen data;
                    re_basechunkHash := replicate 32 tag; re_superfeature := replicate 96 tag |};
     e_fp := replicate 32 tag; e_sf := replicate 96 tag; e_data := data; e_iv := replicate 16 tag |}.
Lemma some_entry_ok name off tag data :
  fixed 7 name -> word32 off -> byte_ok tag -> blen data < 2 ^ 32 -> entry_ok (some_entry name off tag data).
Proof.
  intros Hn Ho Ht Hd. pose proof (blen_nonneg data).
  assert (R : forall n, fixed n (replicate n tag)) by (intros n; split; [apply length_replicate|by apply Forall_replicate]).
  constructor; done.
Qed.
Definition some_name : bytes := replicate 7 48.
Definition two_entries : list entry := [some_entry some_name 0 1 [7; 8]; some_entry some_name 290 2 [9]].
Lemma two_entries_ok : laid_out 0 some_name two_entries.
Proof.
  split; [apply some_entry_ok; by_decide|]. split; [done|]. split; [done|].
  split; [apply some_entry_ok; by_decide|]. done.
Qed.

Lemma GetChunk_ok_witness :
  GetChunk_content_buffer (body_bytes two_entries ++ [0; 0]) (e_recipe (some_entry some_name 290 2 [9])) true (0, 0) =
  ([9], (290, 289)).
Proof.
  apply (GetChunk_ok some_name [some_entry some_name 0 1 [7; 8]] [] (some_entry some_name 290 2 [9]) [0; 0] two_entries_ok).
  by_decide.
Defined.

(** *** The container of the offline pass *)

Lemma InsertHot_container_run (c : Container_t) (times : Z) (es : list entry) (data : bytes)
    (r : RecipeEntry_t) (fp sf iv : bytes) :
  in_ok (co_body c) (co_currentSize c) (co_containerID c) es -> fixed 7 (co_containerID c) -> 0 <= times < 2 ^ 31 - 1 ->
  recipe_ok r -> 0 <= re_length r <= MAX_CHUNK_SIZE -> re_length r <= blen data -> 96 <= blen sf -> 32 <= blen fp -> blen iv = 16 ->
  exists c' times' saved r' e, InsertHot_container c times data r fp sf iv = Ok (c', times', saved, r') /\
    is_entry e r' data (re_length r) sf fp iv /\ re_deltaFlag r' = DELTA /\ re_basechunkHash r' = re_basechunkHash r /\
    fixed 7 (co_containerID c') /\
    if total_size es + re_length r + 288 <? MAX_CONTAINER_SIZE
    then saved = None /\ times' = times /\ co_containerID c' = co_containerID c /\
         in_ok (co_body c') (co_currentSize c') (co_containerID c') (es ++ [e])
    else saved = Some (co_containerID c, body_bytes es) /\ times' = times + 1 /\ CreateUUID times = Ok (co_containerID c') /\
         in_ok (co_body c') (co_currentSize c') (co_containerID c') [e].
Proof.
  intros I Nm Ht A Sz Da Sf Fp Iv. pose proof (in_ok_range _ _ _ _ I) as Hcur.
  destruct (size_word32 _ _ Sz Hcur) as [Ws Wc]. pose proof I as [_ Cu Bo _ _]. pose proof A as [_ _ _ _ Fb Fsf].
  assert (G : u32 (re_length r + co_currentSize c) + sizeof_RecipeEntry + 4 * CHUNK_HASH_SIZE + CRYPTO_BLOCK_SIZE =
              co_currentSize c + re_length r + 288).
  { unfold MAX_CHUNK_SIZE in Sz. change MAX_CONTAINER_SIZE with 4194304 in Hcur.
    unfold sizeof_RecipeEntry, CHUNK_HASH_SIZE, CRYPTO_BLOCK_SIZE. unwrap. lia. }
  unfold InsertHot_container. rewrite G, <- Cu. case_if; cbn [rbind].
  - set (r' := {| re_containerName := _ |}).
    destruct (put_entry_ok _ _ _ _ r' fp sf data (re_length r) iv I) as (buf' & P & I'); try done; try lia.
    rewrite P. cbn [rbind]. eexists _, _, _, r', (mk_entry r' _ _ _ _). split; [reflexivity|].
    split; [repeat split|]. split; [done|]. split; [done|]. cbn. split; [done|]. split; [done|]. split; [done|]. split; [done|].
    replace (u32 _) with (co_currentSize c + re_length r + 288); [done|].
    unfold MAX_CHUNK_SIZE in Sz. change MAX_CONTAINER_SIZE with 4194304 in Hcur.
    change (u32 (co_currentSize c + re_length r + 144 + 128 + 16)) with (u32 (co_currentSize c + re_length r + 144 + 128 + 16)).
    unfold sizeof_RecipeEntry, CHUNK_HASH_SIZE, CRYPTO_BLOCK_SIZE. unwrap. lia.
  - destruct (renew_ok c times Ht) as (id & R & Nid & _). rewrite R. cbn [rbind fst snd co_containerID co_currentSize co_body].
    set (r' := {| re_containerName := _ |}).
    destruct (put_entry_ok (co_body c) 0 id [] r' fp sf data (re_length r) iv) as (buf' & P & I'); try done; try lia.
    { apply in_ok_empty. } { unfold MAX_CHUNK_SIZE in Sz. change MAX_CONTAINER_SIZE with 4194304. lia. }
    rewrite P. cbn [rbind]. eexists _, _, _, r', (mk_entry r' _ _ _ _). split; [reflexivity|].
    split; [repeat split|]. split; [done|]. split; [done|]. cbn. split; [done|]. split; [by rewrite Bo|]. split; [done|]. split.
    + unfold renew in R. destruct (CreateUUID times); [|done]. cbn in R. case_if_in R; [done|]. by injection R as ->.
    + replace (u32 _) with (0 + re_length r + 288); [done|]. unfold MAX_CHUNK_SIZE in Sz.
      unfold sizeof_RecipeEntry, CHUNK_HASH_SIZE, CRYPTO_BLOCK_SIZE. unwrap. lia.
Qed.

(** [InsertHot_container] appends an entry to the hot container, or saves the hot
    container with exactly its entries and starts a new one: no entry is lost or
    overwritten, and the recipe it returns, marked as a delta, is the one stored. *)
Theorem InsertHot_container_ok (c : Container_t) (times : Z) (es : list entry) (data : bytes)
    (r : RecipeEntry_t) (fp sf iv : bytes) :
  in_ok (co_body c) (co_currentSize c) (co_containerID c) es -> fixed 7 (co_containerID c) -> 0 <= times < 2 ^ 31 - 1 ->
  chunk_ok data (re_length r) r sf fp -> blen iv = 16 ->
  exists c' times' saved r' e, InsertHot_container c times data r fp sf iv = Ok (c', times', saved, r') /\
    is_entry e r' data (re_length r) sf fp iv /\ re_deltaFlag r' = DELTA /\ re_basechunkHash r' = re_basechunkHash r /\
    fixed 7 (co_containerID c') /\
    if total_size es + re_length r + 288 <? MAX_CONTAINER_SIZE
    then saved = None /\ times' = times /\ co_containerID c' = co_containerID c /\
         in_ok (co_body c') (co_currentSize c') (co_containerID c') (es ++ [e])
    else saved = Some (co_containerID c, body_bytes es) /\ times' = times + 1 /\ CreateUUID times = Ok (co_containerID c') /\
         in_ok (co_body c') (co_currentSize c') (co_containerID c') [e].
Proof. intros I Nm Ht [? ? ? [? _] ?] Iv. by apply InsertHot_container_run. Qed.

Definition hot_start : Container_t :=
  {| co_containerID := some_name; co_deltaFlag := 0; co_body := body_bytes two_entries; co_currentSize := 579 |}.
Lemma hot_start_ok : in_ok (co_body hot_start) (co_currentSize hot_start) (co_containerID hot_start) two_entries.
Proof. constructor; [apply two_entries_ok|by_decide..]. Qed.
Definition three_recipe : RecipeEntry_t :=
  {| re_containerName := some_name; re_deltaFlag := 0; re_offset := 0; re_length := 3;
     re_basechunkHash := replicate 32 1; re_superfeature := replicate 96 1 |}.
Lemma InsertHot_container_ok_witness :
  exists c' times' saved r', InsertHot_container hot_start 5 [1; 2; 3] three_recipe (replicate 32 1) (replicate 96 1) (replicate 16 1) =
    Ok (c', times', saved, r').
Proof.
  destruct (InsertHot_container_ok hot_start 5 two_entries [1; 2; 3] three_recipe (replicate 32 1) (replicate 96 1) (replicate 16 1))
    as (c' & t' & s & r' & _ & E & _); [apply hot_start_ok|by_decide|lia| |done|by exists c', t', s, r'].
  constructor; [constructor; by_decide|by_decide..].
Defined.
