(* ===== verification/Writer.v ===== *)
(** The data writer (Server/dataWriter.cc) and the directories: what is on disk, and
    what will be when the open containers are written too. *)
From Stdlib Require Import ZArith Lia.
From stdpp Require Import base list gmap.
From S2P Require Import Prelude Types Util Container ReqContainers.

(** ** Operations *)

(** [DataWriter::Run]: the files of the queue, into the two directories. *)
Definition write_container (d : Directories) (c : Container_t) : Directories :=
  let '(delta, name, body) := SaveToFile c in
  if delta then {| base_dir := base_dir d; delta_dir := <[name := body]> (delta_dir d) |}
  else {| base_dir := <[name := body]> (base_dir d); delta_dir := delta_dir d |}.
Definition write_queue (d : Directories) (queue : list Container_t) : Directories := fold_left write_container queue d.

(** The files of the base containers when the first [written] containers of the queue
    have been written. *)
Definition on_disk (old : Directories) (queue : list Container_t) (written : nat) : gmap bytes bytes :=
  base_dir (write_queue old (take written queue)).

(** The containers at the end of a session: the enclave copies its open ones outside
    ([ProcessTailBatch]). *)
Definition dump_if (out : Container_t) (inC : InContainer) : Container_t := if ic_curSize inC =? 0 then out else dump out inC.
Definition dump_open (u : Upload) : Upload :=
  let u := with_base u (_inContainer u) (dump_if (curContainer u) (_inContainer u)) in
  with_delta u (_deltainContainer u) (dump_if (curDeltaContainer u) (_deltainContainer u)).

(** The end of [DataReceiver::Run]: the last containers are handed to the data writer. *)
Definition last_containers (u : Upload) : result Upload :=
  u <-- (if co_currentSize (curContainer u) =? 0 then Ok u else Ocall_WriteContainer u) ;;
  if co_currentSize (curDeltaContainer u) =? 0 then Ok u else Ocall_WriteDeltaContainer u.

(** ** The directories as they will be *)

(** One directory with its open container. *)
Definition lane (m : gmap bytes bytes) (name : bytes) (es : list entry) : gmap bytes bytes :=
  match es with [] => m | _ => <[name := body_bytes es]> m end.
(** The files of the containers that were handed over. *)
Definition write_spec (d : Directories) (f : bool * bytes * list entry) : Directories :=
  let '(delta, name, es) := f in
  if delta then {| base_dir := base_dir d; delta_dir := <[name := body_bytes es]> (delta_dir d) |}
  else {| base_dir := <[name := body_bytes es]> (base_dir d); delta_dir := delta_dir d |}.
Definition spec_dirs (d : Directories) (fs : list (bool * bytes * list entry)) : Directories := fold_left write_spec fs d.
Definition view (d : Directories) (u : Upload) (a : store_spec) : Directories :=
  let F := spec_dirs d (flushed a) in
  {| base_dir := lane (base_dir F) (co_containerID (curContainer u)) (base_open a);
     delta_dir := lane (delta_dir F) (co_containerID (curDeltaContainer u)) (delta_open a) |}.

Definition grows (m m' : gmap bytes bytes) : Prop :=
  forall n b, m !! n = Some b -> exists ext, m' !! n = Some (b ++ ext).
(** What can be read from containers still can: containers are only appended to. *)
Definition dirs_le (D D' : Directories) : Prop :=
  forall n b, open_container D n = Ok b -> exists ext, open_container D' n = Ok (b ++ ext).
#[export] Instance grows_preorder : PreOrder grows.
Proof.
  split; [intros m n b E; exists []; by rewrite app_nil_r|]. intros x y z H1 H2 n b E.
  destruct (H1 _ _ E) as [e1 E1]. destruct (H2 _ _ E1) as [e2 E2]. exists (e1 ++ e2). by rewrite app_assoc.
Qed.
#[export] Instance dirs_le_preorder : PreOrder dirs_le.
Proof.
  split; [intros m n b E; exists []; by rewrite app_nil_r|]. intros x y z H1 H2 n b E.
  destruct (H1 _ _ E) as [e1 E1]. destruct (H2 _ _ E1) as [e2 E2]. exists (e1 ++ e2). by rewrite app_assoc.
Qed.

Lemma grows_insert m n b : m !! n = None -> grows m (<[n := b]> m).
Proof. intros N k x E. exists []. rewrite app_nil_r, lookup_insert_ne; [done|]. intros ->. congruence. Qed.
Lemma lane_other m name es n : n <> name -> lane m name es !! n = m !! n.
Proof. intros N. destruct es; [done|]. cbn. by rewrite lookup_insert_ne. Qed.
Lemma lane_snoc m name es e : lane m name (es ++ [e]) = <[name := body_bytes (es ++ [e])]> m.
Proof. by destruct es. Qed.

(** An entry goes to the open container, or to a new one after it. *)
Lemma lane_append m name es e : m !! name = None -> grows (lane m name es) (lane m name (es ++ [e])).
Proof.
  intros N. rewrite lane_snoc. destruct es as [|x es]; [by apply grows_insert|]. intros n b. cbn [lane].
  rewrite lookup_insert_Some. intros [[-> <-]|[Hn E]].
  - exists (body_bytes [e]). by rewrite lookup_insert_eq, body_bytes_app.
  - exists []. by rewrite lookup_insert_ne, app_nil_r by done.
Qed.
Lemma lane_turn m name es name' e :
  m !! name = None -> m !! name' = None -> name' <> name ->
  grows (lane m name es) (lane (<[name := body_bytes es]> m) name' [e]).
Proof.
  intros N N' Hne. transitivity (<[name := body_bytes es]> m); [destruct es; [by apply grows_insert|done]|].
  apply grows_insert. by rewrite lookup_insert_ne.
Qed.

Lemma open_grows D D' :
  grows (base_dir D) (base_dir D') -> grows (delta_dir D) (delta_dir D') ->
  (forall n, base_dir D !! n = None -> is_Some (delta_dir D !! n) -> base_dir D' !! n = None) -> dirs_le D D'.
Proof.
  intros B Dl N n b. unfold open_container. destruct (base_dir D !! n) as [x|] eqn:E.
  - intros [= <-]. destruct (B _ _ E) as [ext ->]. by exists ext.
  - destruct (delta_dir D !! n) as [x|] eqn:E2; [|done]. intros [= <-]. rewrite (N n E) by (by eexists).
    destruct (Dl _ _ E2) as [ext ->]. by exists ext.
Qed.

(** ** The invariant of a session *)

Definition fresh (F : Directories) (n : bytes) : Prop := base_dir F !! n = None /\ delta_dir F !! n = None.

Definition same_file (c : Container_t) (f : bool * bytes * list entry) : Prop :=
  SaveToFile c = (fst (fst f), snd (fst f), body_bytes (snd f)) /\ laid_out 0 (snd (fst f)) (snd f).
Lemma write_queue_spec d q fs : Forall2 same_file q fs -> write_queue d q = spec_dirs d fs.
Proof.
  intros F. revert d. induction F as [|c [[delta name] es] q fs [E _] _ IH]; intros d; [done|].
  unfold write_queue, spec_dirs in *. cbn [fold_left]. rewrite IH. f_equal. unfold write_container. rewrite E. by destruct delta.
Qed.
Lemma on_disk_spec d u a w : upload_ok u a -> on_disk d (inputMQ u) w = base_dir (spec_dirs d (take w (flushed a))).
Proof. intros U. unfold on_disk. by rewrite (write_queue_spec _ _ _ (Forall2_take _ _ _ w (uok_queue _ _ U))). Qed.
Lemma spec_dirs_snoc d fs f : spec_dirs d (fs ++ [f]) = write_spec (spec_dirs d fs) f.
Proof. unfold spec_dirs. by rewrite fold_left_app. Qed.

(** Where a chunk is in a body, and in the directories. *)
Record in_body (body : bytes) (r : RecipeEntry_t) (data iv : bytes) : Prop := {
  ib_room : 0 <= re_offset r /\ re_offset r + re_length r + 288 <= blen body;
  ib_length : re_length r = blen data;
  ib_data : slice body (re_offset r + 272) (re_length r) = data;
  ib_iv : slice body (re_offset r + 272 + re_length r) 16 = iv
}.
Definition placed (D : Directories) (r : RecipeEntry_t) (data iv : bytes) : Prop :=
  exists body, open_container D (re_containerName r) = Ok body /\ in_body body r data iv.

Lemma last_in_body name es e :
  laid_out 0 name (es ++ [e]) -> in_body (body_bytes (es ++ [e])) (e_recipe e) (e_data e) (e_iv e).
Proof.
  intros L. pose proof (body_bytes_size _ _ _ L) as S. apply laid_out_app in L as [Lp (Oke & Off & _ & _)].
  rewrite Z.add_0_l in Off. rewrite <- (body_bytes_size 0 name es Lp) in Off.
  rewrite body_bytes_app in *. change (body_bytes [e]) with (entry_bytes e ++ []) in *.
  destruct (entry_parts (body_bytes es) e [] Oke Off) as (_ & _ & _ & C & I).
  pose proof (entry_bytes_size e Oke) as Es. unfold entry_size in Es. pose proof (eok_length e Oke) as El.
  pose proof (blen_nonneg (body_bytes es)). split.
  - rewrite !blen_app, Es, El, Off. change (blen (@nil Z)) with 0. lia.
  - done.
  - rewrite <- C. unfold GetChunk_content_buffer, sizeof_RecipeEntry, CHUNK_HASH_SIZE. cbn [fst]. f_equal. lia.
  - unfold GetChunk_IV, sizeof_RecipeEntry, CHUNK_HASH_SIZE, CRYPTO_BLOCK_SIZE in I. rewrite <- I. f_equal. lia.
Qed.

Section session.
Variable d : Directories.

Abbreviation F a := (spec_dirs d (flushed a)).
Abbreviation base_name u := (co_containerID (curContainer u)).
Abbreviation delta_name u := (co_containerID (curDeltaContainer u)).

Record store_inv (u : Upload) (a : store_spec) : Prop := {
  si_ok : upload_ok u a;
  si_closed : co_currentSize (curContainer u) = 0 /\ co_currentSize (curDeltaContainer u) = 0;
  si_fresh : fresh (F a) (base_name u) /\ fresh (F a) (delta_name u);
  si_differ : base_name u <> delta_name u;
  si_names : forall n, ~ fresh (F a) n \/ n = base_name u \/ n = delta_name u ->
               exists t, 0 <= t < con_times u /\ CreateUUID t = Ok n;
  si_small : forall n b, base_dir (F a) !! n = Some b \/ delta_dir (F a) !! n = Some b -> blen b <= MAX_CONTAINER_SIZE;
  si_disk : forall w, base_dir (spec_dirs d (take w (flushed a))) ⊆ base_dir (F a)
}.

(** What storing a chunk does, seen from the directories. *)
Record saved (u : Upload) (a : store_spec) (u' : Upload) (a' : store_spec) (addr addr' : RecipeEntry_t) (data : bytes) : Prop := {
  sv_inv : store_inv u' a';
  sv_le : dirs_le (view d u a) (view d u' a');
  sv_base : base_dir (F a) ⊆ base_dir (F a');
  sv_placed : placed (view d u' a') addr' data (_iv u);
  sv_addr : recipe_ok addr';
  sv_flag : re_deltaFlag addr' = re_deltaFlag addr;
  sv_hash : re_basechunkHash addr' = re_basechunkHash addr;
  sv_length : re_length addr' = blen data;
  sv_times : con_times u' <= con_times u + 1;
  sv_iv : _iv u' = _iv u
}.

(** How the log grows by the entry [e]: at the end of the open container, or as the first
    of a new one when the open one is handed over. *)
Definition logged (u : Upload) (a : store_spec) (u' : Upload) (a' : store_spec) (delta : bool) (e : entry) : Prop :=
  if delta then
    base_name u' = base_name u /\
    (delta_name u' = delta_name u /\ a' = {| base_open := base_open a; delta_open := delta_open a ++ [e]; flushed := flushed a |} \/
     CreateUUID (con_times u) = Ok (delta_name u') /\
       a' = {| base_open := base_open a; delta_open := [e]; flushed := flushed a ++ [(true, delta_name u, delta_open a)] |})
  else
    delta_name u' = delta_name u /\
    (base_name u' = base_name u /\ a' = {| base_open := base_open a ++ [e]; delta_open := delta_open a; flushed := flushed a |} \/
     CreateUUID (con_times u) = Ok (base_name u') /\
       a' = {| base_open := [e]; delta_open := delta_open a; flushed := flushed a ++ [(false, base_name u, base_open a)] |}).

(** A name of a later counter value is new. *)
Lemma new_name u a n : store_inv u a -> con_times u < 2 ^ 31 - 1 -> CreateUUID (con_times u) = Ok n ->
  fresh (F a) n /\ n <> base_name u /\ n <> delta_name u.
Proof.
  intros I Ht E. pose proof (uok_times _ _ (si_ok _ _ I)) as T.
  assert (N : ~ (~ fresh (F a) n \/ n = base_name u \/ n = delta_name u)).
  { intros C. destruct (si_names _ _ I n C) as (t & Ht' & Et). assert (t = con_times u); [|lia].
    eapply CreateUUID_inj; [| |exact Et|exact E]; lia. }
  assert (Df : fresh (F a) n \/ ~ fresh (F a) n).
  { unfold fresh. destruct (base_dir (F a) !! n), (delta_dir (F a) !! n); [right|right|right|left]; intuition discriminate. }
  destruct Df as [Df|Df]; [|tauto]. split; [done|]. split; intros ->; tauto.
Qed.

(** The name under which an open container is written belongs to one directory only. *)
Lemma delta_view_base u a : store_inv u a -> delta_dir (view d u a) !! base_name u = None.
Proof. intros I. cbn. rewrite lane_other by apply (si_differ _ _ I). apply (si_fresh _ _ I). Qed.
Lemma base_view_delta u a : store_inv u a -> base_dir (view d u a) !! delta_name u = None.
Proof. intros I. cbn. rewrite lane_other by (symmetry; apply (si_differ _ _ I)). apply (si_fresh _ _ I). Qed.

Lemma open_small u a : upload_ok u a ->
  blen (body_bytes (base_open a)) <= MAX_CONTAINER_SIZE /\ blen (body_bytes (delta_open a)) <= MAX_CONTAINER_SIZE.
Proof. intros [[La Cu _ Ma _] [Ld Cd _ Md _] _ _ _ _]. rewrite (body_bytes_size _ _ _ La), (body_bytes_size _ _ _ Ld). lia. Qed.

Lemma lane_lookup m name es n b : lane m name es !! n = Some b -> (n = name /\ b = body_bytes es) \/ m !! n = Some b.
Proof. destruct es; [by right|]. cbn [lane]. rewrite lookup_insert_Some. intros [[-> <-]|[_ Hb]]; [by left|by right]. Qed.
Lemma view_small u a n b : store_inv u a -> open_container (view d u a) n = Ok b -> blen b <= MAX_CONTAINER_SIZE.
Proof.
  intros I. destruct (open_small u a (si_ok _ _ I)) as [Sb Sd]. unfold open_container. cbn [view base_dir delta_dir].
  destruct (lane (base_dir _) _ _ !! n) as [x|] eqn:E.
  - intros [= <-]. apply lane_lookup in E as [[_ ->]|E]; [done|]. eapply (si_small _ _ I). by left.
  - destruct (lane (delta_dir _) _ _ !! n) as [x|] eqn:E2; [|done]. intros [= <-].
    apply lane_lookup in E2 as [[_ ->]|E2]; [done|]. eapply (si_small _ _ I). by right.
Qed.
(** A base container that was handed over is in the view as it was. *)
Lemma view_flushed u a n b : store_inv u a -> base_dir (F a) !! n = Some b -> open_container (view d u a) n = Ok b.
Proof.
  intros I E. unfold open_container. cbn [view base_dir]. rewrite lane_other; [by rewrite E|].
  intros ->. destruct (si_fresh _ _ I) as [[Fb _] _]. congruence.
Qed.
Lemma store_inv_iv u a iv : blen iv = 16 -> store_inv u a -> 
  store_inv (mk_upload (_inContainer u) (_deltainContainer u) (curContainer u) (curDeltaContainer u) (inputMQ u) (con_times u) iv
    (writtenDataSize_ u) (writtenChunkNum_ u)) a.
Proof. intros L [[] ? ? ? ? ? ?]. by split. Qed.

(** *** The entry goes to the open container *)

Lemma append_base u a u' e :
  let a' := {| base_open := base_open a ++ [e]; delta_open := delta_open a; flushed := flushed a |} in
  store_inv u a -> upload_ok u' a' -> curContainer u' = curContainer u -> curDeltaContainer u' = curDeltaContainer u ->
  con_times u' = con_times u ->
  store_inv u' a' /\ dirs_le (view d u a) (view d u' a') /\ placed (view d u' a') (e_recipe e) (e_data e) (e_iv e).
Proof.
  intros a' I U' Cb Cd Ct. pose proof (delta_view_base u a I) as Nb. split; [|split].
  - destruct I. split; cbn [a' flushed] in *; rewrite ?Cb, ?Cd, ?Ct; done.
  - apply open_grows; cbn [view base_dir delta_dir a' base_open delta_open flushed]; rewrite ?Cb, ?Cd; [|done|].
    + apply lane_append, (si_fresh _ _ I).
    + intros n En [x Ex]. rewrite lane_snoc, lookup_insert_ne by (intros <-; cbn in Nb; congruence).
      rewrite lane_other in En; [done|]. intros ->. cbn in Nb. congruence.
  - destruct U' as [Ub _ _ _ _ _]. pose proof (iok_layout _ _ _ _ Ub) as L. cbn [a' base_open] in L.
    exists (body_bytes (base_open a ++ [e])). split; [|by eapply last_in_body].
    apply laid_out_app in L as (_ & _ & _ & -> & _).
    unfold open_container. cbn [view base_dir a' base_open]. by rewrite lane_snoc, lookup_insert_eq.
Qed.

Lemma append_delta u a u' e :
  let a' := {| base_open := base_open a; delta_open := delta_open a ++ [e]; flushed := flushed a |} in
  store_inv u a -> upload_ok u' a' -> curDeltaContainer u' = curDeltaContainer u -> curContainer u' = curContainer u ->
  con_times u' = con_times u ->
  store_inv u' a' /\ dirs_le (view d u a) (view d u' a') /\ placed (view d u' a') (e_recipe e) (e_data e) (e_iv e).
Proof.
  intros a' I U' Cd Cb Ct. pose proof (base_view_delta u a I) as Nd. split; [|split].
  - destruct I. split; cbn [a' flushed] in *; rewrite ?Cb, ?Cd, ?Ct; done.
  - apply open_grows; cbn [view base_dir delta_dir a' base_open delta_open flushed]; rewrite ?Cb, ?Cd; [done| |done].
    apply lane_append, (si_fresh _ _ I).
  - destruct U' as [_ Ud _ _ _ _]. pose proof (iok_layout _ _ _ _ Ud) as L. cbn [a' delta_open] in L.
    exists (body_bytes (delta_open a ++ [e])). split; [|by eapply last_in_body].
    apply laid_out_app in L as (_ & _ & _ & -> & _).
    unfold open_container. cbn [view base_dir delta_dir a' base_open delta_open flushed] in *. rewrite Cb, Cd, Nd, lane_snoc.
    by rewrite lookup_insert_eq.
Qed.

(** *** The open container is handed over, the entry starts the next *)

Lemma fresh_write D delta name es n : fresh D n -> n <> name -> fresh (write_spec D (delta, name, es)) n.
Proof. intros [B Dl] N. destruct delta; split; cbn; try done; by rewrite lookup_insert_ne. Qed.
Lemma fresh_write_inv D delta name es n : ~ fresh (write_spec D (delta, name, es)) n -> n = name \/ ~ fresh D n.
Proof.
  intros N. destruct (decide (n = name)) as [->|Hn]; [by left|right]. intros Fr. apply N. by apply fresh_write.
Qed.
Lemma write_base_subseteq D delta name es : fresh D name -> base_dir D ⊆ base_dir (write_spec D (delta, name, es)).
Proof. intros [B _]. destruct delta; cbn; [done|]. by apply insert_subseteq. Qed.
Lemma write_small D delta name es n b :
  base_dir (write_spec D (delta, name, es)) !! n = Some b \/ delta_dir (write_spec D (delta, name, es)) !! n = Some b ->
  b = body_bytes es \/ base_dir D !! n = Some b \/ delta_dir D !! n = Some b.
Proof. destruct delta; cbn; rewrite lookup_insert_Some; intros [|]; intuition (subst; auto). Qed.

(** What the two cases share: the invariant after a container [name], one of the two
    open ones, was handed over. *)
Lemma turn_inv u a u' a' delta name es :
  store_inv u a -> con_times u < 2 ^ 31 - 1 -> upload_ok u' a' ->
  flushed a' = flushed a ++ [(delta, name, es)] -> con_times u' = con_times u + 1 ->
  co_currentSize (curContainer u') = 0 -> co_currentSize (curDeltaContainer u') = 0 ->
  blen (body_bytes es) <= MAX_CONTAINER_SIZE -> fresh (F a) name ->
  (exists t, 0 <= t < con_times u /\ CreateUUID t = Ok name) ->
  fresh (F a') (base_name u') -> fresh (F a') (delta_name u') -> base_name u' <> delta_name u' ->
  (forall n, n = base_name u' \/ n = delta_name u' -> exists t, 0 <= t < con_times u' /\ CreateUUID t = Ok n) ->
  store_inv u' a'.
Proof.
  intros I Ht U' Ef Ct C0 D0 Sm Fn Tn Fb Fd Ne Nn. assert (EF : F a' = write_spec (F a) (delta, name, es)).
  { by rewrite Ef, spec_dirs_snoc. }
  split; try done.
  - intros n [H|H]; [|by apply Nn]. rewrite Ct. rewrite EF in H. apply fresh_write_inv in H as [->|H].
    + destruct Tn as (t & ? & ?). exists t. split; [lia|done].
    + destruct (si_names _ _ I n) as (t & ? & ?); [by left|]. exists t. split; [lia|done].
  - intros n b H. rewrite EF in H. apply write_small in H as [->|H]; [done|]. by eapply (si_small _ _ I).
  - intros w. rewrite EF, Ef. pose proof (write_base_subseteq (F a) delta name es Fn) as Sub.
    destruct (decide (w <= length (flushed a))%nat).
    + rewrite take_app_le by done. etrans; [apply (si_disk _ _ I)|done].
    + rewrite take_ge by (rewrite length_app; cbn; lia). by rewrite spec_dirs_snoc.
Qed.

Lemma turn_base u a u' e :
  let a' := {| base_open := [e]; delta_open := delta_open a; flushed := flushed a ++ [(false, base_name u, base_open a)] |} in
  store_inv u a -> con_times u < 2 ^ 31 - 1 -> upload_ok u' a' -> CreateUUID (con_times u) = Ok (base_name u') ->
  co_currentSize (curContainer u') = 0 -> curDeltaContainer u' = curDeltaContainer u -> con_times u' = con_times u + 1 ->
  store_inv u' a' /\ dirs_le (view d u a) (view d u' a') /\ placed (view d u' a') (e_recipe e) (e_data e) (e_iv e).
Proof.
  intros a' I Ht U' Nm C0 Cd Ct. destruct (new_name u a _ I Ht Nm) as (Fr & N1 & N2).
  pose proof (uok_times _ _ (si_ok _ _ I)) as T. destruct (si_fresh _ _ I) as [Fb Fd].
  assert (EF : F a' = write_spec (F a) (false, base_name u, base_open a)) by apply spec_dirs_snoc.
  split; [|split].
  - eapply (turn_inv u a u' a' false); try done; rewrite ?EF, ?Cd.
    + apply (si_closed _ _ I).
    + apply (open_small u a (si_ok _ _ I)).
    + apply (si_names _ _ I). tauto.
    + by apply fresh_write.
    + apply fresh_write; [done|]. intros E. by apply (si_differ _ _ I).
    + done.
    + intros n [-> | ->]; [exists (con_times u); split; [lia|done]|]. rewrite Ct.
      destruct (si_names _ _ I (delta_name u)) as (t & ? & ?); [tauto|]. exists t. split; [lia|done].
  - apply open_grows; unfold view; rewrite EF, ?Cd; cbn [base_dir delta_dir a' base_open delta_open write_spec]; [|done|].
    + apply lane_turn; [apply Fb|apply Fr|done].
    + pose proof (delta_view_base u a I) as Nb. cbn in Nb. intros n En Ex.
      assert (n <> base_name u) by (intros ->; rewrite Nb in Ex; by destruct Ex).
      rewrite lane_other in En by done. assert (n <> base_name u').
      { intros ->. rewrite lane_other in Ex by done. destruct Fr as [_ Fr]. rewrite Fr in Ex. by destruct Ex. }
      rewrite lane_other, lookup_insert_ne by done. done.
  - destruct U' as [Ub _ _ _ _ _]. pose proof (iok_layout _ _ _ _ Ub) as L. cbn [a' base_open] in L.
    exists (body_bytes ([] ++ [e])). split; [|by eapply last_in_body]. destruct L as (_ & _ & -> & _).
    unfold open_container. cbn [view base_dir a' base_open lane app]. by rewrite lookup_insert_eq.
Qed.

Lemma turn_delta u a u' e :
  let a' := {| base_open := base_open a; delta_open := [e]; flushed := flushed a ++ [(true, delta_name u, delta_open a)] |} in
  store_inv u a -> con_times u < 2 ^ 31 - 1 -> upload_ok u' a' -> CreateUUID (con_times u) = Ok (delta_name u') ->
  co_currentSize (curDeltaContainer u') = 0 -> curContainer u' = curContainer u -> con_times u' = con_times u + 1 ->
  store_inv u' a' /\ dirs_le (view d u a) (view d u' a') /\ placed (view d u' a') (e_recipe e) (e_data e) (e_iv e).
Proof.
  intros a' I Ht U' Nm C0 Cb Ct. destruct (new_name u a _ I Ht Nm) as (Fr & N1 & N2).
  pose proof (uok_times _ _ (si_ok _ _ I)) as T. destruct (si_fresh _ _ I) as [Fb Fd].
  assert (EF : F a' = write_spec (F a) (true, delta_name u, delta_open a)) by apply spec_dirs_snoc.
  split; [|split].
  - eapply (turn_inv u a u' a' true); try done; rewrite ?EF, ?Cb.
    + apply (si_closed _ _ I).
    + apply (open_small u a (si_ok _ _ I)).
    + apply (si_names _ _ I). tauto.
    + apply fresh_write; [done|]. apply (si_differ _ _ I).
    + by apply fresh_write.
    + done.
    + intros n [-> | ->]; [|exists (con_times u); split; [lia|done]]. rewrite Ct.
      destruct (si_names _ _ I (base_name u)) as (t & ? & ?); [tauto|]. exists t. split; [lia|done].
  - apply open_grows; unfold view; rewrite EF, ?Cb; cbn [base_dir delta_dir a' base_open delta_open write_spec]; [done| |done].
    apply lane_turn; [apply Fd|apply Fr|done].
  - destruct U' as [_ Ud _ _ _ _]. pose proof (iok_layout _ _ _ _ Ud) as L. cbn [a' delta_open] in L.
    exists (body_bytes ([] ++ [e])). split; [|by eapply last_in_body]. destruct L as (_ & _ & -> & _).
    unfold open_container. unfold view. rewrite EF. cbn [base_dir delta_dir write_spec a' base_open delta_open lane app].
    rewrite Cb, lane_other by done. destruct Fr as [-> _]. by rewrite lookup_insert_eq.
Qed.

(** *** Storing a chunk *)

Lemma saved_all u a u' a' addr e data size sf fp :
  is_entry e (e_recipe e) data size sf fp (_iv u) -> 0 <= size <= blen data -> upload_ok u' a' ->
  placed (view d u' a') (e_recipe e) (e_data e) (e_iv e) -> recipe_ok (e_recipe e) ->
  store_inv u' a' -> dirs_le (view d u a) (view d u' a') -> base_dir (F a) ⊆ base_dir (F a') ->
  re_deltaFlag (e_recipe e) = re_deltaFlag addr -> re_basechunkHash (e_recipe e) = re_basechunkHash addr ->
  con_times u' <= con_times u + 1 -> _iv u' = _iv u ->
  saved u a u' a' addr (e_recipe e) (slice data 0 size).
Proof.
  intros (_ & _ & _ & Ed & Ei) Sz U' P R I' Le Sub Fl Bh Tm Iv. rewrite Ed, Ei in P. split; try done.
  by destruct P as (? & _ & [_ -> _ _]).
Qed.

Lemma laid_out_last off name es e : laid_out off name (es ++ [e]) -> recipe_ok (e_recipe e).
Proof. intros L. apply laid_out_app in L as (_ & [R _ _ _ _] & _). done. Qed.

Lemma save_base u a data size addr sf fp :
  store_inv u a -> con_times u < 2 ^ 31 - 1 -> chunk_ok data size addr sf fp ->
  exists u' a' addr' e, SavebaseChunk u data size addr sf fp = Ok (u', addr') /\
    saved u a u' a' addr addr' (slice data 0 size) /\ logged u a u' a' false e /\ is_entry e addr' data size sf fp (_iv u) /\
    re_superfeature addr' = slice sf 0 96.
Proof.
  intros I Ht C. pose proof C as [_ Sz Sd _ _]. destruct (SavebaseChunk_log u a data size addr sf fp (si_ok _ _ I) Ht C)
    as (u' & addr' & e & E & Ie & Fl & Bh & U' & Iv & Dn & Nm & Fs). pose proof Ie as [<- _].
  exists u'. revert U' Nm. case_if; intros U' Nm; eexists _, _, e; (split; [exact E|]).
  - destruct Nm as [Tm Cn]. destruct (append_base u a u' e I U' Cn Dn Tm) as (I' & Le & P). split; [|split; [|done]].
    + eapply saved_all; try done; [lia| |lia]. eapply (laid_out_last 0), (iok_layout _ _ _ _ (uok_base _ _ U')).
    + split; [by rewrite Dn|left; by rewrite Cn].
  - destruct Nm as (Tm & Nn & Cn). destruct (turn_base u a u' e I Ht U' Nn Cn Dn Tm) as (I' & Le & P). split; [|split; [|done]].
    + eapply saved_all; try done; [lia| | |lia].
      * eapply (laid_out_last 0 _ []), (iok_layout _ _ _ _ (uok_base _ _ U')).
      * cbn [flushed]. rewrite spec_dirs_snoc. apply write_base_subseteq, (si_fresh _ _ I).
    + split; [by rewrite Dn|by right].
Qed.

Lemma save_delta u a data size addr sf fp :
  store_inv u a -> con_times u < 2 ^ 31 - 1 -> chunk_ok data size addr sf fp ->
  exists u' a' addr' e, SavedeltaChunk u data size addr sf fp = Ok (u', addr') /\
    saved u a u' a' addr addr' (slice data 0 size) /\ logged u a u' a' true e /\ is_entry e addr' data size sf fp (_iv u).
Proof.
  intros I Ht C. pose proof C as [_ Sz Sd _ _]. destruct (SavedeltaChunk_log u a data size addr sf fp (si_ok _ _ I) Ht C)
    as (u' & addr' & e & E & Ie & Fl & Bh & U' & Iv & Bn & Nm). pose proof Ie as [<- _].
  exists u'. revert U' Nm. case_if; intros U' Nm; eexists _, _, e; (split; [exact E|]).
  - destruct Nm as [Tm Cn]. destruct (append_delta u a u' e I U' Cn Bn Tm) as (I' & Le & P). split; [|split; [|done]].
    + eapply saved_all; try done; [lia| |lia]. eapply (laid_out_last 0), (iok_layout _ _ _ _ (uok_delta _ _ U')).
    + split; [by rewrite Bn|left; by rewrite Cn].
  - destruct Nm as (Tm & Nn & Cn). destruct (turn_delta u a u' e I Ht U' Nn Cn Bn Tm) as (I' & Le & P). split; [|split; [|done]].
    + eapply saved_all; try done; [lia| | |lia].
      * eapply (laid_out_last 0 _ []), (iok_layout _ _ _ _ (uok_delta _ _ U')).
      * cbn [flushed]. by rewrite spec_dirs_snoc.
    + split; [by rewrite Bn|by right].
Qed.

(** *** The end of the session *)

Lemma dump_if_file out inC name es f :
  in_ok (ic_buf inC) (ic_curSize inC) name es -> co_containerID out = name -> fixed 7 name -> co_currentSize out = 0 ->
  if co_currentSize (dump_if out inC) =? 0 then es = []
  else es <> [] /\ SaveToFile (set_delta_flag (dump_if out inC) f) = (negb (f =? 0), name, body_bytes es).
Proof.
  intros I N Fx Z0. pose proof (iok_cur _ _ _ _ I) as C. unfold dump_if. destruct (ic_curSize inC =? 0) eqn:E; boolz.
  - rewrite Z0. cbn. destruct es as [|e es]; [done|]. unfold total_size in C. cbn in C.
    pose proof (entry_size_pos e). pose proof (total_size_nonneg es). unfold total_size in *. lia.
  - cbn [dump co_currentSize]. rewrite (proj2 (Z.eqb_neq _ _) E). split; [intros ->; by cbn in C|]. by eapply dump_file.
Qed.
Lemma lane_cons m name es : es <> [] -> lane m name es = <[name := body_bytes es]> m.
Proof. by destruct es. Qed.

(** The last containers take to the directories exactly what the view has. *)
Lemma last_containers_view u a :
  store_inv u a -> con_times u < 2 ^ 31 - 3 ->
  exists u', last_containers (dump_open u) = Ok u' /\ write_queue d (inputMQ u') = view d u a /\
    con_times u <= con_times u' <= con_times u + 2.
Proof.
  intros I Ht. pose proof (si_ok _ _ I) as [Ub Ud [Nb Nd] _ Ti Qu]. destruct (si_closed _ _ I) as [C0 D0].
  pose proof (dump_if_file _ _ _ _ 0 Ub eq_refl Nb C0) as Fb. pose proof (dump_if_file _ _ _ _ 1 Ud eq_refl Nd D0) as Fd.
  pose proof (write_queue_spec d _ _ Qu) as EQ.
  assert (B : exists u1, (if co_currentSize (curContainer (dump_open u)) =? 0 then Ok (dump_open u)
      else Ocall_WriteContainer (dump_open u)) = Ok u1 /\
    write_queue d (inputMQ u1) = {| base_dir := base_dir (view d u a); delta_dir := delta_dir (F a) |} /\
    curDeltaContainer u1 = dump_if (curDeltaContainer u) (_deltainContainer u) /\
    con_times u <= con_times u1 <= con_times u + 1).
  { cbn [dump_open curContainer with_delta with_base]. revert Fb. case_if.
    - intros Eb. eexists. split; [reflexivity|]. change (inputMQ (dump_open u)) with (inputMQ u). rewrite EQ. cbn. rewrite Eb. split; [by destruct (F a)|]. split; [done|lia].
    - intros [Ne Fb]. unfold Ocall_WriteContainer. cbn [dump_open curContainer with_delta with_base con_times].
      destruct (renew_ok (set_delta_flag (dump_if (curContainer u) (_inContainer u)) 0) (con_times u)) as (id & R & _); [lia|].
      rewrite R. cbn [rbind]. eexists. split; [reflexivity|]. cbn [inputMQ curDeltaContainer con_times fst snd].
      unfold write_queue in *. cbn [dump_open inputMQ with_delta with_base]. rewrite fold_left_app, EQ. cbn [fold_left].
      unfold write_container. rewrite Fb. cbn [view base_dir]. rewrite (lane_cons _ _ (base_open a)) by done. split; [done|]. split; [done|lia]. }
  destruct B as (u1 & E1 & W1 & Cd & T1). unfold last_containers. rewrite E1. cbn [rbind]. rewrite Cd. revert Fd. case_if.
  - intros Ed. exists u1. split; [done|]. rewrite W1. split; [|lia]. unfold view. by rewrite Ed.
  - intros [Ne Fd]. unfold Ocall_WriteDeltaContainer. rewrite Cd.
    destruct (renew_ok (set_delta_flag (dump_if (curDeltaContainer u) (_deltainContainer u)) 1) (con_times u1)) as (id & R & _); [lia|].
    rewrite R. cbn [rbind]. eexists. split; [reflexivity|]. cbn [inputMQ con_times fst snd].
    split; [|lia]. unfold write_queue in *. rewrite fold_left_app, W1. cbn [fold_left].
    unfold write_container, view. rewrite Fd. cbn. by rewrite (lane_cons _ _ (delta_open a)).
Qed.
End session.
