(* ===== verification/Crypto.v ===== *)
(** Encryption inside the enclave (ecallUtil/ecallEnc.cc): the wrappers of the OpenSSL
    EVP interface, and AES-CMC, which encrypts the keys of the index. *)
From Stdlib Require Import ZArith Lia.
From stdpp Require Import base list.
From S2P Require Import Prelude Types.

(** ** The EVP interface *)

Inductive evp_cipher := aes_128_cfb | aes_256_cfb | aes_128_gcm | aes_256_gcm | aes_256_cbc.
Inductive evp_md := evp_sha1 | evp_sha256 | evp_md5.

(** One initialised context fed with the whole buffer: what the update and the final
    call write, or [None] when initialisation or update fails.  The GCM modes are set
    up with an IV of 16 bytes and the constant additional data; the CBC mode without
    padding. *)
Class EVP := {
  EVP_Encrypt : evp_cipher -> bytes -> bytes -> bytes -> option bytes;   (* cipher key iv data *)
  EVP_Decrypt : evp_cipher -> bytes -> bytes -> bytes -> option bytes;
  EVP_Digest : evp_md -> bytes -> option bytes
}.

(** The buffers a cipher accepts: CBC without padding needs whole blocks. *)
Definition accepts (c : evp_cipher) (data : bytes) : Prop :=
  match c with aes_256_cbc => blen data mod CRYPTO_BLOCK_SIZE = 0 | _ => True end.

(** The documented behaviour the code relies on: the modes keep the size of the data,
    and decryption inverts encryption under the same key and IV. *)
Class EVPLaws `{EVP} := {
  EVP_Encrypt_ok : forall c key iv data, accepts c data ->
    exists d, EVP_Encrypt c key iv data = Some d /\ length d = length data /\ EVP_Decrypt c key iv d = Some data
}.

(** Ciphertexts and digests are bytes, a SHA-256 digest has 32 of them. *)
Class EVPBytes `{EVP} := {
  EVP_Encrypt_bytes : forall c key iv data d, bytes_ok data -> EVP_Encrypt c key iv data = Some d -> bytes_ok d;
  EVP_Digest_bytes : forall data, bytes_ok data -> exists h, EVP_Digest evp_sha256 data = Some h /\ fixed 32 h
}.

(** ** The wrappers *)

Inductive ENCRYPT_SET := AES_256_GCM | AES_128_GCM | AES_256_CFB | AES_128_CFB.
Inductive HASH_SET := SHA_256 | MD5 | SHA_1.

(** The object: its cipher, its hash, and [iv_], which stays zero. *)
Record EcallCrypto := mk_crypto { cipherType_ : ENCRYPT_SET; hashType_ : HASH_SET; iv_ : bytes }.
Definition EcallCrypto_init (cipherType : ENCRYPT_SET) (hashType : HASH_SET) : EcallCrypto :=
  {| cipherType_ := cipherType; hashType_ := hashType; iv_ := replicate (Z.to_nat CRYPTO_BLOCK_SIZE) 0 |}.

Section wrappers.
Context `{EVP}.

Definition evp_of (t : ENCRYPT_SET) : evp_cipher :=
  match t with AES_128_CFB => aes_128_cfb | AES_256_CFB => aes_256_cfb | AES_256_GCM => aes_256_gcm | AES_128_GCM => aes_128_gcm end.

(** The shared end of the wrappers: a failing update, or an output of another size,
    ends the program. *)
Definition same_size (data : bytes) (out : option bytes) : result bytes :=
  out <-- of_option ExitError out ;;
  if blen out =? blen data then Ok out else Err ExitError.

Definition GenerateHash (o : EcallCrypto) (data : bytes) : result bytes :=
  let '(md, expectedHashSize) := match hashType_ o with
    | SHA_1 => (evp_sha1, 20) | SHA_256 => (evp_sha256, 32) | MD5 => (evp_md5, 16) end in
  hash <-- of_option ExitError (EVP_Digest md data) ;;
  if blen hash =? expectedHashSize then Ok hash else Err ExitError.

Definition EncryptWithKey (o : EcallCrypto) (dataBuffer key : bytes) : result bytes :=
  same_size dataBuffer (EVP_Encrypt (evp_of (cipherType_ o)) key (iv_ o) dataBuffer).
Definition DecryptWithKey (o : EcallCrypto) (ciphertext key : bytes) : result bytes :=
  same_size ciphertext (EVP_Decrypt (evp_of (cipherType_ o)) key (iv_ o) ciphertext).
Definition EncryptWithKeyIV (o : EcallCrypto) (dataBuffer key iv : bytes) : result bytes :=
  same_size dataBuffer (EVP_Encrypt (evp_of (cipherType_ o)) key iv dataBuffer).
Definition DecryptionWithKeyIV (o : EcallCrypto) (ciphertext key iv : bytes) : result bytes :=
  same_size ciphertext (EVP_Decrypt (evp_of (cipherType_ o)) key iv ciphertext).
Definition SessionKeyEnc (o : EcallCrypto) (dataBuffer sessionKey : bytes) : result bytes :=
  same_size dataBuffer (EVP_Encrypt aes_128_gcm sessionKey (iv_ o) dataBuffer).
Definition SessionKeyDec (o : EcallCrypto) (ciphertext sessionKey : bytes) : result bytes :=
  same_size ciphertext (EVP_Decrypt aes_128_gcm sessionKey (iv_ o) ciphertext).
Definition AESCBCEnc (o : EcallCrypto) (dataBuffer key : bytes) : result bytes :=
  same_size dataBuffer (EVP_Encrypt aes_256_cbc key (iv_ o) dataBuffer).
Definition AESCBCDec (o : EcallCrypto) (ciphertext key : bytes) : result bytes :=
  same_size ciphertext (EVP_Decrypt aes_256_cbc key (iv_ o) ciphertext).
End wrappers.

(** [reverseBytes]: two pointers that meet in the middle. *)
Fixpoint reverse_loop (fuel lo hi : nat) (buf : bytes) : bytes :=
  match fuel with
  | O => buf
  | S fuel =>
    if (lo <? hi)%nat then
      let swap := nth lo buf 0 in
      reverse_loop fuel (S lo) (hi - 1) (<[hi := swap]> (<[lo := nth hi buf 0]> buf))
    else buf
  end.
Definition reverseBytes (buf : bytes) : bytes := reverse_loop (length buf) 0 (length buf - 1) buf.

Section cmc.
Context `{EVP}.

Definition IndexAESCMCEnc (o : EcallCrypto) (dataBuffer key : bytes) : result bytes :=
  tmpBuffer <-- AESCBCEnc o dataBuffer key ;;
  AESCBCEnc o (reverseBytes tmpBuffer) key.
Definition IndexAESCMCDec (o : EcallCrypto) (ciphertext key : bytes) : result bytes :=
  tmpBuffer <-- AESCBCDec o ciphertext key ;;
  AESCBCDec o (reverseBytes tmpBuffer) key.
End cmc.

(** ** [reverseBytes] reverses *)

Lemma nth_lookup_Some (l : bytes) i : (i < length l)%nat -> l !! i = Some (nth i l 0).
Proof. intros Hi. destruct (lookup_lt_is_Some_2 l i Hi) as [x Hx]. rewrite Hx. by erewrite nth_lookup_Some. Qed.

Lemma reverse_loop_lookup fuel lo hi buf i :
  (lo + hi = length buf - 1)%nat -> (hi < lo + 2 * fuel)%nat -> (hi < length buf)%nat ->
  reverse_loop fuel lo hi buf !! i =
  if decide (lo <= i <= hi)%nat then buf !! (length buf - 1 - i)%nat else buf !! i.
Proof.
  revert lo hi buf. induction fuel as [|fuel IH]; intros lo hi buf Hs Hf Hh; cbn [reverse_loop].
  - case_decide; [lia|done].
  - destruct (lo <? hi)%nat eqn:E.
    + apply Nat.ltb_lt in E. rewrite IH by (rewrite ?length_insert; lia). rewrite !length_insert.
      destruct (decide (i = lo)) as [->|N1].
      { rewrite decide_False, decide_True by lia. rewrite list_lookup_insert_ne, list_lookup_insert_eq by lia.
        rewrite <- nth_lookup_Some by lia. f_equal. lia. }
      destruct (decide (i = hi)) as [->|N2].
      { rewrite decide_False, decide_True by lia. rewrite list_lookup_insert_eq by (rewrite length_insert; lia).
        rewrite <- nth_lookup_Some by lia. f_equal. lia. }
      destruct (decide (lo <= i <= hi)%nat) as [B|B].
      * rewrite decide_True by lia. rewrite !list_lookup_insert_ne by lia. done.
      * rewrite decide_False by lia. rewrite !list_lookup_insert_ne by lia. done.
    + apply Nat.ltb_ge in E. case_decide; [|done]. f_equal. lia.
Qed.

Lemma reverseBytes_reverse buf : reverseBytes buf = reverse buf.
Proof.
  unfold reverseBytes. destruct (decide (buf = [])) as [->|N]; [done|].
  assert (0 < length buf)%nat by (destruct buf; [done|cbn; lia]).
  apply list_eq. intros i. rewrite reverse_loop_lookup by lia. case_decide as D.
  - rewrite reverse_lookup by lia. f_equal. lia.
  - rewrite !lookup_ge_None_2; [done|rewrite length_reverse; lia|lia].
Qed.

(** ** The wrappers under the laws of EVP *)

Section laws.
Context `{L : EVPLaws}.

Lemma same_size_ok (data d : bytes) : length d = length data -> same_size data (Some d) = Ok d.
Proof. intros E. unfold same_size. cbn. unfold blen. by rewrite E, Z.eqb_refl. Qed.

Lemma crypt_ok c key iv data :
  accepts c data -> exists d, same_size data (EVP_Encrypt c key iv data) = Ok d /\ length d = length data /\
    same_size d (EVP_Decrypt c key iv d) = Ok data.
Proof.
  intros A. destruct (EVP_Encrypt_ok c key iv data A) as (d & E & Ld & D).
  exists d. rewrite E, D, !same_size_ok by done. done.
Qed.

Lemma AESCBC_ok o data key :
  blen data mod CRYPTO_BLOCK_SIZE = 0 ->
  exists d, AESCBCEnc o data key = Ok d /\ length d = length data /\ AESCBCDec o d key = Ok data.
Proof. intros. by apply (crypt_ok aes_256_cbc). Qed.
Lemma KeyIV_ok o data key iv :
  exists d, EncryptWithKeyIV o data key iv = Ok d /\ length d = length data /\ DecryptionWithKeyIV o d key iv = Ok data.
Proof. apply crypt_ok. by destruct (cipherType_ o). Qed.
Lemma Key_ok o data key :
  exists d, EncryptWithKey o data key = Ok d /\ length d = length data /\ DecryptWithKey o d key = Ok data.
Proof. apply crypt_ok. by destruct (cipherType_ o). Qed.
Lemma SessionKey_ok o data key :
  exists d, SessionKeyEnc o data key = Ok d /\ length d = length data /\ SessionKeyDec o d key = Ok data.
Proof. by apply (crypt_ok aes_128_gcm). Qed.

Lemma CMC_ok (o : EcallCrypto) (data key : bytes) :
  blen data mod CRYPTO_BLOCK_SIZE = 0 ->
  exists d, IndexAESCMCEnc o data key = Ok d /\ blen d = blen data /\ IndexAESCMCDec o d key = Ok data.
Proof.
  intros Hm. unfold IndexAESCMCEnc, IndexAESCMCDec.
  destruct (AESCBC_ok o data key Hm) as (t & E1 & L1 & D1). rewrite E1. cbn [rbind].
  assert (Hr : blen (reverse t) = blen data) by (unfold blen; rewrite length_reverse; lia).
  destruct (AESCBC_ok o (reverseBytes t) key) as (d & E2 & L2 & D2).
  { by rewrite reverseBytes_reverse, Hr. }
  exists d. split; [done|]. rewrite D2. cbn [rbind]. rewrite !reverseBytes_reverse, reverse_involutive in *.
  split; [|done]. unfold blen in *. lia.
Qed.

(** Round trip of AES-CMC: for every buffer of whole blocks, such as a fingerprint,
    [IndexAESCMCEnc] succeeds and keeps the size, and [IndexAESCMCDec] gives the buffer
    back; so different fingerprints get different keys in the index. *)
Theorem IndexAESCMC_roundtrip (o : EcallCrypto) (data key : bytes) :
  blen data mod CRYPTO_BLOCK_SIZE = 0 ->
  exists d, IndexAESCMCEnc o data key = Ok d /\ blen d = blen data /\ IndexAESCMCDec o d key = Ok data.
Proof. apply CMC_ok. Qed.

Lemma CMC_inj o a b key k :
  blen a mod CRYPTO_BLOCK_SIZE = 0 -> blen b mod CRYPTO_BLOCK_SIZE = 0 ->
  IndexAESCMCEnc o a key = Ok k -> IndexAESCMCEnc o b key = Ok k -> a = b.
Proof.
  intros Ha Hb Ea Eb. destruct (CMC_ok o a key Ha) as (d & E & _ & D). destruct (CMC_ok o b key Hb) as (d' & E' & _ & D').
  congruence.
Qed.
Lemma AESCBCDec_Enc o data key d :
  blen data mod CRYPTO_BLOCK_SIZE = 0 -> AESCBCEnc o data key = Ok d -> AESCBCDec o d key = Ok data /\ blen d = blen data.
Proof. intros Hm E. destruct (AESCBC_ok o data key Hm) as (d' & E' & Ld & D). unfold blen. rewrite E in E'. by injection E' as <-; rewrite Ld. Qed.
End laws.

(** *** Bytes *)

Section bytes.
Context `{B : EVPBytes}.

Lemma same_size_bytes data d c key iv : bytes_ok data -> same_size data (EVP_Encrypt c key iv data) = Ok d -> bytes_ok d.
Proof.
  intros Hb. unfold same_size. destruct (EVP_Encrypt c key iv data) as [x|] eqn:E; [|done]. cbn [of_option rbind].
  case_if; [|done]. intros [= <-]. by eapply EVP_Encrypt_bytes.
Qed.
Lemma CMC_bytes o data key d : bytes_ok data -> IndexAESCMCEnc o data key = Ok d -> bytes_ok d.
Proof.
  intros Hb E. unfold IndexAESCMCEnc in E. inv_bind E. unfold AESCBCEnc in *. eapply same_size_bytes, E.
  rewrite reverseBytes_reverse. apply Forall_reverse. by eapply same_size_bytes.
Qed.
Lemma CBC_bytes o data key d : bytes_ok data -> AESCBCEnc o data key = Ok d -> bytes_ok d.
Proof. apply same_size_bytes. Qed.
Lemma GenerateHash_ok o data : hashType_ o = SHA_256 -> bytes_ok data -> exists h, GenerateHash o data = Ok h /\ fixed 32 h.
Proof.
  intros Hh Hb. destruct (EVP_Digest_bytes data Hb) as (h & E & F). exists h. split; [|done].
  unfold GenerateHash. rewrite Hh, E. cbn [of_option rbind]. unfold blen. by rewrite (proj1 F).
Qed.
End bytes.

(** An instance of the interface, for examples: every cipher adds the key's first byte
    to the bytes of the data. *)
Definition shift (k : Z) (data : bytes) : bytes := map (fun b => b + k) data.
Definition toy_evp : EVP := {|
  EVP_Encrypt := fun _ key _ data => Some (shift (hd 0 key) data);
  EVP_Decrypt := fun _ key _ data => Some (shift (- hd 0 key) data);
  EVP_Digest := fun _ data => Some (take 32 (data ++ replicate 32 0)) |}.
Lemma shift_shift k data : shift (- k) (shift k data) = data.
Proof. unfold shift. rewrite map_map. rewrite <- (map_id data) at 2. apply map_ext. intros; lia. Qed.
Definition toy_laws : @EVPLaws toy_evp.
Proof.
  constructor. intros c key iv data _. exists (shift (hd 0 key) data). split; [done|].
  split; [apply length_map|]. cbn. by rewrite shift_shift.
Defined.

Lemma IndexAESCMC_roundtrip_witness :
  exists d, @IndexAESCMCEnc toy_evp (EcallCrypto_init AES_256_GCM SHA_256) (replicate 32 7) [3] = Ok d /\ blen d = 32 /\
    @IndexAESCMCDec toy_evp (EcallCrypto_init AES_256_GCM SHA_256) d [3] = Ok (replicate 32 7).
Proof. apply (@IndexAESCMC_roundtrip toy_evp toy_laws (EcallCrypto_init AES_256_GCM SHA_256) (replicate 32 7) [3]). reflexivity. Defined.
