(* ===== verification/Cold.v ===== *)
(** The offline pass rewrites containers (ecallUtil/ecallOffline.cc:
    [Update_cold_container], [MergeContainer], with their ocalls of
    ocallSrc/storeOCall.cc): chunks that became deltas are cut out of their old
    containers, and small containers are merged. *)
From Stdlib Require Import ZArith Lia.
From stdpp Require Import base list gmap sorting.
From S2P Require Import Prelude Types Util Database ReqContainers Container Crypto.

(** ** State *)

(** The index, the two directories, [tmpOcallcontainer] with the container read last
    (and the size the query entry reports), [baseMergePair], [jobDoneFlag] and the
    number of ocalls. *)
Record World := mk_world {
  w_db : IndexStore;
  w_dirs : Directories;
  tmpOcallcontainer : bytes;
  containersize : Z;
  baseMergePair : list (bytes * bytes);
  jobDone : bool;
  _offline_Ocall : Z
}.

Definition set_world_db (w : World) db := {| w_db := db; w_dirs := w_dirs w; tmpOcallcontainer := tmpOcallcontainer w;
  containersize := containersize w; baseMergePair := baseMergePair w; jobDone := jobDone w; _offline_Ocall := _offline_Ocall w |}.
Definition set_world_dirs (w : World) d := {| w_db := w_db w; w_dirs := d; tmpOcallcontainer := tmpOcallcontainer w;
  containersize := containersize w; baseMergePair := baseMergePair w; jobDone := jobDone w; _offline_Ocall := _offline_Ocall w |}.
Definition set_world_buf (w : World) b n := {| w_db := w_db w; w_dirs := w_dirs w; tmpOcallcontainer := b;
  containersize := n; baseMergePair := baseMergePair w; jobDone := jobDone w; _offline_Ocall := _offline_Ocall w |}.
Definition set_world_pairs (w : World) l j := {| w_db := w_db w; w_dirs := w_dirs w; tmpOcallcontainer := tmpOcallcontainer w;
  containersize := containersize w; baseMergePair := l; jobDone := j; _offline_Ocall := _offline_Ocall w |}.
Definition ocall (w : World) : World := {| w_db := w_db w; w_dirs := w_dirs w; tmpOcallcontainer := tmpOcallcontainer w;
  containersize := containersize w; baseMergePair := baseMergePair w; jobDone := jobDone w;
  _offline_Ocall := u64 (_offline_Ocall w + 1) |}.

(** ** Ocalls on containers *)

(** Reading a file into [tmpOcallcontainer], which has room for one container. *)
Definition read_file (w : World) (body : bytes) : result World :=
  if MAX_CONTAINER_SIZE <? blen body then Err Undefined
  else Ok (set_world_buf w (write (tmpOcallcontainer w) 0 body) (blen body)).

(** [Ocall_OneColdContainer]: the delta directory first.  When there is no such file
    the buffer and the size of the last container stay. *)
Definition Ocall_OneColdContainer (w : World) (name : bytes) : result (World * bool) :=
  match delta_dir (w_dirs w) !! name with
  | Some body => w <-- read_file w body ;; Ok (w, true)
  | None =>
    match base_dir (w_dirs w) !! name with
    | Some body => w <-- read_file w body ;; Ok (w, false)
    | None => Ok (w, false)
    end
  end.

Definition Ocall_SaveColdContainer (w : World) (containerID containerBody : bytes) (currentSize : Z) (delta_flag : bool) : World :=
  let fileName := slice containerID 0 CONTAINER_ID_LENGTH in
  let body := slice containerBody 0 currentSize in
  let d := w_dirs w in
  set_world_dirs w (if delta_flag
    then {| base_dir := base_dir d; delta_dir := <[fileName := body]> (delta_dir d) |}
    else {| base_dir := <[fileName := body]> (base_dir d); delta_dir := delta_dir d |}).

(** [UpdateIndexStore], through [Ocall_UpdateIndexStoreBuffer]. *)
Definition UpdateIndexStore (w : World) (key buffer : bytes) (bufferSize : Z) : World :=
  ocall (set_world_db w (InsertBothBuffer (w_db w) key (blen key) buffer bufferSize)).

(** [myCompare] orders the cold list by offset. *)
Definition myCompare (v1 v2 : Z * Z) : bool := fst v1 <? fst v2.
Definition cold_le (x y : Z * Z) : Prop := myCompare y x = false.
#[export] Instance cold_le_dec : RelDecision cold_le.
Proof. intros x y. unfold cold_le. apply _. Defined.
Definition sort_cold (l : list (Z * Z)) : list (Z * Z) := merge_sort cold_le l.

Section rewrite_container.
Context `{EVP}.
(** [cryptoObj_] and [Enclave::indexQueryKey_]. *)
Variables (cryptoObj_ : EcallCrypto) (indexQueryKey_ : bytes).

(** The variables of the copying loops. *)
Record Copy := mk_copy { saveset : Z; newset : Z; new_container : bytes; cp_world : World }.

(** One turn of a copying loop: the entry at [saveset] of the old container goes to
    [newset] of the new one with its recipe changed, and the index learns the new
    recipe.  Past the end of the containers the copies are undefined. *)
Definition copy_entry (old : bytes) (change : RecipeEntry_t -> RecipeEntry_t) (c : Copy) : result Copy :=
  let tmpRecipeDecrypt := change (recipe_get (slice old (saveset c) sizeof_RecipeEntry)) in
  let tmpHashStr := slice old (saveset c + sizeof_RecipeEntry) CHUNK_HASH_SIZE in
  let s := u32 (saveset c + sizeof_RecipeEntry) in
  let new := write (new_container c) (newset c) (recipe_put tmpRecipeDecrypt) in
  let n := u32 (newset c + sizeof_RecipeEntry) in
  let size := u32 (u32 (re_length tmpRecipeDecrypt + 4 * CHUNK_HASH_SIZE) + CRYPTO_BLOCK_SIZE) in
  if (MAX_CONTAINER_SIZE <? s + size) || (MAX_CONTAINER_SIZE <? n + size) then Err Undefined else
  let new := write new n (slice old s size) in
  tmpRecipeEncrypt <-- AESCBCEnc cryptoObj_ (recipe_put tmpRecipeDecrypt) indexQueryKey_ ;;
  Ok {| saveset := u32 (s + size); newset := u32 (n + size); new_container := new;
        cp_world := UpdateIndexStore (cp_world c) tmpHashStr tmpRecipeEncrypt sizeof_RecipeEntry |}.

(** [while (saveset < limit)].  A turn advances [saveset] by at least one entry or is
    undefined, so [limit - saveset] turns are enough. *)
Fixpoint copy_until (fuel : nat) (limit : Z) (old : bytes) (change : RecipeEntry_t -> RecipeEntry_t) (c : Copy) : result Copy :=
  if saveset c <? limit then
    match fuel with
    | O => Err Fuel
    | S fuel => c <-- copy_entry old change c ;; copy_until fuel limit old change c
    end
  else Ok c.
Definition copy_to (limit : Z) (old : bytes) (change : RecipeEntry_t -> RecipeEntry_t) (c : Copy) : result Copy :=
  copy_until (Z.to_nat (limit - saveset c)) limit old change c.

Definition shift_down (coldset : Z) (r : RecipeEntry_t) : RecipeEntry_t :=
  set_addr r (re_containerName r) (u32 (re_offset r - coldset)) (re_length r) (re_superfeature r).

(** The loop over the sorted cold list: what is before a cold chunk is copied, the
    chunk itself is skipped. *)
Fixpoint skip_cold (cold : list (Z * Z)) (coldset : Z) (old : bytes) (c : Copy) : result (Z * Copy) :=
  match cold with
  | [] => Ok (coldset, c)
  | (first, second) :: cold =>
    c <-- copy_to first old (shift_down coldset) c ;;
    skip_cold cold (u32 (coldset + second)) old
      {| saveset := u32 (saveset c + second); newset := newset c; new_container := new_container c; cp_world := cp_world c |}
  end.

Definition Update_cold_container (w : World) (container_id : bytes) (cold_basechunk : list (Z * Z))
    (Cold_new_container : bytes) : result World :=
  x <-- Ocall_OneColdContainer w (slice container_id 0 CONTAINER_ID_LENGTH) ;;
  let '(w, delta_flag) := x in
  let Cold_container_size := containersize w in
  let Cold_container := tmpOcallcontainer w in
  y <-- skip_cold (sort_cold cold_basechunk) 0 Cold_container
         {| saveset := 0; newset := 0; new_container := Cold_new_container; cp_world := w |} ;;
  let '(coldset, c) := y in
  c <-- copy_to Cold_container_size Cold_container (shift_down coldset) c ;;
  let Cold_new_size := u64 (Cold_container_size - coldset) in
  Ok (ocall (Ocall_SaveColdContainer (cp_world c) container_id (new_container c) Cold_new_size delta_flag)).
End rewrite_container.

(** ** Correctness of the copying loops *)

Definition moved (change : RecipeEntry_t -> RecipeEntry_t) (e : entry) : entry :=
  {| e_recipe := change (e_recipe e); e_fp := e_fp e; e_sf := e_sf e; e_data := e_data e; e_iv := e_iv e |}.

(** A change of recipes the loops may apply: the length stays, the result is a recipe. *)
Definition change_ok (change : RecipeEntry_t -> RecipeEntry_t) : Prop :=
  forall r, recipe_ok r -> recipe_ok (change r) /\ re_length (change r) = re_length r.

Lemma moved_ok change e : change_ok change -> entry_ok e -> entry_ok (moved change e) /\ entry_size (moved change e) = entry_size e.
Proof.
  intros C [R F S I L]. destruct (C _ R) as [R' L']. split; [|done].
  constructor; cbn; try done. by rewrite L'.
Qed.

Lemma total_size_moved change es : total_size (map (moved change) es) = total_size es.
Proof. unfold total_size. by rewrite map_map. Qed.

Lemma body_bytes_total es : Forall entry_ok es -> blen (body_bytes es) = total_size es.
Proof.
  induction 1 as [|e es Oe _ IH]; [done|]. change (body_bytes (e :: es)) with (entry_bytes e ++ body_bytes es).
  rewrite blen_app, entry_bytes_size, IH by done. done.
Qed.
Lemma moved_Forall change es : change_ok change -> Forall entry_ok es -> Forall entry_ok (map (moved change) es).
Proof. intros Ch F. apply Forall_map. eapply Forall_impl; [exact F|]. intros e Oe. by apply (moved_ok change). Qed.

Section copying.
Context `{L : EVPLaws}.
Variables (cryptoObj_ : EcallCrypto) (indexQueryKey_ : bytes).
#[local] Abbreviation copy_entry := (copy_entry cryptoObj_ indexQueryKey_).
#[local] Abbreviation copy_until := (copy_until cryptoObj_ indexQueryKey_).
#[local] Abbreviation copy_to := (copy_to cryptoObj_ indexQueryKey_).

(** What the index learns of an entry. *)
Definition enc_recipe (r : RecipeEntry_t) : bytes :=
  match AESCBCEnc cryptoObj_ (recipe_put r) indexQueryKey_ with Ok b => b | Err _ => [] end.
Definition index_entry (w : World) (e : entry) : World :=
  ocall (set_world_db w (Insert (w_db w) (e_fp e) (enc_recipe (e_recipe e)))).

Lemma enc_recipe_ok r :
  recipe_ok r -> AESCBCEnc cryptoObj_ (recipe_put r) indexQueryKey_ = Ok (enc_recipe r) /\ length (enc_recipe r) = 144%nat /\
  AESCBCDec cryptoObj_ (enc_recipe r) indexQueryKey_ = Ok (recipe_put r).
Proof.
  intros R. pose proof (recipe_put_length r R) as Lr.
  destruct (AESCBC_ok cryptoObj_ (recipe_put r) indexQueryKey_) as (d & E & Ld & D).
  { unfold blen. by rewrite Lr. }
  unfold enc_recipe. rewrite E. split; [done|]. split; [lia|done].
Qed.

(** The state of a loop: where it is in the old container, and what it has written. *)
Record at_entry (c : Copy) (s : Z) (written : bytes) (w : World) : Prop := {
  ae_save : saveset c = s;
  ae_new : newset c = blen written;
  ae_written : slice (new_container c) 0 (newset c) = written;
  ae_len : newset c <= blen (new_container c);
  ae_world : cp_world c = w
}.

Lemma copy_entry_ok change pre e post c written w :
  change_ok change -> entry_ok e -> at_entry c (blen pre) written w ->
  blen pre + entry_size e <= MAX_CONTAINER_SIZE -> blen written + entry_size e <= MAX_CONTAINER_SIZE ->
  exists c', copy_entry (pre ++ entry_bytes e ++ post) change c = Ok c' /\
    at_entry c' (blen pre + entry_size e) (written ++ entry_bytes (moved change e)) (index_entry w (moved change e)).
Proof.
  intros Ch Oe [As An Aw Al <-] B1 B2. pose proof Oe as [R F S I Le].
  destruct (Ch _ R) as [R' L']. pose proof (recipe_put_length _ R) as LR. pose proof (recipe_put_length _ R') as LR'.
  destruct (moved_ok change e Ch Oe) as [Om Sm].
  set (old := pre ++ entry_bytes e ++ post).
  assert (Eold : old = pre ++ recipe_put (e_recipe e) ++ e_fp e ++ e_sf e ++ e_data e ++ e_iv e ++ post).
  { unfold old, entry_bytes. by rewrite <- !app_assoc. }
  assert (E1 : slice old (blen pre) sizeof_RecipeEntry = recipe_put (e_recipe e)).
  { rewrite Eold. apply slice_field; [done|unfold blen; rewrite LR; done]. }
  assert (E2 : slice old (blen pre + sizeof_RecipeEntry) CHUNK_HASH_SIZE = e_fp e).
  { rewrite Eold, app_assoc. apply slice_field; rewrite ?blen_app; unfold blen; rewrite ?LR, ?F; done. }
  set (n := blen (e_data e) + 144).
  assert (E3 : slice old (blen pre + sizeof_RecipeEntry) n = e_fp e ++ e_sf e ++ e_data e ++ e_iv e).
  { rewrite Eold, app_assoc. replace (e_fp e ++ e_sf e ++ e_data e ++ e_iv e ++ post) with ((e_fp e ++ e_sf e ++ e_data e ++ e_iv e) ++ post) by (by rewrite <- !app_assoc).
    apply slice_field; rewrite ?blen_app; unfold n, blen; rewrite ?LR, ?F, ?S, ?I; unfold sizeof_RecipeEntry; lia. }
  pose proof (blen_nonneg pre). pose proof (blen_nonneg (e_data e)). pose proof (blen_nonneg written).
  unfold entry_size in B1, B2. change MAX_CONTAINER_SIZE with 4194304 in *.
  unfold Cold.copy_entry. rewrite As, An, E1, E2.
  rewrite <- (app_nil_r (recipe_put (e_recipe e))), recipe_get_put by done. rewrite L', Le.
  destruct (enc_recipe_ok _ R') as (Ee & Le' & _).
  replace (u32 (blen pre + sizeof_RecipeEntry)) with (blen pre + sizeof_RecipeEntry) by (unfold sizeof_RecipeEntry; unwrap; lia).
  replace (u32 (blen written + sizeof_RecipeEntry)) with (blen written + sizeof_RecipeEntry) by (unfold sizeof_RecipeEntry; unwrap; lia).
  replace (u32 (u32 (blen (e_data e) + 4 * CHUNK_HASH_SIZE) + CRYPTO_BLOCK_SIZE)) with n
    by (unfold n, CHUNK_HASH_SIZE, CRYPTO_BLOCK_SIZE; unwrap; lia).
  change MAX_CONTAINER_SIZE with 4194304.
  rewrite (proj2 (Z.ltb_ge _ _)), (proj2 (Z.ltb_ge _ _)) by (unfold n, sizeof_RecipeEntry; lia). cbn [orb].
  rewrite E3, Ee. cbn [rbind]. eexists. split; [reflexivity|].
  assert (W : blen (entry_bytes (moved change e)) = n + 144).
  { rewrite entry_bytes_size by done. rewrite Sm. unfold entry_size, n. lia. }
  assert (Wr : write (write (new_container c) (blen written) (recipe_put (change (e_recipe e)))) (blen written + sizeof_RecipeEntry)
                 (e_fp e ++ e_sf e ++ e_data e ++ e_iv e) = write (new_container c) (blen written) (entry_bytes (moved change e))).
  { replace (blen written + sizeof_RecipeEntry) with (blen written + blen (recipe_put (change (e_recipe e)))) by (unfold blen, sizeof_RecipeEntry; rewrite LR'; lia).
    rewrite write_write by lia. done. }
  rewrite Wr. constructor; cbn.
  - unfold entry_size, n, sizeof_RecipeEntry. unwrap. lia.
  - rewrite blen_app, W. unfold n, sizeof_RecipeEntry. unwrap. lia.
  - replace (u32 (blen written + sizeof_RecipeEntry + n)) with (blen written + blen (entry_bytes (moved change e)))
      by (rewrite W; unfold n, sizeof_RecipeEntry; unwrap; lia).
    rewrite slice_0, take_write by lia. f_equal. by rewrite <- slice_0, <- An.
  - replace (u32 (blen written + sizeof_RecipeEntry + n)) with (blen written + blen (entry_bytes (moved change e)))
      by (rewrite W; unfold n, sizeof_RecipeEntry; unwrap; lia).
    rewrite blen_write_grow by lia. lia.
  - unfold UpdateIndexStore, index_entry, InsertBothBuffer, Insert. cbn [e_fp moved e_recipe].
    rewrite slice_full. replace sizeof_RecipeEntry with (blen (enc_recipe (change (e_recipe e)))) by (unfold blen; by rewrite Le').
    by rewrite slice_full.
Qed.

(** A run of entries up to the limit. *)
Lemma copy_until_ok change : change_ok change -> forall es fuel pre post c written w,
  Forall entry_ok es -> at_entry c (blen pre) written w ->
  blen pre + total_size es <= MAX_CONTAINER_SIZE -> blen written + total_size es <= MAX_CONTAINER_SIZE ->
  (length es <= fuel)%nat ->
  exists c', copy_until fuel (blen pre + total_size es) (pre ++ body_bytes es ++ post) change c = Ok c' /\
    at_entry c' (blen pre + total_size es) (written ++ body_bytes (map (moved change) es))
      (foldl index_entry w (map (moved change) es)).
Proof.
  intros Ch. induction es as [|e es IH]; intros fuel pre post c written w Fe A B1 B2 Hf.
  - exists c. pose proof A as [As _ _ _ _]. change (total_size []) with 0. rewrite Z.add_0_r.
    change (body_bytes (map (moved change) [])) with (@nil Z). rewrite app_nil_r.
    destruct fuel; cbn [Cold.copy_until]; by rewrite As, Z.ltb_irrefl.
  - destruct fuel as [|fuel]; [cbn in Hf; lia|]. apply Forall_cons in Fe as [Oe Fe]. pose proof A as [As _ _ _ _].
    change (total_size (e :: es)) with (entry_size e + total_size es) in *.
    pose proof (total_size_nonneg es). pose proof (entry_size_pos e).
    change (body_bytes (e :: es)) with (entry_bytes e ++ body_bytes es). rewrite <- app_assoc.
    destruct (copy_entry_ok change pre e (body_bytes es ++ post) c written w Ch Oe A) as (c1 & E1 & A1); [lia|lia|].
    cbn [Cold.copy_until]. rewrite As, (proj2 (Z.ltb_lt _ _)) by lia. rewrite E1. cbn [rbind].
    destruct (moved_ok change e Ch Oe) as [Om Sm].
    rewrite <- (entry_bytes_size e Oe), <- blen_app in A1.
    destruct (IH fuel (pre ++ entry_bytes e) post c1 (written ++ entry_bytes (moved change e)) (index_entry w (moved change e)) Fe A1)
      as (c' & E' & A').
    { rewrite blen_app, entry_bytes_size by done. lia. } { rewrite blen_app, entry_bytes_size, Sm by done. lia. } { cbn in Hf. lia. }
    exists c'. rewrite <- app_assoc, blen_app, entry_bytes_size in E' by done. rewrite blen_app, entry_bytes_size in A' by done.
    replace (blen pre + (entry_size e + total_size es)) with (blen pre + entry_size e + total_size es) by lia.
    split; [done|]. rewrite <- app_assoc in A'. exact A'.
Qed.

Lemma length_total_size es : Z.of_nat (length es) <= total_size es.
Proof. induction es as [|e es IH]; [done|]. change (total_size (e :: es)) with (entry_size e + total_size es).
  pose proof (entry_size_pos e). cbn [length]. lia. Qed.

Lemma copy_to_ok change es pre post c written w :
  change_ok change -> Forall entry_ok es -> at_entry c (blen pre) written w ->
  blen pre + total_size es <= MAX_CONTAINER_SIZE -> blen written + total_size es <= MAX_CONTAINER_SIZE ->
  exists c', copy_to (blen pre + total_size es) (pre ++ body_bytes es ++ post) change c = Ok c' /\
    at_entry c' (blen pre + total_size es) (written ++ body_bytes (map (moved change) es))
      (foldl index_entry w (map (moved change) es)).
Proof.
  intros Ch Fe A B1 B2. unfold Cold.copy_to. apply copy_until_ok; try done.
  destruct A as [-> _ _ _ _]. pose proof (length_total_size es). lia.
Qed.

(** *** The cold list *)

(** A container cut at its cold chunks: runs of entries, each followed by a cold one,
    and a tail. *)
Definition segments : Type := list (list entry * entry).
Definition all_entries (segs : segments) (tail : list entry) : list entry :=
  concat (map (fun s => fst s ++ [snd s]) segs) ++ tail.
Definition cold_pair (e : entry) : Z * Z := (re_offset (e_recipe e), entry_size e).
Definition cold_size (segs : segments) : Z := foldr Z.add 0 (map (fun s => entry_size (snd s)) segs).

(** What is left, every recipe moved down by the cold chunks before it. *)
Fixpoint survivors (coldset : Z) (segs : segments) (tail : list entry) : list entry :=
  match segs with
  | [] => map (moved (shift_down coldset)) tail
  | (run, d) :: segs => map (moved (shift_down coldset)) run ++ survivors (coldset + entry_size d) segs tail
  end.

Lemma shift_down_ok coldset : change_ok (shift_down coldset).
Proof.
  intros r [? ? ? ? ? ?]. split; [|done]. constructor; try done. apply u32_range.
Qed.

Lemma laid_out_Forall off name es : laid_out off name es -> Forall entry_ok es.
Proof. revert off. induction es as [|e es IH]; intros off; [constructor|]. intros (? & _ & _ & L'). constructor; [done|by eapply IH]. Qed.

Lemma laid_out_shift off coldset name es :
  0 <= coldset <= off -> off + total_size es < 2 ^ 32 ->
  laid_out off name es -> laid_out (off - coldset) name (map (moved (shift_down coldset)) es).
Proof.
  revert off. induction es as [|e es IH]; intros off Hc Ho; [done|]. intros (Oe & Off & Nm & Le).
  change (total_size (e :: es)) with (entry_size e + total_size es) in Ho.
  pose proof (total_size_nonneg es). pose proof (entry_size_pos e).
  destruct (moved_ok (shift_down coldset) e (shift_down_ok coldset) Oe) as [Om Sm]. cbn [map laid_out].
  split; [done|]. split; [cbn; rewrite Off; unwrap; lia|]. split; [done|]. rewrite Sm.
  replace (off - coldset + entry_size e) with (off + entry_size e - coldset) by lia. apply IH; [lia|lia|done].
Qed.

Lemma survivors_laid_out segs : forall off coldset name tail,
  0 <= coldset <= off -> off + total_size (all_entries segs tail) < 2 ^ 32 ->
  laid_out off name (all_entries segs tail) -> laid_out (off - coldset) name (survivors coldset segs tail).
Proof.
  induction segs as [|[run d] segs IH]; intros off coldset name tail Hc Ho La.
  - by apply laid_out_shift.
  - unfold all_entries in La, Ho. cbn [map concat fst snd] in La, Ho. rewrite <- !app_assoc in La, Ho.
    rewrite !total_size_app in Ho. apply laid_out_app in La as [La Lb]. destruct Lb as (Od & Offd & Nd & Lb).
    pose proof (total_size_nonneg run). pose proof (entry_size_pos d).
    pose proof (total_size_nonneg (concat (map (fun s => fst s ++ [snd s]) segs))). pose proof (total_size_nonneg tail).
    change (total_size [d]) with (entry_size d + 0) in Ho.
    cbn [survivors]. apply laid_out_app. rewrite total_size_moved. split; [apply laid_out_shift; [lia|lia|done]|].
    replace (off - coldset + total_size run) with (off + total_size run + entry_size d - (coldset + entry_size d)) by lia.
    apply IH; [lia| |done]. unfold all_entries. rewrite total_size_app. lia.
Qed.

Lemma total_size_survivors segs : forall coldset tail,
  total_size (survivors coldset segs tail) = total_size (all_entries segs tail) - cold_size segs.
Proof.
  induction segs as [|[run d] segs IH]; intros coldset tail.
  - cbn [survivors]. rewrite total_size_moved. change (all_entries [] tail) with tail. change (cold_size []) with 0. lia.
  - cbn [survivors]. rewrite total_size_app, total_size_moved, IH. unfold all_entries, cold_size.
    cbn [map concat fst snd foldr]. rewrite !total_size_app. change (total_size [d]) with (entry_size d + 0). lia.
Qed.

Local Abbreviation skip_cold := (skip_cold cryptoObj_ indexQueryKey_).

Lemma skip_cold_ok segs : forall coldset pre name tail post c written w,
  laid_out (blen pre) name (all_entries segs tail) -> 0 <= coldset -> coldset + cold_size segs < 2 ^ 32 ->
  at_entry c (blen pre) written w ->
  blen pre + total_size (all_entries segs tail) <= MAX_CONTAINER_SIZE ->
  blen written + total_size (all_entries segs tail) <= MAX_CONTAINER_SIZE ->
  exists c' pre' written' w', skip_cold (map (fun s => cold_pair (snd s)) segs) coldset (pre ++ body_bytes (all_entries segs tail) ++ post) c =
      Ok (coldset + cold_size segs, c') /\
    pre ++ body_bytes (all_entries segs tail) = pre' ++ body_bytes tail /\ at_entry c' (blen pre') written' w' /\
    laid_out (blen pre') name tail /\ blen written' + total_size tail <= MAX_CONTAINER_SIZE /\
    written ++ body_bytes (survivors coldset segs tail) = written' ++ body_bytes (map (moved (shift_down (coldset + cold_size segs))) tail) /\
    foldl index_entry w (survivors coldset segs tail) = foldl index_entry w' (map (moved (shift_down (coldset + cold_size segs))) tail).
Proof.
  induction segs as [|[run d] segs IH]; intros coldset pre name tail post c written w La Hc Hs A B1 B2.
  - exists c, pre, written, w. unfold cold_size. cbn [map foldr]. rewrite Z.add_0_r. done.
  - unfold all_entries in La, B1, B2 |- *. cbn [map concat fst snd] in La, B1, B2 |- *. rewrite <- !app_assoc in La, B1, B2 |- *.
    rewrite !total_size_app in B1, B2. change (total_size [d]) with (entry_size d + 0) in B1, B2.
    apply laid_out_app in La as [La Lb]. destruct Lb as (Od & Offd & Nd & Lb).
    set (others := concat (map (fun s => fst s ++ [snd s]) segs) ++ tail).
    assert (To : total_size (concat (map (fun s => fst s ++ [snd s]) segs)) + total_size tail = total_size others)
      by (unfold others; by rewrite total_size_app).
    pose proof (total_size_nonneg run). pose proof (entry_size_pos d). pose proof (total_size_nonneg others).
    unfold cold_size in Hs. cbn [map foldr snd] in Hs. fold (cold_size segs) in Hs.
    rewrite !body_bytes_app. change (body_bytes [d]) with (entry_bytes d ++ []). rewrite app_nil_r.
    cbn [Cold.skip_cold cold_pair]. rewrite Offd.
    destruct (copy_to_ok (shift_down coldset) run pre (entry_bytes d ++ body_bytes others ++ post) c written w)
      as (c1 & E1 & A1); [apply shift_down_ok|by eapply laid_out_Forall|done|lia|lia|].
    replace (pre ++ (body_bytes run ++ entry_bytes d ++ body_bytes others) ++ post)
      with (pre ++ body_bytes run ++ entry_bytes d ++ body_bytes others ++ post) by (by rewrite <- !app_assoc).
    rewrite E1. cbn [rbind]. destruct A1 as [As An Aw Al Ax].
    set (pre1 := pre ++ body_bytes run ++ entry_bytes d).
    assert (Lp : blen pre1 = blen pre + total_size run + entry_size d).
    { unfold pre1. rewrite !blen_app, (body_bytes_size _ _ _ La), entry_bytes_size by done. lia. }
    pose proof (blen_nonneg pre). pose proof (blen_nonneg written).
    change MAX_CONTAINER_SIZE with 4194304 in *.
    pose proof (laid_out_Forall _ _ _ La) as Fr.
    assert (Sw : blen (written ++ body_bytes (map (moved (shift_down coldset)) run)) = blen written + total_size run).
    { rewrite blen_app, body_bytes_total by (apply moved_Forall; [apply shift_down_ok|done]).
      by rewrite total_size_moved. }
    assert (A2 : at_entry {| saveset := u32 (saveset c1 + entry_size d); newset := newset c1; new_container := new_container c1; cp_world := cp_world c1 |}
      (blen pre1) (written ++ body_bytes (map (moved (shift_down coldset)) run)) (foldl index_entry w (map (moved (shift_down coldset)) run))).
    { constructor; cbn; try done. rewrite As, Lp. unwrap. lia. }
    replace (u32 (coldset + entry_size d)) with (coldset + entry_size d).
    2: { assert (0 <= cold_size segs). { clear. unfold cold_size. induction segs as [|s segs IH]; cbn; [lia|]. pose proof (entry_size_pos (snd s)). lia. } unwrap. lia. }
    destruct (IH (coldset + entry_size d) pre1 name tail post _ _ _ ltac:(rewrite Lp; exact Lb) ltac:(lia) ltac:(lia) A2)
      as (c' & pre' & written' & w' & E' & Ep & A' & Lt & Bt & Ew & Ex).
    { rewrite Lp. change (all_entries segs tail) with others. change MAX_CONTAINER_SIZE with 4194304. lia. }
    { rewrite Sw. change (all_entries segs tail) with others. change MAX_CONTAINER_SIZE with 4194304. lia. }
    change (all_entries segs tail) with others in E', Ep. exists c', pre', written', w'.
    replace (coldset + cold_size ((run, d) :: segs)) with (coldset + entry_size d + cold_size segs) by (unfold cold_size; cbn; lia).
    cbn [survivors]. rewrite (body_bytes_app (map _ run)), foldl_app.
    split; [|split; [|split; [done|split; [done|split; [done|split; [|done]]]]]].
    + rewrite <- E'. f_equal. unfold pre1. by rewrite <- !app_assoc.
    + rewrite <- Ep. unfold pre1. by rewrite <- !app_assoc.
    + by rewrite app_assoc.
Qed.
End copying.

(** ** Cutting chunks out of a container *)

Definition cold_lt (x y : Z * Z) : Prop := fst x < fst y.

Lemma cold_pairs_sorted segs : forall off name tail,
  laid_out off name (all_entries segs tail) ->
  StronglySorted cold_lt (map (fun s => cold_pair (snd s)) segs) /\
  Forall (fun x => off <= fst x) (map (fun s => cold_pair (snd s)) segs).
Proof.
  induction segs as [|[run d] segs IH]; intros off name tail La; [split; constructor|].
  unfold all_entries in La. cbn [map concat fst snd] in La. rewrite <- !app_assoc in La.
  apply laid_out_app in La as [_ (_ & Od & _ & Lb)]. apply IH in Lb as [Sd Fd].
  pose proof (total_size_nonneg run). pose proof (entry_size_pos d). cbn [map snd]. split.
  - constructor; [done|]. eapply Forall_impl; [exact Fd|]. intros x Hx. unfold cold_lt, cold_pair. cbn in *. lia.
  - constructor; [cbn; lia|]. eapply Forall_impl; [exact Fd|]. cbn. intros; lia.
Qed.

Lemma sorted_fst_inj l x y : StronglySorted cold_lt l -> x ∈ l -> y ∈ l -> fst x = fst y -> x = y.
Proof.
  induction 1 as [|z l Sl IH Fl]; [by intros ?%elem_of_nil|]. rewrite Forall_forall in Fl.
  intros [->|Hx]%elem_of_cons [->|Hy]%elem_of_cons E; [done| | |by apply IH].
  - specialize (Fl y Hy). unfold cold_lt in Fl. lia.
  - specialize (Fl x Hx). unfold cold_lt in Fl. lia.
Qed.

#[export] Instance cold_le_trans : Transitive cold_le.
Proof. intros x y z. unfold cold_le, myCompare. intros; boolz. apply Z.ltb_ge. lia. Qed.
#[export] Instance cold_le_total : Total cold_le.
Proof. intros x y. unfold cold_le, myCompare. rewrite !Z.ltb_ge. lia. Qed.

(** The sort puts the cold chunks in the order of the container. *)
Lemma sort_cold_eq l k : StronglySorted cold_lt k -> l ≡ₚ k -> sort_cold l = k.
Proof.
  intros Sk P. unfold sort_cold. apply (StronglySorted_unique_strong cold_le).
  - intros x y Hx Hy H1 H2. rewrite merge_sort_Permutation, P in Hx.
    unfold cold_le, myCompare in *. boolz. apply (sorted_fst_inj k); (done || lia).
  - apply (StronglySorted_merge_sort cold_le).
  - clear P. induction Sk as [|x k Sk IH F]; constructor; [done|]. eapply Forall_impl; [exact F|].
    intros y. unfold cold_lt, cold_le, myCompare. intros. apply Z.ltb_ge. lia.
  - by rewrite merge_sort_Permutation.
Qed.

Section cold_container.
Context `{L : EVPLaws}.
Variables (cryptoObj_ : EcallCrypto) (indexQueryKey_ : bytes).

(** The index after the recipes of some entries were updated. *)
Definition index_entries (db : IndexStore) (es : list entry) : IndexStore :=
  foldl (fun db e => Insert db (e_fp e) (enc_recipe cryptoObj_ indexQueryKey_ (e_recipe e))) db es.

Lemma index_entry_fields w es :
  let w' := foldl (index_entry cryptoObj_ indexQueryKey_) w es in
  w_db w' = index_entries (w_db w) es /\ w_dirs w' = w_dirs w.
Proof. revert w. induction es as [|e es IH]; intros w; [done|]. cbn [foldl]. destruct (IH (index_entry cryptoObj_ indexQueryKey_ w e)) as [-> ->]. done. Qed.

Lemma index_entry_pairs w es :
  let w' := foldl (index_entry cryptoObj_ indexQueryKey_) w es in baseMergePair w' = baseMergePair w /\ jobDone w' = jobDone w.
Proof. revert w. induction es as [|e es IH]; intros w; [done|]. cbn [foldl]. by destruct (IH (index_entry cryptoObj_ indexQueryKey_ w e)) as [-> ->]. Qed.

(** Where a container is: in the delta directory (true) or in the base directory. *)
Definition stored (d : Directories) (delta : bool) (name body : bytes) : Prop :=
  if delta then delta_dir d !! name = Some body else delta_dir d !! name = None /\ base_dir d !! name = Some body.
Definition store_at (d : Directories) (delta : bool) (name body : bytes) : Directories :=
  if delta then {| base_dir := base_dir d; delta_dir := <[name := body]> (delta_dir d) |}
  else {| base_dir := <[name := body]> (base_dir d); delta_dir := delta_dir d |}.

Lemma cold_size_le segs tail : 0 <= cold_size segs <= total_size (all_entries segs tail).
Proof.
  pose proof (total_size_nonneg (survivors 0 segs tail)) as N. rewrite total_size_survivors in N. split; [|lia].
  clear. unfold cold_size. induction segs as [|s segs IH]; cbn; [lia|]. pose proof (entry_size_pos (snd s)). lia.
Qed.

Lemma Update_cold_container_run (w : World) (name : bytes) (delta : bool) (segs : segments) (tail : list entry)
    (cold_basechunk : list (Z * Z)) (buf : bytes) :
  blen name = CONTAINER_ID_LENGTH -> stored (w_dirs w) delta name (body_bytes (all_entries segs tail)) ->
  laid_out 0 name (all_entries segs tail) -> total_size (all_entries segs tail) <= MAX_CONTAINER_SIZE ->
  cold_basechunk ≡ₚ map (fun s => cold_pair (snd s)) segs ->
  exists w', Update_cold_container cryptoObj_ indexQueryKey_ w name cold_basechunk buf = Ok w' /\
    w_dirs w' = store_at (w_dirs w) delta name (body_bytes (survivors 0 segs tail)) /\
    w_db w' = index_entries (w_db w) (survivors 0 segs tail) /\
    laid_out 0 name (survivors 0 segs tail) /\ baseMergePair w' = baseMergePair w.
Proof.
  intros Nm St La Mx P. set (all := all_entries segs tail) in *. pose proof (total_size_nonneg all) as TN.
  pose proof (cold_size_le segs tail) as CS. fold all in CS.
  pose proof (body_bytes_size 0 name all La) as Sb. unfold Update_cold_container.
  assert (Sn : slice name 0 CONTAINER_ID_LENGTH = name) by (rewrite <- Nm; apply slice_full). rewrite Sn.
  set (w1 := set_world_buf w (write (tmpOcallcontainer w) 0 (body_bytes all)) (total_size all)).
  assert (Rd : Ocall_OneColdContainer w name = Ok (w1, delta)).
  { assert (R : read_file w (body_bytes all) = Ok w1) by (unfold read_file; rewrite (proj2 (Z.ltb_ge _ _)), Sb by lia; done).
    unfold Ocall_OneColdContainer. destruct delta; cbn in St; [by rewrite St, R|]. destruct St as [-> ->]. by rewrite R. }
  rewrite Rd. cbn [rbind]. destruct (cold_pairs_sorted segs 0 name tail La) as [Ss _].
  rewrite (sort_cold_eq _ _ Ss P).
  assert (B : tmpOcallcontainer w1 = [] ++ body_bytes all ++ drop (length (body_bytes all)) (tmpOcallcontainer w)) by reflexivity.
  rewrite B. change (containersize w1) with (total_size all).
  assert (A0 : at_entry {| saveset := 0; newset := 0; new_container := buf; cp_world := w1 |} (blen (@nil Z)) [] w1).
  { constructor; try done. apply blen_nonneg. }
  change MAX_CONTAINER_SIZE with 4194304 in *.
  assert (Bnd : 0 + cold_size segs < 2 ^ 32) by lia.
  assert (Bmx : 0 + total_size (all_entries segs tail) <= MAX_CONTAINER_SIZE) by (fold all; change MAX_CONTAINER_SIZE with 4194304; lia).
  destruct (skip_cold_ok cryptoObj_ indexQueryKey_ segs 0 [] name tail (drop (length (body_bytes all)) (tmpOcallcontainer w)) _ [] w1
    La (Z.le_refl 0) Bnd A0 Bmx Bmx) as (c & pre & written & w2 & E & Ep & A1 & Lt & Bt & Ew & Ex).
  fold all in E, Ep. rewrite E. cbn [rbind]. rewrite Z.add_0_l in Ew, Ex |- *.
  rewrite app_assoc, Ep, <- app_assoc. cbn [app] in Ep.
  pose proof (laid_out_Forall _ _ _ Lt) as Ft.
  assert (Tp : total_size all = blen pre + total_size tail) by (rewrite <- Sb, Ep, blen_app, body_bytes_total by done; lia).
  rewrite Tp. destruct (copy_to_ok cryptoObj_ indexQueryKey_ (shift_down (cold_size segs)) tail pre
    (drop (length (body_bytes all)) (tmpOcallcontainer w)) c written w2) as (c' & E2 & [_ An Aw _ Ac]);
    [apply shift_down_ok|done|done|change MAX_CONTAINER_SIZE with 4194304; lia|done|].
  rewrite E2. cbn [rbind]. rewrite <- Ew, app_nil_l in An, Aw. rewrite <- Ex in Ac.
  destruct (index_entry_fields w1 (survivors 0 segs tail)) as [Fd Fs].
  pose proof (survivors_laid_out segs 0 0 name tail (conj (Z.le_refl 0) (Z.le_refl 0)) ltac:(fold all; lia) La) as Ls.
  eexists. split; [reflexivity|]. cbn. rewrite Ac, Sn. destruct (index_entry_pairs w1 (survivors 0 segs tail)) as [Pb _].
  split; [|split; [done|split; [done|destruct delta; exact Pb]]].
  assert (Bd : slice (new_container c') 0 (u64 (blen pre + total_size tail - cold_size segs)) = body_bytes (survivors 0 segs tail)).
  { rewrite <- Tp. unwrap. unfold all. rewrite <- (total_size_survivors segs 0 tail), <- (body_bytes_size 0 name) by done. by rewrite <- An. }
  rewrite Bd, Fs. destruct delta; done.
Qed.

(** C13. [Update_cold_container] cuts exactly the chunks of its list out of a container:
    whatever the order of the list, the new file has the other entries in their order,
    each with its fingerprint, features, content and IV unchanged and a recipe that
    says where it is now; the index holds the encrypted new recipe of each of them; no
    other container changes. *)
Theorem Update_cold_container_ok (w : World) (name : bytes) (delta : bool) (segs : segments) (tail : list entry)
    (cold_basechunk : list (Z * Z)) (buf : bytes) :
  blen name = CONTAINER_ID_LENGTH -> stored (w_dirs w) delta name (body_bytes (all_entries segs tail)) ->
  laid_out 0 name (all_entries segs tail) -> total_size (all_entries segs tail) <= MAX_CONTAINER_SIZE ->
  cold_basechunk ≡ₚ map (fun s => cold_pair (snd s)) segs ->
  exists w', Update_cold_container cryptoObj_ indexQueryKey_ w name cold_basechunk buf = Ok w' /\
    w_dirs w' = store_at (w_dirs w) delta name (body_bytes (survivors 0 segs tail)) /\
    w_db w' = index_entries (w_db w) (survivors 0 segs tail) /\
    laid_out 0 name (survivors 0 segs tail).
Proof.
  intros Nm St La Mx P. destruct (Update_cold_container_run w name delta segs tail cold_basechunk buf Nm St La Mx P) as (w' & ? & ? & ? & ? & _).
  by exists w'.
Qed.
End cold_container.

Definition cold_world : World :=
  {| w_db := empty_store; w_dirs := {| base_dir := {[ some_name := body_bytes two_entries ]}; delta_dir := ∅ |};
     tmpOcallcontainer := []; containersize := 0; baseMergePair := []; jobDone := false; _offline_Ocall := 0 |}.

Lemma Update_cold_container_ok_witness :
  exists w', @Update_cold_container toy_evp (EcallCrypto_init AES_256_GCM SHA_256) [3] cold_world some_name [(0, 290)] [] = Ok w' /\
    base_dir (w_dirs w') !! some_name = Some (entry_bytes (moved (shift_down 290) (some_entry some_name 290 2 [9]))).
Proof.
  destruct (@Update_cold_container_ok toy_evp toy_laws (EcallCrypto_init AES_256_GCM SHA_256) [3] cold_world some_name false
    [([], some_entry some_name 0 1 [7; 8])] [some_entry some_name 290 2 [9]] [(0, 290)] []) as (w' & E & D & _).
  - reflexivity.
  - split; by_decide.
  - apply two_entries_ok.
  - by_decide.
  - done.
  - exists w'. split; [done|]. rewrite D. by_decide.
Defined.
