(* ===== verification/Merge.v ===== *)
(** The last step of the offline pass (ecallUtil/ecallOffline.cc, [MergeContainer], and
    its ocalls in ocallSrc/storeOCall.cc): small base containers are merged in pairs. *)
From Stdlib Require Import ZArith Lia.
From stdpp Require Import base list gmap sorting.
From S2P Require Import Prelude Types Util Database ReqContainers Container Crypto Cold.

(** ** Operations *)

(** The paths of a directory are sorted as strings; they share the directory and the
    suffix, so their order is that of the names. *)
Fixpoint lex_le (a b : bytes) : bool :=
  match a, b with
  | [], _ => true
  | _ :: _, [] => false
  | x :: a, y :: b => if x =? y then lex_le a b else x <? y
  end.
Definition name_le (a b : bytes) : Prop := lex_le a b = true.
#[export] Instance name_le_dec : RelDecision name_le.
Proof. intros x y. unfold name_le. apply _. Defined.

Definition file_size (d : Directories) (name : bytes) : Z := blen (default [] (base_dir d !! name)).

(** The loop of [Ocall_GetMergeContainer] over the sorted list: neighbours that fit
    together become a pair, and the second one is passed over. *)
Fixpoint merge_pairs (d : Directories) (l : list bytes) : list (bytes * bytes) :=
  match l with
  | a :: l =>
    match l with
    | b :: l' =>
      if u32 (file_size d a + file_size d b) <? MAX_CONTAINER_SIZE - 1 then (a, b) :: merge_pairs d l'
      else merge_pairs d l
    | [] => []
    end
  | [] => []
  end.

Definition found_pairs (d : Directories) : list (bytes * bytes) :=
  let baseContainerList_ := merge_sort name_le (elements (dom (base_dir d))) in
  merge_pairs d baseContainerList_.
Definition Ocall_GetMergeContainer (w : World) : World :=
  let pairs := baseMergePair w ++ found_pairs (w_dirs w) in
  set_world_pairs w pairs (match pairs with [] => true | _ => false end).

(** [Ocall_GetMergePair]: the name and size of the first container, and the second
    container in the merge buffer. *)
Definition Ocall_GetMergePair (w : World) (body containerID : bytes) (size : Z) : result (World * bytes * bytes * Z) :=
  match baseMergePair w with
  | (containerName1, containerName2) :: _ =>
    file <-- of_option ExitError (base_dir (w_dirs w) !! containerName2) ;;
    if MAX_CONTAINER_SIZE <? blen file then Err Undefined else
    Ok (set_world_buf w (tmpOcallcontainer w) (blen file), write body 0 file, containerName1, file_size (w_dirs w) containerName1)
  | [] => Ok (set_world_pairs w [] true, body, containerID, size)
  end.

(** [Ocall_MergeContent]: appends to the first file and removes the second. *)
Definition Ocall_MergeContent (w : World) (containerBody : bytes) (currentSize : Z) : result World :=
  match baseMergePair w with
  | (name1, name2) :: pairs =>
    let d := w_dirs w in
    let file := default [] (base_dir d !! name1) ++ slice containerBody 0 currentSize in
    Ok (set_world_pairs (set_world_dirs w {| base_dir := delete name2 (<[name1 := file]> (base_dir d)); delta_dir := delta_dir d |})
          pairs (jobDone w))
  | [] => Err Undefined
  end.

Definition Ocall_CleanMerge (w : World) : World := set_world_pairs w [] true.

Definition shift_up (firstContainerSize : Z) (containerID : bytes) (r : RecipeEntry_t) : RecipeEntry_t :=
  set_addr r (slice containerID 0 CONTAINER_ID_LENGTH) (u32 (re_offset r + firstContainerSize)) (re_length r) (re_superfeature r).

Section merge.
Context `{EVP}.
Variables (cryptoObj_ : EcallCrypto) (indexQueryKey_ : bytes).

(** The loop of [MergeContainer]; it takes one pair per turn.  The two offsets of the
    copying loop are the same here. *)
Fixpoint merge_loop (fuel : nat) (body containerBuffer containerID : bytes) (w : World) : result World :=
  if jobDone w then Ok w else
  match fuel with
  | O => Err Fuel
  | S fuel =>
    x <-- Ocall_GetMergePair w body containerID 0 ;;
    let '(w, body, containerID, firstContainerSize) := x in
    let w := ocall w in
    let secondContainerSize := containersize w in
    if jobDone w then Ok w else
    c <-- copy_to cryptoObj_ indexQueryKey_ secondContainerSize body (shift_up firstContainerSize containerID)
           {| saveset := 0; newset := 0; new_container := containerBuffer; cp_world := w |} ;;
    w <-- Ocall_MergeContent (cp_world c) (new_container c) secondContainerSize ;;
    merge_loop fuel body (new_container c) containerID (ocall w)
  end.

Definition MergeContainer (w : World) (body containerBuffer : bytes) : result World :=
  let w := ocall (Ocall_GetMergeContainer w) in
  w <-- merge_loop (S (length (baseMergePair w))) body containerBuffer [] w ;;
  Ok (ocall (Ocall_CleanMerge w)).
End merge.

(** ** Specification: containers as lists of entries *)

Definition merged (m : gmap bytes (list entry)) (p : bytes * bytes) : list entry :=
  map (moved (shift_up (total_size (default [] (m !! fst p))) (fst p))) (default [] (m !! snd p)).
Definition merge_one (m : gmap bytes (list entry)) (p : bytes * bytes) : gmap bytes (list entry) :=
  delete (snd p) (<[fst p := default [] (m !! fst p) ++ merged m p]> m).
(** All pairs: the containers, and the entries that moved. *)
Fixpoint merge_all (m : gmap bytes (list entry)) (pairs : list (bytes * bytes)) : gmap bytes (list entry) * list entry :=
  match pairs with
  | [] => (m, [])
  | p :: pairs => let r := merge_all (merge_one m p) pairs in (fst r, merged m p ++ snd r)
  end.

(** A directory of base containers whose entries are [m]. *)
Record disk_ok (d : Directories) (m : gmap bytes (list entry)) : Prop := {
  dok_bodies : base_dir d = body_bytes <$> m;
  dok_layout : map_Forall (fun name es => fixed 7 name /\ laid_out 0 name es /\ total_size es <= MAX_CONTAINER_SIZE) m
}.

Definition flat (pairs : list (bytes * bytes)) : list bytes := concat (map (fun p => [fst p; snd p]) pairs).

(** What the loop needs of its pairs. *)
Record pairs_ok (m : gmap bytes (list entry)) (pairs : list (bytes * bytes)) : Prop := {
  pok_nodup : NoDup (flat pairs);
  pok_fit : Forall (fun p => exists es1 es2, m !! fst p = Some es1 /\ m !! snd p = Some es2 /\
              total_size es1 + total_size es2 < MAX_CONTAINER_SIZE) pairs
}.

Lemma shift_up_ok first name : fixed 7 name -> change_ok (shift_up first name).
Proof.
  intros [Ln Bn] r [? ? ? ? ? ?]. split; [|done]. constructor; try done; [|apply u32_range].
  cbn. unfold CONTAINER_ID_LENGTH. split; [|by apply slice_bytes_ok].
  unfold slice. rewrite length_take, length_drop. lia.
Qed.

Lemma laid_out_up off first name name' es :
  fixed 7 name' -> 0 <= off -> 0 <= first -> off + total_size es + first < 2 ^ 32 -> laid_out off name es ->
  laid_out (off + first) name' (map (moved (shift_up first name')) es).
Proof.
  intros F. revert off. induction es as [|e es IH]; intros off H0 H1 H2; [done|]. intros (Oe & Off & Nm & Le).
  change (total_size (e :: es)) with (entry_size e + total_size es) in H2.
  pose proof (total_size_nonneg es). pose proof (entry_size_pos e).
  destruct (moved_ok (shift_up first name') e (shift_up_ok first name' F) Oe) as [Om Sm]. cbn [map laid_out].
  split; [done|]. split; [cbn; rewrite Off; unwrap; lia|]. split.
  - cbn. destruct F as [F _]. rewrite slice_0. apply take_ge. unfold CONTAINER_ID_LENGTH. lia.
  - rewrite Sm. replace (off + first + entry_size e) with (off + entry_size e + first) by lia. apply IH; [lia|lia|lia|done].
Qed.

Lemma merge_pairs_cons d a b l :
  merge_pairs d (a :: b :: l) =
  if u32 (file_size d a + file_size d b) <? MAX_CONTAINER_SIZE - 1 then (a, b) :: merge_pairs d l else merge_pairs d (b :: l).
Proof. reflexivity. Qed.

Lemma merge_pairs_sublist d l : sublist (flat (merge_pairs d l)) l.
Proof.
  induction l as [l IH] using (induction_ltof1 _ (@length bytes)); unfold ltof in IH.
  destruct l as [|a [|b l]]; [constructor|apply sublist_nil_l|]. rewrite merge_pairs_cons. case_if.
  - cbn. do 2 apply sublist_skip. apply IH. cbn. lia.
  - apply sublist_cons, IH. cbn. lia.
Qed.

Lemma merge_pairs_fit d l : Forall (fun p => u32 (file_size d (fst p) + file_size d (snd p)) < MAX_CONTAINER_SIZE - 1) (merge_pairs d l).
Proof.
  induction l as [l IH] using (induction_ltof1 _ (@length bytes)); unfold ltof in IH.
  destruct l as [|a [|b l]]; [constructor..|]. rewrite merge_pairs_cons. case_if.
  - constructor; [done|]. apply IH. cbn. lia.
  - apply IH. cbn. lia.
Qed.

(** The pairs the ocall finds on a good disk. *)
Lemma merge_pairs_ok d m : disk_ok d m -> pairs_ok m (found_pairs d).
Proof.
  intros [B La]. unfold found_pairs. set (names := merge_sort name_le _).
  assert (Pn : names ≡ₚ elements (dom (base_dir d))) by apply merge_sort_Permutation.
  pose proof (merge_pairs_sublist d names) as Sl.
  assert (Nd : NoDup names) by (rewrite Pn; apply NoDup_elements).
  constructor; [by eapply sublist_NoDup|]. pose proof (merge_pairs_fit d names) as Fit. rewrite !Forall_forall in *.
  intros [a b] Hp. specialize (Fit _ Hp). cbn [fst snd] in *.
  assert (In : forall x, x = a \/ x = b -> exists es, m !! x = Some es /\ file_size d x = total_size es /\ total_size es <= MAX_CONTAINER_SIZE).
  { intros x Hx. assert (Hn : x ∈ names).
    { eapply elem_of_submseteq; [|by apply sublist_submseteq]. unfold flat.
      apply list_elem_of_In, in_concat. exists [a; b]. split; [|destruct Hx as [->| ->]; cbn; auto].
      apply in_map_iff. exists (a, b). split; [done|]. by apply list_elem_of_In. }
    rewrite Pn, elem_of_elements, B, dom_fmap, elem_of_dom in Hn. destruct Hn as [es Hes]. exists es. split; [done|].
    destruct (La _ _ Hes) as (_ & L & M). split; [|done]. unfold file_size. rewrite B, lookup_fmap, Hes. cbn. by apply (body_bytes_size 0 x). }
  destruct (In a) as (es1 & E1 & S1 & M1); [by left|]. destruct (In b) as (es2 & E2 & S2 & M2); [by right|].
  exists es1, es2. split; [done|]. split; [done|]. rewrite S1, S2 in Fit.
  pose proof (total_size_nonneg es1). pose proof (total_size_nonneg es2). change MAX_CONTAINER_SIZE with 4194304 in *.
  unwrap_in Fit. lia.
Qed.

(** ** Correctness *)

Lemma merge_one_ok d m a b es1 es2 :
  disk_ok d m -> m !! a = Some es1 -> m !! b = Some es2 -> a <> b -> total_size es1 + total_size es2 < MAX_CONTAINER_SIZE ->
  disk_ok {| base_dir := delete b (<[a := body_bytes es1 ++ body_bytes (merged m (a, b))]> (base_dir d)); delta_dir := delta_dir d |}
    (merge_one m (a, b)).
Proof.
  intros [B La] Ea Eb N T. destruct (La _ _ Ea) as (Fa & L1 & M1). destruct (La _ _ Eb) as (Fb & L2 & M2).
  pose proof (total_size_nonneg es1). pose proof (total_size_nonneg es2). change MAX_CONTAINER_SIZE with 4194304 in *.
  constructor.
  - cbn. unfold merge_one. cbn [fst snd]. rewrite fmap_delete, fmap_insert, Ea, body_bytes_app, B. done.
  - unfold merge_one. cbn [fst snd]. apply map_Forall_delete, map_Forall_insert_2; [|done].
    unfold merged. cbn [fst snd]. rewrite Ea, Eb. cbn [default]. split; [done|]. split.
    + apply laid_out_app. split; [done|]. rewrite Z.add_0_l.
      apply (laid_out_up 0 (total_size es1) b a es2); [done|lia|lia|lia|done].
    + rewrite total_size_app, total_size_moved. change MAX_CONTAINER_SIZE with 4194304. unfold id. lia.
Qed.

Lemma pairs_ok_tail m a b pairs : pairs_ok m ((a, b) :: pairs) -> a <> b /\ pairs_ok (merge_one m (a, b)) pairs.
Proof.
  intros [N F]. change (flat ((a, b) :: pairs)) with (a :: b :: flat pairs) in N.
  apply NoDup_cons in N as [Na N]. apply NoDup_cons in N as [Nb N]. apply not_elem_of_cons in Na as [Nab Na].
  split; [done|]. constructor; [done|]. apply Forall_cons in F as [_ F]. rewrite Forall_forall in *.
  intros [x y] Hp. destruct (F _ Hp) as (es1 & es2 & E1 & E2 & T). exists es1, es2. cbn [fst snd] in *.
  assert (Hf : forall z, z = x \/ z = y -> z ∈ flat pairs).
  { intros z Hz. unfold flat. apply list_elem_of_In, in_concat. exists [x; y].
    split; [|destruct Hz as [->| ->]; cbn; auto]. apply in_map_iff. exists (x, y). split; [done|by apply list_elem_of_In]. }
  assert (Hn : forall z, z = x \/ z = y -> merge_one m (a, b) !! z = m !! z).
  { intros z Hz. specialize (Hf z Hz). unfold merge_one. cbn [fst snd].
    rewrite lookup_delete_ne, lookup_insert_ne; [done|by intros ->|by intros ->]. }
  rewrite !Hn by auto. done.
Qed.

Section merge_correct.
Context `{L : EVPLaws}.
Variables (cryptoObj_ : EcallCrypto) (indexQueryKey_ : bytes).
Local Abbreviation index_entries := (index_entries cryptoObj_ indexQueryKey_).

(** One pair: the ocall that fetches it, the copying loop, and the ocall that appends. *)
Lemma merge_step_ok m a b pairs w body buf cid :
  baseMergePair w = (a, b) :: pairs -> disk_ok (w_dirs w) m -> pairs_ok m ((a, b) :: pairs) ->
  exists w1 body' c w2, Ocall_GetMergePair w body cid 0 = Ok (w1, body', a, total_size (default [] (m !! a))) /\
    jobDone w1 = jobDone w /\
    copy_to cryptoObj_ indexQueryKey_ (containersize (ocall w1)) body' (shift_up (total_size (default [] (m !! a))) a)
      {| saveset := 0; newset := 0; new_container := buf; cp_world := ocall w1 |} = Ok c /\
    Ocall_MergeContent (cp_world c) (new_container c) (containersize (ocall w1)) = Ok w2 /\
    jobDone w2 = jobDone w /\ baseMergePair w2 = pairs /\ disk_ok (w_dirs w2) (merge_one m (a, b)) /\
    delta_dir (w_dirs w2) = delta_dir (w_dirs w) /\ w_db w2 = index_entries (w_db w) (merged m (a, b)).
Proof.
  intros Pw D P. destruct (pairs_ok_tail _ _ _ _ P) as [Nab _]. destruct P as [_ F].
  apply Forall_cons in F as [(es1 & es2 & E1 & E2 & T) _]. cbn [fst snd] in *.
  pose proof D as [B La]. destruct (La _ _ E1) as (F1 & L1 & M1). destruct (La _ _ E2) as (F2 & L2 & M2).
  pose proof (body_bytes_size 0 a es1 L1) as S1. pose proof (body_bytes_size 0 b es2 L2) as S2.
  unfold Ocall_GetMergePair. rewrite Pw. unfold file_size. rewrite B, !lookup_fmap, E1, E2. cbn [fmap option_fmap option_map of_option rbind default].
  rewrite (proj2 (Z.ltb_ge _ _)) by lia. unfold id. rewrite S1, S2.
  eexists _, _. set (w1 := set_world_buf w _ _).
  destruct (copy_to_ok cryptoObj_ indexQueryKey_ (shift_up (total_size es1) a) es2 [] (drop (length (body_bytes es2)) body)
    {| saveset := 0; newset := 0; new_container := buf; cp_world := ocall w1 |} [] (ocall w1)) as (c & E & [_ An Aw _ Ac]).
  { by apply shift_up_ok. } { by eapply laid_out_Forall. } { constructor; try done. apply blen_nonneg. } { done. } { done. }
  destruct (index_entry_fields cryptoObj_ indexQueryKey_ (ocall w1) (map (moved (shift_up (total_size es1) a)) es2)) as [Fd Fs].
  assert (Mg : merged m (a, b) = map (moved (shift_up (total_size es1) a)) es2) by (unfold merged; cbn [fst snd]; by rewrite E1, E2).
  destruct (index_entry_pairs cryptoObj_ indexQueryKey_ (ocall w1) (map (moved (shift_up (total_size es1) a)) es2)) as [Pb Pj].
  exists c. unfold Ocall_MergeContent. rewrite Ac, Pb. change (baseMergePair (ocall w1)) with (baseMergePair w). rewrite Pw.
  eexists. split; [reflexivity|]. split; [done|]. split; [exact E|]. split; [reflexivity|]. cbn [set_world_pairs set_world_dirs jobDone w_dirs w_db baseMergePair].
  split; [exact Pj|]. split; [done|]. rewrite Fs, Fd, Mg. cbn [base_dir delta_dir]. split; [|done].
  assert (W : slice (new_container c) 0 (containersize (ocall w1)) = body_bytes (merged m (a, b))).
  { rewrite Mg. cbn [app] in An, Aw. rewrite <- Aw at 1. f_equal. rewrite An. change (containersize (ocall w1)) with (total_size es2).
    rewrite body_bytes_total by (apply moved_Forall; [by apply shift_up_ok|by eapply laid_out_Forall]). by rewrite total_size_moved. }
  fold w1. rewrite W. change (w_dirs (ocall w1)) with (w_dirs w).
  replace (default [] (base_dir (w_dirs w) !! a)) with (body_bytes es1) by (by rewrite B, lookup_fmap, E1).
  apply (merge_one_ok (w_dirs w) m a b es1 es2); done.
Qed.

Lemma merge_loop_ok pairs : forall fuel m w body buf cid,
  jobDone w = false -> baseMergePair w = pairs -> disk_ok (w_dirs w) m -> pairs_ok m pairs -> (length pairs < fuel)%nat ->
  exists w', merge_loop cryptoObj_ indexQueryKey_ fuel body buf cid w = Ok w' /\ disk_ok (w_dirs w') (fst (merge_all m pairs)) /\
    delta_dir (w_dirs w') = delta_dir (w_dirs w) /\ w_db w' = index_entries (w_db w) (snd (merge_all m pairs)).
Proof.
  induction pairs as [|[a b] pairs IH]; intros fuel m w body buf cid J Pw D P Hf; (destruct fuel as [|fuel]; [cbn in Hf; lia|]);
    cbn [merge_loop]; rewrite J.
  - unfold Ocall_GetMergePair. rewrite Pw. cbn [rbind]. change (jobDone (ocall (set_world_pairs w [] true))) with true. cbn [set_world_pairs].
    eexists. split; [reflexivity|]. done.
  - destruct (merge_step_ok m a b pairs w body buf cid Pw D P) as (w1 & body' & c & w2 & G & J1 & E & Mc & J2 & P2 & D2 & Dd & Db).
    rewrite G. cbn [rbind]. change (jobDone (ocall w1)) with (jobDone w1). rewrite J1, J, E. cbn [rbind]. rewrite Mc. cbn [rbind].
    destruct (pairs_ok_tail _ _ _ _ P) as [_ P'].
    destruct (IH fuel (merge_one m (a, b)) (ocall w2) body' (new_container c) a) as (w' & E' & D' & Dd' & Db');
      [by rewrite <- J, <- J2|done|done|done|cbn in Hf; lia|].
    exists w'. split; [done|]. cbn [merge_all fst snd]. split; [done|]. split; [by rewrite Dd'|].
    rewrite Db'. change (w_db (ocall w2)) with (w_db w2). rewrite Db. unfold Cold.index_entries. by rewrite <- foldl_app.
Qed.

Lemma MergeContainer_run (w : World) (m : gmap bytes (list entry)) (body containerBuffer : bytes) :
  disk_ok (w_dirs w) m -> baseMergePair w = [] ->
  exists w', MergeContainer cryptoObj_ indexQueryKey_ w body containerBuffer = Ok w' /\
    pairs_ok m (found_pairs (w_dirs w)) /\ disk_ok (w_dirs w') (fst (merge_all m (found_pairs (w_dirs w)))) /\
    w_db w' = index_entries (w_db w) (snd (merge_all m (found_pairs (w_dirs w)))) /\
    delta_dir (w_dirs w') = delta_dir (w_dirs w) /\ jobDone w' = true /\ baseMergePair w' = [].
Proof.
  intros D Pw. pose proof (merge_pairs_ok _ _ D) as P. unfold MergeContainer, Ocall_GetMergeContainer. rewrite Pw. cbn [app].
  set (pairs := found_pairs (w_dirs w)) in *. destruct pairs as [|p pairs'] eqn:Ep.
  - cbn. eexists. split; [reflexivity|]. done.
  - rewrite <- Ep in *. destruct (merge_loop_ok pairs (S (length pairs)) m (ocall (set_world_pairs w pairs false)) body containerBuffer [])
      as (w' & E & D' & Dd & Db); [done|done|done|done|lia|].
    change (baseMergePair (ocall (set_world_pairs w pairs false))) with pairs. rewrite E. cbn [rbind].
    eexists. split; [reflexivity|]. done.
Qed.

(** C15. [MergeContainer] ends and merges the pairs it found: on a disk of well-formed
    base containers every second container of a pair is appended to the first, with
    recipes that name the first container and the new position, and removed; the
    result is again a disk of well-formed containers within the size limit, no entry
    is lost, the index holds the new recipe of every entry that moved, and the delta
    containers are untouched. *)
Theorem MergeContainer_ok (w : World) (m : gmap bytes (list entry)) (body containerBuffer : bytes) :
  disk_ok (w_dirs w) m -> baseMergePair w = [] ->
  exists w', MergeContainer cryptoObj_ indexQueryKey_ w body containerBuffer = Ok w' /\
    pairs_ok m (found_pairs (w_dirs w)) /\ disk_ok (w_dirs w') (fst (merge_all m (found_pairs (w_dirs w)))) /\
    w_db w' = index_entries (w_db w) (snd (merge_all m (found_pairs (w_dirs w)))) /\
    delta_dir (w_dirs w') = delta_dir (w_dirs w) /\ jobDone w' = true.
Proof.
  intros D Pw. destruct (MergeContainer_run w m body containerBuffer D Pw) as (w' & E & P & D' & Db & Dd & J & _). by exists w'.
Qed.
End merge_correct.

Definition other_name : bytes := replicate 7 49.
Definition small_disk : gmap bytes (list entry) :=
  {[ some_name := two_entries; other_name := [some_entry other_name 0 3 [5; 6; 7]] ]}.
Definition merge_world : World :=
  set_world_dirs cold_world {| base_dir := body_bytes <$> small_disk; delta_dir := ∅ |}.
Lemma small_disk_ok : disk_ok (w_dirs merge_world) small_disk.
Proof.
  constructor; [done|]. unfold small_disk. apply map_Forall_insert_2; [|apply map_Forall_singleton].
  - split; [by_decide|]. split; [apply two_entries_ok|by_decide].
  - split; [by_decide|]. split; [|by_decide]. split; [apply some_entry_ok; by_decide|]. done.
Qed.

Lemma MergeContainer_ok_witness :
  exists w', @MergeContainer toy_evp (EcallCrypto_init AES_256_GCM SHA_256) [3] merge_world [] [] = Ok w' /\
    base_dir (w_dirs w') = body_bytes <$> {[ some_name := two_entries ++ merged small_disk (some_name, other_name) ]}.
Proof.
  destruct (@MergeContainer_ok toy_evp toy_laws (EcallCrypto_init AES_256_GCM SHA_256) [3] merge_world small_disk [] []
    small_disk_ok eq_refl) as (w' & E & _ & D & _).
  exists w'. split; [done|]. rewrite (dok_bodies _ _ D). by_decide.
Defined.
