(* ===== verification/Restore.v ===== *)
(** The restore (ecallStore/ecallRecvDecoder.cc, the restore ocalls of
    ocallSrc/storeOCall.cc, the session loop of Server/enclaveRecvDecoder.cc): a file
    recipe is read in batches, its entries are resolved to containers, the containers
    are fetched when enough of them are needed, and the chunks are decrypted,
    decompressed, rebuilt from their base and sent. *)
From Stdlib Require Import ZArith Lia.
From stdpp Require Import base list gmap.
From S2P Require Import Prelude Types EDelta Codec ContainerCache ReqContainers Database Crypto.

(** ** The interface of LZ4 *)

(** [LZ4_decompress_safe src dst (|src|) capacity]: what it wrote, [None] when its
    result is negative; [LZ4_compress_fast src dst (|src|) capacity 3]: what it wrote,
    [None] when its result is not positive.  Nothing is assumed of them here: the
    restore gives whatever chunk the first one decodes. *)
Class LZ4 := {
  LZ4_decompress_safe : bytes -> Z -> option bytes;
  LZ4_compress_fast : bytes -> Z -> option bytes
}.

(** ** Data *)

Definition sizeof_Chunk : Z := 4 + MAX_CHUNK_SIZE.
Definition header_size : Z := sizeof_RecipeEntry + 4 * CHUNK_HASH_SIZE.
Definition QUERY_NUM : Z := 5.
Definition CONTAINERARRAY_VALUE : Z := 50.

(** What the restore finds and does not change: the keys and parameters of the enclave
    and the session, the containers on disk and the fingerprint index. *)
Record Setting := {
  cryptoObj_ : EcallCrypto;
  indexQueryKey_ : bytes;
  enclaveKey_ : bytes;
  _masterKey : bytes;
  _sessionKey : bytes;
  sendChunkBatchSize_ : Z;
  sendRecipeBatchSize_ : Z;
  containers : Directories;
  indexStoreObj_ : IndexStore
}.

(** The fields of [OutQueryEntry_t] that the restore uses; the address is encrypted. *)
Record BaseQuery := mk_query { bq_chunkHash : bytes; bq_chunkAddr : bytes }.

(** [EnclaveRecipeEntry_t]; its base hash is written and never read. *)
Record EnclaveRecipeEntry := mk_entry {
  er_containerID : Z; er_offset : Z; er_length : Z; er_deltaFlag : Z
}.

(** [tmpContainerMap] (local to a call) and the identifiers of [ReqContainer_t]. *)
Record Ids := mk_ids { tmpContainerMap : gmap bytes Z; idBuffer : bytes; idNum : Z }.

Inductive message_type := SERVER_RESTORE_CHUNK | SERVER_RESTORE_FINAL.
Record Message := mk_message { m_type : message_type; m_currentItemNum : Z; m_data : bytes }.

Record Restore := mk_restore {
  outQueryBase : list BaseQuery;
  queryNum : Z;
  ids : Ids;
  reqState : ReqState;
  _enclaveRecipeBuffer : list EnclaveRecipeEntry;
  _baseRecipeBuffer : list EnclaveRecipeEntry;
  dataBuffer : bytes;               (* the first header->dataSize bytes *)
  currentItemNum : Z;
  sent : list Message
}.

Section restore.
Context `{EVP} `{LZ4}.
Variable env : Setting.

(** ** The operations on the state's parts *)

Definition with_queries (s : Restore) (q : list BaseQuery) (n : Z) : Restore :=
  mk_restore q n (ids s) (reqState s) (_enclaveRecipeBuffer s) (_baseRecipeBuffer s) (dataBuffer s) (currentItemNum s) (sent s).
Definition with_ids (s : Restore) (i : Ids) : Restore :=
  mk_restore (outQueryBase s) (queryNum s) i (reqState s) (_enclaveRecipeBuffer s) (_baseRecipeBuffer s) (dataBuffer s) (currentItemNum s) (sent s).
Definition with_req (s : Restore) (r : ReqState) : Restore :=
  mk_restore (outQueryBase s) (queryNum s) (ids s) r (_enclaveRecipeBuffer s) (_baseRecipeBuffer s) (dataBuffer s) (currentItemNum s) (sent s).
Definition with_entries (s : Restore) (e b : list EnclaveRecipeEntry) : Restore :=
  mk_restore (outQueryBase s) (queryNum s) (ids s) (reqState s) e b (dataBuffer s) (currentItemNum s) (sent s).
Definition with_out (s : Restore) (d : bytes) (n : Z) (m : list Message) : Restore :=
  mk_restore (outQueryBase s) (queryNum s) (ids s) (reqState s) (_enclaveRecipeBuffer s) (_baseRecipeBuffer s) d n m.

(** The number a container has in this round: the known one, or the next, whose name
    goes to [idBuffer]. *)
Definition find_container (name : bytes) (i : Ids) : result (Ids * Z) :=
  match tmpContainerMap i !! name with
  | Some id => Ok (i, id)
  | None =>
    if blen (idBuffer i) <? (idNum i + 1) * CONTAINER_ID_LENGTH then Err Undefined else
    Ok ({| tmpContainerMap := <[name := idNum i]> (tmpContainerMap i);
           idBuffer := write (idBuffer i) (idNum i * CONTAINER_ID_LENGTH) name;
           idNum := idNum i + 1 |}, idNum i)
  end.

(** [Ocall_QueryBaseIndex]: a hash that is not found leaves its entry as it was. *)
Definition query_base (e : BaseQuery) : result BaseQuery :=
  match QueryBuffer (indexStoreObj_ env) (bq_chunkHash e) CHUNK_HASH_SIZE with
  | Some v => if blen v <? sizeof_RecipeEntry then Err Undefined
              else Ok (mk_query (bq_chunkHash e) (slice v 0 sizeof_RecipeEntry))
  | None => Ok e
  end.
Fixpoint Ocall_QueryBaseIndex (n : nat) (q : list BaseQuery) : result (list BaseQuery) :=
  match n, q with
  | O, _ => Ok q
  | S _, [] => Err Undefined
  | S n, e :: q => e <-- query_base e ;; q <-- Ocall_QueryBaseIndex n q ;; Ok (e :: q)
  end.

(** Decrypting the addresses of the bases and giving their containers a number; the
    first result has the addresses decrypted in place. *)
Fixpoint resolve_bases (n : nat) (q : list BaseQuery) (i : Ids)
    : result (list BaseQuery * Ids * list EnclaveRecipeEntry) :=
  match n, q with
  | O, _ => Ok (q, i, [])
  | S _, [] => Err Undefined
  | S n, e :: q =>
    addr <-- AESCBCDec (cryptoObj_ env) (bq_chunkAddr e) (indexQueryKey_ env) ;;
    let r := recipe_get addr in
    x <-- find_container (re_containerName r) i ;;
    let '(i, id) := x in
    y <-- resolve_bases n q i ;;
    let '(q, i, bases) := y in
    Ok (mk_query (bq_chunkHash e) addr :: q, i, mk_entry id (re_offset r) (re_length r) (re_deltaFlag r) :: bases)
  end.

(** The pending queries become entries of [_baseRecipeBuffer]. *)
Definition flush_queries (s : Restore) : result Restore :=
  q <-- Ocall_QueryBaseIndex (Z.to_nat (queryNum s)) (outQueryBase s) ;;
  x <-- resolve_bases (Z.to_nat (queryNum s)) q (ids s) ;;
  let '(_, i, bases) := x in
  Ok (with_entries (with_ids (with_queries s q 0) i) (_enclaveRecipeBuffer s) (_baseRecipeBuffer s ++ bases)).

(** A new query; [baseQueryEntry] always points behind the last one. *)
Definition add_query (s : Restore) (hash : bytes) : result Restore :=
  e <-- of_option Undefined (outQueryBase s !! Z.to_nat (queryNum s)) ;;
  Ok (with_queries s (<[Z.to_nat (queryNum s) := mk_query hash (bq_chunkAddr e)]> (outQueryBase s)) (queryNum s + 1)).

(** One entry of the file recipe, up to its place in [_enclaveRecipeBuffer]. *)
Definition take_recipe (tmpEncValue : bytes) (s : Restore) : result Restore :=
  tmpDecValue <-- AESCBCDec (cryptoObj_ env) tmpEncValue (indexQueryKey_ env) ;;
  let r := recipe_get tmpDecValue in
  s <-- (if re_deltaFlag r =? DELTA then
           if queryNum s <? QUERY_NUM then add_query s (re_basechunkHash r)
           else if queryNum s =? QUERY_NUM then s <-- flush_queries s ;; add_query s (re_basechunkHash r)
           else Ok s
         else Ok s) ;;
  x <-- find_container (re_containerName r) (ids s) ;;
  let '(i, id) := x in
  Ok (with_entries (with_ids s i)
        (_enclaveRecipeBuffer s ++ [mk_entry id (re_offset r) (re_length r) (re_deltaFlag r)]) (_baseRecipeBuffer s)).

(** ** Producing chunks *)

Definition in_bounds (buf : bytes) (off n : Z) : bool := (0 <=? off) && (0 <=? n) && (off + n <=? blen buf).

(** A chunk in a container buffer, decrypted with the IV behind it. *)
Definition read_chunk (buf : bytes) (offset chunkSize : Z) : result bytes :=
  let chunkBuffer := offset + header_size in
  if in_bounds buf chunkBuffer chunkSize && in_bounds buf (chunkBuffer + chunkSize) CRYPTO_BLOCK_SIZE then
    let iv := slice buf (chunkBuffer + chunkSize) CRYPTO_BLOCK_SIZE in
    if MAX_CHUNK_SIZE <? chunkSize then Err Undefined else
    DecryptionWithKeyIV (cryptoObj_ env) (slice buf chunkBuffer chunkSize) (enclaveKey_ env) iv
  else Err Undefined.
Definition entry_chunk (s : Restore) (e : EnclaveRecipeEntry) : result bytes :=
  buf <-- of_option Undefined (containerArray (reqState s) !! Z.to_nat (er_containerID e)) ;;
  read_chunk buf (er_offset e) (er_length e).

(** Decompression is tried on every chunk; a chunk it rejects is taken as it is. *)
Definition decompress (chunk : bytes) : bytes :=
  match LZ4_decompress_safe chunk MAX_CHUNK_SIZE with
  | Some d => if 0 <? blen d then d else chunk
  | None => chunk
  end.

(** A frame of the output: its size on 4 bytes and its content. *)
Definition frame (chunk : bytes) : bytes := le_bytes 4 (blen chunk) ++ chunk.
Definition emit (chunk : bytes) (s : Restore) : result Restore :=
  if sendChunkBatchSize_ env * sizeof_Chunk <? blen (dataBuffer s) + 4 + blen chunk then Err Undefined else
  Ok (with_out s (dataBuffer s ++ frame chunk) (u32 (currentItemNum s + 1)) (sent s)).

Definition RecoverOneChunk (e : EnclaveRecipeEntry) (s : Restore) : result Restore :=
  chunk <-- entry_chunk s e ;;
  emit (decompress chunk) s.
Definition restore_delta (e b : EnclaveRecipeEntry) (s : Restore) : result Restore :=
  delta <-- entry_chunk s e ;;
  base <-- entry_chunk s b ;;
  recchunk <-- EcallRecvDecoder.ed3_decode delta (er_length e) (decompress base) (blen (decompress base)) ;;
  emit recchunk s.

(** [SessionKeyEnc] and [Ocall_SendRestoreData]. *)
Definition send (t : message_type) (s : Restore) : result Restore :=
  d <-- SessionKeyEnc (cryptoObj_ env) (dataBuffer s) (_sessionKey env) ;;
  Ok (with_out s [] 0 (sent s ++ [mk_message t (currentItemNum s) d])).

(** The loop over [_enclaveRecipeBuffer]; [bases] are the entries from [bidx] on.  In
    the tail batch the last chunk is sent at once. *)
Fixpoint restore_chunks (tail : bool) (rest bases : list EnclaveRecipeEntry) (s : Restore) : result Restore :=
  match rest with
  | [] => Ok s
  | e :: rest =>
    x <-- (if er_deltaFlag e =? DELTA then
             match bases with
             | [] => Err Undefined
             | b :: bases => s <-- restore_delta e b s ;; Ok (s, bases)
             end
           else s <-- RecoverOneChunk e s ;; Ok (s, bases)) ;;
    let '(s, bases) := x in
    let endFlag := match rest with [] => tail | _ => false end in
    s <-- (if (currentItemNum s mod sendChunkBatchSize_ env =? 0) || endFlag
           then send (if endFlag then SERVER_RESTORE_FINAL else SERVER_RESTORE_CHUNK) s else Ok s) ;;
    restore_chunks tail rest bases s
  end.

Definition fetch_and_restore (tail : bool) (s : Restore) : result Restore :=
  req <-- GetReqContainers (containers env) (idBuffer (ids s)) (idNum (ids s)) (reqState s) ;;
  restore_chunks tail (_enclaveRecipeBuffer s) (_baseRecipeBuffer s) (with_req s req).

(** The end of a turn of [ProcRecipeBatch]: when the containers and the pending bases
    reach the cap, everything that is pending is restored.  ([Ocall_FreeContainer]
    runs with no query pending, so it frees nothing.) *)
Definition judge_capping (s : Restore) : result Restore :=
  if CONTAINER_CAPPING_VALUE <=? idNum (ids s) + queryNum s then
    s <-- (if queryNum s =? 0 then Ok s else flush_queries s) ;;
    s <-- fetch_and_restore false s ;;
    Ok (with_entries (with_ids (with_queries s (outQueryBase s) 0) (mk_ids ∅ (idBuffer (ids s)) 0)) [] [])
  else Ok s.

(** ** The batch and the tail *)

Fixpoint crypt_hashes (recipeNum : nat) (fps : bytes) : result bytes :=
  match recipeNum with
  | O => Ok []
  | S n =>
    k <-- IndexAESCMCEnc (cryptoObj_ env) (slice fps 0 CHUNK_HASH_SIZE) (indexQueryKey_ env) ;;
    rest <-- crypt_hashes n (drop (Z.to_nat CHUNK_HASH_SIZE) fps) ;;
    Ok (k ++ rest)
  end.

(** The string [value] lives across the turns: a key that is not found repeats the
    value of the key before it. *)
Fixpoint Ocall_ReadIndexStoreBatch (recipeNum : nat) (key value : bytes) : bytes :=
  match recipeNum with
  | O => []
  | S n =>
    let value := take (Z.to_nat sizeof_RecipeEntry) (value ++ replicate (Z.to_nat sizeof_RecipeEntry) 0) in
    let value := default value (QueryBuffer (indexStoreObj_ env) key CHUNK_HASH_SIZE) in
    value ++ Ocall_ReadIndexStoreBatch n (drop (Z.to_nat CHUNK_HASH_SIZE) key) value
  end.

Definition clear_map (s : Restore) : Restore := with_ids s (mk_ids ∅ (idBuffer (ids s)) (idNum (ids s))).

Definition ProcRecipeBatch (recipeBuffer : bytes) (recipeNum : Z) (s : Restore) : result Restore :=
  let s := clear_map s in
  fps <-- DecryptWithKey (cryptoObj_ env) (slice recipeBuffer 0 (recipeNum * CHUNK_HASH_SIZE)) (_masterKey env) ;;
  tmpCryptChunkHash <-- crypt_hashes (Z.to_nat recipeNum) fps ;;
  let fileRecipes := Ocall_ReadIndexStoreBatch (Z.to_nat recipeNum) tmpCryptChunkHash [] in
  forM (Z.to_nat recipeNum) 0 (fun i s =>
    if blen fileRecipes <? (i + 1) * sizeof_RecipeEntry then Err Undefined else
    s <-- take_recipe (slice fileRecipes (i * sizeof_RecipeEntry) sizeof_RecipeEntry) s ;;
    judge_capping s) s.

Definition ProcRecipeTailBatch (s : Restore) : result Restore :=
  let s := clear_map s in
  match _enclaveRecipeBuffer s with
  | [] => send SERVER_RESTORE_FINAL s
  | _ =>
    q <-- (if queryNum s =? 0 then Ok (outQueryBase s)
           else Ocall_QueryBaseIndex (Z.to_nat (queryNum s)) (outQueryBase s)) ;;
    x <-- resolve_bases (Z.to_nat (queryNum s)) q (ids s) ;;
    let '(q, i, bases) := x in
    fetch_and_restore true
      (with_entries (with_ids (with_queries s q 0) i) (_enclaveRecipeBuffer s) (_baseRecipeBuffer s ++ bases))
  end.

(** [EnclaveRecvDecoder::Run]: the file recipe in reads of a batch; a read that comes
    back short sets the end of file. *)
Fixpoint Run (fuel : nat) (recipe : bytes) (s : Restore) : result Restore :=
  match fuel with
  | O => Err Fuel
  | S fuel =>
    let want := CHUNK_HASH_SIZE * sendRecipeBatchSize_ env in
    let readRecipeBuf := slice recipe 0 want in
    let readCnt := blen readRecipeBuf in
    if readCnt =? 0 then ProcRecipeTailBatch s else
    s <-- ProcRecipeBatch readRecipeBuf (readCnt / CHUNK_HASH_SIZE) s ;;
    if readCnt <? want then ProcRecipeTailBatch s
    else Run fuel (drop (Z.to_nat want) recipe) s
  end.

(** The buffers of a new session ([InitRestoreBuffer] of [ClientVar] and of
    [EnclaveClient]), with room for [slots] container identifiers.  A container buffer,
    which nothing initialises, is empty until a container is copied into it. *)
Definition session (slots : Z) (poolSize : nat) : Restore :=
  mk_restore (replicate (Z.to_nat QUERY_NUM) (mk_query [] [])) 0
    (mk_ids ∅ (replicate (Z.to_nat (slots * CONTAINER_ID_LENGTH)) 0) 0)
    {| rq_cache := ReadCache_init poolSize; containerArray := replicate (Z.to_nat CONTAINERARRAY_VALUE) [];
       counter := 0; readFromContainerFileNum_ := 0 |}
    [] [] [] 0 [].
Definition InitRestoreBuffer (poolSize : nat) : Restore := session CONTAINER_CAPPING_VALUE poolSize.
End restore.
