(* ===== verification/RestoreIds.v ===== *)
(** How many containers a restore numbers: what the tables of a restore hold, seen only
    through the names of the containers that its chunks and their bases lie in, and
    whether they ever outgrow the buffer for identifiers. *)
From Stdlib Require Import ZArith Lia.
From stdpp Require Import base list gmap.
From S2P Require Import Prelude Types ContainerCache ReqContainers Restore.

(** The recipe entry of a chunk, and the one of its base if it is a delta chunk. *)
Abbreviation item := (RecipeEntry_t * option RecipeEntry_t)%type.

(** The containers that have a number since the map was last cleared, how many numbers
    are given, and the containers of the bases that still wait for one. *)
Record Round := mk_round { known : gset bytes; given : Z; waits : list bytes }.

Definition new_id (r : Round) (name : bytes) : Round :=
  if bool_decide (name ∈ known r) then r else mk_round ({[name]} ∪ known r) (given r + 1) (waits r).
Definition new_ids (r : Round) (names : list bytes) : Round := foldl new_id r names.
(** All that wait get a number. *)
Definition resolve (r : Round) : Round :=
  let r' := new_ids r (waits r) in mk_round (known r') (given r') [].
(** One more waits; a full queue is resolved first. *)
Definition ask (r : Round) (name : bytes) : Round :=
  let r := if blen (waits r) <? QUERY_NUM then r else resolve r in
  mk_round (known r) (given r) (waits r ++ [name]).
Definition enter (r : Round) (it : item) : Round :=
  let r := match snd it with Some b => ask r (re_containerName b) | None => r end in
  new_id r (re_containerName (fst it)).
Definition new_round : Round := mk_round ∅ 0 [].
(** At the cap the round ends; nothing is left when that takes more than [slots]. *)
Definition settle (slots : Z) (r : Round) : option Round :=
  if CONTAINER_CAPPING_VALUE <=? given r + blen (waits r) then
    if slots <? given (resolve r) then None else Some new_round
  else Some r.
(** A new batch: the map is cleared, the numbers stay. *)
Definition forget (r : Round) : Round := mk_round ∅ (given r) (waits r).

(** A batch, and a file from its [k]-th chunk on, in batches of [B]. *)
Fixpoint turns (slots : Z) (its : list item) (r : Round) : option Round :=
  match its with
  | [] => Some r
  | it :: its => match settle slots (enter r it) with Some r => turns slots its r | None => None end
  end.
Fixpoint fit (slots B k : Z) (its : list item) (r : Round) : bool :=
  match its with
  | [] => true
  | it :: its =>
    match settle slots (enter (if k mod B =? 0 then forget r else r) it) with
    | Some r => fit slots B (k + 1) its r
    | None => false
    end
  end.

(** ** The numbers stay low *)

Lemma new_id_given r name : given r <= given (new_id r name) <= given r + 1.
Proof. unfold new_id. case_bool_decide; cbn; lia. Qed.
Lemma new_id_waits r name : waits (new_id r name) = waits r.
Proof. unfold new_id. by case_bool_decide. Qed.
Lemma new_ids_given names r : given r <= given (new_ids r names) <= given r + blen names.
Proof.
  revert r. induction names as [|n names IH]; intros r; cbn; [rewrite blen_nil; lia|].
  pose proof (new_id_given r n). specialize (IH (new_id r n)). unfold new_ids in IH. rewrite blen_cons. lia.
Qed.
Lemma resolve_given r : given r <= given (resolve r) <= given r + blen (waits r).
Proof. apply new_ids_given. Qed.

(** Between two chunks the round is below the cap, and no more than a queue waits. *)
Record low (r : Round) : Prop := {
  lo_given : 0 <= given r;
  lo_cap : given r + blen (waits r) < CONTAINER_CAPPING_VALUE;
  lo_waits : blen (waits r) <= QUERY_NUM
}.
(** Numbers a chunk can bring a round to: a delta chunk can bring a base container too. *)
Definition reach (it : item) : Z := match snd it with Some _ => 17 | None => 16 end.

Lemma ask_low r name : low r -> 0 <= given (ask r name) /\ given (ask r name) + blen (waits (ask r name)) <= 16 /\
  1 <= blen (waits (ask r name)) <= QUERY_NUM.
Proof.
  intros [G C W]. unfold ask, QUERY_NUM, CONTAINER_CAPPING_VALUE in *. pose proof (resolve_given r). pose proof (blen_nonneg (waits r)).
  case_if; boolz; cbn [given waits]; rewrite blen_app; change (blen [name]) with 1; [lia|]. change (waits (resolve r)) with (@nil bytes). change (blen (@nil bytes)) with 0. lia.
Qed.
Lemma enter_low r it : low r -> 0 <= given (enter r it) <= 16 /\ blen (waits (enter r it)) <= QUERY_NUM /\
  given (enter r it) + blen (waits (enter r it)) <= reach it.
Proof.
  intros L. unfold enter, reach. destruct (snd it) as [b|].
  - destruct (ask_low r (re_containerName b) L) as (? & ? & ?). rewrite new_id_waits.
    pose proof (new_id_given (ask r (re_containerName b)) (re_containerName (fst it))). lia.
  - rewrite new_id_waits. destruct L as [G C W]. unfold CONTAINER_CAPPING_VALUE in C.
    pose proof (new_id_given r (re_containerName (fst it))). pose proof (blen_nonneg (waits r)). lia.
Qed.
Lemma new_round_low : low new_round.
Proof. by split. Qed.
Lemma forget_low r : low r -> low (forget r).
Proof. by intros []. Qed.
Lemma settle_low slots r it r' : low r -> settle slots (enter r it) = Some r' -> low r'.
Proof.
  intros L. destruct (enter_low r it L) as (? & ? & ?). unfold settle. case_if.
  - case_if; [done|]. intros [= <-]. apply new_round_low.
  - intros [= <-]. boolz. split; [lia..|done].
Qed.

(** ** When the numbers fit *)

Lemma fit_batch slots B its more k r :
  0 < B -> k mod B = 0 -> blen its <= B ->
  fit slots B k (its ++ more) r =
    match its with [] => fit slots B k more r
    | _ => match turns slots its (forget r) with Some r => fit slots B (k + blen its) more r | None => false end end.
Proof.
  intros HB Hk HL. destruct its as [|it its]; [done|]. cbn [fit app turns]. rewrite Hk. cbn [Z.eqb].
  destruct (settle slots (enter (forget r) it)) as [r1|]; [|done]. rewrite blen_cons in *.
  assert (G : forall its i r, 0 < i -> i + blen its <= B ->
    fit slots B (k + i) (its ++ more) r = match turns slots its r with Some r => fit slots B (k + i + blen its) more r | None => false end).
  { clear -HB Hk. induction its as [|it its IH]; intros i r Hi Hl; [cbn; by rewrite Z.add_0_r|]. rewrite blen_cons in *. pose proof (blen_nonneg its).
    cbn [fit app turns]. rewrite Zplus_mod, Hk, Z.add_0_l, Zmod_mod, Z.mod_small by lia. rewrite (proj2 (Z.eqb_neq _ _)) by lia.
    destruct (settle slots (enter r it)) as [r1|]; [|done]. rewrite <- Z.add_assoc, IH by lia. rewrite !Z.add_assoc. done. }
  rewrite (G its 1 r1) by lia. by rewrite <- Z.add_assoc, (Z.add_comm 1).
Qed.

(** They do when the buffer has a slot for all that a chunk can bring: with 17 slots
    always, with 16 when no chunk is a delta chunk. *)
Lemma fit_reach slots B its k r : low r -> Forall (fun it => reach it <= slots) its -> fit slots B k its r = true.
Proof.
  intros L F. revert k r L. induction F as [|it its Hit _ IH]; intros k r L; [done|]. cbn [fit].
  set (r0 := if _ : bool then forget r else r). assert (L0 : low r0) by (subst r0; case_if; [by apply forget_low|done]).
  destruct (enter_low r0 it L0) as (? & ? & ?). pose proof (resolve_given (enter r0 it)).
  destruct (settle slots (enter r0 it)) as [r1|] eqn:E; [|exfalso].
  - apply IH. by eapply settle_low.
  - unfold settle in E. case_if_in E; [|done]. case_if_in E; [|done]. boolz. lia.
Qed.
