(* ===== verification/RestoreCorrect.v ===== *)
(** Correctness of the restore: batching, the numbering of containers, the queue of
    base queries and the container cache are invisible in what the client receives. *)
From Stdlib Require Import ZArith Lia.
From stdpp Require Import base list gmap.
From S2P Require Import Prelude Types EDelta Codec ContainerCache ReqContainers Database Crypto Restore RestoreIds.

(** ** The specification: one chunk at a time *)

Section spec.
Context `{EVP} `{LZ4}.
Variable env : Setting.

Definition lookup_recipe (key : bytes) : result RecipeEntry_t :=
  v <-- of_option Undefined (QueryBuffer (indexStoreObj_ env) key CHUNK_HASH_SIZE) ;;
  if blen v =? sizeof_RecipeEntry then
    addr <-- AESCBCDec (cryptoObj_ env) v (indexQueryKey_ env) ;; Ok (recipe_get addr)
  else Err Undefined.
Definition recipe_of (fp : bytes) : result RecipeEntry_t :=
  key <-- IndexAESCMCEnc (cryptoObj_ env) fp (indexQueryKey_ env) ;; lookup_recipe key.

(** A recipe entry with the one of its base, if it is a delta chunk's. *)
Definition item_of (r : RecipeEntry_t) : result item :=
  if re_deltaFlag r =? DELTA then b <-- lookup_recipe (re_basechunkHash r) ;; Ok (r, Some b) else Ok (r, None).

(** What the container of the entry holds for it. *)
Definition stored_chunk (r : RecipeEntry_t) : result bytes :=
  body <-- open_container (containers env) (re_containerName r) ;;
  if MAX_CONTAINER_SIZE <? blen body then Err Undefined else read_chunk env body (re_offset r) (re_length r).
Definition item_chunk (it : item) : result bytes :=
  d <-- stored_chunk (fst it) ;;
  match snd it with
  | None => Ok (decompress d)
  | Some b =>
    base <-- stored_chunk b ;;
    EcallRecvDecoder.ed3_decode d (re_length (fst it)) (decompress base) (blen (decompress base))
  end.
(** The chunk a fingerprint of the file recipe stands for. *)
Definition original_chunk (fp : bytes) : result bytes :=
  r <-- recipe_of fp ;; it <-- item_of r ;; item_chunk it.

(** The entries of a file recipe, and whether a restore of it, with an identifier buffer
    of [slots] slots, ever numbers more containers than that. *)
Fixpoint items (fps : list bytes) : result (list item) :=
  match fps with
  | [] => Ok []
  | fp :: fps => r <-- recipe_of fp ;; it <-- item_of r ;; its <-- items fps ;; Ok (it :: its)
  end.
Definition ids_fit (slots : Z) (fps : list bytes) : bool :=
  match items fps with Ok its => fit slots (sendRecipeBatchSize_ env) 0 its new_round | Err _ => false end.

(** ** The parts of the invariant *)

Definition readable (name : bytes) : Prop :=
  exists body, open_container (containers env) name = Ok body /\ blen body <= MAX_CONTAINER_SIZE.

(** A numbering of containers: names it maps are written at their number, all the
    numbered containers can be fetched, and it is the one that the round counts. *)
Record numbering (i : Ids) (r : Round) : Prop := {
  nu_known : dom (tmpContainerMap i) = known r;
  nu_given : idNum i = given r;
  nu_num : 0 <= idNum i;
  nu_map : forall n k, tmpContainerMap i !! n = Some k -> 0 <= k < idNum i /\ containerName (idBuffer i) k = n;
  nu_read : forall k, 0 <= k < idNum i -> readable (containerName (idBuffer i) k)
}.
Record extends (i j : Ids) : Prop := {
  ext_num : idNum i <= idNum j;
  ext_len : blen (idBuffer j) = blen (idBuffer i);
  ext_name : forall k, 0 <= k < idNum i -> containerName (idBuffer j) k = containerName (idBuffer i) k
}.
Record refers (i : Ids) (e : EnclaveRecipeEntry) (r : RecipeEntry_t) : Prop := {
  rf_id : 0 <= er_containerID e < idNum i;
  rf_name : containerName (idBuffer i) (er_containerID e) = re_containerName r;
  rf_offset : er_offset e = re_offset r;
  rf_length : er_length e = re_length r;
  rf_flag : er_deltaFlag e = re_deltaFlag r
}.

Lemma extends_refl i : extends i i.
Proof. by split. Qed.
Lemma extends_trans i j k : extends i j -> extends j k -> extends i k.
Proof. intros [A B C] [A' B' C']. split; [lia|congruence|]. intros x Hx. rewrite C' by lia. apply C. lia. Qed.
Lemma refers_extends i j e r : extends i j -> refers i e r -> refers j e r.
Proof. intros [A B C] []. split; try done; [lia|]. rewrite C; done. Qed.
Lemma refers_all i j es rs : extends i j -> Forall2 (refers i) es rs -> Forall2 (refers j) es rs.
Proof. intros E F. eapply Forall2_impl; [exact F|]. intros. by eapply refers_extends. Qed.

Lemma blen_name buf k : 0 <= k -> (k + 1) * CONTAINER_ID_LENGTH <= blen buf -> blen (containerName buf k) = CONTAINER_ID_LENGTH.
Proof. unfold CONTAINER_ID_LENGTH. intros. apply blen_slice; unfold CONTAINER_ID_LENGTH; lia. Qed.

Lemma find_container_ok name i r :
  numbering i r -> blen name = CONTAINER_ID_LENGTH -> readable name ->
  given (new_id r name) * CONTAINER_ID_LENGTH <= blen (idBuffer i) ->
  exists j id, find_container name i = Ok (j, id) /\ numbering j (new_id r name) /\ extends i j /\
    0 <= id < idNum j /\ containerName (idBuffer j) id = name.
Proof.
  intros [K G N M R] L Hr. unfold find_container, new_id. rewrite <- K. destruct (tmpContainerMap i !! name) as [id|] eqn:E.
  - rewrite bool_decide_true by (by eapply elem_of_dom_2). intros Hroom.
    exists i, id. pose proof (M _ _ E) as [? ?]. split; [done|]. split; [by split|]. by split; [apply extends_refl|].
  - rewrite bool_decide_false by (by apply not_elem_of_dom). cbn [given]. rewrite <- G. intros Hroom.
    rewrite (proj2 (Z.ltb_ge _ _)) by lia. unfold CONTAINER_ID_LENGTH in *.
    set (buf := write (idBuffer i) (idNum i * 7) name).
    assert (Old : forall k, 0 <= k < idNum i -> containerName buf k = containerName (idBuffer i) k).
    { intros k Hk. apply slice_write_before; unfold CONTAINER_ID_LENGTH; lia. }
    assert (New : containerName buf (idNum i) = name).
    { unfold containerName, CONTAINER_ID_LENGTH. rewrite <- L at 2. apply slice_write_same. lia. }
    eexists _, (idNum i). split; [reflexivity|]. cbn [idNum idBuffer tmpContainerMap]. split; [|split; [|split]].
    + split; cbn [idNum idBuffer tmpContainerMap known given]; [by rewrite dom_insert_L|done|lia| |].
      * intros n k. rewrite lookup_insert_Some. intros [[-> <-]|[_ Hk]]; [split; [lia|done]|].
        destruct (M _ _ Hk). split; [lia|]. by rewrite Old.
      * intros k Hk. destruct (decide (k = idNum i)) as [->|]; [by rewrite New|]. rewrite Old by lia. apply R. lia.
    + split; cbn [idNum idBuffer]; [lia| |done]. apply blen_write; lia.
    + lia.
    + done.
Qed.
Lemma find_container_over name i r :
  numbering i r -> given r * CONTAINER_ID_LENGTH <= blen (idBuffer i) ->
  blen (idBuffer i) < given (new_id r name) * CONTAINER_ID_LENGTH -> find_container name i = Err Undefined.
Proof.
  intros [K G N M R] Hr. unfold find_container, new_id. rewrite <- K. destruct (tmpContainerMap i !! name) as [id|] eqn:E.
  - rewrite bool_decide_true by (by eapply elem_of_dom_2). lia.
  - rewrite bool_decide_false by (by apply not_elem_of_dom). cbn [given]. rewrite <- G. intros Ho. by rewrite (proj2 (Z.ltb_lt _ _)) by lia.
Qed.

(** ** Recipe entries and their containers *)

Lemma same_size_blen (data d : bytes) o : same_size data o = Ok d -> blen d = blen data.
Proof. unfold same_size. destruct o; [|done]. cbn. destruct (_ =? _) eqn:E; [|done]. intros [= <-]. by boolz. Qed.

Lemma recipe_name_blen a : blen a = sizeof_RecipeEntry -> blen (re_containerName (recipe_get a)) = CONTAINER_ID_LENGTH.
Proof. unfold sizeof_RecipeEntry, CONTAINER_ID_LENGTH. intros L. apply blen_slice; lia. Qed.

Lemma lookup_recipe_ok key r : lookup_recipe key = Ok r ->
  exists v a, QueryBuffer (indexStoreObj_ env) key CHUNK_HASH_SIZE = Some v /\ blen v = sizeof_RecipeEntry /\
    AESCBCDec (cryptoObj_ env) v (indexQueryKey_ env) = Ok a /\ r = recipe_get a /\
    blen (re_containerName r) = CONTAINER_ID_LENGTH.
Proof.
  unfold lookup_recipe. destruct (QueryBuffer _ _ _) as [v|] eqn:Q; [|done]. cbn [of_option rbind].
  destruct (_ =? _) eqn:E; [|done]. boolz. intros X. inv_bind X. injection X as <-.
  exists v, a. split; [done|]. split; [done|]. split; [done|]. split; [done|].
  apply recipe_name_blen. by rewrite (same_size_blen _ _ _ E0).
Qed.

Lemma stored_readable r d : stored_chunk r = Ok d -> readable (re_containerName r).
Proof.
  unfold stored_chunk, readable. intros X. inv_bind X. case_if_in X; [done|]. exists a. split; [done|lia].
Qed.
Lemma read_chunk_prefix body buf off n d :
  take (length body) buf = body -> read_chunk env body off n = Ok d -> read_chunk env buf off n = Ok d.
Proof.
  intros T. unfold read_chunk, in_bounds. set (o := off + header_size). change CRYPTO_BLOCK_SIZE with 16.
  assert (L : blen body <= blen buf) by (unfold blen; rewrite <- T at 1; rewrite length_take; lia).
  assert (S : forall i m, 0 <= i -> 0 <= m -> i + m <= blen body -> slice body i m = slice buf i m).
  { intros i m Hi Hm Him. rewrite <- T at 1. replace (take (length body) buf) with (slice buf 0 (blen body)).
    - rewrite slice_slice by lia. by rewrite Z.add_0_l.
    - unfold slice, blen. by rewrite Nat2Z.id. }
  case_if; [|done]. boolz. intros X. rewrite !S in X by lia.
  rewrite !(proj2 (Z.leb_le _ _)) by lia. exact X.
Qed.

Lemma entry_chunk_ok s e r d :
  refers (ids s) e r -> stored_chunk r = Ok d ->
  delivered (containers env) (idBuffer (ids s)) (containerArray (reqState s)) (er_containerID e) ->
  entry_chunk env s e = Ok d.
Proof.
  intros [Hid Hn Ho Hl _] Hs (body & buf & Hb & Ha & T). unfold entry_chunk. rewrite Ha. cbn [of_option rbind].
  unfold stored_chunk in Hs. rewrite Hn in Hb. rewrite Hb in Hs. cbn [rbind] in Hs.
  case_if_in Hs; [done|]. rewrite Ho, Hl. by eapply read_chunk_prefix.
Qed.

(** ** The queue of base queries *)

Definition queried (q : BaseQuery) (b : RecipeEntry_t) : Prop := lookup_recipe (bq_chunkHash q) = Ok b.
Definition answered (q : BaseQuery) (b : RecipeEntry_t) : Prop :=
  exists a, AESCBCDec (cryptoObj_ env) (bq_chunkAddr q) (indexQueryKey_ env) = Ok a /\ b = recipe_get a /\
    blen (re_containerName b) = CONTAINER_ID_LENGTH.

Lemma query_base_ok e b : queried e b -> exists e', query_base env e = Ok e' /\ answered e' b.
Proof.
  intros (v & a & Q & L & D & -> & N)%lookup_recipe_ok. unfold query_base. rewrite Q, L, Z.ltb_irrefl.
  eexists. split; [reflexivity|]. exists a. split; [|done]. cbn. rewrite <- L, slice_full. done.
Qed.

Lemma QueryBaseIndex_ok q bs rest :
  Forall2 queried q bs -> exists q', Ocall_QueryBaseIndex env (length bs) (q ++ rest) = Ok (q' ++ rest) /\ Forall2 answered q' bs.
Proof.
  induction 1 as [|e b q bs Hq F IH]; [by exists []|].
  destruct (query_base_ok _ _ Hq) as (e' & E & A). destruct IH as (q' & E' & A').
  exists (e' :: q'). cbn. rewrite E. cbn. rewrite E'. cbn. split; [done|by constructor].
Qed.

Abbreviation names := (map re_containerName).

Lemma resolve_bases_ok q bs rest i r :
  Forall2 answered q bs -> Forall (fun b => readable (re_containerName b)) bs -> numbering i r ->
  given (new_ids r (names bs)) * CONTAINER_ID_LENGTH <= blen (idBuffer i) ->
  exists q' j es, resolve_bases env (length bs) (q ++ rest) i = Ok (q' ++ rest, j, es) /\ length q' = length q /\
    numbering j (new_ids r (names bs)) /\ extends i j /\ Forall2 (refers j) es bs.
Proof.
  intros F. revert i r. induction F as [|e b q bs (a & D & -> & N) F IH]; intros i r R Nu Room.
  - exists [], i, []. split; [done|]. split; [done|]. split; [done|]. split; [apply extends_refl|constructor].
  - inversion R as [|? ? Rb R']; subst. change (new_ids r (names (recipe_get a :: bs))) with (new_ids (new_id r (re_containerName (recipe_get a))) (names bs)) in *.
    pose proof (new_ids_given (names bs) (new_id r (re_containerName (recipe_get a)))). unfold CONTAINER_ID_LENGTH in Room.
    destruct (find_container_ok _ i r Nu N Rb) as (j & id & E & Nj & X & Hid & Hn); [unfold CONTAINER_ID_LENGTH; lia|].
    destruct (IH j _ R' Nj) as (q' & k & es & E' & Lq & Nk & X' & Fe).
    { unfold CONTAINER_ID_LENGTH. rewrite (ext_len _ _ X). lia. }
    exists (mk_query (bq_chunkHash e) a :: q'), k. eexists. cbn [length resolve_bases app]. rewrite D. cbn [rbind]. rewrite E. cbn [rbind].
    rewrite E'. cbn [rbind]. split; [reflexivity|]. split; [cbn; lia|]. split; [done|].
    split; [by eapply extends_trans|]. constructor; [|done].
    eapply refers_extends; [exact X'|]. by split.
Qed.
Lemma resolve_bases_over q bs rest i r :
  Forall2 answered q bs -> Forall (fun b => readable (re_containerName b)) bs -> numbering i r ->
  given r * CONTAINER_ID_LENGTH <= blen (idBuffer i) -> blen (idBuffer i) < given (new_ids r (names bs)) * CONTAINER_ID_LENGTH ->
  resolve_bases env (length bs) (q ++ rest) i = Err Undefined.
Proof.
  intros F. revert i r. induction F as [|e b q bs (a & D & -> & N) F IH]; intros i r R Nu Room Ov; [cbn in Ov; lia|].
  inversion R as [|? ? Rb R']; subst. change (new_ids r (names (recipe_get a :: bs))) with (new_ids (new_id r (re_containerName (recipe_get a))) (names bs)) in *.
  cbn [length resolve_bases app]. rewrite D. cbn [rbind].
  destruct (decide (given (new_id r (re_containerName (recipe_get a))) * CONTAINER_ID_LENGTH <= blen (idBuffer i))) as [Le|].
  - destruct (find_container_ok _ i r Nu N Rb Le) as (j & id & -> & Nj & X & _). cbn [rbind].
    by rewrite (IH j _ R' Nj) by (by rewrite (ext_len _ _ X)).
  - by rewrite (find_container_over _ i r Nu Room) by lia.
Qed.

(** ** What is pending *)

Abbreviation bases := (omap (@snd RecipeEntry_t (option RecipeEntry_t))).

(** [es] are the entries that wait to be restored and [bs] their bases, some with a
    number already and the others in the queue. *)
Record pending (s : Restore) (es bs : list RecipeEntry_t) (r : Round) : Prop := {
  pd_ids : numbering (ids s) r;
  pd_entries : Forall2 (refers (ids s)) (_enclaveRecipeBuffer s) es;
  pd_bases : exists B1 B2, bs = B1 ++ B2 /\ Forall2 (refers (ids s)) (_baseRecipeBuffer s) B1 /\
    Forall2 queried (take (Z.to_nat (queryNum s)) (outQueryBase s)) B2 /\ names B2 = waits r;
  pd_read : Forall (fun b => readable (re_containerName b)) bs;
  pd_query : queryNum s = blen (waits r);
  pd_waits : blen (waits r) <= QUERY_NUM;
  pd_room : length (outQueryBase s) = Z.to_nat QUERY_NUM
}.
(** The parts that resolving recipe entries leaves alone. *)
Record same_out (s t : Restore) : Prop := {
  so_req : reqState t = reqState s;
  so_data : dataBuffer t = dataBuffer s;
  so_num : currentItemNum t = currentItemNum s;
  so_sent : sent t = sent s
}.
Lemma same_out_trans s t u : same_out s t -> same_out t u -> same_out s u.
Proof. intros [] []. split; congruence. Qed.

Lemma blen_names (bs : list RecipeEntry_t) : blen (names bs) = blen bs.
Proof. unfold blen. by rewrite length_map. Qed.
(** The queries of the queue, answered, and how many they are. *)
Lemma pending_answers s es bs r : pending s es bs r ->
  exists B1 B2 q' rest, bs = B1 ++ B2 /\ Forall2 (refers (ids s)) (_baseRecipeBuffer s) B1 /\ names B2 = waits r /\
    Z.to_nat (queryNum s) = length B2 /\ length (q' ++ rest) = Z.to_nat QUERY_NUM /\
    Ocall_QueryBaseIndex env (length B2) (outQueryBase s) = Ok (q' ++ rest) /\ Forall2 answered q' B2 /\
    Forall (fun b => readable (re_containerName b)) B2 /\ (B2 = [] -> rest = outQueryBase s).
Proof.
  intros [Nu En (B1 & B2 & -> & F1 & F2 & W) Rd Qn Qw Qr].
  assert (LB : Z.to_nat (queryNum s) = length B2) by (rewrite Qn, <- W, blen_names; unfold blen; lia).
  destruct (QueryBaseIndex_ok _ _ (drop (Z.to_nat (queryNum s)) (outQueryBase s)) F2) as (q' & E1 & A).
  rewrite take_drop in E1. exists B1, B2, q', (drop (Z.to_nat (queryNum s)) (outQueryBase s)).
  apply Forall_app in Rd as [_ Rd2]. pose proof (Forall2_length _ _ _ A) as Lq. pose proof (Forall2_length _ _ _ F2) as L2.
  rewrite length_take in L2. repeat (split; [done|]). split; [rewrite length_app, length_drop; lia|]. repeat (split; [done|]).
  intros ->. by rewrite LB.
Qed.

Lemma flush_queries_ok s es bs r :
  pending s es bs r -> given (resolve r) * CONTAINER_ID_LENGTH <= blen (idBuffer (ids s)) ->
  exists t, flush_queries env s = Ok t /\ pending t es bs (resolve r) /\ blen (idBuffer (ids t)) = blen (idBuffer (ids s)) /\ same_out s t.
Proof.
  intros Pd Room. destruct (pending_answers _ _ _ _ Pd) as (B1 & B2 & q' & rest & -> & F1 & W & LB & Lr & E1 & A & Rd2 & _).
  pose proof Pd as [Nu En _ Rd _ _ _]. unfold flush_queries. rewrite LB, E1. cbn [rbind]. unfold resolve in *. rewrite <- W in *. cbn [given] in Room.
  destruct (resolve_bases_ok q' B2 rest (ids s) r A Rd2 Nu Room) as (q'' & j & es' & -> & _ & Nj & X & Fe). cbn [rbind].
  eexists. split; [reflexivity|]. split; [|split; [apply (ext_len _ _ X)|done]]. split; cbn; try done.
  - by destruct Nj.
  - by eapply refers_all.
  - exists (B1 ++ B2), []. rewrite app_nil_r. split; [done|]. split; [|by split]. apply Forall2_app; [by eapply refers_all|done].
Qed.
Lemma flush_queries_over s es bs r :
  pending s es bs r -> given r * CONTAINER_ID_LENGTH <= blen (idBuffer (ids s)) ->
  blen (idBuffer (ids s)) < given (resolve r) * CONTAINER_ID_LENGTH -> flush_queries env s = Err Undefined.
Proof.
  intros Pd Room Ov. destruct (pending_answers _ _ _ _ Pd) as (B1 & B2 & q' & rest & -> & F1 & W & LB & Lr & E1 & A & Rd2 & _).
  unfold flush_queries. rewrite LB, E1. cbn [rbind]. unfold resolve in *. rewrite <- W in *.
  by rewrite (resolve_bases_over q' B2 rest (ids s) r A Rd2 (pd_ids _ _ _ _ Pd) Room Ov).
Qed.

Lemma add_query_ok s es bs r hash b :
  pending s es bs r -> blen (waits r) < QUERY_NUM -> lookup_recipe hash = Ok b -> readable (re_containerName b) ->
  exists t, add_query s hash = Ok t /\ pending t es (bs ++ [b]) (mk_round (known r) (given r) (waits r ++ [re_containerName b])) /\
    blen (idBuffer (ids t)) = blen (idBuffer (ids s)) /\ same_out s t.
Proof.
  intros [[K G N M R] En (B1 & B2 & -> & F1 & F2 & W) Rd Qn Qw Qr] Hq Hl Hr. unfold add_query. unfold QUERY_NUM in *.
  pose proof (blen_nonneg (waits r)). destruct (lookup_lt_is_Some_2 (outQueryBase s) (Z.to_nat (queryNum s))) as [e He]; [lia|].
  rewrite He. cbn [of_option rbind]. eexists. split; [reflexivity|]. split; [|done].
  split; cbn [ids queryNum outQueryBase _enclaveRecipeBuffer _baseRecipeBuffer with_queries known given waits]; try done.
  - exists B1, (B2 ++ [b]). rewrite app_assoc. split; [done|]. split; [done|]. split; [|by rewrite map_app, W].
    replace (Z.to_nat (queryNum s + 1)) with (S (Z.to_nat (queryNum s))) by lia.
    erewrite take_S_r by (apply list_lookup_insert_eq; lia).
    rewrite take_insert_ge by lia. apply Forall2_app; [done|]. by repeat constructor.
  - apply Forall_app. split; [done|by constructor].
  - rewrite blen_app, Qn. reflexivity.
  - rewrite blen_app. change (blen [re_containerName b]) with 1. unfold QUERY_NUM. lia.
  - by rewrite length_insert.
Qed.

(** ** One entry of the file recipe *)

Lemma item_readable r it x :
  item_of r = Ok it -> item_chunk it = Ok x ->
  fst it = r /\ readable (re_containerName r) /\ Forall (fun b => readable (re_containerName b)) (bases [it]) /\
  (if re_deltaFlag r =? DELTA then exists b, lookup_recipe (re_basechunkHash r) = Ok b /\ bases [it] = [b] else bases [it] = []).
Proof.
  unfold item_of, item_chunk. intros I C. inv_bind C. case_if.
  - inv_bind I. injection I as <-. cbn in *. inv_bind C. split; [done|]. split; [by eapply stored_readable|].
    split; [|by eexists]. repeat constructor. by eapply stored_readable.
  - injection I as <-. split; [done|]. split; [by eapply stored_readable|]. split; [constructor|done].
Qed.

Lemma bases_one it : bases [it] = match snd it with Some b => [b] | None => [] end.
Proof. by destruct it as [? [?|]]. Qed.

(** Numbers the round needs at most: a delta chunk can bring a base container too. *)
Definition ids_needed (r : RecipeEntry_t) : Z := if re_deltaFlag r =? DELTA then 17 else 16.
Lemma reach_needed r it : item_of r = Ok it -> reach it = ids_needed r.
Proof. unfold item_of, reach, ids_needed. case_if; intros X; [inv_bind X|]; by injection X as <-. Qed.

Lemma query_step_ok s es bs r hash b :
  pending s es bs r -> low r -> 16 * CONTAINER_ID_LENGTH <= blen (idBuffer (ids s)) ->
  lookup_recipe hash = Ok b -> readable (re_containerName b) ->
  exists t, (if queryNum s <? QUERY_NUM then add_query s hash
             else if queryNum s =? QUERY_NUM then s <-- flush_queries env s ;; add_query s hash else Ok s) = Ok t /\
    pending t es (bs ++ [b]) (ask r (re_containerName b)) /\ blen (idBuffer (ids t)) = blen (idBuffer (ids s)) /\ same_out s t.
Proof.
  intros Pd L Room Hl Hr. pose proof (pd_waits _ _ _ _ Pd) as Qw. unfold ask. rewrite (pd_query _ _ _ _ Pd).
  destruct (blen (waits r) <? QUERY_NUM) eqn:E; boolz; [by apply add_query_ok|]. rewrite (proj2 (Z.eqb_eq _ _)) by lia.
  destruct (flush_queries_ok s es bs r Pd) as (s' & -> & Pd' & Lb & So).
  { destruct L as [? C ?]. pose proof (resolve_given r). unfold CONTAINER_CAPPING_VALUE, CONTAINER_ID_LENGTH in *. lia. }
  cbn [rbind]. destruct (add_query_ok s' es bs (resolve r) hash b Pd' ltac:(done) Hl Hr) as (t & -> & Pt & Lt & So').
  exists t. split; [done|]. split; [done|]. split; [congruence|]. by eapply same_out_trans.
Qed.

Lemma take_recipe_ok v a s P it x r :
  AESCBCDec (cryptoObj_ env) v (indexQueryKey_ env) = Ok a -> blen a = sizeof_RecipeEntry ->
  item_of (recipe_get a) = Ok it -> item_chunk it = Ok x -> pending s (map fst P) (bases P) r -> low r ->
  16 * CONTAINER_ID_LENGTH <= blen (idBuffer (ids s)) ->
  exists t, take_recipe env v s = Ok t /\ pending t (map fst (P ++ [it])) (bases (P ++ [it])) (enter r it) /\
    blen (idBuffer (ids t)) = blen (idBuffer (ids s)) /\ same_out s t.
Proof.
  intros D La I C Pd L Room. unfold take_recipe. rewrite D. cbn [rbind]. set (e := recipe_get a) in *.
  destruct (item_readable _ _ _ I C) as (Ef & Rr & Rb & Fb).
  set (r1 := match snd it with Some b => ask r (re_containerName b) | None => r end).
  assert (Q : exists t, (if re_deltaFlag e =? DELTA then
             if queryNum s <? QUERY_NUM then add_query s (re_basechunkHash e)
             else if queryNum s =? QUERY_NUM then s <-- flush_queries env s ;; add_query s (re_basechunkHash e) else Ok s
             else Ok s) = Ok t /\
    pending t (map fst P) (bases P ++ bases [it]) r1 /\ blen (idBuffer (ids t)) = blen (idBuffer (ids s)) /\ same_out s t).
  { case_if.
    - destruct Fb as (b & Hb & EB). rewrite EB in *. assert (snd it = Some b) as Es by (rewrite bases_one in EB; destruct (snd it); congruence).
      subst r1. rewrite Es. apply query_step_ok; try done. by inversion Rb.
    - assert (snd it = None) as Es by (rewrite bases_one in Fb; destruct (snd it); congruence). subst r1. rewrite Es, Fb, app_nil_r. by exists s. }
  destruct Q as (t & -> & Pt & Lt & So). cbn [rbind]. pose proof (enter_low r it L) as (Hg & _ & _).
  unfold enter in *. fold r1 in Hg |- *. rewrite Ef in *. destruct Pt as [Nt En (B1 & B2 & EB & F1 & F2 & W) Rd Qn Qw Qr].
  destruct (find_container_ok (re_containerName e) (ids t) r1 Nt (recipe_name_blen _ La) Rr) as (j & id & E & Nj & X & Hid & Hnm).
  { unfold CONTAINER_ID_LENGTH in *. rewrite Lt. lia. }
  rewrite E. cbn [rbind]. eexists. split; [reflexivity|]. split; [|split; [rewrite <- Lt; apply (ext_len _ _ X)|by destruct So]].
  rewrite map_app, omap_app. split; cbn [ids queryNum outQueryBase _enclaveRecipeBuffer _baseRecipeBuffer with_entries with_ids]; rewrite ?new_id_waits; try done.
  - apply Forall2_app; [by eapply refers_all|]. cbn [map]. rewrite Ef. repeat constructor; cbn; done || lia.
  - exists B1, B2. split; [done|]. split; [by eapply refers_all|done].
Qed.

(** ** What is sent *)

Abbreviation frames l := (concat (map frame l)).

(** A message of type [t] that opens, with the session key, to the frames of [part]. *)
Record carries (t : message_type) (m : Message) (part : list bytes) : Prop := {
  ca_type : m_type m = t;
  ca_num : m_currentItemNum m = blen part;
  ca_data : SessionKeyDec (cryptoObj_ env) (m_data m) (_sessionKey env) = Ok (frames part)
}.
(** While chunks come: full batches are sent, less than a batch waits. *)
Definition output (s : Restore) (E : list bytes) : Prop :=
  exists parts L, E = concat parts ++ L /\ Forall2 (carries SERVER_RESTORE_CHUNK) (sent s) parts /\
    Forall (fun p => blen p = sendChunkBatchSize_ env) parts /\
    dataBuffer s = frames L /\ currentItemNum s = blen L /\ blen L < sendChunkBatchSize_ env /\
    Forall (fun x => blen x <= MAX_CHUNK_SIZE) L.
(** At the end: one last message of at most a batch. *)
Definition finished (s : Restore) (E : list bytes) : Prop :=
  exists msgs m parts L, sent s = msgs ++ [m] /\ E = concat parts ++ L /\
    Forall2 (carries SERVER_RESTORE_CHUNK) msgs parts /\ carries SERVER_RESTORE_FINAL m L /\
    Forall (fun p => blen p = sendChunkBatchSize_ env) parts /\ blen L <= sendChunkBatchSize_ env.

Lemma frames_bound L : Forall (fun x => blen x <= MAX_CHUNK_SIZE) L -> blen (frames L) <= blen L * sizeof_Chunk.
Proof.
  unfold sizeof_Chunk, MAX_CHUNK_SIZE. induction 1 as [|x L Hx _ IH]; [done|]. cbn [map concat]. unfold frame at 1.
  rewrite !blen_app, blen_le_bytes, blen_cons. lia.
Qed.

Context {laws : EVPLaws}.
Hypothesis batch_size : 0 < sendChunkBatchSize_ env < 2 ^ 32.

Lemma send_ok t s L : dataBuffer s = frames L -> currentItemNum s = blen L ->
  exists m, send env t s = Ok (with_out s [] 0 (sent s ++ [m])) /\ carries t m L.
Proof.
  intros Ed En. unfold send. destruct (SessionKey_ok (cryptoObj_ env) (dataBuffer s) (_sessionKey env)) as (d & E & _ & D).
  rewrite E. cbn [rbind]. eexists. split; [reflexivity|]. split; cbn; [done|done|]. by rewrite D, Ed.
Qed.

Lemma same_ids_with_out s d n m : reqState (with_out s d n m) = reqState s /\ ids (with_out s d n m) = ids s.
Proof. done. Qed.

(** A chunk is put into the buffer, and the buffer is sent when it is full or when the
    chunk is the last one. *)
Lemma deliver_ok s E x (endFlag : bool) :
  output s E -> blen x <= MAX_CHUNK_SIZE ->
  exists s1 d n m, emit env x s = Ok s1 /\
    (if (currentItemNum s1 mod sendChunkBatchSize_ env =? 0) || endFlag
     then send env (if endFlag then SERVER_RESTORE_FINAL else SERVER_RESTORE_CHUNK) s1 else Ok s1) = Ok (with_out s d n m) /\
    if endFlag then finished (with_out s d n m) (E ++ [x]) else output (with_out s d n m) (E ++ [x]).
Proof.
  intros (parts & L & -> & F & Fp & Ed & En & Hn & HL) Hx. unfold emit.
  pose proof (frames_bound L HL) as HB. unfold sizeof_Chunk in *. change MAX_CHUNK_SIZE with 16384 in *.
  pose proof (blen_nonneg L). rewrite (proj2 (Z.ltb_ge _ _)) by (rewrite Ed; nia).
  eexists. set (s1 := with_out s _ _ _).
  assert (Ed1 : dataBuffer s1 = frames (L ++ [x])).
  { cbn. rewrite Ed, map_app, concat_app. cbn. by rewrite app_nil_r. }
  assert (En1 : currentItemNum s1 = blen (L ++ [x])) by (cbn; rewrite En, u32_id, blen_app by lia; reflexivity).
  rewrite En1, blen_app. change (blen [x]) with 1. rewrite <- app_assoc.
  destruct endFlag.
  - rewrite orb_true_r. destruct (send_ok SERVER_RESTORE_FINAL s1 _ Ed1 En1) as (m & Es & C).
    exists [], 0, (sent s1 ++ [m]). split; [reflexivity|]. split; [exact Es|].
    exists (sent s), m, parts, (L ++ [x]). repeat (split; [done|]). rewrite blen_app. change (blen [x]) with 1. lia.
  - rewrite orb_false_r. destruct (_ =? 0) eqn:Em; boolz.
    + destruct (send_ok SERVER_RESTORE_CHUNK s1 _ Ed1 En1) as (m & Es & C).
      exists [], 0, (sent s1 ++ [m]). split; [reflexivity|]. split; [exact Es|].
      assert (Hfull : blen L + 1 = sendChunkBatchSize_ env).
      { destruct (decide (blen L + 1 < sendChunkBatchSize_ env)); [|lia]. rewrite Z.mod_small in Em; lia. }
      exists (parts ++ [L ++ [x]]), []. rewrite concat_app. cbn. rewrite !app_nil_r. split; [done|].
      split; [apply Forall2_app; [done|by apply Forall2_cons]|]. split; [|split; [done|split; [done|split; [rewrite blen_nil; lia|constructor]]]].
      apply Forall_app. split; [done|]. repeat constructor. rewrite blen_app. done.
    + exists (dataBuffer s1), (currentItemNum s1), (sent s). split; [reflexivity|]. split; [reflexivity|].
      exists parts, (L ++ [x]). repeat (split; [done|]). rewrite blen_app. change (blen [x]) with 1.
      split; [|change MAX_CHUNK_SIZE with 16384; apply Forall_app; split; [done|by repeat constructor]].
      destruct (decide (blen L + 1 = sendChunkBatchSize_ env)) as [Q|]; [|lia]. rewrite Q, Z.mod_same in Em; lia.
Qed.

(** The loop over what is pending. *)
Definition all_delivered (s : Restore) : Prop :=
  forall i, 0 <= i < idNum (ids s) -> delivered (containers env) (idBuffer (ids s)) (containerArray (reqState s)) i.
Definition item_wf (it : item) : Prop := item_of (fst it) = Ok it.

Lemma restore_one_ok s e it bs x :
  all_delivered s -> refers (ids s) e (fst it) -> item_wf it -> Forall2 (refers (ids s)) bs (bases [it]) ->
  item_chunk it = Ok x -> forall bs',
  (if er_deltaFlag e =? DELTA then
     match bs ++ bs' with [] => Err Undefined | b :: bases => s <-- restore_delta env e b s ;; Ok (s, bases) end
   else s <-- RecoverOneChunk env e s ;; Ok (s, bs ++ bs')) = (s1 <-- emit env x s ;; Ok (s1, bs')).
Proof.
  intros D Re W Fb C bs'. unfold item_wf, item_of in W. rewrite (rf_flag _ _ _ Re). unfold item_chunk in C. inv_bind C.
  pose proof (entry_chunk_ok s e _ _ Re E (D _ (rf_id _ _ _ Re))) as Ee. destruct it as [r ob]. cbn [fst snd] in *.
  case_if_in W.
  - inv_bind W. injection W as <-. inv_bind C.
    apply Forall2_cons_inv_r in Fb as (b & bs0 & Rb & F0 & ->). apply Forall2_nil_inv_r in F0 as ->. cbn [app].
    unfold restore_delta. rewrite Ee. cbn [rbind].
    rewrite (entry_chunk_ok s b _ _ Rb E2 (D _ (rf_id _ _ _ Rb))). cbn [rbind].
    rewrite (rf_length _ _ _ Re). rewrite C. reflexivity.
  - injection W as <-. apply Forall2_nil_inv_r in Fb as ->. cbn [app].
    unfold RecoverOneChunk. rewrite Ee. cbn [rbind]. by injection C as ->.
Qed.

Lemma bases_cons it P : bases (it :: P) = bases [it] ++ bases P.
Proof. by destruct it as [r [b|]]. Qed.
Lemma with_out_id s : with_out s (dataBuffer s) (currentItemNum s) (sent s) = s.
Proof. by destruct s. Qed.

Definition small (x : bytes) : Prop := blen x <= MAX_CHUNK_SIZE.
(** The items, what they stand for, and the bound on its size. *)
Definition yields (it : item) (x : bytes) : Prop := item_wf it /\ item_chunk it = Ok x /\ small x.

Lemma restore_chunks_ok tail P es bs s E xs :
  all_delivered s -> Forall2 (refers (ids s)) es (map fst P) -> Forall2 (refers (ids s)) bs (bases P) ->
  Forall2 yields P xs -> output s E ->
  exists d n m, restore_chunks env tail es bs s = Ok (with_out s d n m) /\
    if tail && negb (bool_decide (P = [])) then finished (with_out s d n m) (E ++ xs) else output (with_out s d n m) (E ++ xs).
Proof.
  intros D Fe. revert bs s E xs D Fe. revert es. induction P as [|it P IH]; intros es bs s E xs D Fe Fb Y O.
  - apply Forall2_nil_inv_r in Fe as ->. apply Forall2_nil_inv_l in Y as ->.
    exists (dataBuffer s), (currentItemNum s), (sent s). rewrite with_out_id, app_nil_r. split; [done|].
    by rewrite bool_decide_true, andb_false_r.
  - cbn [map] in Fe. apply Forall2_cons_inv_r in Fe as (e & es' & Re & Fe & ->).
    apply Forall2_cons_inv_l in Y as (x & xs' & (W & C & Sx) & Y & ->).
    rewrite bases_cons in Fb. apply Forall2_app_inv_r in Fb as (bs1 & bs' & Fb1 & Fb & ->).
    cbn [restore_chunks]. rewrite (restore_one_ok s e it bs1 x D Re W Fb1 C bs').
    set (endFlag := match es' with [] => tail | _ => false end).
    destruct (deliver_ok s E x endFlag O Sx) as (s1 & d & n & m & E1 & E2 & Out). rewrite E1. cbn [rbind]. rewrite E2. cbn [rbind].
    rewrite (bool_decide_false (it :: P = [])) by done. rewrite andb_true_r.
    replace (E ++ x :: xs') with ((E ++ [x]) ++ xs') by (by rewrite <- app_assoc).
    destruct es' as [|e' es'].
    + apply Forall2_nil_inv_l in Fe as Ep. apply map_eq_nil in Ep as ->. apply Forall2_nil_inv_l in Y as ->.
      exists d, n, m. rewrite app_nil_r. subst endFlag. split; [done|]. by destruct tail.
    + subst endFlag. cbn iota in Out. destruct (IH (e' :: es') bs' (with_out s d n m) (E ++ [x]) xs' D Fe Fb Y Out) as (d' & n' & m' & E3 & Out').
      exists d', n', m'. split; [exact E3|]. destruct P as [|it' P]; [by apply Forall2_nil_inv_r in Fe|].
      by rewrite (bool_decide_false (it' :: P = [])), andb_true_r in Out' by done.
Qed.

(** Fetching the containers, then the chunks. *)
Lemma fetch_and_restore_ok tail P s E xs r :
  coherent (containers env) (rq_cache (reqState s)) -> numbering (ids s) r ->
  idNum (ids s) <= blen (containerArray (reqState s)) ->
  Forall2 (refers (ids s)) (_enclaveRecipeBuffer s) (map fst P) -> Forall2 (refers (ids s)) (_baseRecipeBuffer s) (bases P) ->
  Forall2 yields P xs -> output s E ->
  exists req d n m, fetch_and_restore env tail s = Ok (with_out (with_req s req) d n m) /\
    coherent (containers env) (rq_cache req) /\ length (containerArray req) = length (containerArray (reqState s)) /\
    if tail && negb (bool_decide (P = [])) then finished (with_out (with_req s req) d n m) (E ++ xs)
    else output (with_out (with_req s req) d n m) (E ++ xs).
Proof.
  intros Co Nu Hn Fe Fb Y O. unfold fetch_and_restore.
  destruct (GetReqContainers_delivers (containers env) (idBuffer (ids s)) (idNum (ids s)) (reqState s) Co) as (req & Er & Co' & Lr & D).
  { split; [apply (nu_num _ _ Nu)|done]. }
  { intros i Hi. apply (nu_read _ _ Nu i Hi). }
  rewrite Er. cbn [rbind].
  destruct (restore_chunks_ok tail P _ _ (with_req s req) E xs D Fe Fb Y O) as (d & n & m & Ec & Out).
  exists req, d, n, m. by rewrite Ec.
Qed.

(** ** The invariant between two entries of the file recipe *)

(** The chunks of [cs] have been taken: some are sent or in the buffer, the others are
    pending; the identifier buffer has [slots] slots. *)
Record going (slots : Z) (s : Restore) (cs : list bytes) (r : Round) : Prop := {
  go_cache : coherent (containers env) (rq_cache (reqState s));
  go_array : slots <= blen (containerArray (reqState s));
  go_room : blen (idBuffer (ids s)) = slots * CONTAINER_ID_LENGTH;
  go_given : given r <= slots;
  go_chunks : exists P E xs, cs = E ++ xs /\ pending s (map fst P) (bases P) r /\ Forall2 yields P xs /\ output s E
}.
(** What an operation gives, when the count says [o]. *)
Definition follows (slots : Z) (m : result Restore) (cs : list bytes) (o : option Round) : Prop :=
  match o with Some r => exists t, m = Ok t /\ going slots t cs r /\ low r | None => m = Err Undefined end.

Lemma numbering_empty buf : numbering (mk_ids ∅ buf 0) new_round.
Proof. split; cbn; [by rewrite dom_empty_L|done|done|by intros n k Hk; rewrite lookup_empty in Hk|lia]. Qed.

Lemma pending_entries s es bs r : pending s es bs r -> waits r = [] -> Forall2 (refers (ids s)) (_baseRecipeBuffer s) bs.
Proof. intros [_ _ (B1 & B2 & -> & F1 & F2 & W) _ _ _ _] Q. rewrite Q in W. apply map_eq_nil in W as ->. by rewrite app_nil_r. Qed.

Lemma flush_opt_ok s es bs r :
  pending s es bs r -> given (resolve r) * CONTAINER_ID_LENGTH <= blen (idBuffer (ids s)) ->
  exists t, (if queryNum s =? 0 then Ok s else flush_queries env s) = Ok t /\ pending t es bs (resolve r) /\
    blen (idBuffer (ids t)) = blen (idBuffer (ids s)) /\ same_out s t.
Proof.
  intros Pd Room. case_if; boolz; [|by apply flush_queries_ok].
  exists s. split; [done|]. split; [|done]. assert (W : waits r = []).
  { apply nil_length_inv. rewrite (pd_query _ _ _ _ Pd) in E. unfold blen in E. lia. }
  destruct Pd as [[] En Eb Rd Qn Qw Qr]. unfold resolve. rewrite W in *. split; cbn [new_ids foldl known given waits]; done.
Qed.

Lemma output_same s t E : sent t = sent s -> dataBuffer t = dataBuffer s -> currentItemNum t = currentItemNum s ->
  output s E -> output t E.
Proof. unfold output. by intros -> -> ->. Qed.

(** The end of a turn: nothing, a full round restored, or an identifier too many. *)
Lemma judge_capping_ok slots s cs r it :
  going slots s cs (enter r it) -> low r -> follows slots (judge_capping env s) cs (settle slots (enter r it)).
Proof.
  intros [Co Ar Ro Gi (P & E & xs & -> & Pd & Y & O)] L. pose proof (settle_low slots r it) as SL. set (e := enter r it) in *. clearbody e.
  unfold judge_capping, follows, settle in *. rewrite (nu_given _ _ (pd_ids _ _ _ _ Pd)), (pd_query _ _ _ _ Pd). case_if.
  2: { exists s. split; [done|]. split; [|by apply SL]. split; [done..|by exists P, E, xs]. }
  rewrite <- (pd_query _ _ _ _ Pd). destruct (slots <? given (resolve e)) eqn:Ov; boolz.
  - assert (queryNum s <> 0).
    { rewrite (pd_query _ _ _ _ Pd). pose proof (resolve_given e). lia. }
    rewrite (proj2 (Z.eqb_neq _ _)) by done. rewrite (flush_queries_over _ _ _ _ Pd); [done|unfold CONTAINER_ID_LENGTH in *; lia..].
  - destruct (flush_opt_ok s _ _ _ Pd) as (t & -> & Pd' & Lb & So); [unfold CONTAINER_ID_LENGTH in *; lia|]. cbn [rbind].
    destruct (fetch_and_restore_ok false P t E xs (resolve e)) as (req & d & n & m & -> & Co' & La & Out); try done.
    { by rewrite (so_req _ _ So). } { apply (pd_ids _ _ _ _ Pd'). }
    { rewrite (so_req _ _ So), (nu_given _ _ (pd_ids _ _ _ _ Pd')). lia. }
    { apply (pd_entries _ _ _ _ Pd'). } { by eapply pending_entries. } { destruct So. by eapply output_same. }
    cbn [rbind]. eexists. split; [reflexivity|]. split; [|apply new_round_low].
    split; cbn [reqState ids idBuffer given new_round with_entries with_ids with_queries with_out with_req]; [done| | | |].
    + unfold blen in *. rewrite La, (so_req _ _ So). done.
    + by rewrite Lb.
    + pose proof (resolve_given e). pose proof (nu_num _ _ (pd_ids _ _ _ _ Pd)). rewrite (nu_given _ _ (pd_ids _ _ _ _ Pd)) in *. lia.
    + exists [], (E ++ xs), []. rewrite app_nil_r. split; [done|]. split; [|split; [constructor|exact Out]].
      split; cbn; [apply numbering_empty|constructor|exists [], []; by repeat constructor|constructor|done|done|apply (pd_room _ _ _ _ Pd')].
Qed.

Lemma clear_map_ok slots s cs r : going slots s cs r -> going slots (clear_map s) cs (forget r).
Proof.
  intros [Co Ar Ro Gi (P & E & xs & -> & Pd & Y & O)]. split; [done..|]. exists P, E, xs.
  split; [done|]. split; [|done]. destruct Pd as [[K G N M R] En (B1 & B2 & EB & F1 & F2 & W) Rd Qn Qw Qr].
  assert (X : extends (ids s) (ids (clear_map s))) by (by split).
  split; [|by eapply refers_all| |done|done|done|done].
  - split; cbn; [by rewrite dom_empty_L|done|done|by intros n k Hk; rewrite lookup_empty in Hk|done].
  - exists B1, B2. split; [done|]. split; [by eapply refers_all|done].
Qed.

(** One turn of the loop of [ProcRecipeBatch], on a value the index gave. *)
Lemma take_going slots v a s cs it x r :
  AESCBCDec (cryptoObj_ env) v (indexQueryKey_ env) = Ok a -> blen a = sizeof_RecipeEntry ->
  item_of (recipe_get a) = Ok it -> item_chunk it = Ok x -> small x -> 16 <= slots ->
  going slots s cs r -> low r ->
  follows slots (t <-- take_recipe env v s ;; judge_capping env t) (cs ++ [x]) (settle slots (enter r it)).
Proof.
  intros D La I C Sx Hl [Co Ar Ro Gi (P & E & xs & -> & Pd & Y & O)] L.
  destruct (take_recipe_ok v a s P it x r D La I C Pd L) as (t & Et & Pd' & Lb & So).
  { unfold CONTAINER_ID_LENGTH in *. lia. }
  rewrite Et. cbn [rbind]. destruct (item_readable _ _ _ I C) as (Ef & _). pose proof (enter_low r it L) as (Hg & _ & _).
  apply judge_capping_ok; [|done]. destruct So as [S1 S2 S3 S4]. split; [by rewrite S1|by rewrite S1|by rewrite Lb|lia|].
  exists (P ++ [it]), E, (xs ++ [x]). rewrite app_assoc. split; [done|]. split; [done|]. split; [|by eapply output_same].
  apply Forall2_app; [done|]. constructor; [|constructor]. split; [|done]. unfold item_wf. by rewrite Ef.
Qed.

Lemma ProcRecipeTailBatch_ok slots s cs r :
  16 <= slots -> going slots s cs r -> low r -> exists t, ProcRecipeTailBatch env s = Ok t /\ finished t cs.
Proof.
  intros H16 G L. apply forget_low in L. apply clear_map_ok in G as [Co Ar Ro Gi (P & E & xs & -> & Pd & Y & O)].
  unfold ProcRecipeTailBatch. set (u := clear_map s) in *. set (r' := forget r) in *. clearbody u r'. destruct (_enclaveRecipeBuffer u) as [|e es] eqn:Ee.
  - pose proof (pd_entries _ _ _ _ Pd) as Fe. rewrite Ee in Fe. apply Forall2_nil_inv_l, map_eq_nil in Fe as ->.
    apply Forall2_nil_inv_l in Y as ->. rewrite app_nil_r. destruct O as (parts & Q & -> & F & Fp & Ed & En & Hn & HL).
    destruct (send_ok SERVER_RESTORE_FINAL u Q Ed En) as (m & -> & C). eexists. split; [reflexivity|].
    exists (sent u), m, parts, Q. repeat (split; [done|]). lia.
  - destruct (pending_answers _ _ _ _ Pd) as (B1 & B2 & q' & rest & EB & F1 & W & LB & Lr & E1 & A & Rd2 & Nil). rewrite LB.
    assert (EQ : (if queryNum u =? 0 then Ok (outQueryBase u) else Ocall_QueryBaseIndex env (length B2) (outQueryBase u)) = Ok (q' ++ rest)).
    { case_if; [|exact E1]. boolz. rewrite E0 in LB. destruct B2; [|done]. apply Forall2_nil_inv_r in A as ->. by rewrite Nil. }
    rewrite EQ. cbn [rbind]. destruct L as [L0 L1 L2]. pose proof (new_ids_given (names B2) r'). unfold CONTAINER_CAPPING_VALUE, CONTAINER_ID_LENGTH in *.
    destruct (resolve_bases_ok q' B2 rest (ids u) r' A Rd2 (pd_ids _ _ _ _ Pd)) as (q'' & j & bs & -> & _ & Nj & X & Fb).
    { unfold CONTAINER_ID_LENGTH. rewrite W in *. lia. }
    cbn [rbind]. pose proof (pd_entries _ _ _ _ Pd) as En.
    destruct (fetch_and_restore_ok true P (with_entries (with_ids (with_queries u (q'' ++ rest) 0) j)
      (e :: es) (_baseRecipeBuffer u ++ bs)) E xs _ Co Nj) as (req & d & n & m & Er & _ & _ & Out); cbn [ids reqState _enclaveRecipeBuffer _baseRecipeBuffer with_entries with_ids with_queries]; try done.
    { rewrite (nu_given _ _ Nj), W in *. lia. } { rewrite <- Ee. by eapply refers_all. }
    { rewrite EB. apply Forall2_app; [by eapply refers_all|done]. }
    rewrite Er. eexists. split; [reflexivity|]. rewrite bool_decide_false in Out; [exact Out|].
    intros ->. rewrite Ee in En. by apply Forall2_nil_inv_r in En.
Qed.

(** ** A batch of fingerprints *)

Lemma AESCMC_blen o data key d : IndexAESCMCEnc o data key = Ok d -> blen d = blen data.
Proof.
  unfold IndexAESCMCEnc, AESCBCEnc. intros X. inv_bind X.
  rewrite (same_size_blen _ _ _ X), reverseBytes_reverse. unfold blen. rewrite length_reverse.
  apply same_size_blen in E. unfold blen in E. lia.
Qed.

Definition hash_sized (l : bytes) : Prop := blen l = CHUNK_HASH_SIZE.
Lemma head_slice (fp rest : bytes) : hash_sized fp -> slice (fp ++ rest) 0 CHUNK_HASH_SIZE = fp.
Proof. unfold hash_sized. intros L. rewrite <- L, slice_app_l by (pose proof (blen_nonneg fp); lia). apply slice_full. Qed.
Lemma head_drop (fp rest : bytes) : hash_sized fp -> drop (Z.to_nat CHUNK_HASH_SIZE) (fp ++ rest) = rest.
Proof. intros L. apply drop_app_length'. unfold hash_sized, blen in L. lia. Qed.

Lemma crypt_hashes_ok fps keys :
  Forall hash_sized fps -> Forall2 (fun fp k => IndexAESCMCEnc (cryptoObj_ env) fp (indexQueryKey_ env) = Ok k) fps keys ->
  crypt_hashes env (length fps) (concat fps) = Ok (concat keys).
Proof.
  intros L F. induction F as [|fp k fps keys E _ IH]; [done|]. inversion L as [|? ? L1 L2]; subst.
  cbn [length concat crypt_hashes]. rewrite head_slice, head_drop, E by done. cbn [rbind]. by rewrite IH.
Qed.

Lemma ReadIndexStoreBatch_ok keys vs v0 :
  Forall hash_sized keys -> Forall2 (fun k v => QueryBuffer (indexStoreObj_ env) k CHUNK_HASH_SIZE = Some v) keys vs ->
  Ocall_ReadIndexStoreBatch env (length keys) (concat keys) v0 = concat vs.
Proof.
  intros L F. revert v0. induction F as [|k v keys vs E _ IH]; intros v0; [done|]. inversion L as [|? ? L1 L2]; subst.
  cbn [length concat Ocall_ReadIndexStoreBatch]. unfold QueryBuffer in *. rewrite head_slice, head_drop by done.
  rewrite <- (head_slice k []), app_nil_r, E by done. cbn [default]. by rewrite IH.
Qed.

Lemma slice_concat (n : Z) (vs : list bytes) i v :
  Forall (fun v => blen v = n) vs -> vs !! i = Some v -> slice (concat vs) (Z.of_nat i * n) n = v.
Proof.
  intros L. revert i. induction L as [|w vs Lw _ IH]; intros i Hi; [done|]. cbn [concat].
  pose proof (blen_nonneg w). destruct i as [|i].
  - injection Hi as ->. rewrite <- Lw, slice_app_l by lia. apply slice_full.
  - cbn in Hi. rewrite slice_app_r by lia. transitivity (slice (concat vs) (Z.of_nat i * n) n); [f_equal; lia|by apply IH].
Qed.

Lemma concat_blen (n : Z) (vs : list bytes) : Forall (fun v => blen v = n) vs -> blen (concat vs) = blen vs * n.
Proof. induction 1 as [|v vs Hv _ IH]; [done|]. cbn [concat]. rewrite blen_app, blen_cons. lia. Qed.

(** A fingerprint of the file recipe and the chunk it stands for. *)
Record recoverable (fp x : bytes) : Prop := {
  rc_size : hash_sized fp;
  rc_chunk : original_chunk fp = Ok x;
  rc_small : small x
}.
(** One that [slots] identifiers are always enough for. *)
Record restorable (slots : Z) (fp x : bytes) : Prop := {
  rs_recoverable :> recoverable fp x;
  rs_ids : forall r, recipe_of fp = Ok r -> ids_needed r <= slots
}.

(** What the index gives for it, decrypted. *)
Record resolved (fp k v a : bytes) (it : item) (x : bytes) : Prop := {
  rv_recipe : recipe_of fp = Ok (recipe_get a);
  rv_key : IndexAESCMCEnc (cryptoObj_ env) fp (indexQueryKey_ env) = Ok k;
  rv_value : QueryBuffer (indexStoreObj_ env) k CHUNK_HASH_SIZE = Some v;
  rv_size : blen v = sizeof_RecipeEntry;
  rv_addr : AESCBCDec (cryptoObj_ env) v (indexQueryKey_ env) = Ok a;
  rv_item : item_of (recipe_get a) = Ok it;
  rv_chunk : item_chunk it = Ok x
}.
Lemma recoverable_resolved fp x : recoverable fp x -> exists k v a it, resolved fp k v a it x.
Proof.
  intros [S C _]. unfold original_chunk in C. inv_bind C. pose proof E as E0. unfold recipe_of in E. inv_bind E.
  destruct (lookup_recipe_ok _ _ E) as (v & b & Q & L & D & -> & _). inv_bind C. exists a0, v, b, a. by split.
Qed.

Lemma resolved_all fps xs : Forall2 recoverable fps xs ->
  exists keys vs its, Forall2 (fun fp k => IndexAESCMCEnc (cryptoObj_ env) fp (indexQueryKey_ env) = Ok k) fps keys /\
    Forall2 (fun k v => QueryBuffer (indexStoreObj_ env) k CHUNK_HASH_SIZE = Some v) keys vs /\
    Forall hash_sized fps /\ Forall hash_sized keys /\ Forall (fun v => blen v = sizeof_RecipeEntry) vs /\ length vs = length fps /\
    items fps = Ok its /\ length its = length fps /\
    (forall i v it x, vs !! i = Some v -> its !! i = Some it -> xs !! i = Some x -> exists fp k a, resolved fp k v a it x).
Proof.
  induction 1 as [|fp x fps xs R _ (keys & vs & its & F1 & F2 & S1 & S2 & S3 & L & EI & LI & IH)].
  - exists [], [], []. repeat (split; [constructor|]). done.
  - destruct (recoverable_resolved _ _ R) as (k & v & a & it & Rv). exists (k :: keys), (v :: vs), (it :: its).
    pose proof (rc_size _ _ R). pose proof Rv as [Rr K V Sv A I C]. split; [by constructor|]. split; [by constructor|].
    split; [by constructor|]. split; [constructor; [unfold hash_sized in *; by rewrite (AESCMC_blen _ _ _ _ K)|done]|].
    split; [by constructor|]. split; [cbn; lia|]. split; [cbn [items]; rewrite Rr; cbn [rbind]; rewrite I; cbn [rbind]; by rewrite EI|].
    split; [cbn; lia|]. intros [|i] w jt y; cbn; [|apply IH]. intros [= <-] [= <-] [= <-]. by exists fp, k, a.
Qed.

(** A loop whose turns follow the count follows it as a whole. *)
Lemma forM_follows slots body its xs : length xs = length its ->
  (forall i t cs r it x, its !! i = Some it -> xs !! i = Some x -> going slots t cs r -> low r ->
     forall j, j = Z.of_nat i -> follows slots (body j t) (cs ++ [x]) (settle slots (enter r it))) ->
  forall s cs r, going slots s cs r -> low r -> follows slots (forM (length its) 0 body s) (cs ++ xs) (turns slots its r).
Proof.
  intros Lx Hb. assert (G : forall k, Forall2 (fun _ _ => True) its xs -> forall s cs r, going slots s cs r -> low r ->
    (forall i t cs r it x, its !! i = Some it -> xs !! i = Some x -> going slots t cs r -> low r ->
     follows slots (body (k + Z.of_nat i) t) (cs ++ [x]) (settle slots (enter r it))) ->
    follows slots (forM (length its) k body s) (cs ++ xs) (turns slots its r)).
  { clear Lx Hb. intros k F. revert k. induction F as [|it x its xs _ _ IH]; intros k s cs r G L Hb; cbn [length forM turns].
    - exists s. by rewrite app_nil_r.
    - pose proof (Hb O s cs r it x eq_refl eq_refl G L) as H1. change (Z.of_nat 0) with 0 in H1. rewrite Z.add_0_r in H1.
      destruct (settle slots (enter r it)) as [r1|]; [|cbn in H1 |- *; by rewrite H1].
      destruct H1 as (t & -> & G1 & L1). cbn [rbind]. replace (cs ++ x :: xs) with ((cs ++ [x]) ++ xs) by (by rewrite <- app_assoc).
      apply IH; [done..|]. intros i u cs' r' it' x' Hi Hx. replace (k + 1 + Z.of_nat i) with (k + Z.of_nat (S i)) by lia. by apply Hb. }
  intros s cs r Gs L. apply G; [by apply Forall2_true|done|done|]. intros i t cs' r' it x Hi Hx Gt Lt. by eapply Hb.
Qed.

Lemma ProcRecipeBatch_ok slots buf fps xs s cs r :
  16 <= slots -> DecryptWithKey (cryptoObj_ env) buf (_masterKey env) = Ok (concat fps) -> blen buf = blen fps * CHUNK_HASH_SIZE ->
  Forall2 recoverable fps xs -> going slots s cs r -> low r ->
  exists its, items fps = Ok its /\ length its = length fps /\
    follows slots (ProcRecipeBatch env buf (blen fps) s) (cs ++ xs) (turns slots its (forget r)).
Proof.
  intros H16 D Lb F G B. unfold ProcRecipeBatch. rewrite <- Lb, slice_full, D. cbn [rbind].
  apply clear_map_ok in G. apply forget_low in B.
  destruct (resolved_all _ _ F) as (keys & vs & its & F1 & F2 & S1 & S2 & S3 & Lv & EI & LI & R). exists its. split; [done|]. split; [done|].
  pose proof (Forall2_length _ _ _ F) as Lx.
  replace (Z.to_nat (blen fps)) with (length fps) by (unfold blen; lia).
  rewrite (crypt_hashes_ok _ _ S1 F1). cbn [rbind]. rewrite (Forall2_length _ _ _ F1), (ReadIndexStoreBatch_ok _ _ _ S2 F2), <- (Forall2_length _ _ _ F1).
  rewrite <- LI. apply forM_follows; [lia| |done|done]. clear s cs r G B. intros i t cs r it x Hit Hx Gt Lt j ->.
  destruct (lookup_lt_is_Some_2 vs i) as [v Hv]; [apply lookup_lt_Some in Hx; lia|].
  destruct (R _ _ _ _ Hv Hit Hx) as (fp & k & a & [_ K V Sv A I C]).
  assert (Hc : (Z.of_nat i + 1) * sizeof_RecipeEntry <= blen (concat vs)).
  { rewrite (concat_blen sizeof_RecipeEntry vs S3). apply lookup_lt_Some in Hv. unfold blen, sizeof_RecipeEntry. lia. }
  rewrite (proj2 (Z.ltb_ge _ _)) by done. rewrite (slice_concat _ _ _ _ S3 Hv).
  apply (take_going slots v a t cs it x r A); try done.
  - apply same_size_blen in A. lia.
  - destruct (Forall2_lookup_r _ _ _ _ _ F Hx) as (fp' & _ & Rc). apply Rc.
Qed.

(** ** The session *)

Definition encrypted (fps : list bytes) (enc : bytes) : Prop :=
  EncryptWithKey (cryptoObj_ env) (concat fps) (_masterKey env) = Ok enc.

Lemma encrypted_ok fps xs enc :
  encrypted fps enc -> Forall2 recoverable fps xs ->
  DecryptWithKey (cryptoObj_ env) enc (_masterKey env) = Ok (concat fps) /\ blen enc = blen fps * CHUNK_HASH_SIZE.
Proof.
  intros E F. destruct (Key_ok (cryptoObj_ env) (concat fps) (_masterKey env)) as (d & E' & L & D).
  unfold encrypted in E. rewrite E in E'. injection E' as <-. split; [done|].
  rewrite <- (concat_blen CHUNK_HASH_SIZE fps); [unfold blen; lia|]. clear -F. induction F as [|fp x fps xs R _ IH]; constructor; [apply R|done].
Qed.

Lemma session_going slots :
  0 <= slots <= CONTAINERARRAY_VALUE -> going slots (session slots 64) [] new_round.
Proof.
  intros Hs. unfold CONTAINERARRAY_VALUE, CONTAINER_ID_LENGTH in *. split; cbn -[replicate].
  - exists []. split; [|constructor]. apply (init_refines 64). lia.
  - unfold blen. rewrite length_replicate. unfold CONTAINERARRAY_VALUE. lia.
  - unfold blen. rewrite length_replicate. unfold CONTAINER_ID_LENGTH. lia.
  - lia.
  - exists [], [], []. split; [done|]. split; [|split; [constructor|]].
    + split; cbn; [apply numbering_empty|constructor|exists [], []; by repeat constructor|constructor|done|done|done].
    + exists [], []. repeat (split; [by constructor|]). cbn. rewrite blen_nil. split; [lia|constructor].
Qed.

(** A file recipe as the upload writes it: every full batch of fingerprints is encrypted
    by itself, and so is the incomplete one at the end, which may be empty. *)
Inductive recipe_file : list bytes -> bytes -> Prop :=
| rf_last fps enc : encrypted fps enc -> blen fps < sendRecipeBatchSize_ env -> recipe_file fps enc
| rf_batch fps enc rest file : encrypted fps enc -> blen fps = sendRecipeBatchSize_ env ->
    recipe_file rest file -> recipe_file (fps ++ rest) (enc ++ file).

Lemma batch_entries (fps : list bytes) : blen fps * 32 / 32 = blen fps.
Proof. apply Z.div_mul. done. Qed.

Lemma items_app fps fps' its its' : items fps = Ok its -> items fps' = Ok its' -> items (fps ++ fps') = Ok (its ++ its').
Proof.
  intros E E'. revert its E. induction fps as [|fp fps IH]; intros its E; cbn [items app] in *; [by injection E as <-|].
  inv_bind E. inv_bind E. inv_bind E. injection E as <-. rewrite E0. cbn [rbind]. rewrite E1. cbn [rbind]. by rewrite (IH _ E2).
Qed.
Lemma items_ok fps xs : Forall2 recoverable fps xs -> exists its, items fps = Ok its.
Proof. intros F. destruct (resolved_all _ _ F) as (_ & _ & its & _ & _ & _ & _ & _ & _ & E & _). by exists its. Qed.

(** The whole session, from any batch on: the chunks, or an identifier too many. *)
Lemma Run_going slots fuel file fps xs s cs r k :
  16 <= slots -> 0 < sendRecipeBatchSize_ env -> recipe_file fps file -> (length file < fuel)%nat ->
  Forall2 recoverable fps xs -> going slots s cs r -> low r -> k mod sendRecipeBatchSize_ env = 0 ->
  exists its, items fps = Ok its /\
    if fit slots (sendRecipeBatchSize_ env) k its r then exists t, Run env fuel file s = Ok t /\ finished t (cs ++ xs)
    else Run env fuel file s = Err Undefined.
Proof.
  intros H16 HB RF. revert fuel xs s cs r k. induction RF as [fps enc E Hlt|fps enc rest file E Hfull RF IH];
    intros fuel xs s cs r k Hf F G L Hk; (destruct fuel as [|fuel]; [lia|]); cbn [Run].
  - destruct (encrypted_ok _ _ _ E F) as [D Le]. change CHUNK_HASH_SIZE with 32 in *. pose proof (blen_nonneg fps).
    assert (S : slice enc 0 (32 * sendRecipeBatchSize_ env) = enc) by (apply take_ge; unfold blen in *; lia).
    rewrite S, Le. case_if.
    + assert (length fps = 0)%nat as ->%nil_length_inv by (unfold blen in *; lia). apply Forall2_nil_inv_l in F as ->.
      exists []. split; [done|]. cbn [fit]. rewrite app_nil_r. by eapply ProcRecipeTailBatch_ok.
    + rewrite (batch_entries fps). destruct (ProcRecipeBatch_ok slots enc fps xs s cs r H16 D Le F G L) as (its & EI & LI & Fo).
      exists its. split; [done|]. boolz. pose proof (fit_batch slots (sendRecipeBatchSize_ env) its [] k r HB Hk) as FB.
      rewrite app_nil_r in FB. rewrite FB by (unfold blen in *; lia). destruct its as [|it its]; [unfold blen in *; cbn in LI; lia|].
      destruct (turns slots (it :: its) (forget r)) as [r'|]; [|by rewrite Fo]. destruct Fo as (t & -> & G' & L').
      cbn [rbind fit]. rewrite (proj2 (Z.ltb_lt _ _)) by lia. by eapply ProcRecipeTailBatch_ok.
  - apply Forall2_app_inv_l in F as (xs1 & xs2 & F1 & F2 & ->). destruct (encrypted_ok _ _ _ E F1) as [D Le].
    change CHUNK_HASH_SIZE with 32 in *. pose proof (blen_nonneg fps).
    assert (S : slice (enc ++ file) 0 (32 * sendRecipeBatchSize_ env) = enc).
    { rewrite slice_app_l by lia. apply take_ge. unfold blen in *. lia. }
    assert (S' : drop (Z.to_nat (32 * sendRecipeBatchSize_ env)) (enc ++ file) = file).
    { apply drop_app_length'. unfold blen in *. lia. }
    rewrite S, S', Le, (proj2 (Z.eqb_neq _ _)) by lia. rewrite (batch_entries fps).
    destruct (ProcRecipeBatch_ok slots enc fps xs1 s cs r H16 D Le F1 G L) as (its & EI & LI & Fo). destruct (items_ok _ _ F2) as (its2 & EI2).
    exists (its ++ its2). split; [by apply items_app|]. rewrite (fit_batch slots _ its its2 k r HB Hk) by (unfold blen in *; lia).
    destruct its as [|it its]; [unfold blen in *; cbn in LI; lia|].
    destruct (turns slots (it :: its) (forget r)) as [r'|]; [|by rewrite Fo]. destruct Fo as (t & -> & G' & L').
    cbn [rbind]. rewrite (proj2 (Z.ltb_ge _ _)) by lia. rewrite app_assoc.
    destruct (IH fuel xs2 t (cs ++ xs1) r' (k + blen (it :: its))) as (its2' & EI2' & Res); try done.
    + rewrite length_app in Hf. unfold blen in *. lia.
    + replace (blen (it :: its)) with (sendRecipeBatchSize_ env) by (unfold blen in *; lia). rewrite Zplus_mod, Hk, Z.mod_same by lia. done.
    + rewrite EI2 in EI2'. by injection EI2' as <-.
Qed.
Lemma Run_session slots fps xs file :
  16 <= slots <= CONTAINERARRAY_VALUE -> 0 < sendRecipeBatchSize_ env -> recipe_file fps file -> Forall2 recoverable fps xs ->
  if ids_fit slots fps then exists s, Run env (S (length file)) file (session slots 64) = Ok s /\ finished s xs
  else Run env (S (length file)) file (session slots 64) = Err Undefined.
Proof.
  intros Hs HB RF F. pose proof (session_going slots ltac:(lia)) as G.
  destruct (Run_going slots (S (length file)) file fps xs (session slots 64) [] new_round 0) as (its & EI & Res); [lia|done|done|lia|done|done|apply new_round_low|done|].
  unfold ids_fit. by rewrite EI.
Qed.
(** What a recipe file gives back, with the program's buffers: it lists the fingerprints
    of the chunks, and a restore sends these, if the count of the identifiers says that
    the buffer for them is large enough; if not, one is written past its end. *)
Definition gives_back (file : bytes) (xs : list bytes) : Prop :=
  exists fps, Forall2 (fun fp x => GenerateHash (cryptoObj_ env) x = Ok fp) fps xs /\ recipe_file fps file /\
    if ids_fit CONTAINER_CAPPING_VALUE fps
    then exists s, Run env (S (length file)) file (InitRestoreBuffer 64) = Ok s /\ finished s xs
    else Run env (S (length file)) file (InitRestoreBuffer 64) = Err Undefined.
Lemma recoverable_gives_back fps xs file :
  0 < sendRecipeBatchSize_ env -> recipe_file fps file -> Forall2 (fun fp x => GenerateHash (cryptoObj_ env) x = Ok fp) fps xs ->
  Forall2 recoverable fps xs -> gives_back file xs.
Proof. intros HB RF Hh F. exists fps. split; [done|]. split; [done|]. by apply (Run_session CONTAINER_CAPPING_VALUE). Qed.

(** One identifier more than the program has is always enough; the program's are when
    no chunk is a delta chunk. *)
Lemma ids_fit_needed slots fps xs : Forall2 recoverable fps xs ->
  (forall fp r, fp ∈ fps -> recipe_of fp = Ok r -> ids_needed r <= slots) -> ids_fit slots fps = true.
Proof.
  intros F HI. unfold ids_fit. destruct (items_ok _ _ F) as (its & EI). rewrite EI. apply fit_reach; [apply new_round_low|].
  clear F xs. revert its EI. induction fps as [|fp fps IH]; intros its EI; cbn [items] in EI; [injection EI as <-; constructor|].
  inv_bind EI. inv_bind EI. inv_bind EI. injection EI as <-. constructor.
  - rewrite (reach_needed _ _ E0). apply (HI fp); [apply list_elem_of_here|done].
  - apply IH; [|done]. intros fp' r' Hin. apply HI. by apply list_elem_of_further.
Qed.
End spec.

(** C5. A restore gives the file back: whatever the batches, the order in which
    containers fill up, the sharing of containers and the state of the read cache, the
    messages a client receives open, with the session key, to the chunks of the file
    recipe in order, each the chunk its fingerprint stands for (looked up, decrypted,
    decompressed, rebuilt from its base); every message but the last has exactly a
    batch of chunks, and only the last one says that it is the last. *)
Theorem Run_ok `{EVPLaws} `{LZ4} (env : Setting) (slots : Z) (fps chunks : list bytes) (file : bytes) :
  0 < sendChunkBatchSize_ env < 2 ^ 32 -> 0 < sendRecipeBatchSize_ env -> 16 <= slots <= CONTAINERARRAY_VALUE ->
  recipe_file env fps file -> Forall2 (restorable env slots) fps chunks ->
  exists s, Run env (S (length file)) file (session slots 64) = Ok s /\ finished env s chunks.
Proof.
  intros Hb HB Hs RF F. assert (Fr : Forall2 (recoverable env) fps chunks) by (eapply Forall2_impl; [exact F|by intros ? ? []]).
  pose proof (Run_session env Hb slots fps chunks file Hs HB RF Fr) as R. rewrite (ids_fit_needed env slots fps chunks Fr) in R; [done|].
  intros fp r (i & Hi)%list_elem_of_lookup. destruct (Forall2_lookup_l _ _ _ _ _ F Hi) as (x & _ & [_ I]). apply I.
Qed.

(** ** A session to run *)

(** An LZ4 for examples: a block starts with 200 and stands for copies of its second
    byte. *)
Definition toy_lz4 : LZ4 := {|
  LZ4_decompress_safe := fun src cap =>
    match src with 200 :: b :: n :: _ => if n <=? cap then Some (replicate (Z.to_nat n) b) else None | _ => None end;
  LZ4_compress_fast := fun src cap =>
    match src with
    | b :: _ => if bool_decide (src = replicate (length src) b) && (3 <? blen src) && (3 <=? cap) then Some [200; b; blen src] else None
    | [] => None
    end |}.
Definition toy_crypto : EcallCrypto := EcallCrypto_init AES_256_GCM SHA_256.
Definition value {A} (d : A) (r : result A) : A := match r with Ok a => a | Err _ => d end.

Definition toy_fp (i : Z) : bytes := i :: replicate 31 7.
Definition toy_name (i : Z) : bytes := i :: replicate 6 65.
Definition toy_index_key (fp : bytes) : bytes := value [] (@IndexAESCMCEnc toy_evp toy_crypto fp [3]).
(** A stored chunk: its number, which names its fingerprint and its container, its
    content, and the number of its base if it is a delta. *)
Definition toy_recipe (i : Z) (content : bytes) (base : option Z) : RecipeEntry_t :=
  mk_recipe (toy_name i) (if base is Some _ then DELTA else NO_DELTA) 0 (blen content)
    (match base with Some b => toy_index_key (toy_fp b) | None => replicate 32 0 end) (replicate 96 0).
Definition toy_body (content : bytes) : bytes :=
  replicate 272 0 ++ value [] (@EncryptWithKeyIV toy_evp toy_crypto content [5] (replicate 16 9)) ++ replicate 16 9.
Definition toy_setting (chunks : list (Z * bytes * option Z)) : Setting := {|
  cryptoObj_ := toy_crypto; indexQueryKey_ := [3]; enclaveKey_ := [5]; _masterKey := [8]; _sessionKey := [11];
  sendChunkBatchSize_ := 2; sendRecipeBatchSize_ := 3;
  containers := {|
    base_dir := list_to_map (map (fun '(i, c, _) => (toy_name i, toy_body c)) chunks); delta_dir := ∅ |};
  indexStoreObj_ := set_index empty_store (list_to_map (map (fun '(i, c, b) =>
    (toy_index_key (toy_fp i), value [] (@AESCBCEnc toy_evp toy_crypto (recipe_put (toy_recipe i c b)) [3]))) chunks)) |}.
Definition toy_batch (l : list Z) : bytes := value [] (@EncryptWithKey toy_evp toy_crypto (concat (map toy_fp l)) [8]).

(** A delta chunk on the compressed chunk 2, and a chunk that is stored as it is. *)
Definition toy_delta : bytes := [3; 0; 0; 0; 1; 0; 0; 0; 2; 0; 0; 128; 70; 80].
Definition toy_env : Setting := toy_setting [(1, [10; 20; 30], None); (2, [200; 4; 6], None); (3, toy_delta, Some 2)].

Lemma toy_restorable i x :
  @original_chunk toy_evp toy_lz4 toy_env (toy_fp i) = Ok x -> blen x <= MAX_CHUNK_SIZE ->
  @restorable toy_evp toy_lz4 toy_env 17 (toy_fp i) x.
Proof. intros E L. split; [split; [reflexivity|exact E|exact L]|]. intros r _. unfold ids_needed. case_if; lia. Qed.

Lemma Run_ok_witness :
  exists s, @Run toy_evp toy_lz4 toy_env 129 (toy_batch [3; 1; 2] ++ toy_batch [3]) (session 17 64) = Ok s /\
    @finished toy_evp toy_env s [[4; 4; 4; 70; 80]; [10; 20; 30]; [4; 4; 4; 4; 4; 4]; [4; 4; 4; 70; 80]].
Proof.
  apply (@Run_ok toy_evp toy_laws toy_lz4 toy_env 17 (map toy_fp [3; 1; 2] ++ map toy_fp [3])
    [[4; 4; 4; 70; 80]; [10; 20; 30]; [4; 4; 4; 4; 4; 4]; [4; 4; 4; 70; 80]] (toy_batch [3; 1; 2] ++ toy_batch [3]));
    [by_decide|by_decide|by_decide| |].
  - apply rf_batch; [reflexivity|reflexivity|]. apply rf_last; [reflexivity|by_decide].
  - cbn [map app]. repeat apply Forall2_cons_2; try apply Forall2_nil_2; (apply toy_restorable; [vm_compute; reflexivity|by_decide]).
Defined.

(** Fifteen chunks in containers of their own, then a delta chunk whose base is in a
    seventeenth container. *)
Definition wide_env : Setting :=
  toy_setting (map (fun i => (i, [i; i; i; i; i], None)) [1; 2; 3; 4; 5; 6; 7; 8; 9; 10; 11; 12; 13; 14; 15; 17] ++ [(16, toy_delta, Some 17)]).
Definition wide_file : bytes :=
  toy_batch [1; 2; 3] ++ toy_batch [4; 5; 6] ++ toy_batch [7; 8; 9] ++ toy_batch [10; 11; 12] ++ toy_batch [13; 14; 15] ++ toy_batch [16].

(** C6. A restore with the program's own buffers, exactly.  [InitRestoreBuffer] has slots
    for 16 identifiers and the cap of 16 is only tested after a delta chunk has brought
    its own container and, with it, the one of its base.  Whatever the file recipe, its
    batches and the containers: when the count [ids_fit] of the identifiers, which looks
    at the names of the containers only, says that they stay within 16, the restore gives
    exactly the chunks of the recipe; and when it does not, a seventeenth identifier is
    written past the end of the buffer. *)
Theorem InitRestoreBuffer_exact `{EVPLaws} `{LZ4} (env : Setting) (fps chunks : list bytes) (file : bytes) :
  0 < sendChunkBatchSize_ env < 2 ^ 32 -> 0 < sendRecipeBatchSize_ env ->
  recipe_file env fps file -> Forall2 (recoverable env) fps chunks ->
  if ids_fit env CONTAINER_CAPPING_VALUE fps
  then exists s, Run env (S (length file)) file (InitRestoreBuffer 64) = Ok s /\ finished env s chunks
  else Run env (S (length file)) file (InitRestoreBuffer 64) = Err Undefined.
Proof. intros Hb HB. by apply (Run_session env Hb CONTAINER_CAPPING_VALUE). Qed.

Lemma toy_recoverable env i x :
  @original_chunk toy_evp toy_lz4 env (toy_fp i) = Ok x -> blen x <= MAX_CHUNK_SIZE -> @recoverable toy_evp toy_lz4 env (toy_fp i) x.
Proof. intros E L. by split. Qed.

(** Both outcomes. *)
Lemma InitRestoreBuffer_exact_witness :
  (exists s, @Run toy_evp toy_lz4 toy_env 129 (toy_batch [3; 1; 2] ++ toy_batch [3]) (InitRestoreBuffer 64) = Ok s /\
    @finished toy_evp toy_env s [[4; 4; 4; 70; 80]; [10; 20; 30]; [4; 4; 4; 4; 4; 4]; [4; 4; 4; 70; 80]]) /\
  @Run toy_evp toy_lz4 wide_env 513 wide_file (InitRestoreBuffer 64) = Err Undefined.
Proof.
  split.
  - apply (@InitRestoreBuffer_exact toy_evp toy_laws toy_lz4 toy_env (map toy_fp [3; 1; 2] ++ map toy_fp [3])
      [[4; 4; 4; 70; 80]; [10; 20; 30]; [4; 4; 4; 4; 4; 4]; [4; 4; 4; 70; 80]] (toy_batch [3; 1; 2] ++ toy_batch [3])); [by_decide|by_decide| |].
    + apply rf_batch; [reflexivity|reflexivity|]. apply rf_last; [reflexivity|by_decide].
    + cbn [map app]. repeat apply Forall2_cons_2; try apply Forall2_nil_2; (apply toy_recoverable; [vm_compute; reflexivity|by_decide]).
  - apply (@InitRestoreBuffer_exact toy_evp toy_laws toy_lz4 wide_env
      (map toy_fp [1; 2; 3] ++ map toy_fp [4; 5; 6] ++ map toy_fp [7; 8; 9] ++ map toy_fp [10; 11; 12] ++ map toy_fp [13; 14; 15] ++ map toy_fp [16])
      (map (fun i => [i; i; i; i; i]) [1; 2; 3; 4; 5; 6; 7; 8; 9; 10; 11; 12; 13; 14; 15] ++ [[17; 17; 17; 70; 80]]) wide_file); [by_decide|by_decide| |].
    + repeat (apply rf_batch; [reflexivity|reflexivity|]). apply rf_last; [reflexivity|by_decide].
    + cbn [map app]. repeat apply Forall2_cons_2; try apply Forall2_nil_2; (apply toy_recoverable; [vm_compute; reflexivity|by_decide]).
Defined.
