(* ===== verification/SuperFeature.v ===== *)
(** The super-features of a chunk ([mt_n_get] and [getSF2] of ecallIndex/ecallFreqIndex.cc,
    the same text in ecallMeGA.cc): twelve features, each the largest rolling fingerprint
    of a twelfth of the chunk, sorted in groups and hashed into three super-features. *)
From Stdlib Require Import ZArith Lia.
From stdpp Require Import base list sorting.
From S2P Require Import Prelude Types Crypto.

(** ** [mt_n_get]: the first outputs of the Mersenne twister *)

Definition INIT (r off : Z) : Z := u32 (u32 (1812433253 * Z.lxor r (Z.shiftr r 30)) + off).

(** [arr[from] = first; arr[i] = INIT(arr[i - 1], i + shift)] for the next [n] places. *)
Fixpoint init_arr (n : nat) (i : Z) (r : Z) : list Z :=
  match n with
  | O => [r]
  | S n => r :: init_arr n (i + 1) (INIT r i)
  end.
(** [for (i = from; i < from + n; i++) INIT(temp, temp, i + 1)]. *)
Fixpoint init_run (n : nat) (i : Z) (temp : Z) : Z :=
  match n with
  | O => temp
  | S n => init_run n (i + 1) (INIT temp (i + 1))
  end.

Definition twist (upper lower last : Z) : Z :=
  let temp := u32 (Z.land upper 2147483648 + Z.land lower 2147483647) in
  let x := Z.lxor (Z.shiftr temp 1) last in
  if temp mod 2 =? 0 then x else Z.lxor x 2567483615.
Definition temper (y : Z) : Z :=
  let y := Z.lxor y (Z.shiftr y 11) in
  let y := Z.lxor y (Z.land (u32 (Z.shiftl y 7)) 2636928640) in
  let y := Z.lxor y (Z.land (u32 (Z.shiftl y 15)) 4022730752) in
  Z.lxor y (Z.shiftr y 18).

Fixpoint mt_loop (n : nat) (head_arr last_arr : list Z) : list Z :=
  match n, head_arr, last_arr with
  | S n, h :: ((h' :: _) as rest), l :: last_arr => temper (twist h h' l) :: mt_loop n rest last_arr
  | _, _, _ => []
  end.
Definition mt_n_get (seed : Z) (n : nat) : list Z :=
  let head_arr := init_arr n 1 seed in
  let temp := init_run (397 - n) (Z.of_nat n) (List.last head_arr 0) in
  let last_arr := init_arr n 398 temp in
  mt_loop n head_arr last_arr.

(** ** [getSF2] *)

Definition WINDOW_SIZE : Z := 48.
Definition SF_NUM : nat := 3.
Definition FEATURE_NUM : nat := 12.
Definition A : Z := 37.
Definition MOD : Z := 1000000007.

Fixpoint apower (n : nat) (p : Z) : Z :=
  match n with O => p | S n => apower n (u64 (p * A) mod MOD) end.
Definition Apower : Z := apower (Z.to_nat WINDOW_SIZE - 1) 1.

Definition subchunkIndex (chunkSize : Z) (i : nat) : Z := chunkSize * Z.of_nat i / Z.of_nat FEATURE_NUM.

(** The fingerprint of the [n] bytes from [j] on, started from [fp]. *)
Fixpoint window_fp (n : nat) (ptr : bytes) (j : Z) (fp : Z) : Z :=
  match n with
  | O => fp
  | S n => window_fp n ptr (j + 1) ((fp * A + rd ptr j) mod MOD)
  end.
(** [while (fp < 0) fp += MOD]: the subtraction leaves more than [- MOD], so one
    round is enough. *)
Fixpoint add_mod (fuel : nat) (fp : Z) : Z :=
  match fuel with
  | O => fp
  | S fuel => if fp <? 0 then add_mod fuel (fp + MOD) else fp
  end.
(** The second loop, [n] turns from [j] on; [last] is the last window's start. *)
Fixpoint roll (n : nat) (ptr : bytes) (j last fp feature : Z) : Z :=
  match n with
  | O => feature
  | S n =>
    let feature := if feature <? fp then fp else feature in
    let fp := add_mod 2 (fp - u64 (rd ptr j * Apower) mod MOD) in
    let fp := if j =? last then fp else (fp * A + rd ptr (j + WINDOW_SIZE)) mod MOD in
    roll n ptr (j + 1) last fp feature
  end.
Definition feature (ptr : bytes) (chunkSize : Z) (i : nat) : Z :=
  let from := subchunkIndex chunkSize i in
  let last := subchunkIndex chunkSize (S i) - WINDOW_SIZE in
  roll (Z.to_nat (last + 1 - from)) ptr from last (window_fp (Z.to_nat WINDOW_SIZE) ptr from 0) 0.

Fixpoint groups (n : nat) (l : list Z) : list (list Z) :=
  match n with
  | O => []
  | S n => merge_sort Z.le (take SF_NUM l) :: groups n (drop SF_NUM l)
  end.
(** The four values that make one super-feature, as 64-bit words. *)
Definition sf_input (sorted : list (list Z)) (i : nat) : bytes := concat (map (fun g => le_bytes 8 (nth i g 0)) sorted).

Section sf.
Context `{EVP}.
Definition getSF2 (o : EcallCrypto) (ptr : bytes) (chunkSize : Z) : result bytes :=
  let features := map (feature ptr chunkSize) (seq 0 FEATURE_NUM) in
  let sorted := groups (FEATURE_NUM / SF_NUM) features in
  a <-- GenerateHash o (sf_input sorted 0) ;;
  b <-- GenerateHash o (sf_input sorted 1) ;;
  c <-- GenerateHash o (sf_input sorted 2) ;;
  Ok (a ++ b ++ c).
End sf.

(** ** The twister *)

(** The state words of the Mersenne twister with this seed. *)
Fixpoint mt_state (seed : Z) (k : nat) : Z :=
  match k with O => seed | S k => INIT (mt_state seed k) (Z.of_nat (S k)) end.
Definition mt_output (seed : Z) (i : nat) : Z :=
  temper (twist (mt_state seed i) (mt_state seed (S i)) (mt_state seed (i + 397))).

Lemma init_arr_state seed n k : init_arr n (Z.of_nat (S k)) (mt_state seed k) = map (mt_state seed) (seq k (S n)).
Proof.
  revert k. induction n as [|n IH]; intros k; [done|]. cbn [init_arr seq map]. f_equal.
  replace (Z.of_nat (S k) + 1) with (Z.of_nat (S (S k))) by lia.
  change (INIT (mt_state seed k) (Z.of_nat (S k))) with (mt_state seed (S k)). by rewrite IH.
Qed.
Lemma init_run_state seed n k : init_run n (Z.of_nat k) (mt_state seed k) = mt_state seed (k + n).
Proof.
  revert k. induction n as [|n IH]; intros k; cbn [init_run]; [by rewrite Nat.add_0_r|].
  replace (Z.of_nat k + 1) with (Z.of_nat (S k)) by lia.
  change (INIT (mt_state seed k) (Z.of_nat (S k))) with (mt_state seed (S k)). rewrite IH. f_equal. lia.
Qed.
Lemma last_states seed n : List.last (map (mt_state seed) (seq 0 (S n))) 0 = mt_state seed n.
Proof. rewrite seq_S, map_app. cbn [map]. by rewrite List.last_last. Qed.
Lemma mt_loop_states seed n i k :
  mt_loop n (map (mt_state seed) (seq i (S n))) (map (mt_state seed) (seq k (S n))) =
  map (fun j => temper (twist (mt_state seed (i + j)) (mt_state seed (S (i + j))) (mt_state seed (k + j)))) (seq 0 n).
Proof.
  revert i k. induction n as [|n IH]; intros i k; [done|].
  change (seq i (S (S n))) with (i :: seq (S i) (S n)). change (seq k (S (S n))) with (k :: seq (S k) (S n)).
  change (seq 0 (S n)) with (0%nat :: seq 1 n). rewrite <- (seq_shift n 0), !map_cons, map_map.
  set (rest := map (mt_state seed) (seq (S i) (S n))). assert (Er : rest = mt_state seed (S i) :: map (mt_state seed) (seq (S (S i)) n)) by done.
  assert (El : mt_loop (S n) (mt_state seed i :: rest) (mt_state seed k :: map (mt_state seed) (seq (S k) (S n))) =
    temper (twist (mt_state seed i) (mt_state seed (S i)) (mt_state seed k)) :: mt_loop n rest (map (mt_state seed) (seq (S k) (S n)))) by (by rewrite Er).
  rewrite El. unfold rest. rewrite IH, !Nat.add_0_r. f_equal. apply map_ext. intros j. do 2 f_equal; f_equal; lia.
Qed.

(** C36. [mt_n_get] computes, with two short arrays instead of the 624 words of state,
    the first [n] outputs of the Mersenne twister with that seed. *)
Theorem mt_n_get_ok (seed : Z) (n : nat) :
  (n <= 227)%nat -> mt_n_get seed n = map (mt_output seed) (seq 0 n).
Proof.
  intros Hn. unfold mt_n_get. pose proof (init_arr_state seed n 0) as H0. cbn [mt_state] in H0. change (Z.of_nat 1) with 1 in H0.
  rewrite H0, last_states, init_run_state. replace (n + (397 - n))%nat with 397%nat by lia.
  change 398 with (Z.of_nat 398). rewrite init_arr_state, mt_loop_states. apply map_ext. intros j.
  unfold mt_output. do 2 f_equal. f_equal. lia.
Qed.
Lemma mt_n_get_ok_witness : mt_n_get 5489 2 = map (mt_output 5489) (seq 0 2).
Proof. apply (mt_n_get_ok 5489 2). lia. Defined.
Example mt_known : mt_n_get 5489 3 = [3499211612; 581869302; 3890346734].
Proof. vm_compute. reflexivity. Qed.

(** ** The features *)

(** The polynomial of the [n] bytes from [j] on. *)
Fixpoint poly (n : nat) (ptr : bytes) (j : Z) : Z :=
  match n with O => 0 | S n => rd ptr j * A ^ Z.of_nat n + poly n ptr (j + 1) end.
Definition window_hash (ptr : bytes) (j : Z) : Z := poly (Z.to_nat WINDOW_SIZE) ptr j mod MOD.

Lemma window_fp_poly n ptr j fp : 0 <= fp < MOD -> window_fp n ptr j fp = (fp * A ^ Z.of_nat n + poly n ptr j) mod MOD.
Proof.
  revert j fp. induction n as [|n IH]; intros j fp H; cbn [window_fp poly].
  - change (A ^ Z.of_nat 0) with 1. rewrite Z.mul_1_r, Z.add_0_r, Z.mod_small; done.
  - rewrite IH by (apply Z.mod_pos_bound; done). rewrite Nat2Z.inj_succ, Z.pow_succ_r by lia.
    rewrite Z.add_mod, Z.mul_mod_idemp_l, <- Z.add_mod by done. f_equal. ring.
Qed.
Lemma poly_shift n ptr j : poly (S n) ptr j + 0 = rd ptr j * A ^ Z.of_nat n + poly n ptr (j + 1).
Proof. cbn [poly]. ring. Qed.
Lemma poly_snoc n ptr j : poly (S n) ptr j = poly n ptr j * A + rd ptr (j + Z.of_nat n).
Proof.
  revert j. induction n as [|n IH]; intros j.
  - replace (j + Z.of_nat 0) with j by lia. cbn [poly]. change (A ^ Z.of_nat 0) with 1. ring.
  - change (poly (S (S n)) ptr j) with (rd ptr j * A ^ Z.of_nat (S n) + poly (S n) ptr (j + 1)).
    rewrite IH. cbn [poly]. rewrite Nat2Z.inj_succ, Z.pow_succ_r by lia.
    replace (j + 1 + Z.of_nat n) with (j + Z.succ (Z.of_nat n)) by lia. ring.
Qed.

Lemma rd_range ptr j : bytes_ok ptr -> 0 <= rd ptr j < 256.
Proof.
  intros H. unfold rd. destruct (nth_in_or_default (Z.to_nat j) ptr 0) as [I| ->]; [|lia].
  apply (Forall_forall byte_ok) with (x := nth (Z.to_nat j) ptr 0) in H; [exact H|]. by apply list_elem_of_In.
Qed.

(** One step of the rolling fingerprint. *)
Lemma add_mod_ok z : - MOD < z < MOD -> add_mod 2 z = z mod MOD.
Proof.
  intros H. cbn. case_if; [case_if; [unfold MOD in *; lia|]|].
  - apply Z.mod_unique_pos with (q := -1); unfold MOD in *; lia.
  - symmetry. apply Z.mod_small. lia.
Qed.
Lemma roll_step ptr j :
  bytes_ok ptr ->
  (add_mod 2 (window_hash ptr j - u64 (rd ptr j * Apower) mod MOD) * A + rd ptr (j + WINDOW_SIZE)) mod MOD = window_hash ptr (j + 1).
Proof.
  intros Hb. pose proof (rd_range ptr j Hb). assert (Ea : Apower = A ^ 47 mod MOD) by (vm_compute; reflexivity).
  assert (0 <= Apower < MOD) by (rewrite Ea; apply Z.mod_pos_bound; done).
  rewrite u64_id by (unfold MOD in *; nia).
  assert (0 <= window_hash ptr j < MOD) by (apply Z.mod_pos_bound; done).
  assert (0 <= (rd ptr j * Apower) mod MOD < MOD) by (apply Z.mod_pos_bound; done).
  rewrite add_mod_ok by lia. rewrite Ea. unfold window_hash. change (Z.to_nat WINDOW_SIZE) with 48%nat.
  rewrite Z.mul_mod_idemp_r, <- Zminus_mod by done. rewrite Z.add_mod, Z.mul_mod_idemp_l, <- Z.add_mod by done.
  f_equal. rewrite (poly_snoc 47 ptr (j + 1)). change WINDOW_SIZE with 48. change (Z.of_nat 47) with 47.
  replace (j + 1 + 47) with (j + 48) by lia.
  change (poly 48 ptr j) with (rd ptr j * A ^ Z.of_nat 47 + poly 47 ptr (j + 1)). change (Z.of_nat 47) with 47. ring.
Qed.

Lemma foldr_max f x l : foldr Z.max (Z.max f x) l = Z.max x (foldr Z.max f l).
Proof. induction l as [|y l IH]; cbn; lia. Qed.

Lemma roll_max n ptr j last f :
  bytes_ok ptr -> last = j + Z.of_nat n - 1 ->
  roll n ptr j last (window_hash ptr j) f = foldr Z.max f (map (window_hash ptr) (seqZ j (Z.of_nat n))).
Proof.
  intros Hb. revert j f. induction n as [|n IH]; intros j f Hl; [done|]. rewrite seqZ_cons by lia.
  cbn [roll map foldr]. replace (if f <? window_hash ptr j then window_hash ptr j else f) with (Z.max f (window_hash ptr j)) by (case_if; lia).
  replace (Z.pred (Z.of_nat (S n))) with (Z.of_nat n) by lia. change (Z.succ j) with (j + 1).
  destruct n as [|n]; [change (seqZ (j + 1) (Z.of_nat 0)) with (@nil Z); cbn [roll map foldr]; lia|].
  rewrite (proj2 (Z.eqb_neq j last)) by lia.
  rewrite roll_step, IH by (done || lia). apply foldr_max.
Qed.

Lemma feature_spec ptr chunkSize i :
  bytes_ok ptr ->
  feature ptr chunkSize i = foldr Z.max 0 (map (window_hash ptr)
    (seqZ (subchunkIndex chunkSize i) (subchunkIndex chunkSize (S i) - WINDOW_SIZE + 1 - subchunkIndex chunkSize i))).
Proof.
  intros Hb. unfold feature. set (from := subchunkIndex chunkSize i). set (upto := subchunkIndex chunkSize (S i)).
  rewrite window_fp_poly by done. change ((0 * A ^ Z.of_nat (Z.to_nat WINDOW_SIZE) + poly (Z.to_nat WINDOW_SIZE) ptr from) mod MOD)
    with (window_hash ptr from).
  destruct (decide (0 <= upto - WINDOW_SIZE + 1 - from)) as [H|H].
  - rewrite roll_max by (done || lia). do 3 f_equal. lia.
  - replace (Z.to_nat (upto - WINDOW_SIZE + 1 - from)) with O by lia.
    by rewrite seqZ_nil by lia.
Qed.

(** C20. The rolling computation of a feature is the specification: the largest
    fingerprint, a polynomial modulo 1000000007, of the windows of 48 bytes inside the
    sub-chunk, and 0 when the sub-chunk has no window. *)
Theorem feature_ok (ptr : bytes) (chunkSize : Z) (i : nat) :
  bytes_ok ptr ->
  feature ptr chunkSize i = foldr Z.max 0 (map (window_hash ptr)
    (seqZ (subchunkIndex chunkSize i) (subchunkIndex chunkSize (S i) - WINDOW_SIZE + 1 - subchunkIndex chunkSize i))).
Proof. apply feature_spec. Qed.
Lemma feature_ok_witness :
  feature (map (fun i => i * 7 mod 256) (seqZ 0 600)) 600 0 =
  foldr Z.max 0 (map (window_hash (map (fun i => i * 7 mod 256) (seqZ 0 600))) (seqZ 0 3)).
Proof. apply (feature_ok (map (fun i => i * 7 mod 256) (seqZ 0 600)) 600 0). by_decide. Defined.

(** A chunk of less than 576 bytes has sub-chunks without a window: every chunk of
    up to 564 bytes has twelve features 0, so all of them have the same super-features
    and each is taken as similar to any other. *)
Theorem small_chunks_similar `{EVP} (o : EcallCrypto) (ptr ptr' : bytes) (chunkSize chunkSize' : Z) :
  bytes_ok ptr -> bytes_ok ptr' -> 0 <= chunkSize <= 564 -> 0 <= chunkSize' <= 564 ->
  getSF2 o ptr chunkSize = getSF2 o ptr' chunkSize'.
Proof.
  intros B B' Hs Hs'. assert (Z0 : forall p n i, bytes_ok p -> 0 <= n <= 564 -> feature p n i = 0).
  { intros p n i Hp Hn. rewrite feature_spec by done. rewrite seqZ_nil; [done|]. unfold subchunkIndex, WINDOW_SIZE, FEATURE_NUM.
    rewrite Nat2Z.inj_succ. pose proof (Z.div_mod (n * Z.of_nat i) 12). pose proof (Z.mod_pos_bound (n * Z.of_nat i) 12).
    pose proof (Z.div_mod (n * Z.succ (Z.of_nat i)) 12). pose proof (Z.mod_pos_bound (n * Z.succ (Z.of_nat i)) 12).
    change (Z.of_nat 12) with 12. lia. }
  unfold getSF2. assert (E : map (feature ptr chunkSize) (seq 0 FEATURE_NUM) = map (feature ptr' chunkSize') (seq 0 FEATURE_NUM)).
  { apply map_ext. intros i. by rewrite !Z0. }
  by rewrite E.
Qed.
Lemma small_chunks_similar_witness :
  @getSF2 toy_evp (EcallCrypto_init AES_256_GCM SHA_256) [1; 2; 3] 3 =
  @getSF2 toy_evp (EcallCrypto_init AES_256_GCM SHA_256) (replicate 500 9) 500.
Proof. apply (small_chunks_similar (EcallCrypto_init AES_256_GCM SHA_256)); by_decide. Defined.
