(* ===== verification/Ingest.v ===== *)
(** The upload of a batch (ecallIndex/ecallFreqIndex.cc, ecallIndex/enclaveBase.cc and
    the query ocalls of ocallSrc/storeOCall.cc): fingerprints, frequencies, the top-k
    index, the batch index, the index outside, the search for a similar base chunk,
    delta compression, storage, the file recipe.  The other index classes have copies of
    most of it; what a class does in its own way is an [IndexClass]. *)
From Stdlib Require Import ZArith Lia.
From stdpp Require Import base list gmap.
From S2P Require Import Prelude Types HTable EDelta Codec CMSketch EntryHeap TopK ContainerCache ReqContainers Database Container Writer Crypto Restore SuperFeature.

(** ** Data *)

(** [enum TWO_PATH_STATUS]; of [enum DELTA_STATUS] also [OUT_DELTA]. *)
Definition UNIQUE : Z := 0.
Definition TMP_UNIQUE : Z := 1.
Definition DUPLICATE : Z := 2.
Definition TMP_DUPLICATE : Z := 3.
Definition OUT_DELTA : Z := 3.

(** [OutQueryEntry_t]; the two addresses are memory that holds a recipe or its
    ciphertext. *)
Record OutQueryEntry := mk_out {
  oq_dedupFlag : Z;
  oq_deltaFlag : Z;
  oq_offlineFlag : Z;
  oq_chunkHash : bytes;
  oq_chunkAddr : bytes;
  oq_superfeature : bytes;
  oq_basechunkAddr : bytes
}.

(** The counters of [EnclaveBase] and [EcallFreqIndex]. *)
Inductive counter :=
| insideDedupChunkNum_ | insideDedupDataSize_ | _logicalDataSize | _logicalChunkNum | _uniqueChunkNum | _uniqueDataSize
| _compressedDataSize | _onlineCompress_size | _onlineBackupSize | _baseChunkNum | _baseDataSize | _lz4SaveSize
| _deltaChunkNum | _inlineDeltaChunkNum | _deltaDataSize | _DeltaSaveSize | _Online_DeltaSaveSize
| _inline_have_similar_chunk_num | _inline_need_load_container_num | _inline_batch_num | delta_find
| _Inline_Ocall | _Inline_FPOcall | _Inline_SFOcall | _Inline_LocalOcall | _Inline_LoadOcall | _Inline_DeltaOcall | _Inline_RecipeOcall.
#[export] Instance counter_eq_dec : EqDecision counter.
Proof. solve_decision. Defined.
Definition bump (st : counter -> Z) (c : counter) (n : Z) : counter -> Z :=
  fun c' => if decide (c' = c) then u64 (st c + n) else st c'.
Definition bumps (st : counter -> Z) (l : list (counter * Z)) : counter -> Z :=
  fold_left (fun st x => bump st (fst x) (snd x)) l st.

(** [enum INDEX_TYPE_SET]. *)
Inductive IndexType := SECURE_MEGA | DEBE | FORWORD | ONLY_FORWORD | FREQ_INDEX.
#[export] Instance index_type_dec : EqDecision IndexType.
Proof. solve_decision. Defined.

(** Keys and parameters. *)
Record Config := mk_config {
  c_crypto : EcallCrypto;
  c_indexQueryKey : bytes;
  c_enclaveKey : bytes;
  c_masterKey : bytes;
  c_sessionKey : bytes;
  c_sendChunkBatchSize : Z;
  c_sendRecipeBatchSize : Z;
  topThreshold_ : nat;
  c_indexType : IndexType
}.
(** What [Ecall_Init_Upload] sets in the object of the index type. *)
Definition Forward_Flag (cfg : Config) : bool := bool_decide (c_indexType cfg = FORWORD).
Definition Offline_Flag (cfg : Config) : bool := negb (bool_decide (c_indexType cfg = ONLY_FORWORD)).

(** [_inRecipe] and the file the encrypted recipe goes to. *)
Record Recipe := mk_recipe_buf { entryFpList : bytes; recipeNum : Z; recipeFile : bytes }.

(** What storing one chunk changes: the storage core, the container cache of the
    enclave, the hash table and the buffer of the delta encoder, the container buffer
    of the ocalls, the recipe and the counters. *)
Record Core := mk_core {
  c_store : Upload;
  c_cache : PoolCache;
  psHTable2_ : htable DeltaRecord;
  deltaBuffer_ : bytes;
  tmpOcallcontainer : bytes;
  c_recipe : Recipe;
  c_stats : counter -> Z
}.
Definition with_store (s : Core) (u : Upload) : Core :=
  mk_core u (c_cache s) (psHTable2_ s) (deltaBuffer_ s) (tmpOcallcontainer s) (c_recipe s) (c_stats s).
Definition with_cache (s : Core) (c : PoolCache) (tmp : bytes) : Core :=
  mk_core (c_store s) c (psHTable2_ s) (deltaBuffer_ s) tmp (c_recipe s) (c_stats s).
Definition with_encoder (s : Core) (t : htable DeltaRecord) (d : bytes) : Core :=
  mk_core (c_store s) (c_cache s) t d (tmpOcallcontainer s) (c_recipe s) (c_stats s).
Definition with_recipe (s : Core) (r : Recipe) : Core :=
  mk_core (c_store s) (c_cache s) (psHTable2_ s) (deltaBuffer_ s) (tmpOcallcontainer s) r (c_stats s).
Definition stat (s : Core) (l : list (counter * Z)) : Core :=
  mk_core (c_store s) (c_cache s) (psHTable2_ s) (deltaBuffer_ s) (tmpOcallcontainer s) (c_recipe s) (bumps (c_stats s) l).

(** *** Assignments to the fields of a query entry *)

Definition in_hash (e : InQueryEntry_t) (size : Z) (hash : bytes) : InQueryEntry_t :=
  {| iq_dedupFlag := iq_dedupFlag e; iq_deltaFlag := iq_deltaFlag e; iq_chunkHash := hash; iq_chunkAddr := iq_chunkAddr e;
     iq_chunkFreq := iq_chunkFreq e; iq_chunkSize := size; iq_superfeature := iq_superfeature e; iq_basechunkAddr := iq_basechunkAddr e |}.
Definition in_freq (e : InQueryEntry_t) (f : Z) : InQueryEntry_t :=
  {| iq_dedupFlag := iq_dedupFlag e; iq_deltaFlag := iq_deltaFlag e; iq_chunkHash := iq_chunkHash e; iq_chunkAddr := iq_chunkAddr e;
     iq_chunkFreq := f; iq_chunkSize := iq_chunkSize e; iq_superfeature := iq_superfeature e; iq_basechunkAddr := iq_basechunkAddr e |}.
Definition in_class (e : InQueryEntry_t) (flag : Z) (addr : RecipeEntry_t) : InQueryEntry_t :=
  {| iq_dedupFlag := flag; iq_deltaFlag := iq_deltaFlag e; iq_chunkHash := iq_chunkHash e; iq_chunkAddr := addr;
     iq_chunkFreq := iq_chunkFreq e; iq_chunkSize := iq_chunkSize e; iq_superfeature := iq_superfeature e; iq_basechunkAddr := iq_basechunkAddr e |}.
Definition in_sf (e : InQueryEntry_t) (sf : bytes) : InQueryEntry_t :=
  {| iq_dedupFlag := iq_dedupFlag e; iq_deltaFlag := iq_deltaFlag e; iq_chunkHash := iq_chunkHash e; iq_chunkAddr := iq_chunkAddr e;
     iq_chunkFreq := iq_chunkFreq e; iq_chunkSize := iq_chunkSize e; iq_superfeature := sf; iq_basechunkAddr := iq_basechunkAddr e |}.
Definition in_base (e : InQueryEntry_t) (addr base : RecipeEntry_t) : InQueryEntry_t :=
  {| iq_dedupFlag := iq_dedupFlag e; iq_deltaFlag := iq_deltaFlag e; iq_chunkHash := iq_chunkHash e; iq_chunkAddr := addr;
     iq_chunkFreq := iq_chunkFreq e; iq_chunkSize := iq_chunkSize e; iq_superfeature := iq_superfeature e; iq_basechunkAddr := base |}.
Definition in_addr (e : InQueryEntry_t) (addr : RecipeEntry_t) : InQueryEntry_t := in_class e (iq_dedupFlag e) addr.

Definition set_addr_offset (a : RecipeEntry_t) (off : Z) : RecipeEntry_t :=
  {| re_containerName := re_containerName a; re_deltaFlag := re_deltaFlag a; re_offset := off; re_length := re_length a;
     re_basechunkHash := re_basechunkHash a; re_superfeature := re_superfeature a |}.
Definition set_addr_delta (a : RecipeEntry_t) (f : Z) : RecipeEntry_t :=
  {| re_containerName := re_containerName a; re_deltaFlag := f; re_offset := re_offset a; re_length := re_length a;
     re_basechunkHash := re_basechunkHash a; re_superfeature := re_superfeature a |}.
Definition set_addr_base (a : RecipeEntry_t) (h : bytes) : RecipeEntry_t :=
  {| re_containerName := re_containerName a; re_deltaFlag := re_deltaFlag a; re_offset := re_offset a; re_length := re_length a;
     re_basechunkHash := h; re_superfeature := re_superfeature a |}.

Definition out_flag (o : OutQueryEntry) (flag : Z) (addr : bytes) : OutQueryEntry :=
  mk_out flag (oq_deltaFlag o) (oq_offlineFlag o) (oq_chunkHash o) addr (oq_superfeature o) (oq_basechunkAddr o).
Definition out_hash (o : OutQueryEntry) (h : bytes) : OutQueryEntry :=
  mk_out (oq_dedupFlag o) (oq_deltaFlag o) (oq_offlineFlag o) h (oq_chunkAddr o) (oq_superfeature o) (oq_basechunkAddr o).
Definition out_sf (o : OutQueryEntry) (sf : bytes) : OutQueryEntry :=
  mk_out (oq_dedupFlag o) NO_DELTA 0 (oq_chunkHash o) (oq_chunkAddr o) sf (oq_basechunkAddr o).
Definition out_delta (o : OutQueryEntry) (flag off : Z) : OutQueryEntry :=
  mk_out (oq_dedupFlag o) flag off (oq_chunkHash o) (oq_chunkAddr o) (oq_superfeature o) (oq_basechunkAddr o).
Definition out_base (o : OutQueryEntry) (addr base : bytes) : OutQueryEntry :=
  mk_out (oq_dedupFlag o) (oq_deltaFlag o) (oq_offlineFlag o) (oq_chunkHash o) addr (oq_superfeature o) base.
(** [chunkAddr.basechunkHash], inside the address. *)
Definition addr_basehash (addr : bytes) : bytes := slice addr 16 CHUNK_HASH_SIZE.

Section ingest.
Context `{EVP} `{LZ4}.
Variable cfg : Config.

(** ** Fingerprints and frequencies *)

(** The chunks of the decrypted batch, each a size of 4 bytes and the content, and
    their hashes. *)
Fixpoint hash_loop (n : nat) (recvBuffer : bytes) (currentOffset : Z) (ins : list InQueryEntry_t) : result (list InQueryEntry_t) :=
  match n, ins with
  | O, _ => Ok []
  | S _, [] => Err Undefined
  | S n, e :: ins =>
    let size := rd32 recvBuffer currentOffset in
    let currentOffset := currentOffset + 4 in
    if blen recvBuffer <? currentOffset + size then Err Undefined else
    hash <-- GenerateHash (c_crypto cfg) (slice recvBuffer currentOffset size) ;;
    rest <-- hash_loop n recvBuffer (currentOffset + size) ins ;;
    Ok (in_hash e size hash :: rest)
  end.

Fixpoint freq_loop (ins : list InQueryEntry_t) (sk : EcallCMSketch) : result (list InQueryEntry_t * EcallCMSketch) :=
  match ins with
  | [] => Ok ([], sk)
  | e :: ins =>
    sk <-- CMSketch.Update sk (iq_chunkHash e) 1 ;;
    f <-- Estimate sk (iq_chunkHash e) ;;
    x <-- freq_loop ins sk ;;
    Ok (in_freq e f :: fst x, snd x)
  end.

(** ** The top-k index and the index of the batch *)

Record Classes := mk_classes {
  cl_ins : list InQueryEntry_t;
  cl_outs : list OutQueryEntry;
  outQueryNum : Z;
  _localIndex : gmap bytes Z
}.

(** A fingerprint that neither the batch nor the top-k index knows is encrypted and
    queued for the index outside; [GetPriority] gives the address of a known one. *)
Definition classify_new (h : EcallEntryHeap) (minFreq : Z) (i : Z) (e : InQueryEntry_t) (c : Classes) : result Classes :=
  let local := <[iq_chunkHash e := i]> (_localIndex c) in
  if (iq_chunkFreq e <? minFreq) || negb (Contains h (iq_chunkHash e)) then
    k <-- IndexAESCMCEnc (c_crypto cfg) (iq_chunkHash e) (c_indexQueryKey cfg) ;;
    o <-- of_option Undefined (cl_outs c !! Z.to_nat (outQueryNum c)) ;;
    Ok (mk_classes (<[Z.to_nat i := in_class e UNIQUE (set_addr_offset (iq_chunkAddr e) (outQueryNum c))]> (cl_ins c))
          (<[Z.to_nat (outQueryNum c) := out_hash o k]> (cl_outs c)) (outQueryNum c + 1) local)
  else
    it <-- of_option Undefined (GetPriority h (iq_chunkHash e)) ;;
    Ok (mk_classes (<[Z.to_nat i := in_class e DUPLICATE (hi_address it)]> (cl_ins c)) (cl_outs c) (outQueryNum c) local).
(** A fingerprint the batch has seen refers to its first entry, whose frequency it
    updates. *)
Definition classify_seen (offset i : Z) (e : InQueryEntry_t) (c : Classes) : result Classes :=
  f <-- of_option Undefined (cl_ins c !! Z.to_nat offset) ;;
  flag <-- (if iq_dedupFlag f =? UNIQUE then Ok TMP_UNIQUE
            else if iq_dedupFlag f =? DUPLICATE then Ok TMP_DUPLICATE else Err ExitError) ;;
  Ok (mk_classes
        (<[Z.to_nat offset := in_freq f (iq_chunkFreq e)]>
          (<[Z.to_nat i := in_class e flag (set_addr_offset (iq_chunkAddr e) offset)]> (cl_ins c)))
        (cl_outs c) (outQueryNum c) (_localIndex c)).
Definition classify_one (h : EcallEntryHeap) (minFreq : Z) (i : Z) (c : Classes) : result Classes :=
  e <-- of_option Undefined (cl_ins c !! Z.to_nat i) ;;
  match _localIndex c !! iq_chunkHash e with
  | Some offset => classify_seen offset i e c
  | None => classify_new h minFreq i e c
  end.
Definition classify (h : EcallEntryHeap) (ins : list InQueryEntry_t) (outs : list OutQueryEntry) : result Classes :=
  minFreq <-- (if (Size h =? topThreshold_ cfg)%nat then TopEntry h else Ok 0) ;;
  forM (length ins) 0 (classify_one h minFreq) (mk_classes ins outs 0 ∅).

(** ** The ocalls of the batch *)

(** [memcpy] of a stored recipe entry. *)
Definition stored_recipe (v : bytes) : result bytes :=
  if blen v <? sizeof_RecipeEntry then Err Undefined else Ok (slice v 0 sizeof_RecipeEntry).

Definition query_out (db : IndexStore) (o : OutQueryEntry) : result OutQueryEntry :=
  match QueryBuffer db (oq_chunkHash o) CHUNK_HASH_SIZE with
  | Some v => a <-- stored_recipe v ;; Ok (out_flag o DUPLICATE a)
  | None => Ok (out_flag o UNIQUE (oq_chunkAddr o))
  end.
(** An ocall that works through the first [n] entries. *)
Fixpoint each_out (f : OutQueryEntry -> result OutQueryEntry) (n : nat) (outs : list OutQueryEntry) : result (list OutQueryEntry) :=
  match n, outs with
  | O, _ => Ok outs
  | S _, [] => Err Undefined
  | S n, o :: outs => o <-- f o ;; outs <-- each_out f n outs ;; Ok (o :: outs)
  end.
Definition Ocall_QueryOutIndex (db : IndexStore) (queryNum : Z) (outs : list OutQueryEntry) : result (list OutQueryEntry) :=
  each_out (query_out db) (Z.to_nat queryNum) outs.

(** A unique chunk asks for a base chunk with one of its super-features, and for the
    recipe of that base; a base that is not in the index leaves an old address. *)
Definition query_base_of (db : IndexStore) (o : OutQueryEntry) : result OutQueryEntry :=
  if (oq_dedupFlag o =? UNIQUE) && (oq_deltaFlag o =? NO_DELTA) then
    found <-- QuerySF db (oq_superfeature o) ;;
    match found with
    | Some basehash =>
      let addr := write (oq_chunkAddr o) 16 (slice basehash 0 CHUNK_HASH_SIZE) in
      let o := out_delta o OUT_DELTA (oq_offlineFlag o) in
      match QueryBuffer db (addr_basehash addr) CHUNK_HASH_SIZE with
      | Some v => a <-- stored_recipe v ;; Ok (out_base o addr a)
      | None => Ok (out_base o addr (oq_basechunkAddr o))
      end
    | None => Ok o
    end
  else Ok o.
Definition Ocall_QueryOutBasechunk (db : IndexStore) (queryNum : Z) (outs : list OutQueryEntry) : result (list OutQueryEntry) :=
  each_out (query_base_of db) (Z.to_nat queryNum) outs.

(** [Ocall_UpdateOutIndex]: the new chunks enter the index, and those that can serve
    as bases the super-feature index. *)
Definition update_out (db : IndexStore) (o : OutQueryEntry) : result IndexStore :=
  if oq_dedupFlag o =? UNIQUE then
    let db := InsertBothBuffer db (oq_chunkHash o) CHUNK_HASH_SIZE (oq_chunkAddr o) sizeof_RecipeEntry in
    if (oq_deltaFlag o =? NO_DELTA) && (oq_offlineFlag o =? 0) then InsertSF db (oq_superfeature o) (oq_chunkHash o) 0
    else Ok db
  else Ok db.
Fixpoint update_outs (db : IndexStore) (outs : list OutQueryEntry) : result IndexStore :=
  match outs with
  | [] => Ok db
  | o :: outs => db <-- update_out db o ;; update_outs db outs
  end.
Definition Ocall_UpdateOutIndex (db : IndexStore) (queryNum : Z) (outs : list OutQueryEntry) : result IndexStore :=
  if blen outs <? queryNum then Err Undefined else update_outs db (take (Z.to_nat queryNum) outs).

(** ** Super-features and similar chunks *)

(** The entries of the batch in step with their entries outside: [f] works on the pairs
    that both find unique. *)
Fixpoint each_unique {St : Type} (f : InQueryEntry_t -> OutQueryEntry -> Z -> St -> result (InQueryEntry_t * OutQueryEntry * St))
    (off : Z) (ins : list InQueryEntry_t) (outs : list OutQueryEntry) (s : St)
    : result (list InQueryEntry_t * list OutQueryEntry * St) :=
  match ins with
  | [] => Ok ([], outs, s)
  | e :: ins =>
    let off := off + 4 in
    if iq_dedupFlag e =? UNIQUE then
      match outs with
      | [] => Err Undefined
      | o :: outs =>
        x <-- (if oq_dedupFlag o =? UNIQUE then f e o off s else Ok (e, o, s)) ;;
        let '(e, o, s) := x in
        y <-- each_unique f (off + iq_chunkSize e) ins outs s ;;
        let '(ins, outs, s) := y in Ok (e :: ins, o :: outs, s)
      end
    else
      y <-- each_unique f (off + iq_chunkSize e) ins outs s ;;
      let '(ins, outs, s) := y in Ok (e :: ins, outs, s)
  end.

(** The super-features of the chunks that are new; three threads share the list, each
    with entries of its own. *)
Definition sf_one (recvBuffer : bytes) (e : InQueryEntry_t) (o : OutQueryEntry) (off : Z) (s : unit)
    : result (InQueryEntry_t * OutQueryEntry * unit) :=
  sf <-- getSF2 (c_crypto cfg) (drop (Z.to_nat off) recvBuffer) (iq_chunkSize e) ;; Ok (in_sf e sf, o, s).
(** [OutEntrySFGet]. *)
Definition sf_get (e : InQueryEntry_t) (o : OutQueryEntry) (off : Z) (s : unit) : result (InQueryEntry_t * OutQueryEntry * unit) :=
  Ok (e, out_sf o (iq_superfeature e), s).

(** [EntryLoad]: the recipe of the base is decrypted into both entries, and the set of
    containers that have to be loaded grows; the second component counts. *)
Definition EntryLoad (e : InQueryEntry_t) (o : OutQueryEntry) (off : Z) (s : gset bytes * Z)
    : result (InQueryEntry_t * OutQueryEntry * (gset bytes * Z)) :=
  if oq_deltaFlag o =? OUT_DELTA then
    plain <-- AESCBCDec (c_crypto cfg) (oq_basechunkAddr o) (c_indexQueryKey cfg) ;;
    let base := recipe_get plain in
    Ok (in_base e (set_addr_base (iq_chunkAddr e) (addr_basehash (oq_chunkAddr o))) base, out_base o (oq_chunkAddr o) plain,
        ({[ re_containerName base ]} ∪ fst s, snd s + 1))
  else Ok (e, o, s).

(** [chunkNum * OFFLINE_THRESHOLD] with 0.03, truncated, or [chunkNum * 128]. *)
Definition thresold (chunkNum : Z) : Z := if Forward_Flag cfg then u32 (chunkNum * 128) else chunkNum * 3 / 100.
Definition LocalChecker (ins : list InQueryEntry_t) (outs : list OutQueryEntry) (st : counter -> Z)
    : result (list InQueryEntry_t * list OutQueryEntry * bool * (counter -> Z)) :=
  x <-- each_unique EntryLoad 0 ins outs (∅, 0) ;;
  let '(ins, outs, (ids, similar)) := x in
  let n := Z.of_nat (base.size ids) in
  Ok (ins, outs, thresold (blen ins) <? n,
      bumps st [(_inline_have_similar_chunk_num, similar); (_inline_need_load_container_num, n); (_inline_batch_num, 1)]).

(** ** Storing a chunk *)

(** [PickNewIV]: the first eight bytes of the IV count up. *)
Definition PickNewIV (iv : bytes) : bytes := write iv 0 (le_bytes 8 (u64 (rd64 iv 0 + 1))).
Definition with_iv (u : Upload) (iv : bytes) : Upload :=
  mk_upload (_inContainer u) (_deltainContainer u) (curContainer u) (curDeltaContainer u) (inputMQ u) (con_times u) iv
    (writtenDataSize_ u) (writtenChunkNum_ u).

(** What a chunk is stored as: compressed when LZ4 can, the chunk itself when not and
    when it is a delta. *)
Definition stored_form (deltaFlag : Z) (chunk : bytes) : bytes :=
  if deltaFlag =? NO_DELTA then default chunk (LZ4_compress_fast chunk (blen chunk)) else chunk.

(** [ProcessSheUniqueChunk]. *)
Definition ProcessSheUniqueChunk (s : Core) (chunkAddr : RecipeEntry_t) (chunkBuffer chunksf chunkfp : bytes) : result (Core * RecipeEntry_t) :=
  let u := with_iv (c_store s) (PickNewIV (_iv (c_store s))) in
  let data := stored_form (re_deltaFlag chunkAddr) chunkBuffer in
  if MAX_CHUNK_SIZE <? blen data then Err Undefined else
  cipher <-- EncryptWithKeyIV (c_crypto cfg) data (c_enclaveKey cfg) (_iv u) ;;
  x <-- (if re_deltaFlag chunkAddr =? NO_DELTA then SavebaseChunk u cipher (blen data) chunkAddr chunksf chunkfp
         else SavedeltaChunk u cipher (blen data) chunkAddr chunksf chunkfp) ;;
  Ok (stat (with_store s (fst x)) [(_compressedDataSize, blen data); (_onlineCompress_size, blen data); (_onlineBackupSize, blen data)], snd x).

(** [UpdateFileRecipe]: a full buffer is encrypted and written to the recipe file. *)
Definition UpdateFileRecipe (s : Core) (FP : bytes) : result Core :=
  let r := c_recipe s in
  let buf := write (entryFpList r) (recipeNum r * CHUNK_HASH_SIZE) (slice FP 0 CHUNK_HASH_SIZE) in
  let num := recipeNum r + 1 in
  if num mod c_sendRecipeBatchSize cfg =? 0 then
    enc <-- EncryptWithKey (c_crypto cfg) (slice buf 0 (num * CHUNK_HASH_SIZE)) (c_masterKey cfg) ;;
    Ok (stat (with_recipe s (mk_recipe_buf buf 0 (recipeFile r ++ enc))) [(_Inline_Ocall, 1); (_Inline_RecipeOcall, 1)])
  else Ok (with_recipe s (mk_recipe_buf buf num (recipeFile r))).

(** *** The base chunk *)

(** [Ocall_getRefContainer]: the flag of the entry and the container buffer. *)
Definition Ocall_getRefContainer (disk : gmap bytes bytes) (name : bytes) (deltaFlag : Z) (tmp : bytes) : result (Z * bytes) :=
  if (deltaFlag =? OUT_DELTA) || (deltaFlag =? DELTA) then
    match disk !! name with
    | None => Ok (NO_DELTA, tmp)
    | Some body => if MAX_CONTAINER_SIZE <? blen body then Err Undefined else Ok (DELTA, write tmp 0 body)
    end
  else Ok (deltaFlag, tmp).

(** [OfflinedeltaTure]: whether the chunk becomes a delta, and the container of its
    base ([containerbuffer]).  When too many containers would have to be loaded the
    chunk is left for the offline pass. *)
Definition excluded (hash : bytes) : bool := (rd hash 0 =? 161) && (rd hash 1 =? 77) && (rd hash 2 =? 140).
Definition OfflinedeltaTure (disk : gmap bytes bytes) (Local_Flag : bool) (e : InQueryEntry_t) (o : OutQueryEntry)
    (batch_map : list (bytes * bytes)) (s : Core)
    : result (InQueryEntry_t * OutQueryEntry * option bytes * list (bytes * bytes) * Core) :=
  let basehash := addr_basehash (oq_chunkAddr o) in
  let name := slice (oq_basechunkAddr o) 0 CONTAINER_ID_LENGTH in
  let with_basehash := in_addr e (set_addr_base (iq_chunkAddr e) basehash) in
  if excluded (iq_chunkHash e) then Ok (e, out_delta o NO_DELTA (oq_offlineFlag o), None, batch_map, s)
  else if Local_Flag && (oq_deltaFlag o =? OUT_DELTA) then
    Ok (e, out_delta o NO_DELTA 1, None, batch_map ++ [(basehash, oq_chunkHash o)], stat s [(delta_find, 1)])
  else if (oq_deltaFlag o =? OUT_DELTA) && ExistsInCache (c_cache s) name then
    x <-- ReadFromCache (c_cache s) name ;;
    let '(cache, p) := x in
    slot <-- deref cache p ;;
    Ok (with_basehash, out_delta o DELTA (oq_offlineFlag o), Some slot, batch_map, with_cache s cache (tmpOcallcontainer s))
  else if oq_deltaFlag o =? OUT_DELTA then
    x <-- Ocall_getRefContainer disk name (oq_deltaFlag o) (tmpOcallcontainer s) ;;
    let '(flag, tmp) := x in
    let s := stat (with_cache s (c_cache s) tmp) [(_Inline_Ocall, 1); (_Inline_LoadOcall, 1)] in
    if flag =? DELTA then
      if ExistsInCache (c_cache s) name then Ok (e, out_delta o flag (oq_offlineFlag o), Some tmp, batch_map, s)
      else
        cache <-- InsertToCache_Offline (c_cache s) name tmp MAX_CONTAINER_SIZE ;;
        Ok (with_basehash, out_delta o flag (oq_offlineFlag o), Some tmp, batch_map, with_cache s cache tmp)
    else Ok (e, out_delta o flag (oq_offlineFlag o), None, batch_map, s)
  else Ok (e, o, None, batch_map, s).

(** The base chunk in its container, decrypted and decompressed: the buffers it goes
    through have twice the size of the largest chunk. *)
Definition base_chunk (tmpbuffer : bytes) (base : RecipeEntry_t) : result bytes :=
  let at_ := re_offset base + header_size in
  if in_bounds tmpbuffer at_ (re_length base) && in_bounds tmpbuffer (at_ + re_length base) CRYPTO_BLOCK_SIZE then
    if 2 * MAX_CHUNK_SIZE <? re_length base then Err Undefined else
    dec <-- DecryptionWithKeyIV (c_crypto cfg) (slice tmpbuffer at_ (re_length base)) (c_enclaveKey cfg)
              (slice tmpbuffer (at_ + re_length base) CRYPTO_BLOCK_SIZE) ;;
    Ok (decompress dec)
  else Err Undefined.

(** [ProcessDeltachunk]: the delta, and whether it is shorter than the chunk. *)
Definition ProcessDeltachunk (containerbuffer : bytes) (chunk : bytes) (base : RecipeEntry_t) (s : Core)
    : result (bytes * Z * Z * Core) :=
  plain <-- base_chunk containerbuffer base ;;
  x <-- EcallFreqIndex.ed3_encode chunk (blen chunk) plain (blen plain) (deltaBuffer_ s) (psHTable2_ s) 0 ;;
  let '(delta, deltachunk_size, table) := x in
  if 2 * MAX_CHUNK_SIZE <? deltachunk_size then Err Undefined else
  Ok (delta, deltachunk_size, if blen chunk <=? deltachunk_size then NO_DELTA else DELTA, with_encoder s table delta).

(** *** One chunk of the batch *)

Record Turn := mk_turn {
  t_core : Core;
  t_outs : list OutQueryEntry;            (* the entries from [outQueryEntry] on *)
  t_batch_map : list (bytes * bytes);     (* [batch_basemap] *)
  t_deltas : list (bytes * bytes)         (* [process_buffer] *)
}.

(** The delta, when the container of the base is there; it may turn out too long. *)
Definition delta_step (containerbuffer : option bytes) (chunk : bytes) (e : InQueryEntry_t) (o : OutQueryEntry) (s : Core)
    : result (InQueryEntry_t * OutQueryEntry * bytes * Core) :=
  if oq_deltaFlag o =? DELTA then
    buf <-- of_option Undefined containerbuffer ;;
    z <-- ProcessDeltachunk buf chunk (iq_basechunkAddr e) s ;;
    let '(delta, n, flag, s) := z in
    Ok (in_addr e (set_addr_delta (iq_chunkAddr e) flag), out_delta o flag (oq_offlineFlag o), slice delta 0 n, s)
  else Ok (e, o, [], s).

(** A chunk no index knows. *)
Definition store_new (disk : gmap bytes bytes) (Local_Flag : bool) (chunk : bytes) (e : InQueryEntry_t) (o : OutQueryEntry) (t : Turn)
    : result (InQueryEntry_t * OutQueryEntry * Turn) :=
  let e := in_addr e (set_addr_delta (iq_chunkAddr e) NO_DELTA) in
  x <-- OfflinedeltaTure disk Local_Flag e o (t_batch_map t) (t_core t) ;;
  let '(e, o, containerbuffer, batch_map, s) := x in
  y <-- delta_step containerbuffer chunk e o s ;;
  let '(e, o, delta, s) := y in
  let isdelta := re_deltaFlag (iq_chunkAddr e) =? DELTA in
  z <-- ProcessSheUniqueChunk s (iq_chunkAddr e) (if isdelta then delta else chunk) (iq_superfeature e) (oq_chunkHash o) ;;
  let '(s, addr) := z in
  let saved := blen chunk - re_length addr in
  let s := stat s (if isdelta
    then [(_deltaChunkNum, 1); (_inlineDeltaChunkNum, 1); (_deltaDataSize, re_length addr); (_DeltaSaveSize, saved); (_Online_DeltaSaveSize, saved)]
    else [(_baseChunkNum, 1); (_baseDataSize, re_length addr); (_lz4SaveSize, saved)]) in
  let deltas := if isdelta then t_deltas t ++ [(addr_basehash (oq_chunkAddr o), oq_chunkHash o)] else t_deltas t in
  enc <-- AESCBCEnc (c_crypto cfg) (recipe_put addr) (c_indexQueryKey cfg) ;;
  Ok (in_addr e addr, out_flag (out_delta o (if isdelta then DELTA else NO_DELTA) (oq_offlineFlag o)) (oq_dedupFlag o) enc,
      mk_turn (stat s [(_uniqueChunkNum, 1); (_uniqueDataSize, blen chunk)]) (t_outs t) batch_map deltas).

(** How a class stores a chunk that no index knows. *)
Definition Storing : Type := gmap bytes bytes -> bytes -> InQueryEntry_t -> OutQueryEntry -> Turn -> result (InQueryEntry_t * OutQueryEntry * Turn).

(** A turn of the loop up to the recipe; the finished entries are collected in front. *)
Definition place_chunk (store : Storing) (disk : Upload -> gmap bytes bytes) (chunk : bytes) (e : InQueryEntry_t) (t : Turn)
    : result (InQueryEntry_t * list OutQueryEntry * Turn) :=
  let inside (t : Turn) := stat (t_core t) [(insideDedupChunkNum_, 1); (insideDedupDataSize_, blen chunk)] in
  if (iq_dedupFlag e =? DUPLICATE) || (iq_dedupFlag e =? TMP_DUPLICATE) || (iq_dedupFlag e =? TMP_UNIQUE) then
    Ok (e, [], mk_turn (inside t) (t_outs t) (t_batch_map t) (t_deltas t))
  else if iq_dedupFlag e =? UNIQUE then
    match t_outs t with
    | [] => Err Undefined
    | o :: outs =>
      let t := mk_turn (t_core t) outs (t_batch_map t) (t_deltas t) in
      if oq_dedupFlag o =? DUPLICATE then
        plain <-- AESCBCDec (c_crypto cfg) (oq_chunkAddr o) (c_indexQueryKey cfg) ;;
        Ok (in_addr e (recipe_get plain), [o], t)
      else if oq_dedupFlag o =? UNIQUE then
        z <-- store (disk (c_store (t_core t))) chunk e o t ;;
        let '(e, o, t) := z in Ok (e, [o], t)
      else Err ExitError
    end
  else Err ExitError.
Definition process_chunk (store : Storing) (disk : Upload -> gmap bytes bytes) (chunk : bytes) (e : InQueryEntry_t) (t : Turn)
    : result (InQueryEntry_t * list OutQueryEntry * Turn) :=
  x <-- place_chunk store disk chunk e t ;;
  let '(e, out, t) := x in
  s <-- UpdateFileRecipe (t_core t) (iq_chunkHash e) ;;
  Ok (e, out, mk_turn (stat s [(_logicalDataSize, blen chunk); (_logicalChunkNum, 1)]) (t_outs t) (t_batch_map t) (t_deltas t)).

Fixpoint process_chunks (store : Storing) (disk : nat -> Upload -> gmap bytes bytes) (recvBuffer : bytes) (off : Z) (i : nat)
    (ins : list InQueryEntry_t) (t : Turn) : result (list InQueryEntry_t * list OutQueryEntry * Turn) :=
  match ins with
  | [] => Ok ([], [], t)
  | e :: ins =>
    let off := off + 4 in
    x <-- process_chunk store (disk i) (slice recvBuffer off (iq_chunkSize e)) e t ;;
    let '(e, out, t) := x in
    y <-- process_chunks store disk recvBuffer (off + iq_chunkSize e) (S i) ins t ;;
    let '(ins, outs, t) := y in
    Ok (e :: ins, out ++ outs, t)
  end.

(** ** The end of a batch *)

Definition Ocall_UpdateDeltaIndex (db : IndexStore) (deltas : list (bytes * bytes)) : IndexStore :=
  fold_left (fun db x => InsertDeltaIndex db (fst x) (snd x)) deltas db.

(** A base chunk that already has a successor keeps the older one in [skipMap]. *)
Definition local_insert (db : IndexStore) (x : bytes * bytes) : IndexStore :=
  let '(old, new) := x in
  set_local db (<[old := new]> (_local_tmp_map db)) (_local_map db)
    (match _local_tmp_map db !! old with Some prev => push (skipMap db) old prev | None => skipMap db end).
Definition Ocall_LocalInsert (db : IndexStore) (pairs : list (bytes * bytes)) : IndexStore := fold_left local_insert pairs db.

(** The chunks that are frequent enough enter the top-k index. *)
Definition heap_update (h : EcallEntryHeap) (e : InQueryEntry_t) : result EcallEntryHeap :=
  if (iq_dedupFlag e =? UNIQUE) || (iq_dedupFlag e =? DUPLICATE) then
    add <-- CheckIfAddToHeap (topThreshold_ cfg) h (iq_chunkFreq e) ;;
    if add then
      if Contains h (iq_chunkHash e) then UpdateInsideIndexFreq h (iq_chunkHash e) (iq_chunkFreq e)
      else AddChunkToHeap (topThreshold_ cfg) h (iq_chunkFreq e) (iq_chunkAddr e) (iq_chunkHash e)
    else Ok h
  else Ok h.
Fixpoint heap_loop (ins : list InQueryEntry_t) (h : EcallEntryHeap) : result EcallEntryHeap :=
  match ins with
  | [] => Ok h
  | e :: ins => h <-- heap_update h e ;; heap_loop ins h
  end.

(** ** A batch *)

(** The state of the index object, the buffers of the client, the index outside. *)
Record Ingest := mk_ingest {
  cmSketch_ : EcallCMSketch;
  insideDedupIndex_ : EcallEntryHeap;
  _inQueryBase : list InQueryEntry_t;
  i_outQueryBase : list OutQueryEntry;
  i_queryNum : Z;
  _recvBuffer : bytes;
  i_core : Core;
  i_db : IndexStore
}.

(** The queries outside and the super-features: [queryNum] keeps its old value when
    nothing is asked. *)
Definition query_new (db : IndexStore) (c : Classes) : result (list OutQueryEntry) :=
  if outQueryNum c =? 0 then Ok (cl_outs c) else Ocall_QueryOutIndex db (outQueryNum c) (cl_outs c).
Definition query_bases (db : IndexStore) (recvBuffer : bytes) (c : Classes) (oldNum : Z) : result (list InQueryEntry_t * list OutQueryEntry) :=
  let queryNum := if outQueryNum c =? 0 then oldNum else outQueryNum c in
  outs <-- query_new db c ;;
  x <-- each_unique (sf_one recvBuffer) 0 (cl_ins c) outs tt ;;
  let '(ins, outs, _) := x in
  x <-- each_unique sf_get 0 ins outs tt ;;
  let '(ins, outs, _) := x in
  outs <-- Ocall_QueryOutBasechunk db queryNum outs ;;
  Ok (ins, outs).

(** Everything between the classification and the storing of the chunks. *)
Definition find_bases (db : IndexStore) (recvBuffer : bytes) (c : Classes) (oldNum : Z) (s : Core)
    : result (list InQueryEntry_t * list OutQueryEntry * bool * Core) :=
  let num := outQueryNum c in
  x <-- query_bases db recvBuffer c oldNum ;;
  let '(ins, outs) := x in
  let s := if num =? 0 then s else stat s [(_Inline_Ocall, 1); (_Inline_FPOcall, 1); (_Inline_Ocall, 1); (_Inline_SFOcall, 1)] in
  x <-- LocalChecker ins outs (c_stats s) ;;
  let '(ins, outs, flag, st) := x in
  Ok (ins, outs, flag, mk_core (c_store s) (c_cache s) (psHTable2_ s) (deltaBuffer_ s) (tmpOcallcontainer s) (c_recipe s) st).

(** *** What the index classes do in their own way *)

(** The queries and the search for bases, with what the class decides for the batch
    ([Plan]); the storing of a new chunk; the ocalls at the end of a batch. *)
Record IndexClass := mk_class {
  Plan : Type;
  search : IndexStore -> bytes -> Classes -> Z -> Core -> result (list InQueryEntry_t * list OutQueryEntry * Plan * Core);
  storing : Plan -> Storing;
  end_batch : Plan -> IndexStore -> Turn -> IndexStore * Core
}.

(** [EcallFreqIndex]: [Local_Flag] says whether deltas are left to the offline pass; the
    pairs of old and new chunks, or the deltas, go outside. *)
Definition end_freq (Local_Flag : bool) (db : IndexStore) (t : Turn) : IndexStore * Core :=
  if Local_Flag then
    match t_batch_map t with
    | [] => (db, t_core t)
    | l => (Ocall_LocalInsert db l, stat (t_core t) [(_Inline_Ocall, 1); (_Inline_LocalOcall, 1)])
    end
  else
    match t_deltas t with
    | [] => (db, t_core t)
    | l => (Ocall_UpdateDeltaIndex db l, stat (t_core t) [(_Inline_Ocall, 1); (_Inline_DeltaOcall, 1)])
    end.
Definition FreqIndex : IndexClass := mk_class bool find_bases (fun Local_Flag disk => store_new disk Local_Flag) end_freq.

(** [ProcessOneBatch].  [disk i u] is what is in the base directory when chunk [i] is
    stored and the storage core has the state [u]: the data writer works meanwhile. *)
Definition ProcessOneBatch (C : IndexClass) (disk : nat -> Upload -> gmap bytes bytes) (dataBuffer : bytes) (chunkNum : nat) (g : Ingest) : result Ingest :=
  plain <-- SessionKeyDec (c_crypto cfg) dataBuffer (c_sessionKey cfg) ;;
  let recvBuffer := write (_recvBuffer g) 0 plain in
  if c_sendChunkBatchSize cfg * sizeof_Chunk <? blen plain then Err Undefined else
  ins <-- hash_loop chunkNum recvBuffer 0 (_inQueryBase g) ;;
  x <-- freq_loop ins (cmSketch_ g) ;;
  let '(ins, sketch) := x in
  c <-- classify (insideDedupIndex_ g) ins (i_outQueryBase g) ;;
  x <-- search C (i_db g) recvBuffer c (i_queryNum g) (i_core g) ;;
  let '(ins, outs, plan, s) := x in
  x <-- process_chunks (storing C plan) disk recvBuffer 0 0 ins (mk_turn s outs [] []) ;;
  let '(ins, outs, t) := x in
  let '(db, s) := end_batch C plan (i_db g) t in
  h <-- heap_loop ins (insideDedupIndex_ g) ;;
  Ok (mk_ingest sketch h (ins ++ drop chunkNum (_inQueryBase g)) (outs ++ t_outs t) (outQueryNum c) recvBuffer s db).
End ingest.
