(* ===== verification/Mega.v ===== *)
(** The index of Secure MeGA (ecallIndex/ecallMeGA.cc): as [EcallFreqIndex], but deltas are
    made only against bases in containers that several chunks of the batch need, and
    nothing is left to an offline pass. *)
From Stdlib Require Import ZArith Lia.
From stdpp Require Import base list gmap.
From S2P Require Import Prelude Types HTable EDelta Codec ContainerCache ReqContainers Database Container Crypto Restore Ingest.

Section mega.
Context `{EVP} `{LZ4}.
Variable cfg : Config.

Definition MeGA_THRESOLD : Z := 3.

(** [MeGALoad]: the recipe of the base is decrypted into both entries, and its container
    is counted. *)
Definition MeGALoad (e : InQueryEntry_t) (o : OutQueryEntry) (off : Z) (MeGA_map : gmap bytes Z)
    : result (InQueryEntry_t * OutQueryEntry * gmap bytes Z) :=
  if oq_deltaFlag o =? OUT_DELTA then
    plain <-- AESCBCDec (c_crypto cfg) (oq_basechunkAddr o) (c_indexQueryKey cfg) ;;
    let base := recipe_get plain in
    let id := re_containerName base in
    Ok (in_base e (set_addr_base (iq_chunkAddr e) (addr_basehash (oq_chunkAddr o))) base, out_base o (oq_chunkAddr o) plain,
        <[id := match MeGA_map !! id with None => 1 | Some n => n + 1 end]> MeGA_map)
  else Ok (e, o, MeGA_map).
Definition MeGAChecker (ins : list InQueryEntry_t) (outs : list OutQueryEntry) : result (list InQueryEntry_t * list OutQueryEntry * gmap bytes Z) :=
  each_unique MeGALoad 0 ins outs ∅.

(** Enough chunks of the batch have a base in this container. *)
Definition worth_loading (MeGA_map : gmap bytes Z) (name : bytes) : bool :=
  match MeGA_map !! name with Some n => MeGA_THRESOLD <? n | None => false end.

(** [MeGAdeltaTure]: whether the chunk becomes a delta, and the container of its base.
    [chunkAddr.deltaFlag] of the entry outside is a byte of the address. *)
Definition MeGAdeltaTure (disk : gmap bytes bytes) (MeGA_map : gmap bytes Z) (e : InQueryEntry_t) (o : OutQueryEntry) (s : Core)
    : result (InQueryEntry_t * OutQueryEntry * option bytes * Core) :=
  let name := slice (oq_basechunkAddr o) 0 CONTAINER_ID_LENGTH in
  let with_basehash := in_addr e (set_addr_base (iq_chunkAddr e) (addr_basehash (oq_chunkAddr o))) in
  if negb (worth_loading MeGA_map name) && (oq_deltaFlag o =? OUT_DELTA) then
    Ok (e, out_base o (write (oq_chunkAddr o) CONTAINER_ID_LENGTH [NO_DELTA]) (oq_basechunkAddr o), None, s)
  else if (oq_deltaFlag o =? OUT_DELTA) && ExistsInCache (c_cache s) name then
    x <-- ReadFromCache (c_cache s) name ;;
    let '(cache, p) := x in
    slot <-- deref cache p ;;
    Ok (with_basehash, out_delta o DELTA (oq_offlineFlag o), Some slot, with_cache s cache (tmpOcallcontainer s))
  else if oq_deltaFlag o =? OUT_DELTA then
    x <-- Ocall_getRefContainer disk name (oq_deltaFlag o) (tmpOcallcontainer s) ;;
    let '(flag, tmp) := x in
    let s := stat (with_cache s (c_cache s) tmp) [(_Inline_Ocall, 1)] in
    if flag =? DELTA then
      if ExistsInCache (c_cache s) name then Ok (e, out_delta o flag (oq_offlineFlag o), Some tmp, s)
      else
        cache <-- InsertToCache_Offline (c_cache s) name tmp MAX_CONTAINER_SIZE ;;
        x <-- ReadFromCache cache name ;;
        let '(cache, p) := x in
        slot <-- deref cache p ;;
        Ok (with_basehash, out_delta o flag (oq_offlineFlag o), Some slot, with_cache s cache tmp)
    else Ok (e, out_delta o flag (oq_offlineFlag o), None, s)
  else Ok (e, o, None, s).

(** A chunk no index knows: [ProcessOneBatch] of this class. *)
Definition mega_store_new (MeGA_map : gmap bytes Z) (disk : gmap bytes bytes) (chunk : bytes) (e : InQueryEntry_t) (o : OutQueryEntry) (t : Turn)
    : result (InQueryEntry_t * OutQueryEntry * Turn) :=
  let e := in_addr e (set_addr_delta (iq_chunkAddr e) NO_DELTA) in
  x <-- MeGAdeltaTure disk MeGA_map e o (t_core t) ;;
  let '(e, o, containerbuffer, s) := x in
  y <-- delta_step cfg containerbuffer chunk e o s ;;
  let '(e, o, delta, s) := y in
  let isdelta := re_deltaFlag (iq_chunkAddr e) =? DELTA in
  z <-- ProcessSheUniqueChunk cfg s (iq_chunkAddr e) (if isdelta then delta else chunk) (iq_superfeature e) (oq_chunkHash o) ;;
  let '(s, addr) := z in
  let saved := blen chunk - re_length addr in
  let s := stat s (if isdelta
    then [(_deltaChunkNum, 1); (_deltaDataSize, re_length addr); (_DeltaSaveSize, saved); (_Online_DeltaSaveSize, saved); (_Inline_Ocall, 1)]
    else [(_baseChunkNum, 1); (_baseDataSize, re_length addr); (_lz4SaveSize, saved)]) in
  enc <-- AESCBCEnc (c_crypto cfg) (recipe_put addr) (c_indexQueryKey cfg) ;;
  Ok (in_addr e addr, out_flag (out_delta o (if isdelta then DELTA else NO_DELTA) (oq_offlineFlag o)) (oq_dedupFlag o) enc,
      mk_turn (stat s [(_uniqueChunkNum, 1); (_uniqueDataSize, blen chunk)]) (t_outs t) (t_batch_map t) (t_deltas t)).

(** The queries outside; [Ocall_QueryOutBasechunk] is counted in any case. *)
Definition mega_find_bases (db : IndexStore) (recvBuffer : bytes) (c : Classes) (oldNum : Z) (s : Core)
    : result (list InQueryEntry_t * list OutQueryEntry * gmap bytes Z * Core) :=
  x <-- query_bases cfg db recvBuffer c oldNum ;;
  let '(ins, outs) := x in
  let s := stat s ((if outQueryNum c =? 0 then [] else [(_Inline_Ocall, 1)]) ++ [(_Inline_Ocall, 1)]) in
  x <-- MeGAChecker ins outs ;;
  let '(ins, outs, MeGA_map) := x in Ok (ins, outs, MeGA_map, s).

Definition MeGAIndex : IndexClass := mk_class (gmap bytes Z) mega_find_bases mega_store_new (fun _ db t => (db, t_core t)).
End mega.
