(* ===== verification/Debe.v ===== *)
(** The index of DEBE (ecallIndex/ecallDEBE.cc, [ProcessUniqueChunk] of
    ecallIndex/enclaveBase.cc): deduplication and compression, no deltas. *)
From Stdlib Require Import ZArith Lia.
From stdpp Require Import base list gmap.
From S2P Require Import Prelude Types ReqContainers Database Container Crypto Restore Ingest.

Section debe.
Context `{EVP} `{LZ4}.
Variable cfg : Config.

(** [ProcessUniqueChunk]: the content and its IV are all that is stored. *)
Definition ProcessUniqueChunk (s : Core) (chunkAddr : RecipeEntry_t) (chunkBuffer : bytes) : result (Core * RecipeEntry_t) :=
  let u := with_iv (c_store s) (PickNewIV (_iv (c_store s))) in
  let data := default chunkBuffer (LZ4_compress_fast chunkBuffer (blen chunkBuffer)) in
  if MAX_CHUNK_SIZE <? blen data then Err Undefined else
  cipher <-- EncryptWithKeyIV (c_crypto cfg) data (c_enclaveKey cfg) (_iv u) ;;
  x <-- SaveChunk u cipher (blen data) chunkAddr ;;
  Ok (stat (with_store s (fst x)) [(_compressedDataSize, blen data); (_onlineCompress_size, blen data); (_onlineBackupSize, blen data)], snd x).

(** A chunk no index knows; the flags of the entry outside are what they were. *)
Definition debe_store_new (plan : unit) (disk : gmap bytes bytes) (chunk : bytes) (e : InQueryEntry_t) (o : OutQueryEntry) (t : Turn)
    : result (InQueryEntry_t * OutQueryEntry * Turn) :=
  z <-- ProcessUniqueChunk (t_core t) (iq_chunkAddr e) chunk ;;
  let '(s, addr) := z in
  let s := stat s [(_lz4SaveSize, blen chunk - re_length addr); (_baseChunkNum, 1); (_baseDataSize, re_length addr)] in
  enc <-- AESCBCEnc (c_crypto cfg) (recipe_put addr) (c_indexQueryKey cfg) ;;
  Ok (in_addr e addr, out_flag o (oq_dedupFlag o) enc,
      mk_turn (stat s [(_uniqueChunkNum, 1); (_uniqueDataSize, blen chunk)]) (t_outs t) (t_batch_map t) (t_deltas t)).

Definition debe_query (db : IndexStore) (recvBuffer : bytes) (c : Classes) (oldNum : Z) (s : Core)
    : result (list InQueryEntry_t * list OutQueryEntry * unit * Core) :=
  outs <-- query_new db c ;;
  Ok (cl_ins c, outs, tt, if outQueryNum c =? 0 then s else stat s [(_Inline_Ocall, 1); (_Inline_FPOcall, 1)]).

Definition DEBEIndex : IndexClass := mk_class unit debe_query debe_store_new (fun _ db t => (db, t_core t)).
End debe.
