(* ===== verification/Upload.v ===== *)
(** An upload (Index/enclaveIndex.cc, Server/dataReceiver.cc): the object of the index type,
    its batches, the end of a file. *)
From Stdlib Require Import ZArith Lia.
From stdpp Require Import base list gmap.
From S2P Require Import Prelude Types ReqContainers Database Container Writer Crypto Restore Ingest Mega Debe.

Section upload.
Context `{EVP} `{LZ4}.
Variable cfg : Config.

(** [Ecall_Init_Upload]. *)
Definition index_class : IndexClass :=
  match c_indexType cfg with
  | SECURE_MEGA => MeGAIndex cfg
  | DEBE => DEBEIndex cfg
  | FREQ_INDEX | FORWORD | ONLY_FORWORD => FreqIndex cfg
  end.

(** [ProcessTailBatch]: the rest of the recipe, and the open containers go outside. *)
Definition ProcessTailBatch (s : Core) : result Core :=
  let r := c_recipe s in
  r <-- (if recipeNum r =? 0 then Ok r
         else
           enc <-- EncryptWithKey (c_crypto cfg) (slice (entryFpList r) 0 (recipeNum r * CHUNK_HASH_SIZE)) (c_masterKey cfg) ;;
           Ok (mk_recipe_buf (entryFpList r) 0 (recipeFile r ++ enc))) ;;
  Ok (with_recipe (with_store s (dump_open (c_store s))) r).

(** ** A session, with the object [C] of its index type *)
Variable C : IndexClass.

(** [EnclaveIndex::ProcessOneBatch]: then the index outside is brought up to date. *)
Definition EnclaveIndex_ProcessOneBatch (disk : nat -> Upload -> gmap bytes bytes) (dataBuffer : bytes) (chunkNum : nat) (g : Ingest) : result Ingest :=
  g <-- ProcessOneBatch cfg C disk dataBuffer chunkNum g ;;
  if i_queryNum g =? 0 then Ok g else
  db <-- Ocall_UpdateOutIndex (i_db g) (i_queryNum g) (i_outQueryBase g) ;;
  Ok (mk_ingest (cmSketch_ g) (insideDedupIndex_ g) (_inQueryBase g) (i_outQueryBase g) (i_queryNum g) (_recvBuffer g) (i_core g) db).

(** [DataReceiver::Run] on the messages of a session, then the end of the file. *)
Fixpoint upload_batches (disk : nat -> nat -> Upload -> gmap bytes bytes) (i : nat) (messages : list (bytes * nat)) (g : Ingest) : result Ingest :=
  match messages with
  | [] => Ok g
  | (data, num) :: messages => g <-- EnclaveIndex_ProcessOneBatch (disk i) data num g ;; upload_batches disk (S i) messages g
  end.
Definition upload_session (disk : nat -> nat -> Upload -> gmap bytes bytes) (messages : list (bytes * nat)) (g : Ingest) : result Ingest :=
  g <-- upload_batches disk 0 messages g ;;
  s <-- ProcessTailBatch (i_core g) ;;
  u <-- last_containers (c_store s) ;;
  Ok (mk_ingest (cmSketch_ g) (insideDedupIndex_ g) (_inQueryBase g) (i_outQueryBase g) (i_queryNum g) (_recvBuffer g) (with_store s u) (i_db g)).
End upload.
