(* ===== verification/Library.v ===== *)
(** The index and the containers together: a library of chunks.  What an index entry
    promises, that the promise survives everything that only adds to index and
    containers, and that it is what a restore needs. *)
From Stdlib Require Import ZArith Lia.
From stdpp Require Import base list gmap.
From S2P Require Import Prelude Types HTable EDelta EDeltaCorrect Codec ContainerCache ReqContainers Database Container Writer Crypto Restore RestoreCorrect Ingest.

Section library.
Context `{EVP} `{LZ4}.
Variable cfg : Config.

(** The setting of a restore by a client with the session key [sk]. *)
Definition setting (sk : bytes) (D : Directories) (db : IndexStore) : Setting := {|
  cryptoObj_ := c_crypto cfg; indexQueryKey_ := c_indexQueryKey cfg; enclaveKey_ := c_enclaveKey cfg;
  _masterKey := c_masterKey cfg; _sessionKey := sk;
  sendChunkBatchSize_ := c_sendChunkBatchSize cfg; sendRecipeBatchSize_ := c_sendRecipeBatchSize cfg;
  containers := D; indexStoreObj_ := db |}.

(** ** Growing *)

Definition all_small (D : Directories) : Prop := forall n b, open_container D n = Ok b -> blen b <= MAX_CONTAINER_SIZE.

Section mono.
Context (sk sk' : bytes) (D D' : Directories) (db db' : IndexStore).
Hypothesis HD : dirs_le D D'.
Hypothesis HS : all_small D'.
Hypothesis HI : indexObj_ db ⊆ indexObj_ db'.

Lemma lookup_recipe_mono k r : lookup_recipe (setting sk D db) k = Ok r -> lookup_recipe (setting sk' D' db') k = Ok r.
Proof.
  unfold lookup_recipe, QueryBuffer. cbn [setting indexStoreObj_ cryptoObj_ indexQueryKey_].
  destruct (indexObj_ db !! _) as [v|] eqn:E; [|done]. by rewrite (lookup_weaken _ _ _ _ E HI).
Qed.
Lemma item_of_mono r it : item_of (setting sk D db) r = Ok it -> item_of (setting sk' D' db') r = Ok it.
Proof. unfold item_of. case_if; [|done]. intros X. inv_bind X. by rewrite (lookup_recipe_mono _ _ E0). Qed.

Lemma stored_chunk_mono r x : stored_chunk (setting sk D db) r = Ok x -> stored_chunk (setting sk' D' db') r = Ok x.
Proof.
  unfold stored_chunk. cbn [setting containers]. intros X. inv_bind X. case_if_in X; [done|].
  destruct (HD _ _ E) as [ext E']. rewrite E'. cbn [rbind]. rewrite (proj2 (Z.ltb_ge _ _) (HS _ _ E')).
  eapply (read_chunk_prefix (setting sk D db)); [|exact X]. apply take_app_length.
Qed.
Lemma item_chunk_mono it x : item_chunk (setting sk D db) it = Ok x -> item_chunk (setting sk' D' db') it = Ok x.
Proof.
  unfold item_chunk. intros X. inv_bind X. rewrite (stored_chunk_mono _ _ E). cbn [rbind].
  destruct (snd it); [|done]. inv_bind X. by rewrite (stored_chunk_mono _ _ E0).
Qed.
End mono.

(** ** The invariant *)

(** A delta of [x] against [y] is defined and the receiver's buffer is large enough to
    decode it; see [EDeltaEncode_defined] and [ed3_decode_script]. *)
Definition decodable (x y : bytes) : Prop :=
  encode_undefined x (blen x) y (blen y) = false /\
  forall buf t d n t', encode_pre x (blen x) y (blen y) t ->
    EcallFreqIndex.ed3_encode x (blen x) y (blen y) buf t 0 = Ok (d, n, t') -> blen x <= 2 * (n + blen y).

(** The chunks that may be uploaded: of the sizes the chunker cuts, without collisions
    of the hash, compressible in the sense that decompressing gives the chunk back also
    when it was stored as it is, and decodable against each other. *)
Record universe (U : bytes -> Prop) : Prop := {
  un_size : forall x, U x -> 1 <= blen x <= MAX_CHUNK_SIZE;
  un_bytes : forall x, U x -> bytes_ok x;
  un_hash : forall x y h, U x -> U y -> GenerateHash (c_crypto cfg) x = Ok h -> GenerateHash (c_crypto cfg) y = Ok h -> x = y;
  un_lz4 : forall x, U x -> decompress (stored_form NO_DELTA x) = x /\ blen (stored_form NO_DELTA x) <= MAX_CHUNK_SIZE;
  un_delta : forall x y, U x -> U y -> decodable x y
}.

Variable U : bytes -> Prop.

(** The entry [v] of the index under the key [k] stands for the chunk [x]. *)
Record indexed (D : Directories) (db : IndexStore) (k v x : bytes) (r : RecipeEntry_t) : Prop := {
  ix_fine : U x;
  ix_key : exists fp, GenerateHash (c_crypto cfg) x = Ok fp /\ IndexAESCMCEnc (c_crypto cfg) fp (c_indexQueryKey cfg) = Ok k;
  ix_recipe : recipe_ok r;
  ix_value : AESCBCEnc (c_crypto cfg) (recipe_put r) (c_indexQueryKey cfg) = Ok v;
  ix_small : re_length r <= MAX_CHUNK_SIZE;
  ix_chunk : exists it, item_of (setting [] D db) r = Ok it /\ item_chunk (setting [] D db) it = Ok x
}.

(** The chunks the super-feature index offers as bases. *)
Definition offered (db : IndexStore) (k : bytes) : Prop :=
  exists i m f l, sfObj_ db !! i = Some m /\ m !! f = Some l /\ k ∈ l.
Definition base_entry (D : Directories) (db : IndexStore) (k : bytes) : Prop :=
  exists v x r, indexObj_ db !! k = Some v /\ indexed D db k v x r /\ re_deltaFlag r = NO_DELTA.

Record library (D : Directories) (db : IndexStore) : Prop := {
  lib_index : forall k v, indexObj_ db !! k = Some v -> exists x r, indexed D db k v x r;
  lib_sf : sf_wf db;
  lib_base : forall k, offered db k -> base_entry D db k
}.

Lemma indexed_mono D D' db db' k v x r :
  dirs_le D D' -> all_small D' -> indexObj_ db ⊆ indexObj_ db' -> indexed D db k v x r -> indexed D' db' k v x r.
Proof.
  intros HD HS HI [F K R V S (it & I & C)]. split; try done. exists it.
  split; [by eapply item_of_mono|by eapply item_chunk_mono].
Qed.
Lemma base_entry_mono D D' db db' k :
  dirs_le D D' -> all_small D' -> indexObj_ db ⊆ indexObj_ db' -> base_entry D db k -> base_entry D' db' k.
Proof.
  intros HD HS HI (v & x & r & E & I & F). exists v, x, r. split; [by eapply lookup_weaken|].
  split; [by eapply indexed_mono|done].
Qed.

(** Containers may grow under a library. *)
Lemma library_grow D D' db : dirs_le D D' -> all_small D' -> library D db -> library D' db.
Proof.
  intros HD HS [I S B]. split; [|done|].
  - intros k v E. destruct (I k v E) as (x & r & X). exists x, r. by eapply indexed_mono.
  - intros k O. by eapply base_entry_mono, B.
Qed.

(** ** Looking a chunk up *)

Section lookup.
Context `{!EVPLaws} (HU : universe U) (HT : hashType_ (c_crypto cfg) = SHA_256).

Lemma hash_blen x fp : GenerateHash (c_crypto cfg) x = Ok fp -> blen fp = 32.
Proof.
  unfold GenerateHash. rewrite HT. intros X. inv_bind X. case_if_in X; [|done]. injection X as <-. done.
Qed.
Lemma key_blen fp k : blen fp = 32 -> IndexAESCMCEnc (c_crypto cfg) fp (c_indexQueryKey cfg) = Ok k -> blen k = 32.
Proof.
  intros L E. destruct (CMC_ok (c_crypto cfg) fp (c_indexQueryKey cfg)) as (d & E' & Ld & _); [by rewrite L|].
  rewrite E in E'. injection E' as <-. lia.
Qed.
Lemma slice_32 (k : bytes) : blen k = 32 -> slice k 0 32 = k.
Proof. intros L. rewrite <- L. apply slice_full. Qed.
Lemma slice_144 (v : bytes) : blen v = 144 -> slice v 0 144 = v.
Proof. intros L. rewrite <- L. apply slice_full. Qed.

Lemma indexed_key D db k v x r : indexed D db k v x r -> blen k = 32.
Proof. intros I. destruct (ix_key _ _ _ _ _ _ I) as (fp & Hh & Hk). eapply key_blen; [|done]. by eapply hash_blen. Qed.
(** The value decrypts to the recipe entry. *)
Lemma indexed_value D db k v x r : indexed D db k v x r ->
  blen v = sizeof_RecipeEntry /\ AESCBCDec (c_crypto cfg) v (c_indexQueryKey cfg) = Ok (recipe_put r) /\
  recipe_get (recipe_put r) = r.
Proof.
  intros [_ _ R V _ _]. pose proof (recipe_put_length r R) as L.
  destruct (AESCBCDec_Enc (c_crypto cfg) (recipe_put r) (c_indexQueryKey cfg) v) as [D' L']; [unfold blen; by rewrite L|done|].
  split; [unfold blen in *; rewrite L' , L; done|]. split; [done|]. rewrite <- (app_nil_r (recipe_put r)). by apply recipe_get_put.
Qed.

Lemma indexed_lookup sk D db k v x r :
  indexObj_ db !! k = Some v -> indexed D db k v x r -> lookup_recipe (setting sk D db) k = Ok r.
Proof.
  intros E I. destruct (indexed_value _ _ _ _ _ _ I) as (L & Dv & G). unfold lookup_recipe, QueryBuffer.
  cbn [setting indexStoreObj_ cryptoObj_ indexQueryKey_]. change CHUNK_HASH_SIZE with 32.
  rewrite (slice_32 k (indexed_key _ _ _ _ _ _ I)), E. cbn [of_option rbind]. rewrite (proj2 (Z.eqb_eq _ _) L).
  rewrite Dv. cbn [rbind]. by rewrite G.
Qed.

Lemma indexed_same D db k v v' x x' r r' : indexed D db k v x r -> indexed D db k v' x' r' -> x = x'.
Proof.
  intros [F (fp & Hh & Hk) _ _ _ _] [F' (fp' & Hh' & Hk') _ _ _ _].
  pose proof (hash_blen _ _ Hh) as L. pose proof (hash_blen _ _ Hh') as L'.
  assert (fp = fp') as <- by (eapply CMC_inj; [| |exact Hk|exact Hk']; rewrite ?L, ?L'; done).
  by eapply (un_hash _ HU).
Qed.

(** A chunk whose key is in the index can be restored. *)
Lemma library_recoverable sk D db x fp k :
  library D db -> U x -> GenerateHash (c_crypto cfg) x = Ok fp ->
  IndexAESCMCEnc (c_crypto cfg) fp (c_indexQueryKey cfg) = Ok k -> is_Some (indexObj_ db !! k) ->
  recoverable (setting sk D db) fp x.
Proof.
  intros L F Hh Hk [v Hv]. destruct (lib_index _ _ L k v Hv) as (x' & r & I).
  assert (x' = x) as ->.
  { destruct I as [F' (fp' & Hh' & Hk') _ _ _ _]. pose proof (hash_blen _ _ Hh) as Lf. pose proof (hash_blen _ _ Hh') as Lf'.
    assert (fp' = fp) as -> by (eapply CMC_inj; [| |exact Hk'|exact Hk]; rewrite ?Lf, ?Lf'; done). by eapply (un_hash _ HU). }
  assert (Rk : recipe_of (setting sk D db) fp = Ok r).
  { unfold recipe_of. cbn [setting cryptoObj_ indexQueryKey_]. rewrite Hk. cbn [rbind]. by eapply indexed_lookup. }
  split.
  - by eapply hash_blen.
  - unfold original_chunk. rewrite Rk. cbn [rbind]. destruct (ix_chunk _ _ _ _ _ _ I) as (it & Ei & Ec). fold (setting sk D db).
    change (item_of (setting sk D db) r) with (item_of (setting [] D db) r). rewrite Ei. exact Ec.
  - apply (un_size _ HU x F).
Qed.

(** ** Adding a chunk *)

Lemma library_insert D db k v x r :
  library D db -> all_small D -> indexObj_ db !! k = None -> indexed D db k v x r -> library D (set_index db (<[k := v]> (indexObj_ db))).
Proof.
  intros L Sm N I. set (db' := set_index db _). assert (Sub : indexObj_ db ⊆ indexObj_ db') by by apply insert_subseteq.
  split; [|apply (lib_sf _ _ L)|].
  - intros k' v' E. cbn in E. apply lookup_insert_Some in E as [[<- <-]|[_ E]].
    + exists x, r. by eapply indexed_mono.
    + destruct (lib_index _ _ L k' v' E) as (x' & r' & I'). exists x', r'. by eapply indexed_mono.
  - intros k' O. eapply base_entry_mono, (lib_base _ _ L); done.
Qed.

Lemma InsertSF_offered db sf v db' k : InsertSF db sf v 0 = Ok db' ->
  indexObj_ db' = indexObj_ db /\ (offered db' k -> k = slice v 0 CHUNK_HASH_SIZE \/ offered db k).
Proof.
  unfold InsertSF. intros X. inv_bind X. injection X as <-. split; [done|].
  enough (G : forall n i s t, forM n i (insert_sf_one sf v 0) s = Ok t ->
    forall j m f l, t !! j = Some m -> m !! f = Some l -> k ∈ l -> k = slice v 0 CHUNK_HASH_SIZE \/
      exists j' m' f' l', s !! j' = Some m' /\ m' !! f' = Some l' /\ k ∈ l').
  { intros (j & m & f & l & Hj & Hf & Hk). destruct (G _ _ _ _ E j m f l Hj Hf Hk); [by left|by right]. }
  clear E. induction n as [|n IH]; intros i s t E j m f l Hj Hf Hk; cbn [forM] in E.
  - injection E as <-. right. by exists j, m, f, l.
  - inv_bind E. destruct (IH _ _ _ E j m f l Hj Hf Hk) as [?|(j' & m' & f' & l' & Hj' & Hf' & Hk')]; [by left|].
    clear -E0 Hj' Hf' Hk'. unfold insert_sf_one in E0. destruct (s !! Z.to_nat i) as [m0|] eqn:E1; [|done].
    cbn [of_option rbind] in E0. injection E0 as <-. cbn in Hj'. apply list_lookup_insert_Some in Hj' as [(<- & <- & _)|[_ Hj']].
    + unfold push in Hf'. apply lookup_insert_Some in Hf' as [[<- <-]|[_ Hf']].
      * apply elem_of_app in Hk' as [Hk'|Hk']; [|left; by apply list_elem_of_singleton in Hk'].
        destruct (m0 !! sf_key sf i) as [l0|] eqn:E2; [|by apply elem_of_nil in Hk']. right. by exists (Z.to_nat i), m0, (sf_key sf i), l0.
      * right. by exists (Z.to_nat i), m0, f', l'.
    + right. by exists j', m', f', l'.
Qed.

Lemma library_offer D db k sf :
  library D db -> base_entry D db k ->
  exists db', InsertSF db sf k 0 = Ok db' /\ library D db' /\ indexObj_ db' = indexObj_ db.
Proof.
  intros L B. destruct (InsertSF_ok db sf k 0 (lib_sf _ _ L) ltac:(lia)) as (db' & E & W & _).
  exists db'. split; [done|]. destruct (InsertSF_offered db sf k db' [] E) as [Ei _]. split; [|done].
  assert (Im : forall k' v x r, indexed D db k' v x r -> indexed D db' k' v x r).
  { intros k' v x r [A1 A2 A3 A4 A5 (it & A6 & A7)]. split; try done. exists it. split; [|done].
    revert A6. unfold item_of, lookup_recipe, QueryBuffer. cbn [setting indexStoreObj_]. by rewrite Ei. }
  assert (Bm : forall k', base_entry D db k' -> base_entry D db' k').
  { intros k' (v & x & r & Ev & I & F). exists v, x, r. rewrite Ei. split; [done|]. split; [by apply Im|done]. }
  split; [|done|].
  - intros k' v. rewrite Ei. intros Ev. destruct (lib_index _ _ L k' v Ev) as (x & r & I). exists x, r. by apply Im.
  - intros k' O. apply Bm. destruct (InsertSF_offered db sf k db' k' E) as [_ [-> |O']]; [done| |by apply (lib_base _ _ L)].
    destruct B as (v & x & r & Ev & I & F). change CHUNK_HASH_SIZE with 32. rewrite slice_32 by (by eapply indexed_key).
    by exists v, x, r.
Qed.

(** What the super-feature index answers. *)
Lemma QuerySF_ok db key : sf_wf db -> exists o, QuerySF db key = Ok o /\ (forall k, o = Some k -> offered db k).
Proof.
  intros W. destruct (sf_cases db W) as (m0 & m1 & m2 & E & F0 & F1 & F2).
  rewrite (QuerySF_eq db key m0 m1 m2 E F0 F1 F2). eexists. split; [reflexivity|]. intros k.
  assert (G : forall i m f l, [m0; m1; m2] !! i = Some m -> m !! f = Some l -> head l = Some k -> offered db k).
  { intros i m f l Hi Hf Hl. exists i, m, f, l. rewrite E. split; [done|]. split; [done|].
    destruct l as [|x l]; [done|]. injection Hl as ->. apply list_elem_of_here. }
  destruct (m0 !! _) eqn:E0; [by apply (G 0%nat m0 _ _ eq_refl E0)|].
  destruct (m1 !! _) eqn:E1; [by apply (G 1%nat m1 _ _ eq_refl E1)|].
  destruct (m2 !! _) eqn:E2; [by apply (G 2%nat m2 _ _ eq_refl E2)|done].
Qed.
End lookup.
End library.
