(* ===== verification/Classify.v ===== *)
(** The classification of a batch (ecallIndex/ecallFreqIndex.cc, [ProcessOneBatch], the
    loop over the top-k index and the batch index) against a reference: what each entry
    becomes depends only on the fingerprints before it, its frequency and the heap. *)
From Stdlib Require Import ZArith Lia.
From stdpp Require Import base list gmap.
From S2P Require Import Prelude Types EntryHeap TopK ReqContainers Crypto Ingest Library.

Section classify.
Context `{EVPLaws}.
Variable cfg : Config.
Variable h : EcallEntryHeap.

(** ** The reference *)

(** An entry whose fingerprint is new to the batch. *)
Definition new_flag (minFreq : Z) (e : InQueryEntry_t) : Z :=
  if (iq_chunkFreq e <? minFreq) || negb (Contains h (iq_chunkHash e)) then UNIQUE else DUPLICATE.
(** The first entry of the list with the fingerprint. *)
Definition earlier (fp : bytes) (l : list InQueryEntry_t) : option (nat * InQueryEntry_t) := list_find (fun e => iq_chunkHash e = fp) l.
Definition flag_of (minFreq : Z) (before : list InQueryEntry_t) (e : InQueryEntry_t) : Z :=
  match earlier (iq_chunkHash e) before with
  | Some (_, e0) => if new_flag minFreq e0 =? UNIQUE then TMP_UNIQUE else TMP_DUPLICATE
  | None => new_flag minFreq e
  end.
(** The fingerprints that are asked for outside. *)
Fixpoint asked_outside (minFreq : Z) (before ins : list InQueryEntry_t) : list bytes :=
  match ins with
  | [] => []
  | e :: ins => (if flag_of minFreq before e =? UNIQUE then [iq_chunkHash e] else []) ++ asked_outside minFreq (before ++ [e]) ins
  end.
Definition queried (fp : bytes) (o : OutQueryEntry) : Prop :=
  IndexAESCMCEnc (c_crypto cfg) fp (c_indexQueryKey cfg) = Ok (oq_chunkHash o).

Lemma asked_outside_snoc minFreq before ins e :
  asked_outside minFreq before (ins ++ [e]) =
  asked_outside minFreq before ins ++ (if flag_of minFreq (before ++ ins) e =? UNIQUE then [iq_chunkHash e] else []).
Proof.
  revert before. induction ins as [|x ins IH]; intros before; cbn [app asked_outside]; [by rewrite app_nil_r, app_nil_r|].
  by rewrite IH, <- !app_assoc.
Qed.
Lemma asked_outside_length minFreq before ins : (length (asked_outside minFreq before ins) <= length ins)%nat.
Proof. revert before. induction ins as [|x ins IH]; intros before; cbn; [done|]. rewrite length_app. specialize (IH (before ++ [x])). case_if; cbn; lia. Qed.

(** ** The loop follows it *)

Variable minFreq : Z.
Variable ins : list InQueryEntry_t.
Variable room : nat.

(** After [i] entries. *)
Record follows (i : nat) (c : Classes) : Prop := {
  fw_length : length (cl_ins c) = length ins;
  fw_entry : forall j e, ins !! j = Some e -> exists e', cl_ins c !! j = Some e' /\ iq_chunkHash e' = iq_chunkHash e /\
               ((j < i)%nat -> iq_dedupFlag e' = flag_of minFreq (take j ins) e) /\ ((i <= j)%nat -> e' = e);
  fw_local : forall fp, _localIndex c !! fp = (fun x => Z.of_nat (fst x)) <$> earlier fp (take i ins);
  fw_num : outQueryNum c = blen (asked_outside minFreq [] (take i ins));
  fw_room : length (cl_outs c) = room;
  fw_outs : Forall2 queried (asked_outside minFreq [] (take i ins)) (take (Z.to_nat (outQueryNum c)) (cl_outs c))
}.

Lemma earlier_snoc fp l e : earlier fp (l ++ [e]) =
  match earlier fp l with Some x => Some x | None => if decide (iq_chunkHash e = fp) then Some (length l, e) else None end.
Proof.
  unfold earlier. destruct (list_find _ l) as [[k x]|] eqn:E.
  - by rewrite (list_find_app_l _ _ _ _ _ E).
  - rewrite list_find_app_r by done. cbn. case_decide; [|done]. cbn. do 2 f_equal; lia.
Qed.

Lemma earlier_first fp l k e : earlier fp l = Some (k, e) -> l !! k = Some e /\ iq_chunkHash e = fp /\ earlier fp (take k l) = None.
Proof.
  intros E. apply list_find_Some in E as (Hk & Hf & Hn). split; [done|]. split; [done|]. apply list_find_None, Forall_forall.
  intros x [j Hj]%list_elem_of_lookup. apply lookup_take_Some in Hj as [Hj Lj]. by eapply Hn.
Qed.
Lemma first_flag l k e : earlier (iq_chunkHash e) (take k l) = None -> flag_of minFreq (take k l) e = new_flag minFreq e.
Proof. intros N. unfold flag_of. by rewrite N. Qed.

(** The next entry, with the flag the reference gives it. *)
Lemma follows_next i c e (ins' : list InQueryEntry_t) (outs' : list OutQueryEntry) num' local' :
  follows i c -> ins !! i = Some e -> length ins' = length ins ->
  (forall j e0, ins !! j = Some e0 -> j <> i -> exists x y, cl_ins c !! j = Some x /\ ins' !! j = Some y /\
     iq_chunkHash y = iq_chunkHash x /\ iq_dedupFlag y = iq_dedupFlag x /\ ((i < j)%nat -> y = x)) ->
  (exists y, ins' !! i = Some y /\ iq_chunkHash y = iq_chunkHash e /\ iq_dedupFlag y = flag_of minFreq (take i ins) e) ->
  (forall fp, local' !! fp = match _localIndex c !! fp with Some k => Some k | None => if decide (iq_chunkHash e = fp) then Some (Z.of_nat i) else None end) ->
  (if flag_of minFreq (take i ins) e =? UNIQUE
   then num' = outQueryNum c + 1 /\ exists o, queried (iq_chunkHash e) o /\ (Z.to_nat (outQueryNum c) < room)%nat /\ outs' = <[Z.to_nat (outQueryNum c) := o]> (cl_outs c)
   else num' = outQueryNum c /\ outs' = cl_outs c) ->
  follows (S i) (mk_classes ins' outs' num' local').
Proof.
  intros [L En Lo Nu Ro Ou] He L' Oth (y & Hy & Hh & Hf) Hl Hq. pose proof (take_S_r ins i e He) as Tk.
  assert (Ak : asked_outside minFreq [] (take (S i) ins) = asked_outside minFreq [] (take i ins) ++
    (if flag_of minFreq (take i ins) e =? UNIQUE then [iq_chunkHash e] else [])) by (rewrite Tk; apply asked_outside_snoc).
  assert (Np : 0 <= outQueryNum c) by (rewrite Nu; apply blen_nonneg).
  split; cbn [cl_ins cl_outs outQueryNum _localIndex].
  - done.
  - intros j e0 Hj. destruct (decide (j = i)) as [->|N].
    + rewrite He in Hj. injection Hj as <-. exists y. split; [done|]. split; [done|]. split; [done|lia].
    + destruct (Oth j e0 Hj N) as (x & y' & Hx & Hy' & Eh & Ef & Ey). destruct (En j e0 Hj) as (x' & Hx' & Xh & Xf & Xe).
      rewrite Hx in Hx'. injection Hx' as <-. exists y'. split; [done|]. split; [congruence|]. split.
      * intros Lt. rewrite Ef. apply Xf. lia.
      * intros Ge. rewrite Ey by lia. apply Xe. lia.
  - intros fp. rewrite Hl, Lo, Tk, earlier_snoc, length_take. pose proof (lookup_lt_Some _ _ _ He).
    destruct (earlier fp (take i ins)) as [[k x]|]; [done|]. cbn. case_decide; cbn; [do 2 f_equal; lia|done].
  - rewrite Ak, blen_app, <- Nu. revert Hq. case_if; intros [-> _]; cbn; [by rewrite blen_cons|]. rewrite blen_nil. lia.
  - revert Hq. case_if; intros [_ Hq]; [|by subst]. destruct Hq as (o & _ & _ & ->). by rewrite length_insert.
  - rewrite Ak. revert Hq. case_if.
    + intros (-> & o & Qo & Rm & ->). replace (Z.to_nat (outQueryNum c + 1)) with (S (Z.to_nat (outQueryNum c))) by lia.
      rewrite (take_S_r _ _ o) by (apply list_lookup_insert_eq; lia). rewrite take_insert_ge by done.
      apply Forall2_app; [done|]. constructor; [done|constructor].
    + intros [-> ->]. by rewrite app_nil_r.
Qed.

Lemma follows_new i c e : (forall x, x ∈ ins -> blen (iq_chunkHash x) = 32) -> (length ins <= room)%nat ->
  follows i c -> ins !! i = Some e -> earlier (iq_chunkHash e) (take i ins) = None ->
  exists c', classify_new cfg h minFreq (Z.of_nat i) e c = Ok c' /\ follows (S i) c'.
Proof.
  intros H32 Hr Fw He Ea. pose proof Fw as [L En Lo Nu Ro Ou]. pose proof (lookup_lt_Some _ _ _ He) as Hi.
  assert (Fl : flag_of minFreq (take i ins) e = new_flag minFreq e) by (unfold flag_of; by rewrite Ea).
  assert (Nl : _localIndex c !! iq_chunkHash e = None) by (by rewrite Lo, Ea).
  assert (Loc : forall fp, <[iq_chunkHash e := Z.of_nat i]> (_localIndex c) !! fp =
    match _localIndex c !! fp with Some k => Some k | None => if decide (iq_chunkHash e = fp) then Some (Z.of_nat i) else None end).
  { intros fp. destruct (decide (iq_chunkHash e = fp)) as [<-|N]; [by rewrite lookup_insert_eq, Nl|]. rewrite lookup_insert_ne by done. by destruct (_ !! fp). }
  assert (Lq : (Z.to_nat (outQueryNum c) < room)%nat).
  { rewrite Nu. unfold blen. rewrite Nat2Z.id. pose proof (asked_outside_length minFreq [] (take i ins)) as La. rewrite length_take in La. lia. }
  assert (Oth : forall flag a j e0, ins !! j = Some e0 -> j <> i -> exists x y, cl_ins c !! j = Some x /\ <[i := in_class e flag a]> (cl_ins c) !! j = Some y /\
     iq_chunkHash y = iq_chunkHash x /\ iq_dedupFlag y = iq_dedupFlag x /\ ((i < j)%nat -> y = x)).
  { intros flag a j e0 Hj N. destruct (En j e0 Hj) as (x & Hx & _). exists x, x. by rewrite list_lookup_insert_ne. }
  unfold classify_new. rewrite Nat2Z.id. unfold new_flag in Fl.
  destruct ((iq_chunkFreq e <? minFreq) || negb (Contains h (iq_chunkHash e))) eqn:C.
  - destruct (CMC_ok (c_crypto cfg) (iq_chunkHash e) (c_indexQueryKey cfg)) as (k & Ek & _).
    { rewrite H32; [done|by eapply list_elem_of_lookup_2]. }
    rewrite Ek. cbn [rbind]. destruct (lookup_lt_is_Some_2 (cl_outs c) (Z.to_nat (outQueryNum c))) as [o Ho]; [lia|]. rewrite Ho. cbn [of_option rbind].
    eexists. split; [reflexivity|]. eapply follows_next; [exact Fw|done|by rewrite length_insert|apply Oth| |exact Loc|].
    + eexists. split; [apply list_lookup_insert_eq; lia|]. cbn. by rewrite Fl.
    + rewrite Fl. cbn. split; [done|]. exists (out_hash o k). by split.
  - apply orb_false_iff in C as [_ Cn]. apply negb_false_iff in Cn. pose proof Cn as [it Hit]%bool_decide_eq_true.
    unfold GetPriority. rewrite Hit. cbn [of_option rbind]. eexists. split; [reflexivity|].
    eapply follows_next; [exact Fw|done|by rewrite length_insert|apply Oth| |exact Loc|].
    + eexists. split; [apply list_lookup_insert_eq; lia|]. cbn. by rewrite Fl.
    + rewrite Fl. by cbn.
Qed.

Lemma follows_seen i c e k e0 : follows i c -> ins !! i = Some e -> earlier (iq_chunkHash e) (take i ins) = Some (k, e0) ->
  exists c', classify_seen (Z.of_nat k) (Z.of_nat i) e c = Ok c' /\ follows (S i) c'.
Proof.
  intros Fw He Ea. pose proof Fw as [L En Lo Nu Ro Ou]. pose proof (lookup_lt_Some _ _ _ He) as Hi.
  destruct (earlier_first _ _ _ _ Ea) as (Hk & Eh & Nk). apply lookup_take_Some in Hk as [Hk Lk]. rewrite take_take, Nat.min_l in Nk by lia.
  destruct (En k e0 Hk) as (x & Hx & Xh & Xf & _). specialize (Xf Lk). rewrite <- Eh in Nk. rewrite (first_flag ins k e0 Nk) in Xf.
  unfold classify_seen. rewrite !Nat2Z.id, Hx. cbn [of_option rbind].
  assert (G : (if iq_dedupFlag x =? UNIQUE then Ok TMP_UNIQUE else if iq_dedupFlag x =? DUPLICATE then Ok TMP_DUPLICATE else Err ExitError)
    = Ok (flag_of minFreq (take i ins) e) /\ (flag_of minFreq (take i ins) e =? UNIQUE) = false).
  { unfold flag_of. rewrite Ea, Xf. unfold new_flag. by destruct (_ || _). }
  destruct G as [-> Nu']. cbn [rbind]. eexists. split; [reflexivity|].
  eapply follows_next; [exact Fw|done|by rewrite !length_insert| | | |by rewrite Nu'].
  - intros j e1 Hj N. destruct (En j e1 Hj) as (y & Hy & _). destruct (decide (j = k)) as [->|Njk].
    + exists x. eexists. split; [done|]. split; [apply list_lookup_insert_eq; rewrite length_insert; lia|]. split; [done|]. split; [done|lia].
    + exists y, y. by rewrite !list_lookup_insert_ne by done.
  - eexists. split; [rewrite list_lookup_insert_ne by lia; apply list_lookup_insert_eq; lia|]. done.
  - intros fp. rewrite Lo. destruct (decide (iq_chunkHash e = fp)) as [<-|N]; [by rewrite Ea|]. by destruct (earlier fp _).
Qed.
End classify.

(** C7. Deduplication inside the enclave: [ProcessOneBatch] classifies every batch without
    failing, and an entry becomes what the reference says, by the fingerprints before
    it in the batch, its frequency and the top-k index alone: a repetition within the
    batch is TMP_UNIQUE or TMP_DUPLICATE after its first occurrence; a first occurrence
    is DUPLICATE when it is frequent enough and in the top-k index, and UNIQUE
    otherwise.  Exactly the UNIQUE fingerprints are encrypted, in order, for the index
    outside. *)
Theorem classify_spec `{EVPLaws} (cfg : Config) (h : EcallEntryHeap) (ins : list InQueryEntry_t) (outs : list OutQueryEntry) :
  heap_wf h -> (0 < topThreshold_ cfg)%nat -> (forall e, e ∈ ins -> blen (iq_chunkHash e) = 32) -> (length ins <= length outs)%nat ->
  exists minFreq c, (if (Size h =? topThreshold_ cfg)%nat then TopEntry h else Ok 0) = Ok minFreq /\ classify cfg h ins outs = Ok c /\
    length (cl_ins c) = length ins /\
    (forall i e, ins !! i = Some e -> exists e', cl_ins c !! i = Some e' /\ iq_chunkHash e' = iq_chunkHash e /\
       iq_dedupFlag e' = flag_of h minFreq (take i ins) e) /\
    Forall2 (queried cfg) (asked_outside h minFreq [] ins) (take (Z.to_nat (outQueryNum c)) (cl_outs c)).
Proof.
  intros W Tp H32 Lo. unfold classify.
  assert (G : exists m, (if (Size h =? topThreshold_ cfg)%nat then TopEntry h else Ok 0) = Ok m).
  { case_if; [|by eexists]. apply Nat.eqb_eq in E. destruct (size_pos_top h W) as (t & a & _ & _ & -> & _); [lia|by eexists]. }
  destruct G as [m ->]. cbn [rbind].
  destruct (forM_total (fun j c => follows cfg h m ins (length outs) (Z.to_nat j) c) (classify_one cfg h m) (length ins) 0 (mk_classes ins outs 0 ∅))
    as (c & E & F).
  - split; cbn; try done. intros j e Hj. exists e. split; [done|]. split; [done|]. split; [lia|done].
  - intros j c Hj F. unfold classify_one. destruct (lookup_lt_is_Some_2 ins (Z.to_nat j)) as [e He]; [lia|].
    destruct (fw_entry _ _ _ _ _ _ _ F _ _ He) as (e' & He' & _ & _ & Eq). rewrite (Eq (Nat.le_refl _)) in He'. rewrite He'. cbn [of_option rbind].
    rewrite (fw_local _ _ _ _ _ _ _ F). replace (Z.to_nat (j + 1)) with (S (Z.to_nat j)) by lia. remember (Z.to_nat j) as i. replace j with (Z.of_nat i) by lia.
    destruct (earlier (iq_chunkHash e) (take i ins)) as [[k e0]|] eqn:Ea; cbn [fmap option_fmap option_map fst];
      [by eapply follows_seen|by eapply follows_new].
  - exists m, c. split; [done|]. split; [done|]. rewrite Z.add_0_l, Nat2Z.id in F. destruct F as [L En _ _ _ Ou].
    rewrite take_ge in Ou by done. split; [done|]. split; [|done]. intros i e Hi. destruct (En i e Hi) as (e' & ? & ? & Fl & _).
    exists e'. split; [done|]. split; [done|]. apply Fl. by eapply lookup_lt_Some.
Qed.

(** Four entries; the first and the third have the fingerprint the heap knows. *)
Definition ex_entry (fp freq : Z) : InQueryEntry_t := mk_in_query 0 0 (replicate 32 fp) ex_addr freq 9 [] ex_addr.
Definition ex_config4 : Config := {|
  c_crypto := EcallCrypto_init AES_256_GCM SHA_256; c_indexQueryKey := [3]; c_enclaveKey := [5]; c_masterKey := [8]; c_sessionKey := [11];
  c_sendChunkBatchSize := 4; c_sendRecipeBatchSize := 3; topThreshold_ := 2; c_indexType := FORWORD |}.
Lemma classify_spec_witness :
  exists minFreq c, (if (Size ex_one =? 2)%nat then TopEntry ex_one else Ok 0) = Ok minFreq /\
    @classify toy_evp ex_config4 ex_one [ex_entry 9 3; ex_entry 8 1; ex_entry 9 4; ex_entry 8 2] (replicate 4 (mk_out 0 0 0 [] [] [] [])) = Ok c /\
    map iq_dedupFlag (cl_ins c) = [DUPLICATE; UNIQUE; TMP_DUPLICATE; TMP_UNIQUE].
Proof.
  destruct (@classify_spec toy_evp toy_laws ex_config4 ex_one [ex_entry 9 3; ex_entry 8 1; ex_entry 9 4; ex_entry 8 2]
    (replicate 4 (mk_out 0 0 0 [] [] [] []))) as (m & c & Em & E & _ & _ & _).
  - destruct (Add_ok empty_heap (repeat 9 32) (mk_heap_item ex_addr 5 0) empty_heap_wf eq_refl) as (h & E & W & _). unfold ex_one. by rewrite E.
  - by_decide.
  - apply Forall_forall. by_decide.
  - by_decide.
  - exists m, c. split; [exact Em|]. split; [exact E|]. vm_compute in E. injection E as <-. reflexivity.
Defined.
