(* ===== verification/IngestStore.v ===== *)
(** Storing a chunk of an upload (Ingest.v): the base chunk found in a container, the
    delta, the entry that goes to a container, and what the index will say about it. *)
From Stdlib Require Import ZArith Lia.
From stdpp Require Import base list gmap.
From S2P Require Import Prelude Types HTable EDelta EDeltaEnc EDeltaCorrect Codec ContainerCache ReqContainers Database Container Writer Crypto Restore RestoreCorrect Ingest Library.

(** ** The IVs of a session *)

Lemma PickNewIV_blen iv : blen iv = 16 -> blen (PickNewIV iv) = 16.
Proof. intros L. unfold PickNewIV. rewrite blen_write; rewrite ?blen_le_bytes; lia. Qed.
Lemma PickNewIV_rd64 iv : blen iv = 16 -> rd64 (PickNewIV iv) 0 = u64 (rd64 iv 0 + 1).
Proof.
  intros L. unfold PickNewIV, rd64 at 1. pose proof (slice_write_same iv (le_bytes 8 (u64 (rd64 iv 0 + 1))) 0) as S.
  rewrite blen_le_bytes in S. change (Z.of_nat 8) with 8 in S. rewrite S by lia. apply le_val_le_bytes. unfold u64. apply Z.mod_pos_bound. lia.
Qed.
Lemma iter_IV n iv : blen iv = 16 -> blen (Nat.iter n PickNewIV iv) = 16 /\ rd64 (Nat.iter (S n) PickNewIV iv) 0 = u64 (rd64 iv 0 + Z.of_nat (S n)).
Proof.
  intros L. induction n as [|n [IL IV]].
  - split; [done|]. cbn [Nat.iter nat_rect]. by rewrite PickNewIV_rd64.
  - assert (L' : blen (Nat.iter (S n) PickNewIV iv) = 16) by (cbn [Nat.iter nat_rect]; by apply PickNewIV_blen). split; [done|].
    change (Nat.iter (S (S n)) PickNewIV iv) with (PickNewIV (Nat.iter (S n) PickNewIV iv)).
    rewrite PickNewIV_rd64, IV by done. unfold u64. rewrite Zplus_mod_idemp_l. f_equal. lia.
Qed.
Lemma iter_IV_inj iv i j : blen iv = 16 -> (i < j)%nat -> Z.of_nat j < 2 ^ 64 -> Nat.iter (S i) PickNewIV iv <> Nat.iter (S j) PickNewIV iv.
Proof.
  intros L Hij Hj E. destruct (iter_IV i iv L) as [_ Ei]. destruct (iter_IV j iv L) as [_ Ej]. rewrite E, Ej in Ei. unfold u64 in Ei.
  assert (D : (Z.of_nat j - Z.of_nat i) mod 2 ^ 64 = 0).
  { replace (Z.of_nat j - Z.of_nat i) with ((rd64 iv 0 + Z.of_nat (S j)) - (rd64 iv 0 + Z.of_nat (S i))) by lia.
    rewrite Zminus_mod, Ei, Z.sub_diag. done. }
  rewrite Z.mod_small in D by lia. lia.
Qed.

(** What a session has stored, and the IVs it has stored it with: the ones that
    [PickNewIV] has given since the start, each once. *)
Definition log_entries (a : store_spec) : list entry := concat (map snd (flushed a)) ++ base_open a ++ delta_open a.
Definition session_ivs (a : store_spec) (iv : bytes) : Prop :=
  exists iv0, blen iv0 = 16 /\ iv = Nat.iter (length (log_entries a)) PickNewIV iv0 /\
    map e_iv (log_entries a) ≡ₚ map (fun i => Nat.iter i PickNewIV iv0) (seq 1 (length (log_entries a))).

Lemma logged_entries u a u' a' delta e : logged u a u' a' delta e -> log_entries a' ≡ₚ log_entries a ++ [e].
Proof.
  unfold logged, log_entries. destruct delta; intros [_ [[_ ->]|[_ ->]]]; cbn [flushed base_open delta_open]; rewrite ?map_app, ?concat_app; cbn [map concat snd];
    rewrite ?app_nil_r, <- ?app_assoc; [done|..]; apply Permutation_app_head.
  - rewrite app_assoc, (Permutation_app_comm (delta_open a)), <- app_assoc. done.
  - apply Permutation_app_head, Permutation_app_comm.
  - apply Permutation_app_head. apply Permutation_app_comm.
Qed.
Lemma session_ivs_logged u a u' a' delta e iv :
  session_ivs a iv -> logged u a u' a' delta e -> e_iv e = PickNewIV iv -> session_ivs a' (PickNewIV iv).
Proof.
  intros (iv0 & L & -> & P) Lg Ee. apply logged_entries in Lg. exists iv0. split; [done|].
  assert (Ln : length (log_entries a') = S (length (log_entries a))) by (rewrite Lg, length_app; cbn; lia).
  rewrite Ln. split; [done|]. rewrite Lg, seq_S, !map_app, P. cbn [map]. by rewrite Ee.
Qed.
Lemma session_ivs_NoDup a iv : session_ivs a iv -> Z.of_nat (length (log_entries a)) <= 2 ^ 64 -> NoDup (map e_iv (log_entries a)).
Proof.
  intros (iv0 & L & _ & ->) Hn. set (n := length _) in *. clearbody n. apply NoDup_alt. intros i j x Hi Hj.
  apply list_lookup_fmap_Some in Hi as (i' & Ei & Hi), Hj as (j' & E & Hj). subst x.
  apply lookup_seq in Hi as [-> Hi], Hj as [-> Hj]. change (1 + i)%nat with (S i) in E. change (1 + j)%nat with (S j) in E.
  destruct (Nat.lt_trichotomy i j) as [H|[H|H]]; [|done|].
  - exfalso. by apply (iter_IV_inj iv0 i j L H); [lia|].
  - exfalso. by apply (iter_IV_inj iv0 j i L H); [lia|].
Qed.

Section store.
Context `{EVPLaws} `{!EVPBytes} `{LZ4}.
Variable cfg : Config.
Variable U : bytes -> Prop.
Hypothesis HU : universe cfg U.
Hypothesis HT : hashType_ (c_crypto cfg) = SHA_256.

(** ** The base chunk *)

(** A buffer that begins with the container the directories have under the name. *)
Definition holds (D : Directories) (name buf : bytes) : Prop :=
  exists body, open_container D name = Ok body /\ take (length body) buf = body.

Lemma base_chunk_ok D db k v x r buf :
  indexed cfg U D db k v x r -> re_deltaFlag r = NO_DELTA -> holds D (re_containerName r) buf -> base_chunk cfg buf r = Ok x.
Proof.
  intros I F (body & O & T). destruct (ix_chunk _ _ _ _ _ _ _ _ I) as (it & Ei & Ec).
  unfold item_of in Ei. rewrite F in Ei. change (NO_DELTA =? DELTA) with false in Ei. injection Ei as <-.
  unfold item_chunk in Ec. cbn [fst snd] in Ec. inv_bind Ec. injection Ec as <-. unfold stored_chunk in E.
  cbn [setting containers] in E. rewrite O in E. cbn [rbind] in E. case_if_in E; [done|].
  apply (read_chunk_prefix _ body buf _ _ _ T) in E. unfold read_chunk in E. unfold base_chunk.
  case_if_in E; [|done]. cbn zeta.
  repeat match goal with Hb : in_bounds _ _ _ = true |- _ => rewrite Hb; clear Hb end. cbn [andb]. case_if_in E; [done|].
  unfold MAX_CHUNK_SIZE in *. rewrite (proj2 (Z.ltb_ge _ _)) by lia. cbn [setting cryptoObj_ enclaveKey_] in E. rewrite E. done.
Qed.

(** ** The delta *)

Definition encoder_ok (t : htable DeltaRecord) : Prop := (exists p, wf p t /\ p <= 20) /\ elements t = [].

Lemma pre_of x y t : U x -> U y -> encoder_ok t -> encode_pre x (blen x) y (blen y) t.
Proof.
  intros X Y [T E]. pose proof (un_size _ _ HU x X). pose proof (un_size _ _ HU y Y). unfold MAX_CHUNK_SIZE in *.
  constructor; try done; try by apply (un_bytes _ _ HU). all: unfold size_max; lia.
Qed.

(** [with_encoder] and the counters do not matter to the rest. *)
Lemma ProcessDeltachunk_ok D db k v y r buf x s :
  indexed cfg U D db k v y r -> re_deltaFlag r = NO_DELTA -> holds D (re_containerName r) buf -> U x -> encoder_ok (psHTable2_ s) ->
  exists delta n t', ProcessDeltachunk cfg buf x r s = Ok (delta, n, if blen x <=? n then NO_DELTA else DELTA, with_encoder s t' delta) /\
    encoder_ok t' /\ 0 <= n <= blen delta /\ EcallRecvDecoder.ed3_decode (slice delta 0 n) n y (blen y) = Ok x /\
    complete x (blen x) y (slice delta 0 n) n /\ blen x <= 2 * (n + blen y).
Proof.
  intros I F Hb X T. pose proof (ix_fine _ _ _ _ _ _ _ _ I) as Y. pose proof (pre_of x y _ X Y T) as P.
  destruct (un_delta _ _ HU x y X Y) as [Un Room].
  destruct (encode_complete _ _ _ _ (deltaBuffer_ s) _ 0 P Un) as (d & n & t' & E & P' & C).
  pose proof (un_size _ _ HU x X) as Sx. pose proof C as (Hd & Hn & _). unfold MAX_CHUNK_SIZE in *.
  exists d, n, t'. split; [|split; [|split; [done|]]].
  - unfold ProcessDeltachunk. rewrite (base_chunk_ok _ _ _ _ _ _ _ I F Hb). cbn [rbind]. rewrite E. cbn [rbind].
    rewrite (proj2 (Z.ltb_ge _ _)) by (unfold MAX_CHUNK_SIZE; lia). done.
  - split; [exact (ep_table _ _ _ _ _ P')|exact (ep_empty _ _ _ _ _ P')].
  - assert (Rm : blen x <= 2 * (n + blen y)) by (eapply Room; [exact P|exact E]). pose proof (complete_slice _ _ _ _ _ C) as Cs.
    split; [|done]. rewrite (complete_decode _ _ _ _ _ _ _ P Cs) by done. f_equal. apply take_ge. unfold blen. lia.
Qed.

(** ** The state while chunks are stored *)

Variable d : Directories.

Record core_ok (a : store_spec) (s : Core) : Prop := {
  ck_store : store_inv d (c_store s) a;
  ck_cache : exists sp, refines (c_cache s) sp /\
    Forall (fun x => exists body, base_dir (spec_dirs d (flushed a)) !! fst x = Some body /\ take (length body) (snd x) = body) sp;
  ck_encoder : encoder_ok (psHTable2_ s);
  ck_tmp : blen (tmpOcallcontainer s) = MAX_CONTAINER_SIZE;
  ck_ivs : session_ivs a (_iv (c_store s))
}.
Definition seen (a : store_spec) (s : Core) : Directories := view d (c_store s) a.

(** One step of the storing: what was readable still is. *)
Record advances (a : store_spec) (s : Core) (a' : store_spec) (s' : Core) : Prop := {
  ad_ok : core_ok a' s';
  ad_le : dirs_le (seen a s) (seen a' s');
  ad_base : base_dir (spec_dirs d (flushed a)) ⊆ base_dir (spec_dirs d (flushed a'))
}.
Lemma advances_refl a s : core_ok a s -> advances a s a s.
Proof. by split. Qed.
Lemma advances_trans a s a' s' a'' s'' : advances a s a' s' -> advances a' s' a'' s'' -> advances a s a'' s''.
Proof. intros [A B C] [A' B' C']. split; [done|by etrans|by etrans]. Qed.
Lemma seen_small a s : core_ok a s -> all_small (seen a s).
Proof. intros [I _ _ _ _] n b. by apply view_small. Qed.

(** The entry of a stored chunk in the log of the storage core. *)
Record entered (a : store_spec) (s : Core) (a' : store_spec) (s' : Core) (addr : RecipeEntry_t) (data sf fp : bytes) (en : entry) : Prop := {
  en_log : logged (c_store s) a (c_store s') a' (negb (re_deltaFlag addr =? NO_DELTA)) en;
  en_recipe : e_recipe en = addr;
  en_fp : e_fp en = slice fp 0 32;
  en_plain : DecryptionWithKeyIV (c_crypto cfg) (e_data en) (c_enclaveKey cfg) (e_iv en) = Ok data;
  en_small : blen (e_data en) <= MAX_CHUNK_SIZE;
  en_sf : re_deltaFlag addr = NO_DELTA -> re_superfeature addr = slice sf 0 96
}.

(** [ProcessSheUniqueChunk] stores what [RecoverOneChunk] will read. *)
Lemma ProcessSheUniqueChunk_ok db a s addr chunk sf fp :
  core_ok a s -> con_times (c_store s) < 2 ^ 31 - 1 -> recipe_ok addr -> 
  blen (stored_form (re_deltaFlag addr) chunk) <= MAX_CHUNK_SIZE -> 96 <= blen sf /\ bytes_ok sf -> 32 <= blen fp ->
  exists s' a' addr', ProcessSheUniqueChunk cfg s addr chunk sf fp = Ok (s', addr') /\ advances a s a' s' /\
    stored_chunk (setting cfg [] (seen a' s') db) addr' = Ok (stored_form (re_deltaFlag addr) chunk) /\
    recipe_ok addr' /\ re_deltaFlag addr' = re_deltaFlag addr /\ re_basechunkHash addr' = re_basechunkHash addr /\
    re_length addr' = blen (stored_form (re_deltaFlag addr) chunk) /\
    con_times (c_store s') <= con_times (c_store s) + 1 /\ c_recipe s' = c_recipe s /\
    exists en, entered a s a' s' addr' (stored_form (re_deltaFlag addr) chunk) sf fp en.
Proof.
  intros K Ht Ra Hn Hsf Hfp. set (data := stored_form (re_deltaFlag addr) chunk) in *.
  pose proof (ck_store _ _ K) as I. pose proof (uok_iv _ _ (si_ok _ _ _ I)) as Liv.
  pose proof (store_inv_iv d _ _ _ (PickNewIV_blen _ Liv) I) as I'.
  destruct (KeyIV_ok (c_crypto cfg) data (c_enclaveKey cfg) (PickNewIV (_iv (c_store s)))) as (cipher & Ec & Lc & Dc).
  assert (Lb : blen cipher = blen data) by (unfold blen; lia).
  assert (C : chunk_ok cipher (blen data) addr sf fp) by (split; try done; [split; [apply blen_nonneg|lia]|lia]).
  set (u1 := with_iv (c_store s) (PickNewIV (_iv (c_store s)))) in *.
  assert (G : exists u' a' addr' en, (if re_deltaFlag addr =? NO_DELTA then SavebaseChunk u1 cipher (blen data) addr sf fp
      else SavedeltaChunk u1 cipher (blen data) addr sf fp) = Ok (u', addr') /\ saved d u1 a u' a' addr addr' (slice cipher 0 (blen data)) /\
      logged u1 a u' a' (negb (re_deltaFlag addr =? NO_DELTA)) en /\ is_entry en addr' cipher (blen data) sf fp (_iv u1) /\
      (re_deltaFlag addr = NO_DELTA -> re_superfeature addr' = slice sf 0 96)).
  { case_if; cbn [negb].
    - destruct (save_base d u1 a cipher (blen data) addr sf fp) as (u' & a' & addr' & en & G); [done..|]. exists u', a', addr', en. tauto.
    - destruct (save_delta d u1 a cipher (blen data) addr sf fp) as (u' & a' & addr' & en & G); [done..|]. exists u', a', addr', en. boolz. tauto. }
  destruct G as (u' & a' & addr' & en & E & [V1 V2 V3 V4 V5 V6 V7 V8 V9 V10] & Lg & (Er & Ef & _ & Ed & Ei) & Fs).
  rewrite <- Lb, slice_full in V4, V8, Ed.
  eexists _, a', addr'. split.
  { unfold ProcessSheUniqueChunk. fold data. rewrite (proj2 (Z.ltb_ge _ _)) by done. cbn [_iv with_iv] in *.
    fold u1. rewrite Ec. cbn [rbind]. rewrite E. reflexivity. }
  cbn [fst snd]. split; [|split; [|split; [done|split; [done|split; [done|split; [lia|split; [|split]]]]]]].
  - destruct K as [_ (sp & R & Fa) T Tm Iv]. split; [split; cbn; try done|done|done].
    2: { rewrite V10. by eapply session_ivs_logged. }
    exists sp. split; [done|]. eapply Forall_impl; [exact Fa|]. intros x (body & B & Tk). exists body. split; [|done].
      by eapply lookup_weaken.
  - destruct V4 as (body & O & [Rm Ln Dt Iv]). unfold stored_chunk. cbn [setting containers].
    unfold seen. cbn [c_store stat with_store]. rewrite O. cbn [rbind].
    rewrite (proj2 (Z.ltb_ge _ _)) by (by eapply view_small).
    unfold read_chunk, in_bounds, header_size, sizeof_RecipeEntry, CHUNK_HASH_SIZE, CRYPTO_BLOCK_SIZE.
    rewrite V8 in *. pose proof (blen_nonneg cipher).
    replace (re_offset addr' + (144 + 4 * 32)) with (re_offset addr' + 272) by lia. rewrite Dt, Iv.
    rewrite !(proj2 (Z.leb_le _ _)) by lia. cbn [andb]. rewrite (proj2 (Z.ltb_ge _ _)) by lia. exact Dc.
  - done.
  - done.
  - exists en. split; rewrite ?V6; try done.
    + rewrite Ed, Ei. exact Dc.
    + rewrite Ed. lia.
Qed.

(** ** The base of a chunk *)

Lemma indexed_bytes D db k v x r : indexed cfg U D db k v x r -> bytes_ok k.
Proof.
  intros I. destruct (ix_key _ _ _ _ _ _ _ _ I) as (fp & Hh & Hk).
  destruct (GenerateHash_ok (c_crypto cfg) x HT) as (h & E & [_ Hb]); [apply (un_bytes _ _ HU), (ix_fine _ _ _ _ _ _ _ _ I)|].
  rewrite Hh in E. injection E as <-. by eapply CMC_bytes.
Qed.

(** What the queries left in a pair of entries that are new inside and outside. *)
Definition with_base (D : Directories) (db : IndexStore) (e : InQueryEntry_t) (o : OutQueryEntry) : Prop :=
  oq_deltaFlag o = NO_DELTA \/
  oq_deltaFlag o = OUT_DELTA /\ exists v y r,
    indexObj_ db !! addr_basehash (oq_chunkAddr o) = Some v /\ indexed cfg U D db (addr_basehash (oq_chunkAddr o)) v y r /\
    re_deltaFlag r = NO_DELTA /\ iq_basechunkAddr e = r /\ slice (oq_basechunkAddr o) 0 CONTAINER_ID_LENGTH = re_containerName r /\
    offered db (addr_basehash (oq_chunkAddr o)).
(** The pair that waits for the offline pass, if any: no delta is made then. *)
Definition queued (flag : bool) (o o' : OutQueryEntry) (bm bm' : list (bytes * bytes)) : Prop :=
  (flag = true -> oq_deltaFlag o' = NO_DELTA) /\
  (bm' = bm \/ oq_deltaFlag o = OUT_DELTA /\ oq_deltaFlag o' = NO_DELTA /\ oq_offlineFlag o' = 1 /\
     bm' = bm ++ [(addr_basehash (oq_chunkAddr o), oq_chunkHash o)]).

Lemma core_holds a s name body buf : core_ok a s ->
  base_dir (spec_dirs d (flushed a)) !! name = Some body -> take (length body) buf = body -> holds (seen a s) name buf.
Proof. intros K B T. exists body. split; [|done]. by eapply view_flushed; [apply (ck_store _ _ K)|]. Qed.

Lemma core_stat a s l : core_ok a s -> core_ok a (stat s l).
Proof. by intros [A B C D E]. Qed.

Lemma take_prefix (b dt sl : bytes) : take (length b) dt = b -> take (length dt) sl = dt -> take (length b) sl = b.
Proof.
  intros Hb Hd. assert (length b <= length dt)%nat by (rewrite <- Hb, length_take; lia).
  rewrite <- Hb at 2. rewrite <- Hd, take_take. f_equal. lia.
Qed.

(** The cached container, or the one on disk; the cache stays coherent. *)
Lemma cached_base a s name : core_ok a s -> ExistsInCache (c_cache s) name = true ->
  exists cache p slot, ReadFromCache (c_cache s) name = Ok (cache, p) /\ deref cache p = Ok slot /\
    core_ok a (with_cache s cache (tmpOcallcontainer s)) /\ holds (seen a s) name slot.
Proof.
  intros K Hn. pose proof K as [Ks (sp & R & Fs) Ke Kt Kv]. destruct (InContainercache_ok _ _ name R) as (Ex & _ & Rd).
  rewrite Ex in Hn. apply bool_decide_eq_true in Hn.
  destruct (Rd Hn) as (c' & p & dt & sp' & slot & Er & Es & Ed & Td & R'). unfold spec_read in Es. destruct (LruCache.node name sp) as [dt'|] eqn:En; [|done].
  injection Es as <- ->. apply LruCache.node_elem in En. rewrite Forall_forall in Fs. pose proof (Fs _ En) as (body & B & Tb). cbn in B, Tb.
  exists c', p, slot. split; [done|]. split; [done|]. split; [|eapply core_holds; [done|exact B|by eapply take_prefix]].
  split; [done| |done|done|done]. exists ((name, dt) :: LruCache.erase name sp). split; [done|].
  constructor; [by exists body|]. apply Forall_forall. intros x Hx. apply Fs.
  clear -Hx. induction sp as [|[k w] sp IH]; cbn in *; [done|]. case_decide; [by apply list_elem_of_further|].
  apply elem_of_cons in Hx as [->|Hx]; [apply list_elem_of_here|by apply list_elem_of_further, IH].
Qed.
Lemma loaded_base disk a s name : core_ok a s -> disk ⊆ base_dir (spec_dirs d (flushed a)) -> ExistsInCache (c_cache s) name = false ->
  Ocall_getRefContainer disk name OUT_DELTA (tmpOcallcontainer s) = Ok (NO_DELTA, tmpOcallcontainer s) \/
  exists tmp cache, Ocall_getRefContainer disk name OUT_DELTA (tmpOcallcontainer s) = Ok (DELTA, tmp) /\ holds (seen a s) name tmp /\
    InsertToCache_Offline (c_cache s) name tmp MAX_CONTAINER_SIZE = Ok cache /\ core_ok a (with_cache s cache tmp) /\ ExistsInCache cache name = true.
Proof.
  intros K Hd Hn. pose proof K as [Ks (sp & R & Fs) Ke Kt Kv]. destruct (InContainercache_ok _ _ name R) as (Ex & Ins & _).
  rewrite Ex in Hn. apply bool_decide_eq_false in Hn. unfold Ocall_getRefContainer. change ((OUT_DELTA =? OUT_DELTA) || (OUT_DELTA =? DELTA)) with true. cbn match.
  destruct (disk !! name) as [body|] eqn:Dk; [right|by left].
  pose proof (lookup_weaken _ _ _ _ Dk Hd) as B. pose proof (si_small _ _ _ Ks name body (or_introl B)) as Sm. rewrite (proj2 (Z.ltb_ge _ _)) by done.
  set (tmp := write (tmpOcallcontainer s) 0 body). assert (Lt : blen tmp = MAX_CONTAINER_SIZE) by (unfold tmp; rewrite blen_write; lia).
  assert (Tb : take (length body) tmp = body) by apply take_write_0. destruct (Ins Hn tmp MAX_CONTAINER_SIZE Lt) as (c' & Ei & R').
  exists tmp, c'. split; [done|]. split; [by eapply core_holds|]. split; [done|]. split.
  - split; [done| |done|done|done]. eexists. split; [exact R'|]. apply Forall_take. constructor; [by exists body|done].
  - destruct (InContainercache_ok _ _ name R') as (Ex' & _ & _). rewrite Ex'. apply bool_decide_eq_true. unfold spec_insert.
    pose proof (rf_cap _ _ R). destruct (cacheSize_ (c_cache s)) as [|n]; [lia|]. cbn. left.
Qed.

Lemma OfflinedeltaTure_ok disk flag a s e o bm D db :
  core_ok a s -> disk ⊆ base_dir (spec_dirs d (flushed a)) -> with_base D db e o ->
  exists e' o' cb bm' s', OfflinedeltaTure disk flag e o bm s = Ok (e', o', cb, bm', s') /\ core_ok a s' /\
    c_store s' = c_store s /\ c_recipe s' = c_recipe s /\ (exists off, o' = out_delta o (oq_deltaFlag o') off) /\
    queued flag o o' bm bm' /\
    (oq_deltaFlag o' = NO_DELTA /\ e' = e \/
     oq_deltaFlag o' = DELTA /\ oq_deltaFlag o = OUT_DELTA /\ e' = in_addr e (set_addr_base (iq_chunkAddr e) (addr_basehash (oq_chunkAddr o))) /\
     exists buf, cb = Some buf /\ holds (seen a s) (slice (oq_basechunkAddr o) 0 CONTAINER_ID_LENGTH) buf).
Proof.
  intros K Hd W. unfold OfflinedeltaTure. set (name := slice (oq_basechunkAddr o) 0 CONTAINER_ID_LENGTH).
  case_if; [eexists _, _, _, _, _; split; [reflexivity|]; split; [done|]; split; [done|]; split; [done|]; split; [by eexists|split; [by split; [|left]|by left]]|].
  destruct W as [W|[W _]].
  { rewrite W. change (NO_DELTA =? OUT_DELTA) with false. rewrite andb_false_r. cbn [andb].
    eexists _, _, _, _, _; split; [reflexivity|]; split; [done|]; split; [done|]; split; [done|].
    split; [exists (oq_offlineFlag o); by destruct o|split; [by split; [|left]|by left]]. }
  rewrite W, Z.eqb_refl, andb_true_r. destruct flag.
  { eexists _, _, _, _, _; split; [reflexivity|]. split; [by apply core_stat|]. split; [done|]. split; [done|].
    split; [by eexists|split; [split; [done|by right]|by left]]. }
  cbn [andb]. destruct (ExistsInCache (c_cache s) name) eqn:Hn.
  - destruct (cached_base a s name K Hn) as (c' & p & slot & -> & Ed & K' & Hs). cbn [rbind]. rewrite Ed. cbn [rbind].
    eexists _, _, _, _, _; split; [reflexivity|]. do 3 (split; [done|]). split; [by eexists|]. split; [by split; [|left]|].
    right. do 3 (split; [done|]). by exists slot.
  - destruct (loaded_base disk a s name K Hd Hn) as [->|(tmp & c' & -> & Hs & Ei & K' & _)]; cbn [rbind].
    + change (NO_DELTA =? DELTA) with false. cbn [andb]. eexists _, _, _, _, _; split; [reflexivity|].
      split; [apply core_stat; by destruct K|]. do 2 (split; [done|]). split; [by eexists|]. split; [by split; [|left]|by left].
    + rewrite Z.eqb_refl. cbn [c_cache with_cache stat]. rewrite Hn, Ei. cbn [rbind].
      eexists _, _, _, _, _; split; [reflexivity|]. split; [exact (core_stat _ _ [(_Inline_Ocall, 1); (_Inline_LoadOcall, 1)] K')|].
      do 2 (split; [done|]). split; [by eexists|]. split; [by split; [|left]|]. right. do 3 (split; [done|]). by exists tmp.
Qed.

(** ** A new chunk *)

Lemma recipe_value r : recipe_ok r -> exists v, AESCBCEnc (c_crypto cfg) (recipe_put r) (c_indexQueryKey cfg) = Ok v /\ blen v = 144.
Proof.
  intros R. pose proof (recipe_put_length r R) as L.
  destruct (AESCBC_ok (c_crypto cfg) (recipe_put r) (c_indexQueryKey cfg)) as (v & E & Lv & _); [unfold blen; by rewrite L|].
  exists v. split; [done|]. unfold blen. lia.
Qed.

Definition keyed (x k : bytes) : Prop :=
  exists fp, GenerateHash (c_crypto cfg) x = Ok fp /\ IndexAESCMCEnc (c_crypto cfg) fp (c_indexQueryKey cfg) = Ok k.

Lemma keyed_blen x k : keyed x k -> blen k = 32.
Proof. intros (fp & Hh & Hk). by apply (key_blen cfg fp k (hash_blen cfg HT x fp Hh)). Qed.

Lemma indexed_base D db k v x r :
  U x -> keyed x k -> recipe_ok r -> AESCBCEnc (c_crypto cfg) (recipe_put r) (c_indexQueryKey cfg) = Ok v ->
  re_deltaFlag r = NO_DELTA -> re_length r = blen (stored_form NO_DELTA x) ->
  stored_chunk (setting cfg [] D db) r = Ok (stored_form NO_DELTA x) -> indexed cfg U D db k v x r.
Proof.
  intros X Kx R V F L S. destruct (un_lz4 _ _ HU x X) as [Z1 Z2]. split; try done; [lia|].
  exists (r, None). split; [unfold item_of; by rewrite F|]. unfold item_chunk. cbn [fst snd]. rewrite S. cbn [rbind]. by rewrite Z1.
Qed.
Lemma indexed_delta D db k v x r delta vb y rb :
  U x -> keyed x k -> recipe_ok r -> AESCBCEnc (c_crypto cfg) (recipe_put r) (c_indexQueryKey cfg) = Ok v ->
  re_deltaFlag r = DELTA -> re_length r <= MAX_CHUNK_SIZE -> stored_chunk (setting cfg [] D db) r = Ok delta ->
  indexObj_ db !! re_basechunkHash r = Some vb -> indexed cfg U D db (re_basechunkHash r) vb y rb -> re_deltaFlag rb = NO_DELTA ->
  EcallRecvDecoder.ed3_decode delta (re_length r) y (blen y) = Ok x -> indexed cfg U D db k v x r.
Proof.
  intros X Kx R V F L S Eb Ib Fb Dec. split; try done. exists (r, Some rb). split.
  - unfold item_of. rewrite F, Z.eqb_refl. erewrite indexed_lookup; done.
  - unfold item_chunk. cbn [fst snd]. rewrite S. cbn [rbind].
    destruct (ix_chunk _ _ _ _ _ _ _ _ Ib) as (it & Ei & Ec). unfold item_of in Ei. rewrite Fb in Ei.
    change (NO_DELTA =? DELTA) with false in Ei. injection Ei as <-. unfold item_chunk in Ec. cbn [fst snd] in Ec.
    inv_bind Ec. injection Ec as <-. by rewrite E.
Qed.

(** A chunk no index knows, as the queries leave its entries. *)
Record new_pair (D : Directories) (db : IndexStore) (x : bytes) (e : InQueryEntry_t) (o : OutQueryEntry) : Prop := {
  np_addr : recipe_ok (iq_chunkAddr e);
  np_sf : 96 <= blen (iq_superfeature e) /\ bytes_ok (iq_superfeature e);
  np_same : oq_superfeature o = iq_superfeature e;
  np_key : keyed x (oq_chunkHash o);
  np_base : with_base D db e o
}.
(** The entries after it was stored: what [Ocall_UpdateOutIndex] needs. *)
Record stored_pair (D : Directories) (db : IndexStore) (x : bytes) (e : InQueryEntry_t) (o : OutQueryEntry) : Prop := {
  sp_indexed : indexed cfg U D db (oq_chunkHash o) (oq_chunkAddr o) x (iq_chunkAddr e);
  sp_flag : oq_deltaFlag o = NO_DELTA -> re_deltaFlag (iq_chunkAddr e) = NO_DELTA
}.
Lemma stored_pair_mono D D' db x e o : dirs_le D D' -> all_small D' -> stored_pair D db x e o -> stored_pair D' db x e o.
Proof. intros HD HS [I F]. split; [|done]. by eapply indexed_mono. Qed.

Lemma set_addr_delta_ok a f : recipe_ok a -> word8 f -> recipe_ok (set_addr_delta a f).
Proof. intros [? ? ? ? ? ?] ?. by constructor. Qed.
Lemma set_addr_base_ok a h : recipe_ok a -> fixed 32 h -> recipe_ok (set_addr_base a h).
Proof. intros [? ? ? ? ? ?] ?. by constructor. Qed.

(** [data] is what is stored for [x] with the recipe [r]. *)
Definition stands_for (D : Directories) (db : IndexStore) (r : RecipeEntry_t) (data x : bytes) : Prop :=
  re_deltaFlag r = NO_DELTA /\ data = stored_form NO_DELTA x \/
  re_deltaFlag r = DELTA /\ exists vb y rb, indexObj_ db !! re_basechunkHash r = Some vb /\
    indexed cfg U D db (re_basechunkHash r) vb y rb /\ re_deltaFlag rb = NO_DELTA /\
    complete x (blen x) y data (blen data) /\ blen x <= 2 * (blen data + blen y).

(** What the storing of a new chunk leaves in the log and in the lists of the batch. *)
Record stored_new (db : IndexStore) (flag : bool) (a : store_spec) (t : Turn) (x : bytes) (o : OutQueryEntry) (a' : store_spec) (t' : Turn)
    (en : entry) : Prop := {
  sn_before : store_inv d (c_store (t_core t)) a /\ con_times (c_store (t_core t)) < 2 ^ 31 - 1;
  sn_after : store_inv d (c_store (t_core t')) a';
  sn_unique : oq_dedupFlag o = UNIQUE;
  sn_key : keyed x (oq_chunkHash o);
  sn_log : logged (c_store (t_core t)) a (c_store (t_core t')) a' (negb (re_deltaFlag (e_recipe en) =? NO_DELTA)) en;
  sn_fp : e_fp en = oq_chunkHash o;
  sn_value : AESCBCEnc (c_crypto cfg) (recipe_put (e_recipe en)) (c_indexQueryKey cfg) = Ok (oq_chunkAddr o);
  sn_recipe : recipe_ok (e_recipe en);
  sn_small : blen (e_data en) <= MAX_CHUNK_SIZE;
  sn_plain : exists data, DecryptionWithKeyIV (c_crypto cfg) (e_data en) (c_enclaveKey cfg) (e_iv en) = Ok data /\
    stands_for (seen a' (t_core t')) db (e_recipe en) data x;
  sn_flag : oq_deltaFlag o = re_deltaFlag (e_recipe en);
  sn_sf : re_deltaFlag (e_recipe en) = NO_DELTA -> re_superfeature (e_recipe en) = slice (oq_superfeature o) 0 96;
  sn_local : flag = true -> re_deltaFlag (e_recipe en) = NO_DELTA;
  sn_deltas : t_deltas t' = if re_deltaFlag (e_recipe en) =? DELTA then t_deltas t ++ [(re_basechunkHash (e_recipe en), oq_chunkHash o)] else t_deltas t;
  sn_pairs : t_batch_map t' = t_batch_map t \/ exists A, offered db A /\ oq_offlineFlag o = 1 /\ re_deltaFlag (e_recipe en) = NO_DELTA /\
    t_batch_map t' = t_batch_map t ++ [(A, oq_chunkHash o)]
}.

(** What of a turn the log is about. *)
Definition mark (t : Turn) : Upload * list (bytes * bytes) * list (bytes * bytes) := (c_store (t_core t), t_batch_map t, t_deltas t).
Lemma stored_new_mark db flag a t x o a' t' en t1 t1' :
  mark t1 = mark t -> mark t1' = mark t' -> stored_new db flag a t x o a' t' en -> stored_new db flag a t1 x o a' t1' en.
Proof.
  intros [= E1 E2 E3] [= E4 E5 E6] []. split; unfold seen in *; rewrite ?E1, ?E2, ?E3, ?E4, ?E5, ?E6; done.
Qed.

(** The second half of [store_new]: what is to be stored is decided. *)
Lemma store_entry db a s x k e sf data :
  core_ok a s -> con_times (c_store s) < 2 ^ 31 - 1 -> U x -> keyed x k -> recipe_ok (iq_chunkAddr e) ->
  96 <= blen sf /\ bytes_ok sf ->
  (re_deltaFlag (iq_chunkAddr e) = NO_DELTA /\ data = x \/
   re_deltaFlag (iq_chunkAddr e) = DELTA /\ blen data <= MAX_CHUNK_SIZE /\
   exists vb y rb, indexObj_ db !! re_basechunkHash (iq_chunkAddr e) = Some vb /\
     indexed cfg U (seen a s) db (re_basechunkHash (iq_chunkAddr e)) vb y rb /\ re_deltaFlag rb = NO_DELTA /\
     EcallRecvDecoder.ed3_decode data (blen data) y (blen y) = Ok x /\ complete x (blen x) y data (blen data) /\ blen x <= 2 * (blen data + blen y)) ->
  exists s' a' addr' v, ProcessSheUniqueChunk cfg s (iq_chunkAddr e) data sf k = Ok (s', addr') /\ advances a s a' s' /\
    con_times (c_store s') <= con_times (c_store s) + 1 /\ c_recipe s' = c_recipe s /\
    re_deltaFlag addr' = re_deltaFlag (iq_chunkAddr e) /\
    AESCBCEnc (c_crypto cfg) (recipe_put addr') (c_indexQueryKey cfg) = Ok v /\ indexed cfg U (seen a' s') db k v x addr' /\
    re_basechunkHash addr' = re_basechunkHash (iq_chunkAddr e) /\
    exists en, entered a s a' s' addr' (stored_form (re_deltaFlag addr') data) sf k en /\
      stands_for (seen a' s') db addr' (stored_form (re_deltaFlag addr') data) x.
Proof.
  intros K Ht X Kx Ra Hsf Hd. assert (Lk : blen k = 32).
  { by apply (keyed_blen x). }
  assert (Sz : blen (stored_form (re_deltaFlag (iq_chunkAddr e)) data) <= MAX_CHUNK_SIZE).
  { destruct Hd as [[-> ->]|(-> & Sz & _)]; [apply (un_lz4 _ _ HU x X)|done]. }
  destruct (ProcessSheUniqueChunk_ok db a s (iq_chunkAddr e) data sf k K Ht Ra Sz Hsf) as
    (s' & a' & addr' & E & Ad & St & Ra' & Fl & Bh & Ln & Tm & Rc & en & En); [lia|].
  destruct (recipe_value addr' Ra') as (v & V & _). exists s', a', addr', v. split; [done|]. split; [done|].
  split; [done|]. split; [done|]. split; [done|]. split; [done|]. rewrite <- Fl in En. unfold stands_for.
  destruct Hd as [[F ->]|(F & _ & vb & y & rb & Eb & Ib & Fb & Dec & Cm & Rm)]; rewrite F in *.
  - split; [by eapply indexed_base|]. split; [done|]. exists en. split; [done|]. left. by rewrite Fl.
  - assert (Ib' : indexed cfg U (seen a' s') db (re_basechunkHash addr') vb y rb).
    { rewrite Bh. eapply indexed_mono; [apply Ad|eapply seen_small, Ad|done|exact Ib]. }
    split; [apply (indexed_delta _ _ _ _ _ _ data vb y rb); try done; [rewrite Ln; done|by rewrite Bh|rewrite Ln; exact Dec]|].
    split; [done|]. exists en. split; [done|]. right. split; [done|]. rewrite Fl, Bh. exists vb, y, rb. by rewrite <- Bh at 2.
Qed.

(** What the base of the entries gives for the delta. *)
Lemma delta_of_base db a s x e o buf :
  core_ok a s -> with_base (seen a s) db e o -> oq_deltaFlag o = OUT_DELTA -> U x ->
  holds (seen a s) (slice (oq_basechunkAddr o) 0 CONTAINER_ID_LENGTH) buf ->
  exists delta n t', ProcessDeltachunk cfg buf x (iq_basechunkAddr e) s = Ok (delta, n, if blen x <=? n then NO_DELTA else DELTA, with_encoder s t' delta) /\
    encoder_ok t' /\ 0 <= n <= blen delta /\ fixed 32 (addr_basehash (oq_chunkAddr o)) /\
    exists vb y rb, indexObj_ db !! addr_basehash (oq_chunkAddr o) = Some vb /\
      indexed cfg U (seen a s) db (addr_basehash (oq_chunkAddr o)) vb y rb /\ re_deltaFlag rb = NO_DELTA /\
      EcallRecvDecoder.ed3_decode (slice delta 0 n) n y (blen y) = Ok x /\ complete x (blen x) y (slice delta 0 n) n /\ blen x <= 2 * (n + blen y).
Proof.
  intros K [W|(_ & vb & y & rb & Eb & Ib & Fb & Er & En & _)] F X Hb; [by rewrite W in F|]. rewrite En in Hb. rewrite Er.
  destruct (ProcessDeltachunk_ok _ db _ vb y rb buf x s Ib Fb Hb X (ck_encoder _ _ K)) as (delta & n & t' & E & T & Ln & Dec & Cm & Rm).
  exists delta, n, t'. split; [done|]. split; [done|]. split; [done|]. split.
  - pose proof (indexed_key cfg U HT _ _ _ _ _ _ Ib) as L. split; [unfold blen in L; lia|by eapply indexed_bytes].
  - by exists vb, y, rb.
Qed.

Lemma with_base_addr D db e o a : with_base D db e o -> with_base D db (in_addr e a) o.
Proof. done. Qed.

(** What a class decides about a new chunk: that it stays as it is, or that it becomes a
    delta of the base that the queries found. *)
Record decided (D : Directories) (e : InQueryEntry_t) (o : OutQueryEntry) (e1 : InQueryEntry_t) (o1 : OutQueryEntry) (cb : option bytes) : Prop := {
  dc_same : oq_chunkHash o1 = oq_chunkHash o /\ oq_dedupFlag o1 = oq_dedupFlag o /\ oq_superfeature o1 = oq_superfeature o;
  dc_base : oq_deltaFlag o1 <> DELTA /\ e1 = e \/
    oq_deltaFlag o1 = DELTA /\ oq_deltaFlag o = OUT_DELTA /\ oq_chunkAddr o1 = oq_chunkAddr o /\
    e1 = in_addr e (set_addr_base (iq_chunkAddr e) (addr_basehash (oq_chunkAddr o))) /\
    exists buf, cb = Some buf /\ holds D (slice (oq_basechunkAddr o) 0 CONTAINER_ID_LENGTH) buf
}.
(** What is to be stored for [x], as [store_entry] takes it. *)
Definition storable (D : Directories) (db : IndexStore) (r : RecipeEntry_t) (data x : bytes) : Prop :=
  re_deltaFlag r = NO_DELTA /\ data = x \/
  re_deltaFlag r = DELTA /\ blen data <= MAX_CHUNK_SIZE /\
  exists vb y rb, indexObj_ db !! re_basechunkHash r = Some vb /\ indexed cfg U D db (re_basechunkHash r) vb y rb /\ re_deltaFlag rb = NO_DELTA /\
    EcallRecvDecoder.ed3_decode data (blen data) y (blen y) = Ok x /\ complete x (blen x) y data (blen data) /\ blen x <= 2 * (blen data + blen y).
Record stepped (D : Directories) (db : IndexStore) (x : bytes) (e : InQueryEntry_t) (o1 : OutQueryEntry) (s1 : Core)
    (e2 : InQueryEntry_t) (o2 : OutQueryEntry) (delta : bytes) (s2 : Core) : Prop := {
  ds_core : c_store s2 = c_store s1 /\ c_recipe s2 = c_recipe s1;
  ds_addr : recipe_ok (iq_chunkAddr e2);
  ds_in : iq_superfeature e2 = iq_superfeature e /\ iq_dedupFlag e2 = iq_dedupFlag e /\ iq_chunkHash e2 = iq_chunkHash e /\ iq_chunkSize e2 = iq_chunkSize e;
  ds_out : oq_chunkHash o2 = oq_chunkHash o1 /\ oq_dedupFlag o2 = oq_dedupFlag o1 /\ oq_superfeature o2 = oq_superfeature o1 /\
    oq_offlineFlag o2 = oq_offlineFlag o1 /\ oq_chunkAddr o2 = oq_chunkAddr o1;
  ds_none : oq_deltaFlag o1 <> DELTA -> re_deltaFlag (iq_chunkAddr e2) = NO_DELTA;
  ds_base : re_deltaFlag (iq_chunkAddr e2) = DELTA -> re_basechunkHash (iq_chunkAddr e2) = addr_basehash (oq_chunkAddr o1);
  ds_data : storable D db (iq_chunkAddr e2) (if re_deltaFlag (iq_chunkAddr e2) =? DELTA then delta else x) x
}.

Lemma delta_step_ok db a s1 x e o e1 o1 cb :
  core_ok a s1 -> recipe_ok (iq_chunkAddr e) -> re_deltaFlag (iq_chunkAddr e) = NO_DELTA -> U x -> with_base (seen a s1) db e o ->
  decided (seen a s1) e o e1 o1 cb ->
  exists e2 o2 delta s2, delta_step cfg cb x e1 o1 s1 = Ok (e2, o2, delta, s2) /\ core_ok a s2 /\ stepped (seen a s1) db x e o1 s1 e2 o2 delta s2.
Proof.
  intros K Ra Fa X Wb [(Oh & Od & Os) [[F ->]|(F & Fo & Oa & -> & buf & -> & Hb)]]; unfold delta_step.
  - rewrite (proj2 (Z.eqb_neq _ _) F). exists e, o1, [], s1. split; [done|]. split; [done|].
    split; try done; [by rewrite Fa|]. left. by rewrite Fa.
  - rewrite F, Z.eqb_refl. cbn [of_option rbind].
    destruct (delta_of_base db a s1 x e o buf K Wb Fo X Hb) as (delta & n & t' & E & T & Ln & Fx & vb & y & rb & Eb & Ib & Fb & Dec & Cm & Rm).
    change (iq_basechunkAddr (in_addr e _)) with (iq_basechunkAddr e). rewrite E. cbn [rbind].
    eexists _, _, _, _. split; [reflexivity|]. split; [by destruct K|]. split; try done.
    + apply set_addr_delta_ok; [by apply set_addr_base_ok|case_if; by_decide].
    + intros _. cbn. by rewrite Oa.
    + unfold storable. cbn [iq_chunkAddr in_addr in_class set_addr_delta re_deltaFlag re_basechunkHash set_addr_base]. case_if; [by left|right].
      pose proof (un_size _ _ HU x X). rewrite Z.eqb_refl, blen_slice by lia. split; [done|]. split; [lia|]. by exists vb, y, rb.
Qed.

(** From the decision to the address in the index. *)
Record placed_new (db : IndexStore) (a : store_spec) (s : Core) (x : bytes) (e : InQueryEntry_t) (o1 : OutQueryEntry) (cb : option bytes) (s1 : Core)
    (e1 e2 : InQueryEntry_t) (o2 : OutQueryEntry) (delta : bytes) (s2 : Core) (a3 : store_spec) (s3 : Core) (addr : RecipeEntry_t) (v : bytes) : Prop := {
  pn_step : delta_step cfg cb x e1 o1 s1 = Ok (e2, o2, delta, s2);
  pn_stepped : stepped (seen a s) db x e o1 s1 e2 o2 delta s2;
  pn_store : ProcessSheUniqueChunk cfg s2 (iq_chunkAddr e2) (if re_deltaFlag (iq_chunkAddr e2) =? DELTA then delta else x)
    (iq_superfeature e2) (oq_chunkHash o2) = Ok (s3, addr);
  pn_value : AESCBCEnc (c_crypto cfg) (recipe_put addr) (c_indexQueryKey cfg) = Ok v;
  pn_adv : advances a s a3 s3;
  pn_times : con_times (c_store s3) <= con_times (c_store s) + 1;
  pn_recipe : c_recipe s3 = c_recipe s;
  pn_indexed : indexed cfg U (seen a3 s3) db (oq_chunkHash o2) v x addr;
  pn_flag : re_deltaFlag addr = re_deltaFlag (iq_chunkAddr e2) /\ re_basechunkHash addr = re_basechunkHash (iq_chunkAddr e2);
  pn_entry : exists en, entered a s a3 s3 addr (stored_form (re_deltaFlag addr) (if re_deltaFlag (iq_chunkAddr e2) =? DELTA then delta else x)) (iq_superfeature e2) (oq_chunkHash o2) en /\
    stands_for (seen a3 s3) db addr (stored_form (re_deltaFlag addr) (if re_deltaFlag (iq_chunkAddr e2) =? DELTA then delta else x)) x
}.
Lemma store_decided db a s x e o e1 o1 cb s1 :
  core_ok a s -> core_ok a s1 -> c_store s1 = c_store s -> c_recipe s1 = c_recipe s -> con_times (c_store s) < 2 ^ 31 - 1 -> U x ->
  recipe_ok (iq_chunkAddr e) -> re_deltaFlag (iq_chunkAddr e) = NO_DELTA -> 96 <= blen (iq_superfeature e) /\ bytes_ok (iq_superfeature e) ->
  keyed x (oq_chunkHash o) -> with_base (seen a s) db e o -> decided (seen a s) e o e1 o1 cb ->
  exists e2 o2 delta s2 a3 s3 addr v, placed_new db a s x e o1 cb s1 e1 e2 o2 delta s2 a3 s3 addr v.
Proof.
  intros K K1 Cs Cr Ht X Ra Fa Hsf Kx Wb Dc. assert (Hs : seen a s1 = seen a s) by (unfold seen; by rewrite Cs). rewrite <- Hs in Wb, Dc.
  destruct (delta_step_ok db a s1 x e o e1 o1 cb K1 Ra Fa X Wb Dc) as (e2 & o2 & delta & s2 & E2 & K2 & St). destruct Dc as [(Oh & _) _].
  pose proof St as [[Cs2 Cr2] Ra2 (Sf2 & _) (Oh2 & _) _ _ Hd]. assert (Hs2 : seen a s2 = seen a s1) by (unfold seen; by rewrite Cs2). rewrite <- Hs2 in Hd.
  destruct (store_entry db a s2 x (oq_chunkHash o2) e2 (iq_superfeature e2) _ K2 ltac:(congruence) X ltac:(congruence) Ra2 ltac:(congruence) Hd)
    as (s3 & a3 & addr & v & E3 & Ad & Tm & Rc & Fl & V & Ix & Bh & en & En & Sd).
  exists e2, o2, delta, s2, a3, s3, addr, v. rewrite Hs in *. destruct Ad as [K3 Le Ba]. split; try done.
  - split; [done|by rewrite <- Hs2|done].
  - rewrite <- Cs, <- Cs2. done.
  - congruence.
  - exists en. split; [|done]. destruct En. split; try done. by rewrite <- Cs, <- Cs2.
Qed.

Lemma store_new_ok disk flag db a x e o t :
  core_ok a (t_core t) -> con_times (c_store (t_core t)) < 2 ^ 31 - 1 -> disk ⊆ base_dir (spec_dirs d (flushed a)) ->
  U x -> new_pair (seen a (t_core t)) db x e o ->
  exists e' o' t' a', store_new cfg disk flag x e o t = Ok (e', o', t') /\ advances a (t_core t) a' (t_core t') /\
    con_times (c_store (t_core t')) <= con_times (c_store (t_core t)) + 1 /\ c_recipe (t_core t') = c_recipe (t_core t) /\
    t_outs t' = t_outs t /\ iq_dedupFlag e' = iq_dedupFlag e /\ iq_chunkHash e' = iq_chunkHash e /\ iq_chunkSize e' = iq_chunkSize e /\
    oq_dedupFlag o' = oq_dedupFlag o /\ oq_chunkHash o' = oq_chunkHash o /\ stored_pair (seen a' (t_core t')) db x e' o' /\
    (oq_dedupFlag o = UNIQUE -> exists en, stored_new db flag a t x o' a' t' en).
Proof.
  intros K Ht Hd X [Ra Hsf Ssf Kx Wb]. unfold store_new. set (e0 := in_addr e (set_addr_delta (iq_chunkAddr e) NO_DELTA)).
  assert (Ra0 : recipe_ok (iq_chunkAddr e0)) by (apply set_addr_delta_ok; [done|by_decide]).
  destruct (OfflinedeltaTure_ok disk flag a (t_core t) e0 o (t_batch_map t) _ db K Hd (with_base_addr _ _ _ _ _ Wb))
    as (e1 & o1 & cb & bm & s1 & E1 & K1 & Cs1 & Cr1 & (off & Eo1) & (Qf & Qb) & Hc). rewrite E1. cbn [rbind]. clear E1.
  assert (Dc : decided (seen a (t_core t)) e0 o e1 o1 cb).
  { split; [by rewrite Eo1|]. destruct Hc as [[F ->]|(F & Fo & -> & Hb)]; [left; by rewrite F|right]. rewrite Eo1. by rewrite Eo1 in F. }
  destruct (store_decided db a (t_core t) x e0 o e1 o1 cb s1 K K1 Cs1 Cr1 Ht X Ra0 eq_refl Hsf Kx Wb Dc)
    as (e2 & o2 & delta & s2 & a3 & s3 & addr & v & [E2 St E3 V Ad Tm Rc Ix [Fl Bh] (en & En & Sd)]).
  destruct St as [[Cs2 Cr2] Ra2 (Sf2 & Df2 & Ch2 & Cz2) (Oh2 & Od2 & Os2 & Of2 & Oa2) Nd2 Bh2 Hdata]. destruct (dc_same _ _ _ _ _ _ Dc) as (Oh1 & Od1 & Os1).
  assert (Oa1 : oq_chunkAddr o1 = oq_chunkAddr o) by by rewrite Eo1. rewrite E2. cbn [rbind]. rewrite E3. cbn [rbind]. rewrite V. cbn [rbind].
  eexists _, _, _, a3. split; [reflexivity|]. cbn [t_core t_outs]. split; [destruct Ad as [K3 Le Ba]; split; [by apply core_stat, core_stat|exact Le|done]|].
  do 3 (split; [done|]). cbn [iq_dedupFlag iq_chunkHash in_addr in_class oq_dedupFlag oq_chunkHash out_flag out_delta].
  do 3 (split; [done|]). split; [congruence|]. split; [congruence|]. split.
  { split; [exact Ix|]. cbn. rewrite Fl. intros Fo. destruct Hdata as [[-> _]|[F _]]; [done|]. by rewrite F, Z.eqb_refl in Fo. }
  intros Un. exists en. assert (Dn : re_deltaFlag (iq_chunkAddr e2) = NO_DELTA \/ re_deltaFlag (iq_chunkAddr e2) = DELTA) by (destruct Hdata as [[F _]|[F _]]; tauto).
  destruct En as [Lg Er Ef Pl Sm Sf]. rewrite <- Er in *. clear Er.
  split; cbn [oq_dedupFlag oq_deltaFlag oq_offlineFlag oq_chunkHash oq_chunkAddr oq_superfeature out_flag out_delta t_core t_deltas t_batch_map]; try done.
  - split; [apply K|exact Ht].
  - apply Ad.
  - congruence.
  - congruence.
  - rewrite Ef. rewrite slice_32; [done|]. rewrite Oh2, Oh1. by eapply keyed_blen.
  - apply Ix.
  - eexists. split; [exact Pl|exact Sd].
  - rewrite Fl. by destruct Dn as [-> | ->].
  - rewrite Os2, Os1, Ssf. change (iq_superfeature e) with (iq_superfeature e0). rewrite <- Sf2. exact Sf.
  - intros Hf. rewrite Fl. apply Nd2. by rewrite (Qf Hf).
  - rewrite Fl, Bh. by destruct Dn as [Dn|Dn]; rewrite ?(Bh2 Dn), Dn, Oa2.
  - destruct Qb as [-> |(Fo & Fn & Fo1 & ->)]; [by left|right]. exists (addr_basehash (oq_chunkAddr o)).
    destruct Wb as [Wb|(_ & ? & ? & ? & _ & _ & _ & _ & _ & Of)]; [by rewrite Wb in Fo|].
    split; [exact Of|]. split; [congruence|]. split; [rewrite Fl; apply Nd2; by rewrite Fn|]. by rewrite Oh2, Oh1.
Qed.
End store.
