(* ===== verification/IngestQuery.v ===== *)
(** The first half of a batch (Ingest.v): hashing, classification against the top-k
    index and the batch itself, the queries outside, the search for base chunks. *)
From Stdlib Require Import ZArith Lia.
From stdpp Require Import base list gmap.
From S2P Require Import Prelude Types CMSketch EntryHeap TopK ReqContainers Database Writer Crypto Restore RestoreCorrect SuperFeature Ingest Mega Library IngestStore.

(** ** Entries in step *)

(** The entries that are new inside, each with its entry outside. *)
Fixpoint aligned (R : InQueryEntry_t -> OutQueryEntry -> Prop) (ins : list InQueryEntry_t) (outs : list OutQueryEntry) : Prop :=
  match ins with
  | [] => True
  | e :: ins =>
    if iq_dedupFlag e =? UNIQUE then
      match outs with [] => False | o :: outs => R e o /\ aligned R ins outs end
    else aligned R ins outs
  end.
Definition unique_ins (ins : list InQueryEntry_t) : list InQueryEntry_t := filter (fun e => iq_dedupFlag e = UNIQUE) ins.

Lemma unique_cons e ins : unique_ins (e :: ins) = if iq_dedupFlag e =? UNIQUE then e :: unique_ins ins else unique_ins ins.
Proof. unfold unique_ins. rewrite filter_cons. destruct (Z.eqb_spec (iq_dedupFlag e) UNIQUE); by case_decide. Qed.

Lemma aligned_intro R ins outs rest : Forall2 R (unique_ins ins) outs -> aligned R ins (outs ++ rest).
Proof.
  revert outs. induction ins as [|e ins IH]; intros outs F; [done|]. rewrite unique_cons in F. cbn [aligned]. case_if; [|by apply IH].
  apply Forall2_cons_inv_l in F as (o & outs' & Ro & F & ->). cbn [app]. split; [done|by apply IH].
Qed.
Lemma aligned_impl (R R' : InQueryEntry_t -> OutQueryEntry -> Prop) ins outs :
  (forall e o, R e o -> R' e o) -> aligned R ins outs -> aligned R' ins outs.
Proof.
  intros HR. revert outs. induction ins as [|e ins IH]; intros outs; [done|]. cbn [aligned]. case_if; [|by apply IH].
  destruct outs as [|o outs]; [done|]. intros [? ?]. split; [by apply HR|by apply IH].
Qed.

(** What the passes leave of an entry inside and of one outside. *)
Record same_in (e e' : InQueryEntry_t) : Prop := {
  si_flag : iq_dedupFlag e' = iq_dedupFlag e;
  si_hash : iq_chunkHash e' = iq_chunkHash e;
  si_size : iq_chunkSize e' = iq_chunkSize e;
  si_addr : recipe_ok (iq_chunkAddr e) -> recipe_ok (iq_chunkAddr e')
}.
Record out_wf (o : OutQueryEntry) : Prop := {
  ow_addr : blen (oq_chunkAddr o) = 144
}.
Record same_out (o o' : OutQueryEntry) : Prop := {
  so_flag : oq_dedupFlag o' = oq_dedupFlag o;
  so_hash : oq_chunkHash o' = oq_chunkHash o;
  so_wf : out_wf o -> out_wf o'
}.
#[export] Instance same_in_preorder : PreOrder same_in.
Proof. split; [by intros e; split|]. intros x y z [A B C D] [A' B' C' D']. split; [congruence|congruence|congruence|auto]. Qed.
#[export] Instance same_out_preorder : PreOrder same_out.
Proof. split; [by intros e; split|]. intros x y z [A B C] [A' B' C']. split; [congruence|congruence|auto]. Qed.

Lemma each_unique_ok {St} (f : InQueryEntry_t -> OutQueryEntry -> Z -> St -> result (InQueryEntry_t * OutQueryEntry * St))
    (R R' : InQueryEntry_t -> OutQueryEntry -> Prop) :
  (forall e o off s, R e o -> iq_dedupFlag e = UNIQUE -> oq_dedupFlag o = UNIQUE ->
     exists e' o' s', f e o off s = Ok (e', o', s') /\ R' e' o' /\ same_in e e' /\ same_out o o') ->
  (forall e o, R e o -> oq_dedupFlag o <> UNIQUE -> R' e o) ->
  forall off ins outs s, aligned R ins outs ->
  exists ins' outs' s', each_unique f off ins outs s = Ok (ins', outs', s') /\ aligned R' ins' outs' /\
    Forall2 same_in ins ins' /\ Forall2 same_out outs outs'.
Proof.
  intros Hf Hd off ins. revert off. induction ins as [|e ins IH]; intros off outs s A.
  - exists [], outs, s. split; [done|]. split; [done|]. split; [constructor|reflexivity].
  - cbn [each_unique aligned] in A |- *. destruct (iq_dedupFlag e =? UNIQUE) eqn:Fe.
    + destruct outs as [|o outs]; [done|]. destruct A as [Re A].
      assert (G : exists e' o' s', (if oq_dedupFlag o =? UNIQUE then f e o (off + 4) s else Ok (e, o, s)) = Ok (e', o', s') /\
        R' e' o' /\ same_in e e' /\ same_out o o').
      { boolz. case_if; [by apply Hf|]. exists e, o, s. split; [done|]. split; [by apply Hd|done]. }
      destruct G as (e' & o' & s' & -> & Re' & Se & So). cbn [rbind].
      destruct (IH (off + 4 + iq_chunkSize e') outs s' A) as (ins' & outs' & s'' & E & A' & F1 & F2).
      rewrite E. cbn [rbind].
      exists (e' :: ins'), (o' :: outs'), s''. split; [done|]. cbn [aligned]. rewrite (si_flag _ _ Se), Fe.
      split; [done|]. by split; constructor.
    + destruct (IH (off + 4 + iq_chunkSize e) outs s A) as (ins' & outs' & s'' & -> & A' & F1 & F2). cbn [rbind].
      exists (e :: ins'), outs', s''. split; [done|]. cbn [aligned]. rewrite Fe. split; [done|]. split; [by constructor|done].
Qed.

Lemma each_out_ok (f : OutQueryEntry -> result OutQueryEntry) (S : OutQueryEntry -> OutQueryEntry -> Prop) n outs :
  (n <= length outs)%nat -> (forall o, o ∈ outs -> exists o', f o = Ok o' /\ S o o') ->
  exists outs', each_out f n outs = Ok outs' /\ Forall2 S (take n outs) (take n outs') /\ drop n outs' = drop n outs.
Proof.
  revert outs. induction n as [|n IH]; intros outs L Hf.
  - exists outs. split; [by destruct outs|]. split; [constructor|done].
  - destruct outs as [|o outs]; [cbn in L; lia|]. cbn [each_out].
    destruct (Hf o (list_elem_of_here _ _)) as (o' & -> & So). cbn [rbind].
    destruct (IH outs) as (outs' & -> & F & D); [cbn in L; lia|intros x Hx; by apply Hf, list_elem_of_further|]. cbn [rbind].
    exists (o' :: outs'). split; [done|]. split; [by constructor|done].
Qed.

(** A pass over enough entries outside reaches every pair. *)
Lemma aligned_each (R R' : InQueryEntry_t -> OutQueryEntry -> Prop) (S : OutQueryEntry -> OutQueryEntry -> Prop) n ins outs outs' :
  (length (unique_ins ins) <= n)%nat -> Forall2 S (take n outs) (take n outs') ->
  (forall e o o', R e o -> S o o' -> R' e o') -> aligned R ins outs -> aligned R' ins outs'.
Proof.
  intros L F HR. revert n outs outs' L F. induction ins as [|e ins IH]; intros n outs outs' L F; [done|].
  rewrite unique_cons in L. cbn [aligned]. case_if; [|by eapply IH].
  destruct outs as [|o outs]; [done|]. intros [Re A]. cbn in L. destruct n as [|n]; [lia|]. cbn in F.
  destruct outs' as [|o' outs']; [by apply Forall2_nil_inv_r in F|]. cbn in F. apply Forall2_cons in F as [So F].
  split; [by eapply HR|]. eapply IH; [|exact F|done]. lia.
Qed.

Lemma each_out_pass (f : OutQueryEntry -> result OutQueryEntry) (S : OutQueryEntry -> OutQueryEntry -> Prop)
    (R R' : InQueryEntry_t -> OutQueryEntry -> Prop) n ins outs :
  (forall o, exists o', f o = Ok o' /\ S o o') -> (forall o o', S o o' -> out_wf o -> out_wf o') ->
  (forall e o o', R e o -> S o o' -> R' e o') ->
  (n <= length outs)%nat -> (length (unique_ins ins) <= n)%nat -> Forall out_wf outs -> aligned R ins outs ->
  exists outs', each_out f n outs = Ok outs' /\ length outs' = length outs /\ Forall out_wf outs' /\ aligned R' ins outs'.
Proof.
  intros Hf Hw HR Ln Lu W A. destruct (each_out_ok f S n outs Ln (fun o _ => Hf o)) as (outs' & -> & F & Dr).
  exists outs'. split; [done|]. pose proof (Forall2_length _ _ _ F) as Lt. rewrite <- (take_drop n outs) in W |- *.
  rewrite <- (take_drop n outs'), Dr, !length_app, <- Lt. split; [done|]. apply Forall_app in W as [W1 W2]. split.
  - apply Forall_app. split; [|done]. clear -F W1 Hw. revert W1. induction F as [|o o' l l' So F IH]; [done|].
    intros [Wo Wl]%Forall_cons. constructor; [by eapply Hw|by apply IH].
  - rewrite <- Dr, take_drop. by eapply aligned_each.
Qed.

Section query.
Context `{EVPLaws} `{!EVPBytes} `{LZ4}.
Variable cfg : Config.
Variable U : bytes -> Prop.
Hypothesis HU : universe cfg U.
Hypothesis HT : hashType_ (c_crypto cfg) = SHA_256.

(** ** The batch *)

Definition frames (chunks : list bytes) : bytes := concat (map frame chunks).
(** The buffer has these chunks, one frame after the other, from [off] on. *)
Fixpoint framed (buf : bytes) (off : Z) (chunks : list bytes) : Prop :=
  match chunks with
  | [] => True
  | c :: chunks => rd32 buf off = blen c /\ slice buf (off + 4) (blen c) = c /\ off + 4 + blen c <= blen buf /\
      framed buf (off + 4 + blen c) chunks
  end.

Lemma framed_app pre chunks post : Forall U chunks -> framed (pre ++ frames chunks ++ post) (blen pre) chunks.
Proof.
  intros F. revert pre. induction F as [|c chunks Uc F IH]; intros pre; [done|]. cbn [framed].
  pose proof (un_size _ _ HU c Uc) as Sz. unfold MAX_CHUNK_SIZE in Sz. set (rest := frames chunks ++ post).
  assert (E : pre ++ frames (c :: chunks) ++ post = pre ++ le_bytes 4 (blen c) ++ c ++ rest).
  { unfold frames. cbn [map concat]. unfold frame at 1. by rewrite <- !app_assoc. }
  assert (L4 : blen (pre ++ le_bytes 4 (blen c)) = blen pre + 4) by (rewrite blen_app, blen_le_bytes; lia).
  rewrite E. split; [|split; [|split]].
  - apply le4_field; [unfold word32; lia|done].
  - rewrite (app_assoc pre). by apply slice_field.
  - rewrite !blen_app, blen_le_bytes. pose proof (blen_nonneg rest). lia.
  - rewrite (app_assoc pre), (app_assoc (pre ++ _)). replace (blen pre + 4 + blen c) with (blen ((pre ++ le_bytes 4 (blen c)) ++ c)).
    + apply IH.
    + rewrite blen_app. lia.
Qed.

Lemma frames_blen chunks : Forall U chunks -> blen (frames chunks) <= blen chunks * sizeof_Chunk.
Proof.
  induction 1 as [|c chunks Uc _ IH]; [done|]. unfold frames in *. cbn [map concat]. unfold frame at 1.
  rewrite !blen_app, blen_le_bytes, blen_cons. pose proof (un_size _ _ HU c Uc). unfold sizeof_Chunk in *. lia.
Qed.

(** ** Fingerprints and frequencies *)

Record entry_for (c : bytes) (e : InQueryEntry_t) : Prop := {
  ef_hash : GenerateHash (c_crypto cfg) c = Ok (iq_chunkHash e);
  ef_size : iq_chunkSize e = blen c;
  ef_addr : recipe_ok (iq_chunkAddr e)
}.
Lemma entry_for_same c e e' : same_in e e' -> entry_for c e -> entry_for c e'.
Proof. intros [F Hh S A] [Eh Es Ea]. split; [by rewrite Hh|by rewrite S|auto]. Qed.
Lemma entries_same chunks ins ins' : Forall2 same_in ins ins' -> Forall2 entry_for chunks ins -> Forall2 entry_for chunks ins'.
Proof.
  intros F. revert chunks. induction F as [|e e' ins ins' S F IH]; intros chunks E; inversion E; subst; constructor; [|by apply IH].
  by eapply entry_for_same.
Qed.

Lemma hash_loop_ok buf off chunks ins :
  framed buf off chunks -> Forall U chunks -> (length chunks <= length ins)%nat -> Forall (fun e => recipe_ok (iq_chunkAddr e)) ins ->
  exists ins', hash_loop cfg (length chunks) buf off ins = Ok ins' /\ Forall2 entry_for chunks ins'.
Proof.
  intros F Uc. revert off ins F. induction Uc as [|c chunks Uc _ IH]; intros off ins F L R.
  - exists []. split; [by destruct ins|constructor].
  - destruct ins as [|e ins]; [cbn in L; lia|]. cbn [length hash_loop] in *. destruct F as (Rd & Sl & Le & F).
    apply Forall_cons in R as [Re R]. rewrite Rd, Sl, (proj2 (Z.ltb_ge _ _)) by done.
    destruct (GenerateHash_ok (c_crypto cfg) c HT (un_bytes _ _ HU c Uc)) as (h & Eh & _). rewrite Eh. cbn [rbind].
    destruct (IH (off + 4 + blen c) ins F) as (ins' & -> & F2); [lia|done|]. cbn [rbind]. eexists. split; [reflexivity|].
    constructor; [by split|done].
Qed.

Lemma freq_loop_ok ins sk l : sees sk l ->
  exists ins' sk' l', freq_loop ins sk = Ok (ins', sk') /\ sees sk' l' /\ Forall2 same_in ins ins'.
Proof.
  revert sk l. induction ins as [|e ins IH]; intros sk l S; [by exists [], sk, l|]. cbn [freq_loop].
  destruct (Update_sees sk l (iq_chunkHash e) 1 S) as (sk1 & -> & S1 & _). cbn [rbind].
  rewrite (Estimate_sees _ _ _ S1). cbn [rbind]. destruct (IH _ _ S1) as (ins' & sk' & l' & -> & S' & F). cbn [rbind fst snd].
  eexists _, sk', l'. split; [reflexivity|]. split; [done|]. constructor; [by split|done].
Qed.

(** ** Classification *)

(** What classifying sets and looks at. *)
Definition tag (e : InQueryEntry_t) : Z * bytes := (iq_dedupFlag e, iq_chunkHash e).
Abbreviation tags ins := (map tag ins).
(** The fingerprints of the entries that are new inside. *)
Definition uhashes (ts : list (Z * bytes)) : list bytes := map snd (filter (fun t => fst t = UNIQUE) ts).

Lemma uhashes_app l l' : uhashes (l ++ l') = uhashes l ++ uhashes l'.
Proof. unfold uhashes. by rewrite filter_app, map_app. Qed.
Lemma uhashes_elem fp ts : fp ∈ uhashes ts -> (UNIQUE, fp) ∈ ts.
Proof.
  intros Hf. apply list_elem_of_In, in_map_iff in Hf as ([f x] & <- & He). apply list_elem_of_In, list_elem_of_filter in He as [Ef He].
  cbn in Ef. by subst f.
Qed.
Lemma uhashes_unique ins : uhashes (tags ins) = map iq_chunkHash (unique_ins ins).
Proof.
  induction ins as [|e ins IH]; [done|]. rewrite unique_cons. unfold uhashes in *. cbn [map]. rewrite filter_cons. cbn [fst tag].
  destruct (Z.eqb_spec (iq_dedupFlag e) UNIQUE); case_decide; try done. cbn [map snd]. by rewrite IH.
Qed.
Lemma tags_insert (l : list InQueryEntry_t) k e e' : l !! k = Some e -> tag e' = tag e -> tags (<[k := e']> l) = tags l.
Proof. intros E T. change (map tag) with (fmap (M := list) tag). rewrite list_fmap_insert, T, list_insert_id; [done|]. by rewrite list_lookup_fmap, E. Qed.
Lemma tags_lookup (l : list InQueryEntry_t) k e : l !! k = Some e -> tags l !! k = Some (tag e).
Proof. intros E. change (map tag) with (fmap (M := list) tag). by rewrite list_lookup_fmap, E. Qed.
Lemma same_in_insert (l : list InQueryEntry_t) k e e' : l !! k = Some e -> iq_chunkHash e' = iq_chunkHash e ->
  iq_chunkSize e' = iq_chunkSize e -> (recipe_ok (iq_chunkAddr e) -> recipe_ok (iq_chunkAddr e')) ->
  forall chunks, Forall2 entry_for chunks l -> Forall2 entry_for chunks (<[k := e']> l).
Proof.
  intros E Hh Hs Ha chunks F. destruct (Forall2_lookup_r _ _ _ _ _ F E) as (c & Hc & [A B C]).
  rewrite <- (list_insert_id chunks k c Hc). apply Forall2_insert; [done|]. split; [by rewrite Hh|by rewrite Hs|auto].
Qed.

Variable h : EcallEntryHeap.

Definition flag_ok (t : Z * bytes) : Prop :=
  fst t = UNIQUE \/ fst t = DUPLICATE /\ Contains h (snd t) = true \/ fst t = TMP_UNIQUE \/ fst t = TMP_DUPLICATE.
Definition key_of (fp : bytes) (o : OutQueryEntry) : Prop := IndexAESCMCEnc (c_crypto cfg) fp (c_indexQueryKey cfg) = Ok (oq_chunkHash o).
(** A first occurrence. *)
Definition leads (t : Z * bytes) : Prop := fst t = UNIQUE \/ fst t = DUPLICATE.

(** The state of the classification after [i] entries: [ts] are the tags. *)
Record sorted_out (outLen i : nat) (ts : list (Z * bytes)) (outs : list OutQueryEntry) (num : Z) (local : gmap bytes Z) : Prop := {
  cf_flags : Forall flag_ok (take i ts);
  cf_local : forall fp k, local !! fp = Some k -> 0 <= k < Z.of_nat i /\ exists f, ts !! Z.to_nat k = Some (f, fp) /\ leads (f, fp);
  cf_known : Forall (fun t => is_Some (local !! snd t)) (take i ts);
  cf_num : 0 <= num <= Z.of_nat i;
  cf_len : length outs = outLen;
  cf_outs : Forall2 key_of (uhashes (take i ts)) (take (Z.to_nat num) outs);
  cf_nodup : NoDup (uhashes (take i ts));
  cf_wf : Forall out_wf outs
}.

Lemma take_S_insert {A} (l : list A) i x : (i < length l)%nat -> take (S i) (<[i := x]> l) = take i l ++ [x].
Proof. intros L. rewrite (take_S_r _ _ x) by (by apply list_lookup_insert_eq). by rewrite take_insert_ge. Qed.

(** One more entry with the tag [t] at its place. *)
Lemma sorted_out_next n i ts outs num local f fp outs' num' local' :
  sorted_out n i ts outs num local -> (i < length ts)%nat -> flag_ok (f, fp) ->
  (forall fp' k, local' !! fp' = Some k -> local !! fp' = Some k \/ fp' = fp /\ k = Z.of_nat i /\ leads (f, fp)) ->
  (forall fp', is_Some (local !! fp') -> is_Some (local' !! fp')) -> is_Some (local' !! fp) ->
  (f <> UNIQUE /\ num' = num /\ outs' = outs \/
   f = UNIQUE /\ num' = num + 1 /\ local !! fp = None /\ exists o, key_of fp o /\ out_wf o /\ (Z.to_nat num < length outs)%nat /\
     outs' = <[Z.to_nat num := o]> outs) ->
  sorted_out n (S i) (<[i := (f, fp)]> ts) outs' num' local'.
Proof.
  intros [A B C D E F G W] Hi Fl Lo Kn Kf Ou. split; rewrite ?take_S_insert, ?uhashes_app by done.
  - apply Forall_app. split; [done|]. by constructor.
  - intros fp' k Hk. destruct (Lo _ _ Hk) as [Hk'|(-> & -> & Ld)].
    + destruct (B _ _ Hk') as (Hr & f' & Et & Ld). split; [lia|]. exists f'. split; [|done].
      rewrite list_lookup_insert_ne by lia. done.
    + split; [lia|]. exists f. rewrite Nat2Z.id. split; [by apply list_lookup_insert_eq|done].
  - apply Forall_app. split; [|by constructor]. eapply Forall_impl; [exact C|]. intros t. apply Kn.
  - destruct Ou as [(_ & -> & _)|(_ & -> & _)]; lia.
  - destruct Ou as [(_ & _ & ->)|(_ & _ & _ & o & _ & _ & _ & ->)]; [done|by rewrite length_insert].
  - destruct Ou as [(Nf & -> & ->)|(-> & -> & _ & o & Ko & _ & Ln & ->)].
    + unfold uhashes at 2. rewrite filter_cons. cbn [fst]. rewrite decide_False by done. by rewrite app_nil_r.
    + replace (Z.to_nat (num + 1)) with (S (Z.to_nat num)) by lia. rewrite take_S_insert by done.
      apply Forall2_app; [done|]. unfold uhashes. rewrite filter_cons. cbn [fst]. rewrite decide_True by done. cbn. constructor; [done|constructor].
  - unfold uhashes at 2. rewrite filter_cons. cbn [fst]. case_decide as Df; [|by rewrite app_nil_r]. cbn.
    apply NoDup_app. split; [done|]. split; [|apply NoDup_singleton]. intros x Hx ->%list_elem_of_singleton.
    destruct Ou as [(Nf & _)|(_ & _ & Nl & _)]; [done|]. apply uhashes_elem in Hx. rewrite Forall_forall in C.
    specialize (C _ Hx). cbn in C. rewrite Nl in C. by destruct C.
  - destruct Ou as [(_ & _ & ->)|(_ & _ & _ & o & _ & Wo & _ & ->)]; [done|]. by apply Forall_insert.
Qed.

Definition classified (chunks : list bytes) (n i : nat) (c : Classes) : Prop :=
  Forall2 entry_for chunks (cl_ins c) /\ sorted_out n i (tags (cl_ins c)) (cl_outs c) (outQueryNum c) (_localIndex c).

Lemma keyed_entry c e : U c -> entry_for c e -> exists k, IndexAESCMCEnc (c_crypto cfg) (iq_chunkHash e) (c_indexQueryKey cfg) = Ok k.
Proof.
  intros Uc [Eh _ _]. pose proof (hash_blen cfg HT _ _ Eh) as L.
  destruct (CMC_ok (c_crypto cfg) (iq_chunkHash e) (c_indexQueryKey cfg)) as (k & E & _); [by rewrite L|]. by exists k.
Qed.
Lemma insert_tags (l : list InQueryEntry_t) i e : tags (<[i := e]> l) = <[i := tag e]> (tags l).
Proof. change (map tag) with (fmap (M := list) tag). apply list_fmap_insert. Qed.

Lemma classify_new_ok chunks n i c minFreq e :
  heap_wf h -> (forall k a g, content h k = Some (a, g) -> recipe_ok a) ->
  Forall U chunks -> (length chunks <= n)%nat -> Z.of_nat n < 2 ^ 32 -> classified chunks n i c -> cl_ins c !! i = Some e -> _localIndex c !! iq_chunkHash e = None ->
  exists c', classify_new cfg h minFreq (Z.of_nat i) e c = Ok c' /\ classified chunks n (S i) c'.
Proof.
  intros Wh Ra Uc Ln Bn [F S] He Nl. pose proof (lookup_lt_Some _ _ _ He) as Hi. pose proof (Forall2_length _ _ _ F) as Lc.
  destruct (Forall2_lookup_r _ _ _ _ _ F He) as (x & Hx & Ex). assert (Ux : U x) by (by eapply Forall_lookup_1).
  pose proof (cf_num _ _ _ _ _ _ S) as Nm. pose proof (cf_len _ _ _ _ _ _ S) as Lo.
  assert (Ins : forall fp' k, <[iq_chunkHash e := Z.of_nat i]> (_localIndex c) !! fp' = Some k ->
    _localIndex c !! fp' = Some k \/ fp' = iq_chunkHash e /\ k = Z.of_nat i).
  { intros fp' k. rewrite lookup_insert_Some. intros [[<- <-]|[_ Hk]]; [by right|by left]. }
  assert (Dom : forall fp', is_Some (_localIndex c !! fp') -> is_Some (<[iq_chunkHash e := Z.of_nat i]> (_localIndex c) !! fp')).
  { intros fp' [k Hk]. destruct (decide (fp' = iq_chunkHash e)) as [->|N]; [rewrite lookup_insert_eq|rewrite lookup_insert_ne by done]; by eexists. }
  assert (Got : is_Some (<[iq_chunkHash e := Z.of_nat i]> (_localIndex c) !! iq_chunkHash e)) by (rewrite lookup_insert_eq; by eexists).
  unfold classify_new. rewrite Nat2Z.id. destruct ((iq_chunkFreq e <? minFreq) || negb (Contains h (iq_chunkHash e))) eqn:Fr.
  - destruct (keyed_entry x e Ux Ex) as [k Ek]. rewrite Ek. cbn [rbind].
    destruct (lookup_lt_is_Some_2 (cl_outs c) (Z.to_nat (outQueryNum c))) as [o Ho]; [lia|]. rewrite Ho. cbn [of_option rbind].
    eexists. split; [reflexivity|]. split; cbn [cl_ins cl_outs outQueryNum _localIndex].
    + eapply same_in_insert; try done. intros []. constructor; try done. cbn. unfold word32. lia.
    + rewrite insert_tags. eapply sorted_out_next; [exact S|by rewrite length_map|by left| |done|done|].
      * intros fp' k' Hk'. destruct (Ins _ _ Hk') as [?|[-> ->]]; [by left|right]. split; [done|]. split; [done|by left].
      * right. split; [done|]. split; [done|]. split; [done|]. eexists. split; [|split; [|split; [lia|reflexivity]]]; [exact Ek|].
        destruct (Forall_lookup_1 _ _ _ _ (cf_wf _ _ _ _ _ _ S) Ho) as [A]. by split.
  - apply orb_false_iff in Fr as [_ Cn]. apply negb_false_iff in Cn. pose proof Cn as [it Hit]%bool_decide_eq_true.
    unfold GetPriority. rewrite Hit. cbn [of_option rbind]. eexists. split; [reflexivity|]. split; cbn [cl_ins cl_outs outQueryNum _localIndex].
    + eapply same_in_insert; try done. intros _. cbn. apply (Ra (iq_chunkHash e) _ (hi_chunkFreq it)). unfold content. by rewrite Hit.
    + rewrite insert_tags. eapply sorted_out_next; [exact S|by rewrite length_map|right; by left| |done|done|by left].
      intros fp' k' Hk'. destruct (Ins _ _ Hk') as [?|[-> ->]]; [by left|right]. split; [done|]. split; [done|by right].
Qed.

Lemma classify_seen_ok chunks n i c e off :
  Forall U chunks -> (length chunks <= n)%nat -> Z.of_nat n < 2 ^ 32 -> classified chunks n i c -> cl_ins c !! i = Some e -> _localIndex c !! iq_chunkHash e = Some off ->
  exists c', classify_seen off (Z.of_nat i) e c = Ok c' /\ classified chunks n (S i) c'.
Proof.
  intros Uc Ln Bn [F S] He Nl. pose proof (lookup_lt_Some _ _ _ He) as Hi. pose proof (Forall2_length _ _ _ F) as Lc.
  destruct (cf_local _ _ _ _ _ _ S _ _ Nl) as (Hr & f & Ht & Ld). change (map tag) with (fmap (M := list) tag) in Ht.
  rewrite list_lookup_fmap in Ht. destruct (cl_ins c !! Z.to_nat off) as [e0|] eqn:E0; [|done]. cbn in Ht. injection Ht as Ef Eh.
  unfold classify_seen. rewrite E0, Nat2Z.id. cbn [of_option rbind].
  assert (G : exists flag, (if iq_dedupFlag e0 =? UNIQUE then Ok TMP_UNIQUE else if iq_dedupFlag e0 =? DUPLICATE then Ok TMP_DUPLICATE
      else Err ExitError) = Ok flag /\ flag <> UNIQUE /\ (flag = TMP_UNIQUE \/ flag = TMP_DUPLICATE)).
  { destruct Ld as [L|L]; cbn in L; rewrite Ef, L; [exists TMP_UNIQUE|exists TMP_DUPLICATE]; (split; [done|split; [done|]]); [by left|by right]. }
  destruct G as (flag & -> & Nf & Hfl). cbn [rbind]. eexists. split; [reflexivity|]. unfold classified. cbn [cl_ins cl_outs outQueryNum _localIndex].
  set (ins1 := <[i := in_class e flag _]> (cl_ins c)).
  assert (E1 : ins1 !! Z.to_nat off = Some e0) by (unfold ins1; by rewrite list_lookup_insert_ne by lia).
  assert (F1 : Forall2 entry_for chunks ins1) by (eapply same_in_insert; [exact He|done|done|intros []; constructor; try done; cbn; unfold word32; lia|done]).
  split; [eapply same_in_insert; [exact E1|done..]|].
  rewrite (tags_insert ins1 _ e0) by done. unfold ins1. rewrite insert_tags.
  eapply sorted_out_next; [exact S|by rewrite length_map|right; right; tauto|by left|done|by eexists|by left].
Qed.

Lemma classify_ok chunks n ins outs :
  heap_wf h -> (forall k a g, content h k = Some (a, g) -> recipe_ok a) -> (0 < topThreshold_ cfg)%nat ->
  Forall U chunks -> (length chunks <= length outs)%nat -> blen outs < 2 ^ 32 -> Forall2 entry_for chunks ins -> Forall out_wf outs -> n = length chunks ->
  exists c, classify cfg h ins outs = Ok c /\ classified chunks (length outs) n c.
Proof.
  intros Wh Ra Tp Uc Ln Bn F W ->. unfold classify. rewrite <- (Forall2_length _ _ _ F).
  assert (G : exists m, (if (Size h =? topThreshold_ cfg)%nat then TopEntry h else Ok 0) = Ok m).
  { case_if; [|by eexists]. apply Nat.eqb_eq in E. destruct (size_pos_top h Wh) as (t & a & _ & _ & -> & _); [lia|by eexists]. }
  destruct G as [m ->]. cbn [rbind].
  destruct (forM_total (fun j c => classified chunks (length outs) (Z.to_nat j) c) (classify_one cfg h m) (length chunks) 0 (mk_classes ins outs 0 ∅))
    as (c & E & C).
  - split; [done|]. split; cbn; try done. constructor.
  - intros j c Hj C. unfold classify_one. destruct C as [Fc Sc]. pose proof (Forall2_length _ _ _ Fc) as Lc.
    destruct (lookup_lt_is_Some_2 (cl_ins c) (Z.to_nat j)) as [e He]; [lia|]. rewrite He. cbn [of_option rbind].
    replace (Z.to_nat (j + 1)) with (S (Z.to_nat j)) by lia. remember (Z.to_nat j) as i eqn:Ei.
    replace j with (Z.of_nat i) by lia.
    destruct (_localIndex c !! iq_chunkHash e) as [off|] eqn:El; [by eapply classify_seen_ok|by eapply classify_new_ok].
  - exists c. split; [done|]. by rewrite Z.add_0_l, Nat2Z.id in C.
Qed.

(** ** The queries outside *)

(** An entry that is new inside, with its entry outside once the index was asked: [P]
    holds of the pairs the index outside does not know either. *)
Record ready (db : IndexStore) (P : InQueryEntry_t -> OutQueryEntry -> Prop) (e : InQueryEntry_t) (o : OutQueryEntry) : Prop := {
  rd_key : key_of (iq_chunkHash e) o;
  rd_len : blen (oq_chunkHash o) = 32;
  rd_wf : out_wf o;
  rd_state : oq_dedupFlag o = DUPLICATE /\ indexObj_ db !! oq_chunkHash o = Some (oq_chunkAddr o) \/
             oq_dedupFlag o = UNIQUE /\ indexObj_ db !! oq_chunkHash o = None /\ P e o
}.

Section queries.
Variable D : Directories.
Variable db : IndexStore.
Hypothesis HL : library cfg U D db.

Lemma value_144 k v : indexObj_ db !! k = Some v -> blen v = 144 /\ stored_recipe v = Ok v.
Proof.
  intros E. destruct (lib_index _ _ _ _ HL k v E) as (x & r & I). destruct (indexed_value cfg U D db k v x r I) as (L & _ & _).
  split; [exact L|]. unfold stored_recipe, sizeof_RecipeEntry in *. rewrite L. cbn. by rewrite slice_144.
Qed.

Record asked (o o' : OutQueryEntry) : Prop := {
  as_hash : oq_chunkHash o' = oq_chunkHash o;
  as_wf : out_wf o -> out_wf o';
  as_state : match QueryBuffer db (oq_chunkHash o) CHUNK_HASH_SIZE with
             | Some v => oq_dedupFlag o' = DUPLICATE /\ oq_chunkAddr o' = v
             | None => oq_dedupFlag o' = UNIQUE
             end
}.
Lemma query_out_ok o : exists o', query_out db o = Ok o' /\ asked o o'.
Proof.
  unfold query_out. destruct (QueryBuffer db (oq_chunkHash o) CHUNK_HASH_SIZE) as [v|] eqn:E.
  - destruct (value_144 _ _ E) as [L ->]. cbn [rbind]. eexists. split; [done|]. split; [done|by split|by rewrite E].
  - eexists. split; [done|]. split; [done|by intros []; split|by rewrite E].
Qed.

Definition fresh_pair (e : InQueryEntry_t) (o : OutQueryEntry) : Prop :=
  key_of (iq_chunkHash e) o /\ blen (oq_chunkHash o) = 32 /\ out_wf o.
Lemma asked_ready e o o' : fresh_pair e o -> asked o o' -> ready db (fun _ _ => True) e o'.
Proof.
  intros (K & L & W) [Hh Hw Hs]. split; [by unfold key_of in *; rewrite Hh|by rewrite Hh|auto|].
  unfold QueryBuffer in Hs. change CHUNK_HASH_SIZE with 32 in Hs. rewrite slice_32 in Hs by done. rewrite Hh.
  destruct (indexObj_ db !! _) as [v|]; [left|by right]. destruct Hs as [? ->]. by split.
Qed.

Lemma Ocall_QueryOutIndex_ok n ins outs :
  (n <= length outs)%nat -> (length (unique_ins ins) <= n)%nat -> Forall out_wf outs -> aligned fresh_pair ins outs ->
  exists outs', Ocall_QueryOutIndex db (Z.of_nat n) outs = Ok outs' /\ length outs' = length outs /\ Forall out_wf outs' /\
    aligned (ready db (fun _ _ => True)) ins outs'.
Proof.
  intros. unfold Ocall_QueryOutIndex. rewrite Nat2Z.id.
  eapply each_out_pass; [apply query_out_ok|by intros ? ? []|apply asked_ready|done..].
Qed.

(** *** Super-features *)

Lemma getSF2_ok ptr n : exists sf, getSF2 (c_crypto cfg) ptr n = Ok sf /\ 96 <= blen sf /\ bytes_ok sf.
Proof.
  unfold getSF2. set (g := groups _ _).
  assert (G : forall i, exists a, GenerateHash (c_crypto cfg) (sf_input g i) = Ok a /\ fixed 32 a).
  { intros i. apply GenerateHash_ok; [done|]. unfold sf_input. apply Forall_concat, Forall_map, Forall_true. intros. apply le_bytes_ok. }
  destruct (G 0%nat) as (a & -> & La & Ba), (G 1%nat) as (b & -> & Lb & Bb), (G 2%nat) as (c & -> & Lc & Bc). cbn [rbind].
  eexists. split; [reflexivity|]. rewrite !blen_app. unfold blen. split; [lia|]. by repeat apply Forall_app_2.
Qed.

Lemma ready_step (P P' : InQueryEntry_t -> OutQueryEntry -> Prop) e o e' o' :
  ready db P e o -> same_in e e' -> same_out o o' -> oq_dedupFlag o = UNIQUE -> (P e o -> P' e' o') -> ready db P' e' o'.
Proof.
  intros [K L W S] [_ Hi _ _] [Fo Ho Wo] F HP. split; [by unfold key_of in *; rewrite Hi, Ho|by rewrite Ho|auto|].
  rewrite Fo, Ho. destruct S as [[S _]|(S & N & Pe)]; [by rewrite F in S|]. right. auto.
Qed.
Lemma ready_dup (P P' : InQueryEntry_t -> OutQueryEntry -> Prop) e o : ready db P e o -> oq_dedupFlag o <> UNIQUE -> ready db P' e o.
Proof. intros [K L W [S|(S & _)]] N; [|done]. by constructor; [..|left]. Qed.
Lemma ready_at P e o : ready db P e o -> oq_dedupFlag o = UNIQUE -> P e o.
Proof. intros [_ _ _ [[S _]|(_ & _ & Pe)]] F; [by rewrite F in S|done]. Qed.

Definition with_sf (e : InQueryEntry_t) (o : OutQueryEntry) : Prop := 96 <= blen (iq_superfeature e) /\ bytes_ok (iq_superfeature e).
Definition both_sf (e : InQueryEntry_t) (o : OutQueryEntry) : Prop := with_sf e o /\ oq_superfeature o = iq_superfeature e.
Definition plain_out (e : InQueryEntry_t) (o : OutQueryEntry) : Prop := both_sf e o /\ oq_deltaFlag o = NO_DELTA.
Definition based_out (e : InQueryEntry_t) (o : OutQueryEntry) : Prop :=
  both_sf e o /\ (oq_deltaFlag o = NO_DELTA \/ oq_deltaFlag o = OUT_DELTA /\ exists v y r,
    indexObj_ db !! addr_basehash (oq_chunkAddr o) = Some v /\ indexed cfg U D db (addr_basehash (oq_chunkAddr o)) v y r /\
    re_deltaFlag r = NO_DELTA /\ oq_basechunkAddr o = v /\ offered db (addr_basehash (oq_chunkAddr o))).
Definition based (e : InQueryEntry_t) (o : OutQueryEntry) : Prop := both_sf e o /\ with_base cfg U D db e o.

(** A pass over the pairs both find unique, for [each_unique_ok]. *)
Lemma pass_ok {St} f (P P' : InQueryEntry_t -> OutQueryEntry -> Prop) ins outs (s : St) :
  (forall e o off s, out_wf o -> P e o -> exists e' o' s', f e o off s = Ok (e', o', s') /\ P' e' o' /\ same_in e e' /\ same_out o o') ->
  Forall out_wf outs -> aligned (ready db P) ins outs ->
  exists ins' outs' s', each_unique f 0 ins outs s = Ok (ins', outs', s') /\ aligned (ready db P') ins' outs' /\
    Forall2 same_in ins ins' /\ length outs' = length outs /\ Forall out_wf outs'.
Proof.
  intros Hf W A. destruct (each_unique_ok f (ready db P) (ready db P')) with (off := 0) (ins := ins) (outs := outs) (s := s)
    as (ins' & outs' & s' & E & A' & Si & So); [|by apply ready_dup|done|].
  - intros e o off t R _ Fo. destruct (Hf e o off t (rd_wf _ _ _ _ R) (ready_at _ _ _ R Fo)) as (e' & o' & t' & E & Pe & Si & So).
    exists e', o', t'. split; [done|]. split; [|done]. by eapply ready_step.
  - exists ins', outs', s'. split; [done|]. split; [done|]. split; [done|]. split; [symmetry; by eapply Forall2_length|].
    clear -So W. revert W. induction So as [|o o' l l' S F IH]; [done|]. intros [Wo Wl]%Forall_cons. constructor; [by apply S|by apply IH].
Qed.

Lemma sf_one_ok buf e o off (s : unit) : out_wf o -> True ->
  exists e' o' s', sf_one cfg buf e o off s = Ok (e', o', s') /\ with_sf e' o' /\ same_in e e' /\ same_out o o'.
Proof.
  intros _ _. unfold sf_one. destruct (getSF2_ok (drop (Z.to_nat off) buf) (iq_chunkSize e)) as (sf & -> & Sf). cbn [rbind].
  eexists _, _, _. split; [reflexivity|]. split; [exact Sf|]. by split.
Qed.
Lemma sf_get_ok e o off (s : unit) : out_wf o -> with_sf e o ->
  exists e' o' s', sf_get e o off s = Ok (e', o', s') /\ plain_out e' o' /\ same_in e e' /\ same_out o o'.
Proof. intros W Sf. eexists _, _, _. split; [reflexivity|]. split; [done|]. split; [done|]. split; [done|done|]. by intros []; split. Qed.

(** *** Base chunks *)

Lemma basehash_write addr k : blen addr = 144 -> blen k = 32 ->
  addr_basehash (write addr 16 (slice k 0 CHUNK_HASH_SIZE)) = k /\ blen (write addr 16 (slice k 0 CHUNK_HASH_SIZE)) = 144.
Proof.
  intros La Lk. change CHUNK_HASH_SIZE with 32. rewrite slice_32 by done. split; [|rewrite blen_write; lia].
  unfold addr_basehash. change CHUNK_HASH_SIZE with 32. rewrite <- Lk. apply slice_write_same; lia.
Qed.

Lemma query_base_of_ok o : exists o', query_base_of db o = Ok o' /\ (out_wf o -> out_wf o' /\ oq_dedupFlag o' = oq_dedupFlag o /\
  oq_chunkHash o' = oq_chunkHash o /\ (oq_dedupFlag o <> UNIQUE -> o' = o) /\ forall e, plain_out e o -> based_out e o').
Proof.
  unfold query_base_of. destruct ((oq_dedupFlag o =? UNIQUE) && (oq_deltaFlag o =? NO_DELTA)) eqn:C.
  - destruct (QuerySF_ok db (oq_superfeature o) (lib_sf _ _ _ _ HL)) as (found & -> & Off). cbn [rbind]. destruct found as [k|].
    + destruct (lib_base _ _ _ _ HL k (Off k eq_refl)) as (v & y & r & Ev & I & F). pose proof (indexed_key cfg U HT _ _ _ _ _ _ I) as Lk.
      assert (T : exists o', match QueryBuffer db (addr_basehash (write (oq_chunkAddr o) 16 (slice k 0 CHUNK_HASH_SIZE))) CHUNK_HASH_SIZE with
        | Some v => a <-- stored_recipe v ;; Ok (out_base (out_delta o OUT_DELTA (oq_offlineFlag o)) (write (oq_chunkAddr o) 16 (slice k 0 CHUNK_HASH_SIZE)) a)
        | None => Ok (out_base (out_delta o OUT_DELTA (oq_offlineFlag o)) (write (oq_chunkAddr o) 16 (slice k 0 CHUNK_HASH_SIZE))
                    (oq_basechunkAddr (out_delta o OUT_DELTA (oq_offlineFlag o)))) end = Ok o').
      { destruct (QueryBuffer _ _ _) as [v'|] eqn:Q; [|by eexists]. destruct (value_144 _ _ Q) as [_ ->]. by eexists. }
      destruct T as [o' T]. exists o'. split; [exact T|]. intros [W]. destruct (basehash_write _ k W Lk) as [Eb Lb]. revert T.
      unfold QueryBuffer. rewrite !Eb. change CHUNK_HASH_SIZE with 32. rewrite !slice_32 by done. rewrite Ev.
      destruct (value_144 k v Ev) as [_ ->]. cbn [rbind]. change CHUNK_HASH_SIZE with 32 in Eb, Lb. rewrite slice_32 in Eb, Lb by done.
      intros [= <-]. apply andb_true_iff in C as [C _]. boolz. split; [by split|]. split; [done|]. split; [done|]. split; [done|]. intros e [Sf _]. split; [done|]. right. split; [done|].
      exists v, y, r. cbn [oq_chunkAddr out_base oq_basechunkAddr]. rewrite Eb. repeat (split; [done|]). by apply Off.
    + exists o. split; [done|]. intros W. split; [done|]. split; [done|]. split; [done|]. split; [done|]. intros e [Sf F]. split; [done|by left].
  - exists o. split; [done|]. intros W. split; [done|]. split; [done|]. split; [done|]. split; [done|]. intros e [Sf F]. split; [done|by left].
Qed.

Record found (o o' : OutQueryEntry) : Prop := {
  fo_wf : out_wf o -> out_wf o';
  fo_same : out_wf o -> same_out o o';
  fo_dup : out_wf o -> oq_dedupFlag o <> UNIQUE -> o' = o;
  fo_base : out_wf o -> forall e, plain_out e o -> based_out e o'
}.
Lemma found_ready e o o' : ready db plain_out e o -> found o o' -> ready db based_out e o'.
Proof.
  intros R [Wf Sa Du Ba]. pose proof (rd_wf _ _ _ _ R) as Wo. destruct (Sa Wo) as [Fo Ho _]. destruct R as [K L _ St].
  split; [by unfold key_of in *; rewrite Ho|by rewrite Ho|auto|]. rewrite Fo, Ho.
  destruct St as [[D' Ad]|(Un & N & P)]; [|right; split; [done|split; [done|by apply Ba]]].
  left. split; [done|]. rewrite (Du Wo); [done|]. by rewrite D'.
Qed.
Lemma Ocall_QueryOutBasechunk_ok n ins outs :
  (n <= length outs)%nat -> (length (unique_ins ins) <= n)%nat -> Forall out_wf outs -> aligned (ready db plain_out) ins outs ->
  exists outs', Ocall_QueryOutBasechunk db (Z.of_nat n) outs = Ok outs' /\ length outs' = length outs /\ Forall out_wf outs' /\
    aligned (ready db based_out) ins outs'.
Proof.
  intros. unfold Ocall_QueryOutBasechunk. rewrite Nat2Z.id.
  eapply (each_out_pass _ found); [|by intros ? ? []|intros; by eapply found_ready|done..].
  intros o. destruct (query_base_of_ok o) as (o' & E & Q). exists o'. split; [done|].
  split; intros Wo; destruct (Q Wo) as (Wo' & Fl & Hh & Du & B); [done|by split|done|done].
Qed.

Lemma recipe_name_prefix r : recipe_ok r -> slice (recipe_put r) 0 CONTAINER_ID_LENGTH = re_containerName r.
Proof. intros R. rewrite <- (recipe_get_put r [] R) at 2. rewrite app_nil_r. reflexivity. Qed.

(** The recipe of the base, decrypted into both entries. *)
Lemma loaded_pair (e : InQueryEntry_t) (o : OutQueryEntry) : based_out e o ->
  oq_deltaFlag o = NO_DELTA /\ based e o \/
  oq_deltaFlag o = OUT_DELTA /\ exists plain, AESCBCDec (c_crypto cfg) (oq_basechunkAddr o) (c_indexQueryKey cfg) = Ok plain /\
    let e' := in_base e (set_addr_base (iq_chunkAddr e) (addr_basehash (oq_chunkAddr o))) (recipe_get plain) in
    let o' := out_base o (oq_chunkAddr o) plain in based e' o' /\ same_in e e' /\ same_out o o'.
Proof.
  intros [Sf [F|(F & v & y & r & Ev & I & Fr & Eb & Of)]]; [left; split; [done|]; split; [done|by left]|right]. split; [done|].
  destruct (indexed_value cfg U D db _ v y r I) as (_ & Dp & G). rewrite Eb. eexists. split; [exact Dp|]. cbn zeta. rewrite G.
  pose proof (indexed_key cfg U HT _ _ _ _ _ _ I) as Lk. pose proof (indexed_bytes cfg U HU HT _ _ _ _ _ _ I) as Bk. split; [|split].
  - split; [exact Sf|]. right. split; [exact F|]. exists v, y, r. do 4 (split; [done|]). split; [apply recipe_name_prefix, I|exact Of].
  - split; try done. intros Ra. apply set_addr_base_ok; [done|]. split; [unfold blen in Lk; lia|done].
  - split; [done|done|by intros []; split].
Qed.
Lemma EntryLoad_ok (e : InQueryEntry_t) (o : OutQueryEntry) (off : Z) (s : gset bytes * Z) : out_wf o -> based_out e o ->
  exists e' o' s', EntryLoad cfg e o off s = Ok (e', o', s') /\ based e' o' /\ same_in e e' /\ same_out o o'.
Proof.
  intros _ B. unfold EntryLoad. destruct (loaded_pair e o B) as [[-> Be]|(-> & plain & -> & L)]; [by eexists _, _, _|].
  rewrite Z.eqb_refl. cbn [rbind]. by eexists _, _, _.
Qed.
Lemma MeGALoad_ok (e : InQueryEntry_t) (o : OutQueryEntry) (off : Z) (m : gmap bytes Z) : out_wf o -> based_out e o ->
  exists e' o' m', MeGALoad cfg e o off m = Ok (e', o', m') /\ based e' o' /\ same_in e e' /\ same_out o o'.
Proof.
  intros _ B. unfold MeGALoad. destruct (loaded_pair e o B) as [[-> Be]|(-> & plain & -> & L)]; [by eexists _, _, _|].
  rewrite Z.eqb_refl. cbn [rbind]. by eexists _, _, _.
Qed.

(** *** Everything between the classification and the storing *)

Lemma unique_ins_elem e ins : e ∈ unique_ins ins -> e ∈ ins /\ iq_dedupFlag e = UNIQUE.
Proof. intros He. apply list_elem_of_filter in He. tauto. Qed.
Lemma entry_for_len chunks ins e : Forall2 entry_for chunks ins -> e ∈ ins -> blen (iq_chunkHash e) = 32.
Proof.
  intros F [i Hi]%list_elem_of_lookup. destruct (Forall2_lookup_r _ _ _ _ _ F Hi) as (c & _ & [Eh _ _]). by apply (hash_blen cfg HT c).
Qed.

Lemma classified_fresh chunks n c : classified chunks n (length chunks) c -> (length chunks <= n)%nat ->
  length (unique_ins (cl_ins c)) = Z.to_nat (outQueryNum c) /\ aligned fresh_pair (cl_ins c) (cl_outs c) /\
  NoDup (map iq_chunkHash (unique_ins (cl_ins c))).
Proof.
  intros [F S] Ln. pose proof (Forall2_length _ _ _ F) as Lc. destruct S as [_ _ _ Nm Lo Ou Nd W].
  rewrite take_ge in Ou, Nd by (rewrite length_map; lia). rewrite uhashes_unique in Ou, Nd.
  change (map iq_chunkHash) with (fmap (M := list) iq_chunkHash) in Ou. rewrite Forall2_fmap_l in Ou. split; [|split; [|done]].
  - rewrite (Forall2_length _ _ _ Ou), length_take. lia.
  - rewrite <- (take_drop (Z.to_nat (outQueryNum c)) (cl_outs c)) at 1. apply aligned_intro.
    eapply Forall2_impl; [|intros x y H'; exact H']. apply Forall2_same_length_lookup_2; [by eapply Forall2_length|].
    intros i e o He Ho. assert (K : key_of (iq_chunkHash e) o) by exact (Forall2_lookup_lr _ _ _ _ _ _ Ou He Ho).
    assert (L : blen (iq_chunkHash e) = 32) by (eapply entry_for_len; [exact F|]; apply unique_ins_elem; by eapply list_elem_of_lookup_2).
    split; [exact K|]. split; [by apply (key_blen cfg _ _ L)|].
    apply (Forall_lookup_1 _ _ i o (Forall_take _ (Z.to_nat (outQueryNum c)) _ W) Ho).
Qed.

Lemma unique_same ins ins' : Forall2 same_in ins ins' -> length (unique_ins ins') = length (unique_ins ins).
Proof. induction 1 as [|e e' l l' S _ IH]; [done|]. rewrite !unique_cons, (si_flag _ _ S). case_if; cbn; congruence. Qed.

Lemma query_new_ok chunks n c : classified chunks n (length chunks) c -> (length chunks <= n)%nat ->
  exists outs, query_new db c = Ok outs /\ length outs = n /\ Forall out_wf outs /\ aligned (ready db (fun _ _ => True)) (cl_ins c) outs.
Proof.
  intros C Ln. destruct (classified_fresh _ _ _ C Ln) as (Lu & A & _). destruct C as [_ [_ _ _ Nm Lo _ _ W]]. unfold query_new.
  set (num := outQueryNum c) in *. case_if.
  - exists (cl_outs c). do 3 (split; [done|]). assert (Lu0 : length (unique_ins (cl_ins c)) = 0%nat) by lia. apply nil_length_inv in Lu0.
    rewrite <- (app_nil_l (cl_outs c)). apply aligned_intro. by rewrite Lu0.
  - destruct (Ocall_QueryOutIndex_ok (Z.to_nat num) (cl_ins c) (cl_outs c)) as (outs & Eq & L & W' & A'); try done; try lia.
    rewrite Z2Nat.id in Eq by lia. exists outs. split; [done|]. split; [lia|done].
Qed.
(** The part of the search that the classes with deltas share. *)
Lemma query_bases_ok buf chunks n c oldNum :
  classified chunks n (length chunks) c -> (length chunks <= n)%nat -> 0 <= oldNum <= Z.of_nat n ->
  exists ins outs, query_bases cfg db buf c oldNum = Ok (ins, outs) /\
    aligned (ready db based_out) ins outs /\ Forall2 same_in (cl_ins c) ins /\ length outs = n /\ Forall out_wf outs.
Proof.
  intros C Ln Ho. destruct (query_new_ok chunks n c C Ln) as (outs & Q & L & W1 & A1). unfold query_bases. rewrite Q. cbn [rbind].
  destruct (classified_fresh _ _ _ C Ln) as (Lu & _ & _). destruct C as [_ [_ _ _ Nm _ _ _ _]]. set (num := outQueryNum c) in *.
  destruct (pass_ok (sf_one cfg buf) _ with_sf (cl_ins c) outs tt (sf_one_ok buf) W1 A1) as (ins1 & outs1 & [] & -> & A2 & S1 & L1 & W2).
  cbn [rbind]. destruct (pass_ok sf_get _ plain_out ins1 outs1 tt sf_get_ok W2 A2) as (ins2 & outs2 & [] & -> & A3 & S2 & L2 & W3).
  cbn [rbind]. set (q := if num =? 0 then oldNum else num). assert (S : Forall2 same_in (cl_ins c) ins2) by (by etrans).
  assert (Hu : length (unique_ins ins2) = Z.to_nat num) by (rewrite <- Lu; by apply unique_same).
  assert (Hq : exists m, q = Z.of_nat m /\ (Z.to_nat num <= m <= n)%nat) by (exists (Z.to_nat q); unfold q; case_if; lia).
  destruct Hq as (m & -> & Hm).
  destruct (Ocall_QueryOutBasechunk_ok m ins2 outs2) as (outs3 & -> & L3 & W4 & A4); [lia|lia|done|done|]. cbn [rbind].
  exists ins2, outs3. do 3 (split; [done|]). split; [lia|done].
Qed.

Lemma find_bases_ok buf chunks n c oldNum s :
  classified chunks n (length chunks) c -> (length chunks <= n)%nat -> 0 <= oldNum <= Z.of_nat n ->
  exists ins outs flag st, find_bases cfg db buf c oldNum s = Ok (ins, outs, flag,
      mk_core (c_store s) (c_cache s) (psHTable2_ s) (deltaBuffer_ s) (tmpOcallcontainer s) (c_recipe s) st) /\
    aligned (ready db based) ins outs /\ Forall2 same_in (cl_ins c) ins /\ length outs = n /\ Forall out_wf outs.
Proof.
  intros C Ln Ho. destruct (query_bases_ok buf chunks n c oldNum C Ln Ho) as (ins & outs & Q & A & S & L & W).
  unfold find_bases, LocalChecker. rewrite Q. cbn [rbind].
  destruct (pass_ok (EntryLoad cfg) _ based ins outs (∅, 0) EntryLoad_ok W A) as (ins4 & outs4 & [ids k] & -> & A5 & S4 & L4 & W5).
  cbn [rbind]. destruct (outQueryNum c =? 0); eexists ins4, outs4, _, _; (split; [reflexivity|split; [exact A5|split; [by etrans|split; [lia|done]]]]).
Qed.
Lemma mega_find_bases_ok buf chunks n c oldNum s :
  classified chunks n (length chunks) c -> (length chunks <= n)%nat -> 0 <= oldNum <= Z.of_nat n ->
  exists ins outs m st, mega_find_bases cfg db buf c oldNum s = Ok (ins, outs, m,
      mk_core (c_store s) (c_cache s) (psHTable2_ s) (deltaBuffer_ s) (tmpOcallcontainer s) (c_recipe s) st) /\
    aligned (ready db based) ins outs /\ Forall2 same_in (cl_ins c) ins /\ length outs = n /\ Forall out_wf outs.
Proof.
  intros C Ln Ho. destruct (query_bases_ok buf chunks n c oldNum C Ln Ho) as (ins & outs & Q & A & S & L & W).
  unfold mega_find_bases, MeGAChecker. rewrite Q. cbn [rbind].
  destruct (pass_ok (MeGALoad cfg) _ based ins outs ∅ MeGALoad_ok W A) as (ins4 & outs4 & m & -> & A5 & S4 & L4 & W5).
  cbn [rbind]. eexists ins4, outs4, _, _. split; [reflexivity|]. split; [exact A5|]. split; [by etrans|]. split; [lia|done].
Qed.
End queries.
End query.
