(* ===== verification/IngestCorrect.v ===== *)
(** A whole upload (Ingest.v): the loop over the chunks of a batch, the recipe, the index
    and the top-k index after it, the session; what is restored afterwards. *)
From Stdlib Require Import ZArith Lia.
From stdpp Require Import base list gmap.
From S2P Require Import Prelude Types CMSketch EntryHeap TopK ReqContainers Database Container Writer Crypto Restore RestoreCorrect Ingest Upload Library IngestStore IngestQuery.

(** ** The file recipe *)

Section recipe.
Context `{EVPLaws}.
Variable cfg : Config.
Abbreviation B := (c_sendRecipeBatchSize cfg).

(** The recipe so far stands for [fps]: whatever a file goes on with, full batches are
    already encrypted in front of it; the rest is in the buffer. *)
Record recipe_inv (r : Recipe) (fps : list bytes) : Prop := {
  ri_room : blen (entryFpList r) = B * CHUNK_HASH_SIZE;
  ri_split : exists pre pending, fps = pre ++ pending /\ recipeNum r = blen pending /\ blen pending < B /\
    slice (entryFpList r) 0 (recipeNum r * CHUNK_HASH_SIZE) = concat pending /\
    forall sk D db rest file, recipe_file (setting cfg sk D db) rest file -> recipe_file (setting cfg sk D db) (pre ++ rest) (recipeFile r ++ file)
}.

Lemma recipe_inv_init buf : 0 < B -> blen buf = B * CHUNK_HASH_SIZE -> recipe_inv (mk_recipe_buf buf 0 []) [].
Proof. intros HB L. split; [done|]. exists [], []. repeat (split; [done|]). done. Qed.

(** A fingerprint written behind the others. *)
Lemma slice_write_snoc (buf d : bytes) n : 0 <= n -> n + blen d <= blen buf ->
  slice (write buf n d) 0 (n + blen d) = slice buf 0 n ++ d.
Proof.
  intros Hn Hl. pose proof (blen_nonneg d). rewrite <- (slice_app_slice _ 0 n (blen d)) by lia. f_equal.
  - apply slice_write_before; lia.
  - apply slice_write_same; lia.
Qed.

Lemma UpdateFileRecipe_ok s fps FP : recipe_inv (c_recipe s) fps -> blen FP = 32 -> 0 < B ->
  exists r st, UpdateFileRecipe cfg s FP = Ok (mk_core (c_store s) (c_cache s) (psHTable2_ s) (deltaBuffer_ s) (tmpOcallcontainer s) r st) /\
    recipe_inv r (fps ++ [FP]).
Proof.
  intros [Room (pre & pending & -> & Num & Lt & Sl & Cont)] L HB. unfold UpdateFileRecipe. change CHUNK_HASH_SIZE with 32 in *.
  rewrite (slice_32 FP L). set (buf := write _ _ _). pose proof (blen_nonneg pending).
  assert (Lb : blen buf = B * 32) by (unfold buf; rewrite blen_write; lia).
  assert (Sb : slice buf 0 ((recipeNum (c_recipe s) + 1) * 32) = concat (pending ++ [FP])).
  { rewrite concat_app. cbn [concat]. rewrite app_nil_r, <- Sl, <- slice_write_snoc by lia. f_equal. lia. }
  assert (Lp : blen (pending ++ [FP]) = recipeNum (c_recipe s) + 1) by (rewrite blen_app, blen_cons, blen_nil; lia).
  case_if.
  - assert (recipeNum (c_recipe s) + 1 = B).
    { destruct (Z.eq_dec (recipeNum (c_recipe s) + 1) B) as [|N]; [done|]. rewrite Z.mod_small in E by lia. lia. }
    rewrite Sb. destruct (Key_ok (c_crypto cfg) (concat (pending ++ [FP])) (c_masterKey cfg)) as (enc & Ee & _). rewrite Ee. cbn [rbind].
    eexists _, _. split; [reflexivity|]. split; [done|]. exists ((pre ++ pending) ++ [FP]), []. rewrite app_nil_r.
    split; [done|]. split; [done|]. split; [done|]. split; [done|]. intros sk D db rest file RF. cbn [recipeFile c_recipe with_recipe].
    rewrite <- !app_assoc. apply Cont. rewrite app_assoc. apply rf_batch; [exact Ee|by rewrite Lp|done].
  - assert (recipeNum (c_recipe s) + 1 <> B) by (intros C; rewrite C, Z.mod_same in E by lia; lia).
    eexists _, _. split; [reflexivity|]. split; [done|]. exists pre, (pending ++ [FP]). rewrite app_assoc. cbn [recipeNum entryFpList].
    split; [done|]. split; [done|]. split; [lia|]. split; [done|]. exact Cont.
Qed.

(** The end of the file. *)
Lemma tail_recipe s fps : recipe_inv (c_recipe s) fps -> 0 < B ->
  exists r, ProcessTailBatch cfg s = Ok (with_recipe (with_store s (dump_open (c_store s))) r) /\
    forall sk D db, recipe_file (setting cfg sk D db) fps (recipeFile r).
Proof.
  intros [_ (pre & pending & -> & Num & Lt & Sl & Cont)] HB. unfold ProcessTailBatch.
  destruct (Key_ok (c_crypto cfg) (concat pending) (c_masterKey cfg)) as (enc & Ee & Le & _). case_if.
  - cbn [rbind]. eexists. split; [reflexivity|]. intros sk D db. assert (pending = []) as -> by (apply nil_length_inv; unfold blen in *; lia).
    assert (enc = []) as -> by (by apply nil_length_inv). rewrite <- (app_nil_r (recipeFile _)). by apply Cont, rf_last.
  - rewrite Sl, Ee. cbn [rbind]. eexists. split; [reflexivity|]. intros sk D db. by apply Cont, rf_last.
Qed.
End recipe.

(** ** The chunks of a batch *)

Section upload.
Context `{EVPLaws} `{!EVPBytes} `{LZ4}.
Variable cfg : Config.
Variable U : bytes -> Prop.
Hypothesis HU : universe cfg U.
Hypothesis HT : hashType_ (c_crypto cfg) = SHA_256.
Hypothesis HB : 0 < c_sendRecipeBatchSize cfg.
Variable d : Directories.

(** What the data writer has on disk is at any time the state of a prefix of its
    queue. *)
Definition writer (disk : nat -> Upload -> gmap bytes bytes) : Prop :=
  forall i u, exists w, disk i u = on_disk d (inputMQ u) w.
Lemma writer_below disk i a s : writer disk -> core_ok d a s -> disk i (c_store s) ⊆ base_dir (spec_dirs d (flushed a)).
Proof.
  intros W [I _ _ _]. destruct (W i (c_store s)) as [w ->]. rewrite (on_disk_spec d _ a w (si_ok _ _ _ I)). apply (si_disk _ _ _ I).
Qed.

Lemma with_base_mono D D' db e o : dirs_le D D' -> all_small D' -> with_base cfg U D db e o -> with_base cfg U D' db e o.
Proof.
  intros HD HS [F|(F & v & y & r & E & I & X)]; [by left|]. right. split; [done|]. exists v, y, r. split; [done|].
  split; [|done]. by eapply indexed_mono.
Qed.
Lemma ready_mono D D' db ins outs : dirs_le D D' -> all_small D' ->
  aligned (ready cfg db (based cfg U D db)) ins outs -> aligned (ready cfg db (based cfg U D' db)) ins outs.
Proof.
  intros HD HS. apply aligned_impl. intros e o [K L W [S|(S & N & Sf & Bs)]]; (split; [done|done|done|]); [by left|right].
  split; [done|]. split; [done|]. split; [done|]. by eapply with_base_mono.
Qed.

(** An entry outside after the loop. *)
Record settled (D : Directories) (db : IndexStore) (e : InQueryEntry_t) (o : OutQueryEntry) : Prop := {
  st_key : key_of cfg (iq_chunkHash e) o;
  st_wf : out_wf o;
  st_state : oq_dedupFlag o = DUPLICATE /\ is_Some (indexObj_ db !! oq_chunkHash o) \/
             oq_dedupFlag o = UNIQUE /\ indexObj_ db !! oq_chunkHash o = None /\ exists x e', stored_pair cfg U D db x e' o
}.
Lemma settled_mono D D' db e o : dirs_le D D' -> all_small D' -> settled D db e o -> settled D' db e o.
Proof.
  intros HD HS [K W [S|(S & N & x & e' & P)]]; (split; [done|done|]); [by left|right]. split; [done|]. split; [done|].
  exists x, e'. by eapply stored_pair_mono.
Qed.

(** ** What an index class has to do *)

(** What is left by a chunk that was stored: nothing else of the entries changes. *)
Record newly_stored (db : IndexStore) (a : store_spec) (x : bytes) (e : InQueryEntry_t) (o : OutQueryEntry) (t : Turn)
    (a' : store_spec) (e' : InQueryEntry_t) (o' : OutQueryEntry) (t' : Turn) : Prop := {
  ns_adv : advances d a (t_core t) a' (t_core t');
  ns_times : con_times (c_store (t_core t')) <= con_times (c_store (t_core t)) + 1;
  ns_recipe : c_recipe (t_core t') = c_recipe (t_core t);
  ns_outs : t_outs t' = t_outs t;
  ns_in : iq_dedupFlag e' = iq_dedupFlag e /\ iq_chunkHash e' = iq_chunkHash e /\ iq_chunkSize e' = iq_chunkSize e;
  ns_out : oq_dedupFlag o' = oq_dedupFlag o /\ oq_chunkHash o' = oq_chunkHash o;
  ns_pair : stored_pair cfg U (seen d a' (t_core t')) db x e' o'
}.

(** The contract of a class: its queries give every new chunk a base that can be read or
    none, it stores a new chunk so that it can be read back, and the end of a batch
    leaves the index and the super-features.  [N] is what a client of the contract
    learns about each chunk that is stored. *)
Definition NewChunk (C : IndexClass) : Type :=
  Plan C -> IndexStore -> store_spec -> Turn -> bytes -> OutQueryEntry -> store_spec -> Turn -> Prop.
Class ClassLaws (C : IndexClass) (N : NewChunk C) : Prop := {
  law_mark plan db a t x o a' t' t1 t1' :
    mark t1 = mark t -> mark t1' = mark t' -> N plan db a t x o a' t' -> N plan db a t1 x o a' t1';
  law_search h D db buf chunks n c oldNum s :
    library cfg U D db -> classified cfg h chunks n (length chunks) c -> (length chunks <= n)%nat -> 0 <= oldNum <= Z.of_nat n ->
    exists ins outs plan st, search C db buf c oldNum s = Ok (ins, outs, plan,
        mk_core (c_store s) (c_cache s) (psHTable2_ s) (deltaBuffer_ s) (tmpOcallcontainer s) (c_recipe s) st) /\
      aligned (ready cfg db (based cfg U D db)) ins outs /\ Forall2 same_in (cl_ins c) ins /\ length outs = n /\ Forall out_wf outs;
  law_storing plan disk db a x e o t :
    core_ok d a (t_core t) -> con_times (c_store (t_core t)) < 2 ^ 31 - 1 -> disk ⊆ base_dir (spec_dirs d (flushed a)) ->
    U x -> oq_dedupFlag o = UNIQUE -> new_pair cfg U (seen d a (t_core t)) db x e o ->
    exists e' o' t' a', storing C plan disk x e o t = Ok (e', o', t') /\ newly_stored db a x e o t a' e' o' t' /\ N plan db a t x o' a' t';
  law_end plan db t : exists db1 st, end_batch C plan db t = (db1, stat (t_core t) st) /\ indexObj_ db1 = indexObj_ db /\ sfObj_ db1 = sfObj_ db
}.
Variable Cl : IndexClass.
Variable New : NewChunk Cl.
Context `{HC : !ClassLaws Cl New}.

(** What the turns of the loop add to the log of the storage core and to the lists of the
    batch: nothing, or an entry for a new chunk. *)
Inductive turn_log (plan : Plan Cl) (db : IndexStore) (a : store_spec) (t : Turn) : list OutQueryEntry -> store_spec -> Turn -> Prop :=
| turn_quiet out t' : mark t' = mark t -> Forall (fun o => oq_dedupFlag o <> UNIQUE) out -> turn_log plan db a t out a t'
| turn_new x o a' t' : U x -> New plan db a t x o a' t' -> turn_log plan db a t [o] a' t'.
Inductive batch_log (plan : Plan Cl) (db : IndexStore) : store_spec -> Turn -> list OutQueryEntry -> store_spec -> Turn -> Prop :=
| log_nil a t : batch_log plan db a t [] a t
| log_cons a t out a1 t1 outs a2 t2 :
    turn_log plan db a t out a1 t1 -> batch_log plan db a1 t1 outs a2 t2 -> batch_log plan db a t (out ++ outs) a2 t2.
Lemma turn_log_mark plan db a t out a' t' t1 t1' :
  mark t1 = mark t -> mark t1' = mark t' -> turn_log plan db a t out a' t' -> turn_log plan db a t1 out a' t1'.
Proof.
  intros E E' L. revert E'. destruct L as [out' t2 M F|x o a2 t2 Ux S]; intros E'; [apply turn_quiet; [congruence|done]|eapply turn_new; [done|by eapply law_mark]].
Qed.

(** One turn: how the state goes on, what becomes of the entries. *)
Record turned (plan : Plan Cl) (db : IndexStore) (a : store_spec) (t : Turn) (fps : list bytes) (e : InQueryEntry_t)
    (a' : store_spec) (t' : Turn) (e' : InQueryEntry_t) (out : list OutQueryEntry) : Prop := {
  tu_adv : advances d a (t_core t) a' (t_core t');
  tu_times : con_times (c_store (t_core t')) <= con_times (c_store (t_core t)) + 1;
  tu_recipe : recipe_inv cfg (c_recipe (t_core t')) (fps ++ [iq_chunkHash e]);
  tu_in : same_in e e';
  tu_out : Forall2 (settled (seen d a' (t_core t')) db) (unique_ins [e]) out;
  tu_outs : t_outs t' = drop (length out) (t_outs t);
  tu_log : turn_log plan db a t out a' t'
}.

Lemma core_recipe a s r st : core_ok d a s ->
  core_ok d a (mk_core (c_store s) (c_cache s) (psHTable2_ s) (deltaBuffer_ s) (tmpOcallcontainer s) r st).
Proof. by intros [? ? ? ?]. Qed.

Lemma place_chunk_ok disk plan h x e t a D0 db :
  library cfg U D0 db -> core_ok d a (t_core t) -> con_times (c_store (t_core t)) < 2 ^ 31 - 1 ->
  (forall s, core_ok d a s -> disk (c_store s) ⊆ base_dir (spec_dirs d (flushed a))) ->
  U x -> entry_for cfg x e -> flag_ok h (tag e) -> aligned (ready cfg db (based cfg U (seen d a (t_core t)) db)) [e] (t_outs t) ->
  exists e' out t' a', place_chunk cfg (storing Cl plan) disk x e t = Ok (e', out, t') /\ advances d a (t_core t) a' (t_core t') /\
    con_times (c_store (t_core t')) <= con_times (c_store (t_core t)) + 1 /\ c_recipe (t_core t') = c_recipe (t_core t) /\
    same_in e e' /\ Forall2 (settled (seen d a' (t_core t')) db) (unique_ins [e]) out /\ t_outs t' = drop (length out) (t_outs t) /\
    turn_log plan db a t out a' t'.
Proof.
  intros HL K Ht Hd X Ex Fl A. unfold place_chunk. cbn [aligned] in A. rewrite unique_cons.
  destruct (iq_dedupFlag e =? UNIQUE) eqn:Fe; boolz.
  - rewrite Fe. change (UNIQUE =? DUPLICATE) with false. change (UNIQUE =? TMP_DUPLICATE) with false. change (UNIQUE =? TMP_UNIQUE) with false.
    cbn [orb]. destruct (t_outs t) as [|o outs]; [done|]. destruct A as [[Ky Lk W St] _].
    destruct St as [[Fo Ad]|(Fo & No & Sf & Bs)]; rewrite Fo.
    + rewrite Z.eqb_refl. destruct (lib_index _ _ _ _ HL _ _ Ad) as (x' & r & I).
      destruct (indexed_value cfg U D0 db _ _ x' r I) as (_ & -> & G). cbn [rbind]. rewrite G.
      eexists _, _, _, a. split; [reflexivity|]. split; [by apply advances_refl|]. split; [cbn; lia|]. split; [done|].
      split; [by split; try done; intros _; apply I|]. split; [|split; [done|apply turn_quiet; [done|constructor; [by rewrite Fo|constructor]]]]. constructor; [|constructor]. split; [done|done|]. left. by split.
    + change (UNIQUE =? DUPLICATE) with false. rewrite Z.eqb_refl. cbn match.
      assert (Kx : keyed cfg x (oq_chunkHash o)) by (exists (iq_chunkHash e); split; [apply Ex|exact Ky]).
      destruct (law_storing plan (disk (c_store (t_core t))) db a x e o (mk_turn (t_core t) outs (t_batch_map t) (t_deltas t)) K Ht (Hd _ K) X Fo) as
        (e' & o' & t' & a' & E & [Ad Tm Rc Ou (F1 & F2 & F3) (F4 & F5) Sp] & Nw).
      { split; [apply Ex|apply Sf|apply Sf|done|done]. }
      cbn [t_core t_outs] in *. rewrite E. cbn [rbind]. eexists e', [o'], t', a'. split; [reflexivity|]. split; [done|]. split; [done|]. split; [done|].
      split; [split; [done|done|done|]; intros _; apply (sp_indexed _ _ _ _ _ _ _ Sp)|].
      split; [|split; [exact Ou|eapply turn_new; [done|by eapply law_mark; [..|exact Nw]]]].
      constructor; [|constructor]. split.
      * by unfold key_of in *; rewrite F5.
      * split. destruct (indexed_value cfg U _ db _ _ x _ (sp_indexed _ _ _ _ _ _ _ Sp)) as [L _]. exact L.
      * right. rewrite F4, F5. split; [done|]. split; [done|]. by exists x, e'.
  - assert (Fi : (iq_dedupFlag e =? DUPLICATE) || (iq_dedupFlag e =? TMP_DUPLICATE) || (iq_dedupFlag e =? TMP_UNIQUE) = true).
    { destruct Fl as [F|[[F _]|[F|F]]]; cbn in F; [done| | |]; rewrite F; by rewrite ?orb_true_r. }
    rewrite Fi. eexists _, _, _, a. split; [reflexivity|]. cbn [t_core t_outs]. split; [|split; [cbn; lia|split; [done|split; [done|split; [constructor|split; [done|by apply turn_quiet]]]]]].
    split; [by apply core_stat|reflexivity|done].
Qed.

Lemma process_chunk_ok disk plan h x e t a fps D0 db :
  library cfg U D0 db -> core_ok d a (t_core t) -> con_times (c_store (t_core t)) < 2 ^ 31 - 1 ->
  (forall s, core_ok d a s -> disk (c_store s) ⊆ base_dir (spec_dirs d (flushed a))) -> recipe_inv cfg (c_recipe (t_core t)) fps ->
  U x -> entry_for cfg x e -> flag_ok h (tag e) -> aligned (ready cfg db (based cfg U (seen d a (t_core t)) db)) [e] (t_outs t) ->
  exists e' out t' a', process_chunk cfg (storing Cl plan) disk x e t = Ok (e', out, t') /\ turned plan db a t fps e a' t' e' out.
Proof.
  intros HL K Ht Hd R X Ex Fl A.
  destruct (place_chunk_ok disk plan h x e t a D0 db HL K Ht Hd X Ex Fl A) as (e' & out & t' & a' & E & Ad & Tm & Rc & Si & St & Ou & Lg).
  unfold process_chunk. rewrite E. cbn [rbind]. rewrite <- Rc in R. pose proof (si_hash _ _ Si) as Hh.
  assert (Le : blen (iq_chunkHash e') = 32) by (rewrite Hh; apply (hash_blen cfg HT x), Ex).
  destruct (UpdateFileRecipe_ok cfg (t_core t') fps (iq_chunkHash e') R Le HB) as (r & st & -> & R'). cbn [rbind].
  eexists e', out, _, a'. split; [reflexivity|]. split; cbn [t_core t_outs]; try done.
  - destruct Ad as [K' Le' Ba]. split; [|exact Le'|done]. by apply core_stat, core_recipe.
  - cbn. by rewrite <- Hh.
  - by eapply turn_log_mark; [..|exact Lg].
Qed.

Lemma aligned_head R e ins outs : aligned R (e :: ins) outs ->
  aligned R [e] outs /\ aligned R ins (drop (length (unique_ins [e])) outs).
Proof.
  rewrite unique_cons. cbn [aligned]. case_if; [|done]. destruct outs as [|o outs]; [done|]. intros [Ro A]. cbn. by rewrite drop_0.
Qed.

Lemma process_chunks_ok disk plan h buf D0 db : library cfg U D0 db -> writer disk ->
  forall chunks ins off i t a fps,
  Forall2 (entry_for cfg) chunks ins -> Forall U chunks -> framed buf off chunks -> Forall (fun e => flag_ok h (tag e)) ins ->
  aligned (ready cfg db (based cfg U (seen d a (t_core t)) db)) ins (t_outs t) ->
  core_ok d a (t_core t) -> con_times (c_store (t_core t)) + blen chunks < 2 ^ 31 -> recipe_inv cfg (c_recipe (t_core t)) fps ->
  exists ins' outs' t' a', process_chunks cfg (storing Cl plan) disk buf off i ins t = Ok (ins', outs', t') /\
    advances d a (t_core t) a' (t_core t') /\ con_times (c_store (t_core t')) <= con_times (c_store (t_core t)) + blen chunks /\
    recipe_inv cfg (c_recipe (t_core t')) (fps ++ map iq_chunkHash ins) /\ Forall2 same_in ins ins' /\
    Forall2 (settled (seen d a' (t_core t')) db) (unique_ins ins) outs' /\ t_outs t' = drop (length outs') (t_outs t) /\
    batch_log plan db a t outs' a' t'.
Proof.
  intros HL Wd chunks ins. revert chunks. induction ins as [|e ins IH]; intros chunks off i t a fps F Uc Fr Fl A K Ht R.
  - apply Forall2_nil_inv_r in F as ->. exists [], [], t, a. split; [done|]. split; [by apply advances_refl|]. split; [rewrite blen_nil; lia|].
    cbn. rewrite app_nil_r. split; [done|]. split; [done|]. split; [constructor|]. split; [done|constructor].
  - apply Forall2_cons_inv_r in F as (c & chunks' & Ec & F & ->). apply Forall_cons in Uc as [Xc Uc]. apply Forall_cons in Fl as [Fe Fl].
    destruct Fr as (_ & Sl & _ & Fr). rewrite blen_cons in *. apply aligned_head in A as [A1 A]. pose proof (blen_nonneg chunks').
    cbn [process_chunks]. rewrite (ef_size _ _ _ Ec), Sl.
    destruct (process_chunk_ok (disk i) plan h c e t a fps D0 db HL K ltac:(lia) (fun s => writer_below disk i a s Wd) R Xc Ec Fe A1)
      as (e' & out & t1 & a1 & -> & [Ad Tm R1 Si St Ou Lg]). cbn [rbind]. rewrite (si_size _ _ Si), (ef_size _ _ _ Ec).
    rewrite (Forall2_length _ _ _ St), <- Ou in A. pose proof Ad as [K1 Le1 _].
    destruct (IH chunks' (off + 4 + blen c) (S i) t1 a1 (fps ++ [iq_chunkHash e]) F Uc Fr Fl) as
      (ins' & outs' & t2 & a2 & -> & Ad2 & Tm2 & R2 & Si2 & St2 & Ou2 & Lg2); try done.
    { eapply ready_mono; [exact Le1|by eapply seen_small|done]. }
    { lia. }
    cbn [rbind]. exists (e' :: ins'), (out ++ outs'), t2, a2. split; [done|]. split; [by eapply advances_trans|]. split; [lia|].
    split; [by rewrite <- app_assoc in R2|]. split; [by constructor|].
    change (e :: ins) with ([e] ++ ins). unfold unique_ins. rewrite filter_app. split.
    + apply Forall2_app; [|done]. eapply Forall2_impl; [exact St|]. intros x o. apply settled_mono; [apply Ad2|eapply seen_small, Ad2].
    + rewrite Ou2, Ou, drop_drop, length_app. split; [done|by eapply log_cons].
Qed.

(** ** The index outside after a batch *)

Definition to_update (D : Directories) (db : IndexStore) (o : OutQueryEntry) : Prop :=
  oq_dedupFlag o = DUPLICATE /\ is_Some (indexObj_ db !! oq_chunkHash o) \/
  oq_dedupFlag o = UNIQUE /\ indexObj_ db !! oq_chunkHash o = None /\ exists x e', stored_pair cfg U D db x e' o.

Lemma to_update_mono D db db' o : all_small D -> indexObj_ db ⊆ indexObj_ db' -> 
  (indexObj_ db !! oq_chunkHash o = None -> indexObj_ db' !! oq_chunkHash o = None) -> to_update D db o -> to_update D db' o.
Proof.
  intros Sm Sub N [[F [v Hv]]|(F & No & x & e & [I Fl])]; [left|right].
  - split; [done|]. exists v. by eapply lookup_weaken.
  - split; [done|]. split; [auto|]. exists x, e. split; [|done]. by eapply indexed_mono.
Qed.

Lemma update_out_ok D db o : library cfg U D db -> all_small D -> to_update D db o ->
  exists db', update_out db o = Ok db' /\ library cfg U D db' /\ indexObj_ db ⊆ indexObj_ db' /\
    is_Some (indexObj_ db' !! oq_chunkHash o) /\ forall k, k <> oq_chunkHash o -> indexObj_ db' !! k = indexObj_ db !! k.
Proof.
  intros HL Sm [[F Kn]|(F & N & x & e & [I Fl])]; unfold update_out; rewrite F.
  - change (DUPLICATE =? UNIQUE) with false. cbn match. by exists db.
  - rewrite Z.eqb_refl. destruct (indexed_value cfg U _ _ _ _ _ _ I) as (Lv & _). pose proof (indexed_key cfg U HT _ _ _ _ _ _ I) as Lk.
    unfold InsertBothBuffer, sizeof_RecipeEntry in *. change CHUNK_HASH_SIZE with 32. rewrite slice_32, slice_144 by done.
    pose proof (library_insert cfg U D db _ _ x _ HL Sm N I) as HL1. set (db1 := set_index db _) in *.
    assert (Sub : indexObj_ db ⊆ indexObj_ db1) by by apply insert_subseteq.
    assert (Kn : is_Some (indexObj_ db1 !! oq_chunkHash o)) by (cbn; rewrite lookup_insert_eq; by eexists).
    assert (Ot : forall k, k <> oq_chunkHash o -> indexObj_ db1 !! k = indexObj_ db !! k) by (intros k Hk; cbn; by rewrite lookup_insert_ne).
    destruct ((oq_deltaFlag o =? NO_DELTA) && (oq_offlineFlag o =? 0)) eqn:C; [|by exists db1].
    apply andb_true_iff in C as [C _]. boolz.
    destruct (library_offer cfg U HT D db1 (oq_chunkHash o) (oq_superfeature o) HL1) as (db' & E & HL' & Ei).
    { exists (oq_chunkAddr o), x, (iq_chunkAddr e). split; [cbn; by rewrite lookup_insert_eq|]. split; [by eapply indexed_mono|auto]. }
    exists db'. rewrite Ei. done.
Qed.

Lemma update_outs_ok D outs : all_small D -> forall db, library cfg U D db -> NoDup (map oq_chunkHash outs) -> Forall (to_update D db) outs ->
  exists db', update_outs db outs = Ok db' /\ library cfg U D db' /\ indexObj_ db ⊆ indexObj_ db' /\
    Forall (fun o => is_Some (indexObj_ db' !! oq_chunkHash o)) outs.
Proof.
  intros Sm. induction outs as [|o outs IH]; intros db HL Nd F; [by exists db|]. cbn [update_outs]. apply Forall_cons in F as [Fo F].
  cbn in Nd. apply NoDup_cons in Nd as [No Nd]. destruct (update_out_ok D db o HL Sm Fo) as (db1 & -> & HL1 & Sub & Kn & Ot). cbn [rbind].
  destruct (IH db1 HL1 Nd) as (db2 & -> & HL2 & Sub2 & F2).
  - rewrite Forall_forall in F |- *. intros x Hx. eapply to_update_mono; [done|exact Sub| |by apply F]. rewrite Ot; [done|].
    intros Ek. apply No. rewrite <- Ek. apply list_elem_of_In, in_map, list_elem_of_In, Hx.
  - exists db2. split; [done|]. split; [done|]. split; [by etrans|]. constructor; [|done].
    destruct Kn as [v Hv]. exists v. by eapply lookup_weaken.
Qed.

(** ** The top-k index after a batch *)

Definition known (db : IndexStore) (fp : bytes) : Prop :=
  exists k, IndexAESCMCEnc (c_crypto cfg) fp (c_indexQueryKey cfg) = Ok k /\ is_Some (indexObj_ db !! k).
Record heap_inv (h : EcallEntryHeap) (P : bytes -> Prop) : Prop := {
  hv_wf : heap_wf h;
  hv_size : (Size h <= topThreshold_ cfg)%nat;
  hv_item : forall fp a g, content h fp = Some (a, g) -> recipe_ok a /\ P fp
}.
Lemma heap_inv_impl h (P Q : bytes -> Prop) : (forall fp, P fp -> Q fp) -> heap_inv h P -> heap_inv h Q.
Proof. intros HP [W S I]. split; [done|done|]. intros fp a g E. destruct (I fp a g E). split; [done|auto]. Qed.

Lemma heap_update_ok h P e : heap_inv h P -> (2 <= topThreshold_ cfg)%nat -> recipe_ok (iq_chunkAddr e) ->
  (iq_dedupFlag e = UNIQUE \/ iq_dedupFlag e = DUPLICATE -> P (iq_chunkHash e)) -> exists h', heap_update cfg h e = Ok h' /\ heap_inv h' P.
Proof.
  intros Hi Tp Ra HP. pose proof Hi as [W S I]. unfold heap_update.
  destruct ((iq_dedupFlag e =? UNIQUE) || (iq_dedupFlag e =? DUPLICATE)) eqn:C; [|by exists h].
  assert (Pe : P (iq_chunkHash e)) by (apply HP; apply orb_true_iff in C as [C|C]; boolz; tauto).
  assert (A : exists b, CheckIfAddToHeap (topThreshold_ cfg) h (iq_chunkFreq e) = Ok b).
  { unfold CheckIfAddToHeap. case_if; [by eexists|]. apply Nat.ltb_ge in E. destruct (size_pos_top h W) as (t & x & _ & _ & -> & _); [lia|]. by eexists. }
  destruct A as [b ->]. cbn [rbind]. destruct b; [|by exists h]. destruct (Contains h (iq_chunkHash e)) eqn:Cn.
  - apply bool_decide_eq_true in Cn. destruct (Update_ok h _ (iq_chunkFreq e) W Cn) as (h' & E & W' & Pm & Ct).
    exists h'. split; [exact E|]. split; [done|unfold Size in *; by rewrite Pm|]. intros fp a g. rewrite Ct. case_decide; [|apply I].
    destruct (content h fp) as [[a0 g0]|] eqn:E0; [|done]. intros [= <- _]. by eapply I.
  - apply bool_decide_eq_false in Cn.
    destruct (AddChunkToHeap_ok (topThreshold_ cfg) h (iq_chunkFreq e) (iq_chunkAddr e) (iq_chunkHash e) W Tp S) as (h' & E & W' & Sz & Ct).
    { by apply eq_None_not_Some. }
    exists h'. split; [exact E|]. split; [done|rewrite Sz; lia|]. intros fp a g.
    destruct Ct as [[_ Ct]|(_ & t & a0 & m & _ & _ & _ & Ct)]; rewrite Ct; repeat case_decide; try done; try apply I; intros [= <- _]; by subst.
Qed.
Lemma heap_loop_ok P ins : (2 <= topThreshold_ cfg)%nat ->
  Forall (fun e => recipe_ok (iq_chunkAddr e) /\ (iq_dedupFlag e = UNIQUE \/ iq_dedupFlag e = DUPLICATE -> P (iq_chunkHash e))) ins ->
  forall h, heap_inv h P -> exists h', heap_loop cfg ins h = Ok h' /\ heap_inv h' P.
Proof.
  intros Tp. induction 1 as [|e ins [Ra HP] _ IH]; intros h Hi; [by exists h|]. cbn [heap_loop].
  destruct (heap_update_ok h P e Hi Tp Ra HP) as (h' & -> & Hi'). cbn [rbind]. by apply IH.
Qed.

(** ** A batch *)

(** Every fingerprint of the batch is known when the new ones are. *)
Lemma all_known (h : EcallEntryHeap) (P : bytes -> Prop) chunks n c : classified cfg h chunks n (length chunks) c ->
  (forall e, e ∈ unique_ins (cl_ins c) -> P (iq_chunkHash e)) -> (forall fp, Contains h fp = true -> P fp) ->
  Forall (fun e => P (iq_chunkHash e)) (cl_ins c).
Proof.
  intros [F [Fl Lo Kn _ _ _ _ _]] Hu Hh. pose proof (Forall2_length _ _ _ F) as Lc.
  rewrite take_ge in Fl, Kn by (rewrite length_map; lia). apply Forall_forall. intros e He.
  rewrite Forall_forall in Kn. destruct (Kn (tag e)) as [k Hk]; [by apply list_elem_of_In, in_map, list_elem_of_In|]. cbn in Hk.
  destruct (Lo _ _ Hk) as (_ & f & Hf & Ld). apply list_elem_of_lookup_2, list_elem_of_In, in_map_iff in Hf as (e' & Te & He').
  apply list_elem_of_In in He'. injection Te as Ef Eh. rewrite <- Eh.
  destruct (decide (f = UNIQUE)) as [->|N].
  - apply Hu, list_elem_of_filter. by split.
  - destruct Ld as [Ld|Ld]; [done|]. cbn in Ld. subst f. apply Hh.
    rewrite Forall_forall in Fl. destruct (Fl (tag e')) as [Fu|[[_ C]|[Fu|Fu]]]; [by apply list_elem_of_In, in_map, list_elem_of_In|..]; [|done| |]; cbn in Fu; by rewrite Ld in Fu.
Qed.

Lemma same_tags ins ins' : Forall2 same_in ins ins' -> map tag ins' = map tag ins.
Proof. induction 1 as [|e e' l l' S _ IH]; [done|]. cbn. rewrite IH. unfold tag. by rewrite (si_flag _ _ S), (si_hash _ _ S). Qed.

Lemma same_hashes ins ins' : Forall2 same_in ins ins' -> map iq_chunkHash ins' = map iq_chunkHash ins.
Proof. induction 1 as [|e e' l l' S _ IH]; [done|]. cbn. by rewrite IH, (si_hash _ _ S). Qed.
Lemma library_same D db db' : indexObj_ db' = indexObj_ db -> sfObj_ db' = sfObj_ db -> all_small D -> library cfg U D db -> library cfg U D db'.
Proof.
  intros Ei Es Sm [I S B]. assert (Sub : indexObj_ db ⊆ indexObj_ db') by by rewrite Ei. split.
  - intros k v. rewrite Ei. intros E. destruct (I k v E) as (x & r & Ix). exists x, r. by eapply indexed_mono.
  - unfold sf_wf in *. by rewrite Es.
  - intros k O. eapply base_entry_mono; [reflexivity|done|exact Sub|]. apply B. unfold offered in *. by rewrite <- Es.
Qed.
Lemma settled_update D db db' e o : indexObj_ db' = indexObj_ db -> all_small D -> settled D db e o -> to_update D db' o.
Proof.
  intros Ei Sm [_ _ S]. apply (to_update_mono D db); [done|by rewrite Ei|by rewrite Ei|exact S].
Qed.

Abbreviation BS := (Z.to_nat (c_sendChunkBatchSize cfg)).
Hypothesis HS : 0 < c_sendChunkBatchSize cfg < 2 ^ 32.
Hypothesis HK : (2 <= topThreshold_ cfg)%nat.

(** What holds between two batches of a session in which the chunks [xs] were
    uploaded. *)
Definition uploaded (db : IndexStore) (fp x : bytes) : Prop :=
  U x /\ GenerateHash (c_crypto cfg) x = Ok fp /\ known db fp.
Record ingest_inv (g : Ingest) (a : store_spec) (xs : list bytes) : Prop := {
  in_sketch : exists l, sees (cmSketch_ g) l;
  in_heap : heap_inv (insideDedupIndex_ g) (known (i_db g));
  in_ins : length (_inQueryBase g) = BS /\ Forall (fun e => recipe_ok (iq_chunkAddr e)) (_inQueryBase g);
  in_outs : length (i_outQueryBase g) = BS /\ Forall out_wf (i_outQueryBase g);
  in_num : 0 <= i_queryNum g <= Z.of_nat BS;
  in_core : core_ok d a (i_core g);
  in_library : library cfg U (seen d a (i_core g)) (i_db g);
  in_chunks : exists fps, recipe_inv cfg (c_recipe (i_core g)) fps /\ Forall2 (uploaded (i_db g)) fps xs
}.

Lemma known_mono db db' fp : indexObj_ db ⊆ indexObj_ db' -> known db fp -> known db' fp.
Proof. intros Sub (k & E & [v Hv]). exists k. split; [done|]. exists v. by eapply lookup_weaken. Qed.

(** Fingerprints, frequencies, classification. *)
Lemma front_ok g a xs buf chunks : ingest_inv g a xs -> Forall U chunks -> (length chunks <= BS)%nat -> framed buf 0 chunks ->
  exists ins ins' sk l c, hash_loop cfg (length chunks) buf 0 (_inQueryBase g) = Ok ins /\ freq_loop ins (cmSketch_ g) = Ok (ins', sk) /\
    sees sk l /\ classify cfg (insideDedupIndex_ g) ins' (i_outQueryBase g) = Ok c /\
    classified cfg (insideDedupIndex_ g) chunks BS (length chunks) c.
Proof.
  intros [[l Sk] [Hw _ Hi] [Li Ri] [Lo Wo] _ _ _ _] Uc Ln Fr.
  destruct (hash_loop_ok cfg U HU HT buf 0 chunks (_inQueryBase g) Fr Uc ltac:(lia) Ri) as (ins & E & F).
  destruct (freq_loop_ok ins _ l Sk) as (ins' & sk & l' & E' & Sk' & S).
  destruct (classify_ok cfg U HT (insideDedupIndex_ g) chunks (length chunks) ins' (i_outQueryBase g) Hw) as (c & Ec & C); try done; try lia.
  - intros k x y Ct. by eapply Hi.
  - unfold blen. lia.
  - by eapply entries_same.
  - rewrite Lo in C. by exists ins, ins', sk, l', c.
Qed.

Lemma keys_nodup ins outs : NoDup (map iq_chunkHash ins) -> Forall (fun e => blen (iq_chunkHash e) = 32) ins ->
  Forall2 (fun e o => key_of cfg (iq_chunkHash e) o) ins outs -> NoDup (map oq_chunkHash outs).
Proof.
  intros Nd Le F. induction F as [|e o ins outs K F IH]; [constructor|]. cbn in *. apply NoDup_cons in Nd as [Nin Nd].
  apply Forall_cons in Le as [L Le]. apply NoDup_cons. split; [|by apply IH]. intros Ho. apply Nin.
  apply list_elem_of_In, in_map_iff in Ho as (o' & Eo & [j Hj]%list_elem_of_In%list_elem_of_lookup).
  destruct (Forall2_lookup_r _ _ _ _ _ F Hj) as (e' & He' & K'). unfold key_of in *. rewrite Eo in K'.
  pose proof (Forall_lookup_1 _ _ _ _ Le He') as L'. cbn in L'.
  assert (iq_chunkHash e = iq_chunkHash e') as -> by (eapply CMC_inj; [| |exact K|exact K']; rewrite ?L, ?L'; done).
  apply list_elem_of_In, in_map, list_elem_of_In. by eapply list_elem_of_lookup_2.
Qed.
Lemma same_len h chunks n m c ins e : Forall2 same_in (cl_ins c) ins -> classified cfg h chunks n m c -> e ∈ ins -> blen (iq_chunkHash e) = 32.
Proof.
  intros Si [F _] [i He]%list_elem_of_lookup. destruct (Forall2_lookup_r _ _ _ _ _ Si He) as (e0 & He0 & S). rewrite (si_hash _ _ S).
  eapply entry_for_len; [done|exact F|]. by eapply list_elem_of_lookup_2.
Qed.
Lemma known_same (P : bytes -> Prop) ins ins' : Forall2 same_in ins ins' -> Forall (fun e => P (iq_chunkHash e)) ins -> Forall (fun e => P (iq_chunkHash e)) ins'.
Proof. induction 1 as [|e e' l l' S _ IH]; [done|]. intros [Pe F]%Forall_cons. constructor; [by rewrite (si_hash _ _ S)|by apply IH]. Qed.

(** The index outside and the top-k index when the chunks are stored. *)
Lemma back_ok (h : EcallEntryHeap) chunks c D db db1 ins outs :
  library cfg U D db -> all_small D -> heap_inv h (known db) -> classified cfg h chunks BS (length chunks) c -> (length chunks <= BS)%nat ->
  indexObj_ db1 = indexObj_ db -> sfObj_ db1 = sfObj_ db ->
  Forall2 same_in (cl_ins c) ins -> Forall2 (settled D db) (unique_ins ins) outs -> Forall (fun e => recipe_ok (iq_chunkAddr e)) ins ->
  exists db2 h', update_outs db1 outs = Ok db2 /\ heap_loop cfg ins h = Ok h' /\ library cfg U D db2 /\ indexObj_ db ⊆ indexObj_ db2 /\
    heap_inv h' (known db2) /\ Forall (fun e => known db2 (iq_chunkHash e)) ins /\ NoDup (map oq_chunkHash outs).
Proof.
  intros HL Sm Hi C Ln Ei Es Si St Ra. pose proof (same_tags _ _ Si) as Tg.
  destruct (classified_fresh cfg HT h chunks BS c C Ln) as (_ & _ & Nd).
  assert (Hu : map iq_chunkHash (unique_ins ins) = map iq_chunkHash (unique_ins (cl_ins c))) by (by rewrite <- !uhashes_unique, Tg).
  assert (Fk : Forall2 (fun e o => key_of cfg (iq_chunkHash e) o) (unique_ins ins) outs) by (eapply Forall2_impl; [exact St|by intros ? ? []]).
  assert (No : NoDup (map oq_chunkHash outs)).
  { eapply (keys_nodup (unique_ins ins)); [by rewrite Hu| |exact Fk]. apply Forall_forall. intros e [He _]%unique_ins_elem.
    eapply same_len; [exact Si|exact C|done]. }
  destruct (update_outs_ok D outs Sm db1 (library_same _ _ _ Ei Es Sm HL) No) as (db2 & E2 & HL2 & Sub & Kn).
  { apply Forall_forall. intros o [i Ho]%list_elem_of_lookup. destruct (Forall2_lookup_r _ _ _ _ _ St Ho) as (e & _ & S).
    by eapply settled_update. }
  rewrite Ei in Sub.
  assert (Ku : forall e, e ∈ unique_ins ins -> known db2 (iq_chunkHash e)).
  { intros e [i He]%list_elem_of_lookup. destruct (Forall2_lookup_l _ _ _ _ _ Fk He) as (o & Ho & Ko). exists (oq_chunkHash o).
    split; [exact Ko|]. by apply (Forall_lookup_1 _ _ _ _ Kn Ho). }
  assert (Hc : forall fp, Contains h fp = true -> known db2 fp).
  { intros fp [it Hit]%bool_decide_eq_true. eapply known_mono; [exact Sub|]. apply (hv_item _ _ Hi fp (hi_address it) (hi_chunkFreq it)).
    unfold content. by rewrite Hit. }
  assert (Ka : Forall (fun e => known db2 (iq_chunkHash e)) ins).
  { eapply known_same; [exact Si|]. eapply all_known; [exact C| |exact Hc]. intros e He.
    assert (Hx : iq_chunkHash e ∈ map iq_chunkHash (unique_ins ins)) by (rewrite Hu; by apply list_elem_of_In, in_map, list_elem_of_In).
    apply list_elem_of_In, in_map_iff in Hx as (e' & <- & He'). by apply Ku, list_elem_of_In. }
  destruct (heap_loop_ok (known db2) ins HK) with (h := h) as (h' & E3 & Hi').
  - apply Forall_forall. intros e He. rewrite Forall_forall in Ra, Ka. split; [by apply Ra|]. intros _. by apply Ka.
  - eapply heap_inv_impl; [|exact Hi]. intros fp. by apply known_mono.
  - by exists db2, h'.
Qed.

Lemma write_0 (buf x : bytes) : exists rest, write buf 0 x = x ++ rest.
Proof. unfold write. cbn. by eexists. Qed.

Lemma batch_frames chunks : Forall U chunks -> (length chunks <= BS)%nat -> (c_sendChunkBatchSize cfg * sizeof_Chunk <? blen (frames chunks)) = false.
Proof.
  intros Uc Ln. pose proof (frames_blen cfg U HU chunks Uc) as Lf. apply Z.ltb_ge. etrans; [exact Lf|]. apply Z.mul_le_mono_nonneg_r; [by_decide|unfold blen; lia].
Qed.

Lemma Forall_same ins ins' : Forall2 same_in ins ins' -> Forall (fun e => recipe_ok (iq_chunkAddr e)) ins -> Forall (fun e => recipe_ok (iq_chunkAddr e)) ins'.
Proof. induction 1 as [|e e' l l' S _ IH]; [done|]. intros [R F]%Forall_cons. constructor; [by apply S|by apply IH]. Qed.
Lemma entries_addr chunks ins : Forall2 (entry_for cfg) chunks ins -> Forall (fun e => recipe_ok (iq_chunkAddr e)) ins.
Proof. induction 1 as [|c e l l' E _ IH]; constructor; [apply E|done]. Qed.
Lemma tags_flags h ins ins' : Forall2 same_in ins ins' -> Forall (flag_ok h) (map tag ins) -> Forall (fun e => flag_ok h (tag e)) ins'.
Proof. intros S F. apply (proj1 (Forall_map tag (flag_ok h) ins')). by rewrite (same_tags _ _ S). Qed.
Lemma uploaded_new db ins chunks : Forall U chunks -> Forall2 (entry_for cfg) chunks ins -> Forall (fun e => known db (iq_chunkHash e)) ins ->
  Forall2 (uploaded db) (map iq_chunkHash ins) chunks.
Proof.
  intros Uc F. revert Uc. induction F as [|c e chunks ins E F IH]; intros Uc Kn; [constructor|]. apply Forall_cons in Uc as [Xc Uc].
  apply Forall_cons in Kn as [Ke Kn]. cbn. constructor; [|by apply IH]. split; [done|]. split; [apply E|done].
Qed.

Lemma settled_same D db ins ins' outs : Forall2 same_in ins ins' -> Forall2 (settled D db) (unique_ins ins) outs -> Forall2 (settled D db) (unique_ins ins') outs.
Proof.
  intros S. revert outs. induction S as [|e e' ins ins' Se S IH]; intros outs; [done|]. rewrite !unique_cons, (si_flag _ _ Se). case_if; [|apply IH].
  intros (o & outs' & St & F & ->)%Forall2_cons_inv_l. constructor; [|by apply IH]. destruct St as [K W St]. split; [|done|done].
  unfold key_of in *. by rewrite (si_hash _ _ Se).
Qed.
Lemma settled_wf D db ins outs : Forall2 (settled D db) ins outs -> Forall out_wf outs.
Proof. induction 1 as [|e o l l' S _ IH]; constructor; [apply S|done]. Qed.

(** [EnclaveIndex::ProcessOneBatch] after [ProcessOneBatch]: only the entries that were
    queried are looked at. *)
Lemma update_index_ok num db1 db2 (outs rest : list OutQueryEntry) : num = blen outs -> update_outs db1 outs = Ok db2 ->
  (if num =? 0 then Ok db1 else Ocall_UpdateOutIndex db1 num (outs ++ rest)) = Ok db2.
Proof.
  intros -> E. case_if.
  - assert (outs = []) as -> by (apply nil_length_inv; unfold blen in *; lia). exact E.
  - unfold Ocall_UpdateOutIndex. rewrite (proj2 (Z.ltb_ge _ _)) by (rewrite blen_app; pose proof (blen_nonneg rest); lia).
    unfold blen. by rewrite Nat2Z.id, take_app_length.
Qed.

(** A batch of at most [n] chunks, as the log of the storage core and the index see it. *)
Inductive batch_step (n : nat) : Upload * store_spec * IndexStore -> Upload * store_spec * IndexStore -> Prop :=
| batch_step_intro plan a t outs a' t' db db' :
    t_batch_map t = [] -> t_deltas t = [] -> batch_log plan db a t outs a' t' ->
    update_outs (fst (end_batch Cl plan db t')) outs = Ok db' -> (length outs <= n)%nat -> NoDup (map oq_chunkHash outs) ->
    Forall (fun o => oq_dedupFlag o = UNIQUE -> indexObj_ db !! oq_chunkHash o = None) outs ->
    batch_step n (c_store (t_core t), a, db) (c_store (t_core t'), a', db').
Inductive batch_steps : nat -> Upload * store_spec * IndexStore -> Upload * store_spec * IndexStore -> Prop :=
| batch_steps_nil s : batch_steps 0 s s
| batch_steps_cons n m s1 s2 s3 : batch_step n s1 s2 -> batch_steps m s2 s3 -> batch_steps (n + m) s1 s3.
Definition log_of (g : Ingest) (a : store_spec) : Upload * store_spec * IndexStore := (c_store (i_core g), a, i_db g).

Lemma settled_fresh D db ins outs : Forall2 (settled D db) ins outs ->
  Forall (fun o => oq_dedupFlag o = UNIQUE -> indexObj_ db !! oq_chunkHash o = None) outs.
Proof.
  induction 1 as [|e o l l' [_ _ [[F _]|(_ & N & _)]] _ IH]; constructor; try done. by rewrite F.
Qed.

Lemma batch_ok disk g a xs chunks data :
  ingest_inv g a xs -> writer disk -> Forall U chunks -> (length chunks <= BS)%nat ->
  SessionKeyEnc (c_crypto cfg) (frames chunks) (c_sessionKey cfg) = Ok data -> con_times (c_store (i_core g)) + blen chunks < 2 ^ 31 ->
  exists g' a', EnclaveIndex_ProcessOneBatch cfg Cl disk data (length chunks) g = Ok g' /\ ingest_inv g' a' (xs ++ chunks) /\
    con_times (c_store (i_core g')) <= con_times (c_store (i_core g)) + blen chunks /\
    dirs_le (seen d a (i_core g)) (seen d a' (i_core g')) /\ indexObj_ (i_db g) ⊆ indexObj_ (i_db g') /\
    batch_step (length chunks) (log_of g a) (log_of g' a').
Proof.
  intros I Wd Uc Ln Ed Ht. unfold EnclaveIndex_ProcessOneBatch, ProcessOneBatch.
  destruct (SessionKey_ok (c_crypto cfg) (frames chunks) (c_sessionKey cfg)) as (x & Ex & _ & Dx). rewrite Ed in Ex. injection Ex as <-.
  rewrite Dx. cbn [rbind]. rewrite (batch_frames chunks Uc Ln).
  destruct (write_0 (_recvBuffer g) (frames chunks)) as [rest ->]. set (buf := frames chunks ++ rest).
  assert (Fr : framed buf 0 chunks) by exact (framed_app cfg U HU [] chunks rest Uc).
  destruct (front_ok g a xs buf chunks I Uc Ln Fr) as (ins & ins1 & sk & l & c & -> & E1 & Sk & E2 & Cs). cbn [rbind].
  rewrite E1. cbn [rbind]. rewrite E2. cbn [rbind].
  pose proof I as [_ Hi [Li Ri] [Lo Wo] Nm K HL (fps & Rc & Up)].
  destruct (law_search (insideDedupIndex_ g) (seen d a (i_core g)) (i_db g) buf chunks BS c (i_queryNum g) (i_core g) HL Cs Ln Nm)
    as (ins2 & outs & plan & st & -> & A & S2 & L2 & W2). cbn [rbind].
  set (s1 := mk_core _ _ _ _ _ _ st).
  assert (K1 : core_ok d a s1) by by apply core_recipe.
  pose proof (proj1 Cs) as Fc. pose proof (entries_same cfg chunks _ _ S2 Fc) as F2.
  destruct (process_chunks_ok disk plan (insideDedupIndex_ g) buf _ (i_db g) HL Wd chunks ins2 0 0 (mk_turn s1 outs [] []) a fps)
    as (ins3 & outs3 & t & a' & -> & Ad & Tm & R3 & S3 & St & Ou & Lg); try done.
  { eapply tags_flags; [exact S2|]. pose proof (cf_flags _ _ _ _ _ _ _ _ (proj2 Cs)) as Fl. rewrite take_ge in Fl; [done|].
    rewrite length_map. pose proof (Forall2_length _ _ _ Fc). lia. }
  cbn [rbind t_outs t_core] in *.
  destruct (law_end plan (i_db g) t) as (db1 & st1 & Eq & Ei & Es). rewrite Eq.
  pose proof Ad as [K3 Le3 _]. pose proof (seen_small d a' (t_core t) K3) as Sm.
  pose proof (library_grow cfg U _ _ _ Le3 Sm HL) as HL3. assert (S13 : Forall2 same_in (cl_ins c) ins3) by (by etrans).
  pose proof (entries_same cfg chunks _ _ S3 F2) as F3.
  destruct (back_ok (insideDedupIndex_ g) chunks c _ (i_db g) db1 ins3 outs3 HL3 Sm Hi Cs Ln Ei Es S13 (settled_same _ _ _ _ _ S3 St) (entries_addr _ _ F3))
    as (db2 & h' & Eu & Eh & HL2 & Sub & Hi' & Kn & No).
  rewrite Eh. cbn [rbind].
  pose proof (Forall2_length _ _ _ St) as Lu. destruct (classified_fresh cfg HT _ _ _ _ Cs Ln) as (Lq & _ & _).
  pose proof (f_equal length (same_tags _ _ S2)) as Lt. pose proof (unique_same _ _ S2) as Lus.
  destruct Cs as [_ [_ _ _ [N1 N2] _ _ _ _]].
  assert (Hnum : outQueryNum c = blen outs3) by (unfold blen; lia).
  pose proof (update_index_ok _ _ _ outs3 (t_outs t) Hnum Eu) as Ex.
  assert (Le3' : (length outs3 <= length outs)%nat) by (unfold blen in Hnum; lia).
  exists (mk_ingest sk h' (ins3 ++ drop (length chunks) (_inQueryBase g)) (outs3 ++ t_outs t) (outQueryNum c) buf (stat (t_core t) st1) db2), a'.
  split; [|split; [|split; [exact Tm|split; [exact Le3|split; [exact Sub|]]]]].
  - revert Ex. cbn [i_queryNum i_db i_outQueryBase cmSketch_ insideDedupIndex_ _inQueryBase _recvBuffer i_core]. case_if; [by intros [= ->]|]. by intros ->.
  - pose proof (Forall2_length _ _ _ F3) as L3. split; cbn [i_queryNum i_db i_outQueryBase cmSketch_ insideDedupIndex_ _inQueryBase _recvBuffer i_core].
    + by exists l.
    + done.
    + rewrite length_app, length_drop. split; [lia|]. apply Forall_app. split; [by eapply entries_addr|by apply Forall_drop].
    + rewrite Ou, length_app, length_drop. split; [lia|]. apply Forall_app. split; [by eapply settled_wf|by apply Forall_drop].
    + lia.
    + by apply core_stat.
    + done.
    + exists (fps ++ map iq_chunkHash ins2). split; [exact R3|]. apply Forall2_app.
      * eapply Forall2_impl; [exact Up|]. intros fp y (Uy & Hy & Ky). split; [done|]. split; [done|]. by eapply known_mono.
      * rewrite <- (same_hashes _ _ S3). by apply uploaded_new.
  - apply (batch_step_intro _ plan a (mk_turn s1 outs [] []) outs3 a' t (i_db g) db2); try done.
    + by rewrite Eq.
    + pose proof (Forall2_length _ _ _ Fc). unfold blen in *. lia.
    + by eapply settled_fresh.
Qed.
End upload.
