(* ===== verification/IndexLaws.v ===== *)
(** The index classes keep the contract of an upload (IngestCorrect.v): the index of
    FREQ_INDEX, FORWORD and ONLY_FORWORD, and that of SECURE_MEGA. *)
From Stdlib Require Import ZArith Lia.
From stdpp Require Import base list gmap.
From S2P Require Import Prelude Types ContainerCache ReqContainers Database Container Writer Crypto Restore RestoreCorrect Ingest Mega Upload Library IngestStore IngestQuery IngestCorrect.

(** ** The frequency-based index *)

Lemma local_insert_same l db : indexObj_ (Ocall_LocalInsert db l) = indexObj_ db /\ sfObj_ (Ocall_LocalInsert db l) = sfObj_ db.
Proof.
  revert db. induction l as [|[old new] l IH]; intros db; [done|]. unfold Ocall_LocalInsert in *. cbn [fold_left].
  destruct (IH (local_insert db (old, new))) as [-> ->]. done.
Qed.
Lemma delta_index_same l db : indexObj_ (Ocall_UpdateDeltaIndex db l) = indexObj_ db /\ sfObj_ (Ocall_UpdateDeltaIndex db l) = sfObj_ db.
Proof.
  revert db. induction l as [|x l IH]; intros db; [done|]. unfold Ocall_UpdateDeltaIndex in *. cbn [fold_left].
  destruct (IH (InsertDeltaIndex db (fst x) (snd x))) as [-> ->]. done.
Qed.
(** What the end of a batch does to the index. *)
Definition end_queries (flag : bool) (db : IndexStore) (t : Turn) : IndexStore :=
  if flag then Ocall_LocalInsert db (t_batch_map t) else Ocall_UpdateDeltaIndex db (t_deltas t).
Lemma end_queries_same flag db t : indexObj_ (end_queries flag db t) = indexObj_ db /\ sfObj_ (end_queries flag db t) = sfObj_ db.
Proof. destruct flag; [apply local_insert_same|apply delta_index_same]. Qed.
Lemma end_freq_queries flag db t : exists st, end_freq flag db t = (end_queries flag db t, stat (t_core t) st).
Proof.
  assert (N : t_core t = stat (t_core t) []) by by destruct (t_core t). unfold end_freq, end_queries. destruct flag.
  - destruct (t_batch_map t); [exists []; by rewrite N at 1|by eexists].
  - destruct (t_deltas t); [exists []; by rewrite N at 1|by eexists].
Qed.

Section laws.
Context `{EVPLaws} `{!EVPBytes} `{LZ4}.
Variable cfg : Config.
Variable U : bytes -> Prop.
Hypothesis HU : universe cfg U.
Hypothesis HT : hashType_ (c_crypto cfg) = SHA_256.
Variable d : Directories.

Definition freq_new : NewChunk (FreqIndex cfg) := fun flag db a t x o a' t' => exists en, stored_new cfg U d db flag a t x o a' t' en.
#[export] Instance freq_laws : ClassLaws cfg U d (FreqIndex cfg) freq_new.
Proof.
  split.
  - intros flag db a t x o a' t' t1 t1' E E' [en S]. exists en. by eapply stored_new_mark.
  - intros h D db buf chunks n c oldNum s HL. by apply find_bases_ok.
  - intros flag disk db a x e o t K Ht Hd X Fo P.
    destruct (store_new_ok cfg U HU HT d disk flag db a x e o t K Ht Hd X P) as (e' & o' & t' & a' & E & Ad & Tm & Rc & Ou & F1 & F2 & F3 & F4 & F5 & Sp & Lg).
    exists e', o', t', a'. split; [exact E|]. split; [by split|by apply Lg].
  - intros flag db t. destruct (end_freq_queries flag db t) as [st E]. exists (end_queries flag db t), st. split; [exact E|apply end_queries_same].
Qed.

(** ** The index of Secure MeGA *)

Lemma MeGAdeltaTure_ok disk m a s e o D db :
  core_ok d a s -> disk ⊆ base_dir (spec_dirs d (flushed a)) -> with_base cfg U D db e o ->
  exists e1 o1 cb s1, MeGAdeltaTure disk m e o s = Ok (e1, o1, cb, s1) /\ core_ok d a s1 /\
    c_store s1 = c_store s /\ c_recipe s1 = c_recipe s /\ decided (seen d a s) e o e1 o1 cb.
Proof.
  intros K Hd [W|[W _]]; unfold MeGAdeltaTure; rewrite W.
  { change (NO_DELTA =? OUT_DELTA) with false. rewrite andb_false_r. cbn [andb]. eexists _, _, _, _. split; [reflexivity|].
    do 3 (split; [done|]). split; [done|left]. by rewrite W. }
  rewrite Z.eqb_refl, andb_true_r. set (name := slice (oq_basechunkAddr o) 0 CONTAINER_ID_LENGTH). cbn [andb].
  destruct (negb (worth_loading m name)).
  { eexists _, _, _, _. split; [reflexivity|]. do 3 (split; [done|]). split; [done|left]. cbn. by rewrite W. }
  destruct (ExistsInCache (c_cache s) name) eqn:Hn.
  - destruct (cached_base d a s name K Hn) as (c1 & p & slot & -> & Ed & K1 & Hs). cbn [rbind]. rewrite Ed. cbn [rbind].
    eexists _, _, _, _. split; [reflexivity|]. do 3 (split; [done|]). split; [done|]. right. do 4 (split; [done|]). by exists slot.
  - destruct (loaded_base d disk a s name K Hd Hn) as [->|(tmp & c1 & -> & Hs & Ei & K1 & Hn1)]; cbn [rbind].
    + change (NO_DELTA =? DELTA) with false. cbn match. eexists _, _, _, _. split; [reflexivity|].
      split; [apply core_stat; by destruct K|]. do 2 (split; [done|]). split; [done|by left].
    + rewrite Z.eqb_refl. cbn [c_cache with_cache stat]. rewrite Hn, Ei. cbn [rbind].
      destruct (cached_base d a (with_cache s c1 tmp) name K1 Hn1) as (c2 & p & slot & Er & Ed & K2 & Hs2). cbn [c_cache with_cache] in Er.
      rewrite Er. cbn [rbind]. rewrite Ed. cbn [rbind].
      eexists _, _, _, _. split; [reflexivity|]. split; [exact (core_stat _ _ _ [(_Inline_Ocall, 1)] K2)|].
      do 2 (split; [done|]). split; [done|]. right. do 4 (split; [done|]). by exists slot.
Qed.

Lemma mega_store_new_ok m disk db a x e o t :
  core_ok d a (t_core t) -> con_times (c_store (t_core t)) < 2 ^ 31 - 1 -> disk ⊆ base_dir (spec_dirs d (flushed a)) ->
  U x -> new_pair cfg U (seen d a (t_core t)) db x e o ->
  exists e' o' t' a', mega_store_new cfg m disk x e o t = Ok (e', o', t') /\ newly_stored cfg U d db a x e o t a' e' o' t'.
Proof.
  intros K Ht Hd X [Ra Hsf _ Kx Wb]. unfold mega_store_new. set (e0 := in_addr e (set_addr_delta (iq_chunkAddr e) NO_DELTA)).
  assert (Ra0 : recipe_ok (iq_chunkAddr e0)) by (apply set_addr_delta_ok; [done|by_decide]).
  destruct (MeGAdeltaTure_ok disk m a (t_core t) e0 o _ db K Hd (with_base_addr _ _ _ _ _ _ _ Wb)) as (e1 & o1 & cb & s1 & -> & K1 & Cs1 & Cr1 & Dc). cbn [rbind].
  destruct (store_decided cfg U HU HT d db a (t_core t) x e0 o e1 o1 cb s1 K K1 Cs1 Cr1 Ht X Ra0 eq_refl Hsf Kx Wb Dc)
    as (e2 & o2 & delta & s2 & a3 & s3 & addr & v & [-> St E3 V [K3 Le Ba] Tm Rc Ix [Fl _] _]). cbn [rbind].
  rewrite E3. cbn [rbind]. rewrite V. cbn [rbind]. destruct St as [_ _ (_ & Df & Ch & Cz) (Oh & Od & _) _ _ Hdata].
  destruct (dc_same _ _ _ _ _ _ Dc) as (Oh1 & Od1 & _).
  eexists _, _, _, a3. split; [reflexivity|]. split; cbn [t_core t_outs]; try done.
  - split; [by apply core_stat, core_stat|exact Le|done].
  - split; cbn; congruence.
  - split; [exact Ix|]. cbn. rewrite Fl. intros Fo. destruct Hdata as [[-> _]|[F _]]; [done|]. by rewrite F, Z.eqb_refl in Fo.
Qed.

Definition mega_new : NewChunk (MeGAIndex cfg) := fun _ _ _ _ _ _ _ _ => True.
#[export] Instance mega_laws : ClassLaws cfg U d (MeGAIndex cfg) mega_new.
Proof.
  split; [done| | |].
  - intros h D db buf chunks n c oldNum s HL. by apply mega_find_bases_ok.
  - intros m disk db a x e o t K Ht Hd X _ P. destruct (mega_store_new_ok m disk db a x e o t K Ht Hd X P) as (e' & o' & t' & a' & E & Ns).
    exists e', o', t', a'. by split.
  - intros m db t. exists db, []. split; [|done]. cbn. by destruct (t_core t).
Qed.
End laws.
