(* ===== verification/Session.v ===== *)
(** Sessions: what a client's upload starts from (ClientVar::InitUploadBuffer of
    Util/clientVar.cc, EnclaveClient::InitUploadBuffer of ecallUtil/ecallClient.cc), what
    the server keeps, and what is restored after any number of uploads. *)
From Stdlib Require Import ZArith Lia.
From stdpp Require Import base list gmap.
From S2P Require Import Prelude Types HTable EDelta EDeltaCorrect Codec CMSketch EntryHeap TopK LruCache ContainerCache ReqContainers Util Database Container Writer Crypto Restore RestoreCorrect Ingest Mega Upload Library IngestStore IngestQuery IngestCorrect IndexLaws.

(** ** Operations *)

(** What outlives a session: in the enclave the sketch, the top-k index, the container
    cache and the counters, outside the container buffer of the ocalls, the index, the
    counter of the container names and the two directories. *)
Record Server := mk_server {
  s_cmSketch : EcallCMSketch;
  s_insideDedupIndex : EcallEntryHeap;
  s_containercache : PoolCache;
  s_stats : counter -> Z;
  s_written : Z * Z;
  s_tmpOcallcontainer : bytes;
  s_index : IndexStore;
  s_con_times : Z;
  s_dirs : Directories
}.

(** What [malloc] and the random generator of the enclave give a new session. *)
Record Malloc := mk_malloc {
  m_inQueryBase : list InQueryEntry_t;
  m_outQueryBase : list OutQueryEntry;
  m_recvBuffer : bytes;
  m_entryFpList : bytes;
  m_deltaBuffer : bytes;
  m_containers : bytes * bytes;
  m_curContainers : Container_t * Container_t;
  m_iv : bytes
}.

(** Both containers get a new name ([renew] is what the container ocalls do, too). *)
Definition InitUploadBuffer (m : Malloc) (sv : Server) : result Ingest :=
  x <-- renew (fst (m_curContainers m)) (s_con_times sv) ;;
  y <-- renew (snd (m_curContainers m)) (snd x) ;;
  let u := mk_upload (mk_in_container (fst (m_containers m)) 0) (mk_in_container (snd (m_containers m)) 0)
    (fst x) (fst y) [] (snd y) (m_iv m) (fst (s_written sv)) (snd (s_written sv)) in
  Ok (mk_ingest (s_cmSketch sv) (s_insideDedupIndex sv) (m_inQueryBase m) (m_outQueryBase m) 0 (m_recvBuffer m)
    (mk_core u (s_containercache sv) (init 0 8 (16 * 1024)) (m_deltaBuffer m) (s_tmpOcallcontainer sv)
       (mk_recipe_buf (m_entryFpList m) 0 []) (s_stats sv)) (s_index sv)).

Section session.
Context `{EVP} `{LZ4}.
Variable cfg : Config.

(** One upload: the messages of the client, and the schedule of the data writer, a
    thread of its own: how many containers of its queue it has written when chunk [j] of
    batch [i] is stored.  At the end it has emptied its queue. *)
Record Upload_request := mk_request {
  rq_malloc : Malloc;
  rq_written : nat -> nat -> Upload -> nat;
  rq_messages : list (bytes * nat)
}.
Definition upload_file (r : Upload_request) (sv : Server) : result (Server * bytes) :=
  g <-- InitUploadBuffer (rq_malloc r) sv ;;
  g <-- upload_session cfg (index_class cfg) (fun i j u => on_disk (s_dirs sv) (inputMQ u) (rq_written r i j u)) (rq_messages r) g ;;
  let s := i_core g in let u := c_store s in
  Ok (mk_server (cmSketch_ g) (insideDedupIndex_ g) (c_cache s) (c_stats s) (writtenDataSize_ u, writtenChunkNum_ u)
        (tmpOcallcontainer s) (i_db g) (con_times u) (write_queue (s_dirs sv) (inputMQ u)),
      recipeFile (c_recipe s)).

(** Any number of uploads, and the file recipes they leave. *)
Fixpoint uploads (rs : list Upload_request) (sv : Server) : result (Server * list bytes) :=
  match rs with
  | [] => Ok (sv, [])
  | r :: rs =>
    x <-- upload_file r sv ;;
    y <-- uploads rs (fst x) ;;
    Ok (fst y, snd x :: snd y)
  end.
End session.

(** ** The invariant between sessions *)

Section correct.
Context `{EVPLaws} `{!EVPBytes} `{LZ4}.
Variable cfg : Config.
Variable U : bytes -> Prop.
Hypothesis HU : universe cfg U.
Hypothesis HT : hashType_ (c_crypto cfg) = SHA_256.
Hypothesis HB : 0 < c_sendRecipeBatchSize cfg.
Hypothesis HS : 0 < c_sendChunkBatchSize cfg < 2 ^ 32.
Hypothesis HK : (2 <= topThreshold_ cfg)%nat.
Abbreviation BS := (Z.to_nat (c_sendChunkBatchSize cfg)).

Record server_inv (sv : Server) : Prop := {
  sv_sketch : exists l, sees (s_cmSketch sv) l;
  sv_heap : heap_inv cfg (s_insideDedupIndex sv) (known cfg (s_index sv));
  sv_cache : exists sp, refines (s_containercache sv) sp /\
    Forall (fun x => exists body, base_dir (s_dirs sv) !! fst x = Some body /\ take (length body) (snd x) = body) sp;
  sv_tmp : blen (s_tmpOcallcontainer sv) = MAX_CONTAINER_SIZE;
  sv_library : library cfg U (s_dirs sv) (s_index sv);
  sv_names : forall n, ~ fresh (s_dirs sv) n -> exists t, 0 <= t < s_con_times sv /\ CreateUUID t = Ok n;
  sv_small : forall n b, base_dir (s_dirs sv) !! n = Some b \/ delta_dir (s_dirs sv) !! n = Some b -> blen b <= MAX_CONTAINER_SIZE;
  sv_times : 0 <= s_con_times sv
}.
(** The memory of a new session is of the sizes the code asks for. *)
Record malloc_ok (m : Malloc) : Prop := {
  mo_ins : length (m_inQueryBase m) = BS /\ Forall (fun e => recipe_ok (iq_chunkAddr e)) (m_inQueryBase m);
  mo_outs : length (m_outQueryBase m) = BS /\ Forall out_wf (m_outQueryBase m);
  mo_recipe : blen (m_entryFpList m) = c_sendRecipeBatchSize cfg * CHUNK_HASH_SIZE;
  mo_iv : blen (m_iv m) = CRYPTO_BLOCK_SIZE
}.

Lemma init_encoder : encoder_ok (init 0 8 (16 * 1024)).
Proof.
  split; [|by vm_compute]. exists 13. split; [|lia]. constructor; [lia|by vm_compute..|].
  intros b c k i E Hc. apply lookup_replicate in E as [-> _]. by apply elem_of_nil in Hc.
Qed.

Definition empty_spec : store_spec := {| base_open := []; delta_open := []; flushed := [] |}.
Lemma new_names sv n t : server_inv sv -> s_con_times sv <= t < 2 ^ 31 -> CreateUUID t = Ok n -> fresh (s_dirs sv) n.
Proof.
  intros I Ht E. assert (Df : fresh (s_dirs sv) n \/ ~ fresh (s_dirs sv) n).
  { unfold fresh. destruct (base_dir (s_dirs sv) !! n), (delta_dir (s_dirs sv) !! n); [right|right|right|left]; intuition discriminate. }
  destruct Df as [Df|Df]; [done|]. destruct (sv_names _ I n Df) as (t' & Ht' & E'). pose proof (sv_times _ I).
  assert (t' = t); [|lia]. eapply CreateUUID_inj; [| |exact E'|exact E]; lia.
Qed.

Lemma start_ok m sv : server_inv sv -> malloc_ok m -> s_con_times sv + 2 < 2 ^ 31 ->
  exists g, InitUploadBuffer m sv = Ok g /\ ingest_inv cfg U (s_dirs sv) g empty_spec [] /\
    seen (s_dirs sv) empty_spec (i_core g) = s_dirs sv /\ i_db g = s_index sv /\ con_times (c_store (i_core g)) = s_con_times sv + 2.
Proof.
  intros I [Mi Mo Mr Miv] Ht. pose proof (sv_times _ I) as T0. unfold InitUploadBuffer.
  destruct (renew_ok (fst (m_curContainers m)) (s_con_times sv)) as (n1 & -> & F1 & E1); [lia|]. cbn [rbind fst snd].
  destruct (renew_ok (snd (m_curContainers m)) (s_con_times sv + 1)) as (n2 & -> & F2 & E2); [lia|]. cbn [rbind fst snd].
  eexists. split; [reflexivity|]. split; [|split; [|split; [done|cbn; lia]]].
  - assert (Nn : n1 <> n2) by (intros ->; assert (s_con_times sv = s_con_times sv + 1); [|lia]; eapply CreateUUID_inj; [| |exact E1|exact E2]; lia).
    assert (SI : forall u, con_times u = s_con_times sv + 2 -> co_containerID (curContainer u) = n1 -> co_containerID (curDeltaContainer u) = n2 ->
      co_currentSize (curContainer u) = 0 /\ co_currentSize (curDeltaContainer u) = 0 -> upload_ok u empty_spec -> store_inv (s_dirs sv) u empty_spec).
    { intros u Tu N1 N2 Cl Uo. split; [done|done| | | | |]; cbn [empty_spec flushed spec_dirs fold_left]; rewrite ?N1, ?N2, ?Tu.
      - split; (eapply new_names; [done| |done]); lia.
      - done.
      - intros n [N|[->| ->]]; [destruct (sv_names _ I n N) as (t & ? & ?); exists t; split; [lia|done]|exists (s_con_times sv); split; [lia|done]|exists (s_con_times sv + 1); split; [lia|done]].
      - apply (sv_small _ I).
      - intros w. by rewrite take_nil. }
    split; cbn [cmSketch_ insideDedupIndex_ _inQueryBase i_outQueryBase i_queryNum i_core i_db].
    + apply (sv_sketch _ I).
    + apply (sv_heap _ I).
    + done.
    + done.
    + lia.
    + split; cbn [c_store c_cache psHTable2_ tmpOcallcontainer].
      * apply SI; [cbn; lia|done|done|done|]. split; cbn; [apply in_ok_empty|apply in_ok_empty|done|done|lia|constructor].
      * apply (sv_cache _ I).
      * apply init_encoder.
      * apply (sv_tmp _ I).
      * exists (m_iv m). done.
    + unfold seen. replace (view _ _ _) with (s_dirs sv); [apply (sv_library _ I)|]. by destruct (s_dirs sv).
    + exists []. split; [by apply recipe_inv_init|constructor].
  - by destruct (s_dirs sv).
Qed.

(** ** A session *)

(** The class of the index type, and its contract. *)
Variable Cl : IndexClass.
Variable New : Directories -> NewChunk Cl.
Context `{HC : forall d, ClassLaws cfg U d Cl (New d)}.
Hypothesis HI : index_class cfg = Cl.

Record message_ok (xs : list bytes) (message : bytes * nat) : Prop := {
  ms_chunks : Forall U xs;
  ms_size : (length xs <= BS)%nat;
  ms_data : SessionKeyEnc (c_crypto cfg) (frames xs) (c_sessionKey cfg) = Ok (fst message);
  ms_num : snd message = length xs
}.
Lemma upload_batches_ok d batches messages : Forall2 message_ok batches messages -> forall disk i g a xs,
  ingest_inv cfg U d g a xs -> (forall i, writer d (disk i)) -> con_times (c_store (i_core g)) + blen (concat batches) < 2 ^ 31 ->
  exists g' a', upload_batches cfg Cl disk i messages g = Ok g' /\ ingest_inv cfg U d g' a' (xs ++ concat batches) /\
    con_times (c_store (i_core g')) <= con_times (c_store (i_core g)) + blen (concat batches) /\
    dirs_le (seen d a (i_core g)) (seen d a' (i_core g')) /\ indexObj_ (i_db g) ⊆ indexObj_ (i_db g') /\
    batch_steps U Cl (New d) (length (concat batches)) (log_of g a) (log_of g' a').
Proof.
  induction 1 as [|ys [data num] batches messages [Uy Ly Dy Ny] _ IH]; intros disk i g a xs I W Ht.
  - exists g, a. cbn. rewrite app_nil_r, blen_nil. split; [done|]. split; [done|]. split; [lia|]. split; [done|]. split; [done|constructor].
  - cbn [concat upload_batches fst snd] in *. subst num. rewrite blen_app in Ht. pose proof (blen_nonneg (concat batches)).
    destruct (batch_ok cfg U HU HT HB d Cl (New d) HS HK (disk i) g a xs ys data I (W i) Uy Ly Dy ltac:(lia)) as (g1 & a1 & -> & I1 & T1 & Le1 & Sub1 & St1).
    cbn [rbind]. destruct (IH disk (S i) g1 a1 (xs ++ ys) I1 W ltac:(lia)) as (g2 & a2 & -> & I2 & T2 & Le2 & Sub2 & St2).
    exists g2, a2. split; [done|]. split; [by rewrite app_assoc|]. split; [rewrite blen_app; lia|]. split; [by etrans|]. split; [by etrans|].
    rewrite length_app. by eapply batch_steps_cons.
Qed.

(** What a file recipe gives, and what it needs. *)
Definition recipe_of_chunks (db : IndexStore) (file : bytes) (xs : list bytes) : Prop :=
  exists fps, (forall sk D db, recipe_file (setting cfg sk D db) fps file) /\ Forall2 (uploaded cfg U db) fps xs.
Lemma recipe_of_chunks_mono db db' file xs : indexObj_ db ⊆ indexObj_ db' -> recipe_of_chunks db file xs -> recipe_of_chunks db' file xs.
Proof.
  intros Sub (fps & R & F). exists fps. split; [done|]. eapply Forall2_impl; [exact F|]. intros fp x (Ux & Hx & Kx). split; [done|]. split; [done|].
  by eapply known_mono.
Qed.

(** The directories when the last containers are written. *)
Lemma view_inv d u a cache heap st wr tmp db sk times :
  store_inv d u a -> con_times u <= times ->
  (exists l, sees sk l) -> heap_inv cfg heap (known cfg db) ->
  (exists sp, refines cache sp /\
    Forall (fun x => exists body, base_dir (spec_dirs d (flushed a)) !! fst x = Some body /\ take (length body) (snd x) = body) sp) ->
  blen tmp = MAX_CONTAINER_SIZE -> library cfg U (view d u a) db ->
  server_inv (mk_server sk heap cache st wr tmp db times (view d u a)).
Proof.
  intros I Ht Sk Hh (sp & R & Fs) Tmp HL. pose proof (si_ok _ _ _ I) as Uo. pose proof (uok_times _ _ Uo) as Tu. split; cbn [s_cmSketch s_insideDedupIndex s_containercache s_tmpOcallcontainer s_index s_con_times s_dirs]; try done.
  - exists sp. split; [done|]. eapply Forall_impl; [exact Fs|]. intros x (body & B & T). exists body. split; [|done].
    cbn [view base_dir]. rewrite lane_other; [done|]. intros E. destruct (si_fresh _ _ _ I) as [[Fb _] _]. rewrite E in B. congruence.
  - intros n N. destruct (si_names _ _ _ I n) as (t & T & E); [|exists t; split; [lia|done]].
    destruct (decide (n = co_containerID (curContainer u))) as [->|N1]; [by right; left|].
    destruct (decide (n = co_containerID (curDeltaContainer u))) as [->|N2]; [by right; right|]. left. intros [F1 F2]. apply N.
    split; cbn [view base_dir delta_dir]; by rewrite lane_other.
  - intros n b. destruct (open_small u a Uo) as [Sb Sd]. cbn [view base_dir delta_dir].
    intros [E|E]; apply lane_lookup in E as [[_ ->]|E]; try done; eapply (si_small _ _ _ I); [by left|by right].
  - lia.
Qed.

(** The containers of a session as files: those handed over and the open ones. *)
Definition open_file (delta : bool) (name : bytes) (es : list entry) : list (bool * bytes * list entry) :=
  match es with [] => [] | _ => [(delta, name, es)] end.
Definition session_files (u : Upload) (a : store_spec) : list (bool * bytes * list entry) :=
  flushed a ++ open_file false (co_containerID (curContainer u)) (base_open a) ++ open_file true (co_containerID (curDeltaContainer u)) (delta_open a).
Lemma view_spec_dirs d u a : view d u a = spec_dirs d (session_files u a).
Proof.
  unfold session_files, view, spec_dirs. rewrite fold_left_app. destruct (fold_left _ _ _) as [b dl].
  by destruct (base_open a), (delta_open a).
Qed.
Lemma session_files_entries u a : concat (map snd (session_files u a)) = log_entries a.
Proof.
  unfold session_files, log_entries. rewrite !map_app, !concat_app. f_equal.
  f_equal; [destruct (base_open a)|destruct (delta_open a)]; cbn; by rewrite ?app_nil_r.
Qed.
Definition file_laid_out (f : bool * bytes * list entry) : Prop := laid_out 0 (snd (fst f)) (snd f).
Lemma session_files_laid_out u a : upload_ok u a -> Forall file_laid_out (session_files u a).
Proof.
  intros [Ub Ud _ _ _ Qu]. unfold session_files. apply Forall_app. split; [|apply Forall_app; split].
  - clear -Qu. induction Qu as [|c f q fs [_ L] _ IH]; constructor; done.
  - pose proof (iok_layout _ _ _ _ Ub) as L. destruct (base_open a); [constructor|constructor; [exact L|constructor]].
  - pose proof (iok_layout _ _ _ _ Ud) as L. destruct (delta_open a); [constructor|constructor; [exact L|constructor]].
Qed.
(** The directories [D'] are [D] with new containers, of entries that stand where their
    recipes say, and in which no IV comes twice. *)
Definition new_containers (D D' : Directories) : Prop :=
  exists files, D' = spec_dirs D files /\ Forall file_laid_out files /\
    (Z.of_nat (length (concat (map snd files))) <= 2 ^ 64 -> NoDup (map e_iv (concat (map snd files)))).

(** A session in which at most [n] chunks were uploaded. *)
Inductive session_step (n : nat) (sv sv' : Server) : Prop :=
| session_step_intro u0 u a :
    store_inv (s_dirs sv) u0 empty_spec -> s_con_times sv <= con_times u0 ->
    batch_steps U Cl (New (s_dirs sv)) n (u0, empty_spec, s_index sv) (u, a, s_index sv') ->
    store_inv (s_dirs sv) u a -> s_dirs sv' = view (s_dirs sv) u a -> con_times u <= s_con_times sv' -> session_step n sv sv'.
Inductive session_steps : nat -> Server -> Server -> Prop :=
| session_steps_nil sv : session_steps 0 sv sv
| session_steps_cons n m sv1 sv2 sv3 : session_step n sv1 sv2 -> session_steps m sv2 sv3 -> session_steps (n + m) sv1 sv3.

Lemma upload_file_ok r sv batches :
  server_inv sv -> malloc_ok (rq_malloc r) -> Forall2 message_ok batches (rq_messages r) ->
  s_con_times sv + blen (concat batches) + 5 < 2 ^ 31 ->
  exists sv' file, upload_file cfg r sv = Ok (sv', file) /\ server_inv sv' /\
    s_con_times sv' <= s_con_times sv + blen (concat batches) + 4 /\
    indexObj_ (s_index sv) ⊆ indexObj_ (s_index sv') /\ recipe_of_chunks (s_index sv') file (concat batches) /\
    session_step (length (concat batches)) sv sv' /\ new_containers (s_dirs sv) (s_dirs sv').
Proof.
  intros I Mo Ms Ht. pose proof (blen_nonneg (concat batches)). unfold upload_file.
  destruct (start_ok (rq_malloc r) sv I Mo ltac:(lia)) as (g & -> & Ig & Sg & Dg & Tg). cbn [rbind].
  rewrite HI. unfold upload_session. destruct (upload_batches_ok (s_dirs sv) batches (rq_messages r) Ms
    (fun i j u => on_disk (s_dirs sv) (inputMQ u) (rq_written r i j u)) 0 g empty_spec [] Ig) as (g1 & a1 & -> & I1 & T1 & Le1 & Sub1 & St1).
  { intros i j u. by eexists. }
  { lia. }
  cbn [rbind app]. pose proof (in_core _ _ _ _ _ _ Ig) as [K0 _ _ _ _]. destruct I1 as [Sk Hh _ _ _ [Ks Kc Ke Kt Kv] HL (fps & Rc & Up)].
  destruct (tail_recipe cfg (i_core g1) fps Rc HB) as (rec & -> & RF). cbn [rbind c_store with_recipe with_store].
  destruct (last_containers_view (s_dirs sv) (c_store (i_core g1)) a1 Ks) as (u & -> & Wu & Tu); [lia|]. cbn [rbind].
  eexists _, _. split; [reflexivity|]. cbn [i_core c_store with_store with_recipe c_cache c_stats tmpOcallcontainer c_recipe i_db cmSketch_ insideDedupIndex_ s_con_times s_index].
  rewrite Wu. split; [|split; [lia|split; [by rewrite <- Dg|split; [|split]]]].
  - by apply view_inv; try done; lia.
  - by exists fps.
  - eapply (session_step_intro _ sv _ (c_store (i_core g)) (c_store (i_core g1)) a1); cbn [s_index s_dirs s_con_times]; try done; [lia|by rewrite <- Dg|lia].
  - cbn [s_dirs]. exists (session_files (c_store (i_core g1)) a1). rewrite session_files_entries. split; [apply view_spec_dirs|].
    split; [apply session_files_laid_out, (si_ok _ _ _ Ks)|by eapply session_ivs_NoDup].
Qed.

(** ** Any number of sessions *)

(** A client that uploads the chunks of [batches]. *)
Definition request_ok (r : Upload_request) (batches : list (list bytes)) : Prop :=
  malloc_ok (rq_malloc r) /\ Forall2 message_ok batches (rq_messages r).
(** How far the counter of the container names can get. *)
Fixpoint names_used (files : list (list (list bytes))) : Z :=
  match files with [] => 0 | f :: files => blen (concat f) + 5 + names_used files end.

Lemma uploads_ok rs files : Forall2 request_ok rs files -> forall sv, server_inv sv -> s_con_times sv + names_used files < 2 ^ 31 ->
  exists sv' recipes, uploads cfg rs sv = Ok (sv', recipes) /\ server_inv sv' /\ indexObj_ (s_index sv) ⊆ indexObj_ (s_index sv') /\
    Forall2 (fun recipe f => recipe_of_chunks (s_index sv') recipe (concat f)) recipes files /\
    session_steps (length (concat (map (@concat bytes) files))) sv sv' /\ s_con_times sv' <= s_con_times sv + names_used files.
Proof.
  induction 1 as [|r f rs files [Mo Ms] _ IH]; intros sv I Ht.
  { exists sv, []. do 4 (split; [done|]). split; [constructor|cbn; lia]. }
 cbn [names_used uploads] in *.
  assert (N : 0 <= names_used files) by (clear; induction files as [|f files IH]; cbn; [lia|pose proof (blen_nonneg (concat f)); lia]).
  destruct (upload_file_ok r sv f I Mo Ms ltac:(lia)) as (sv1 & file & -> & I1 & T1 & Sub1 & R1 & S1 & _). cbn [rbind fst snd].
  destruct (IH sv1 I1 ltac:(lia)) as (sv2 & recipes & -> & I2 & Sub2 & R2 & S2 & T2). cbn [rbind fst snd].
  exists sv2, (file :: recipes). split; [done|]. split; [done|]. split; [by etrans|]. split; [constructor; [by eapply recipe_of_chunks_mono|done]|].
  split; [|lia]. cbn [map concat]. rewrite length_app. by eapply session_steps_cons.
Qed.

(** What a recipe stands for is what a restore gives back, with any session key. *)
Lemma library_restores D db file xs sk : library cfg U D db -> recipe_of_chunks db file xs ->
  gives_back (setting cfg sk D db) file xs.
Proof.
  clear HK. intros L (fps & RF & F). apply (recoverable_gives_back (setting cfg sk D db) HS fps); [done|apply RF| |].
  - eapply Forall2_impl; [exact F|]. by intros fp x (Ux & Hx & _).
  - eapply Forall2_impl; [exact F|]. intros fp x (Ux & Hx & k & Hk & Kn).
    eapply (library_recoverable cfg U HU HT); [exact L|done|done|exact Hk|done].
Qed.
Lemma recipe_restores sv file xs sk : server_inv sv -> recipe_of_chunks (s_index sv) file xs ->
  gives_back (setting cfg sk (s_dirs sv) (s_index sv)) file xs.
Proof. intros I. apply library_restores, (sv_library _ I). Qed.
End correct.

(** The contracts of the classes put in: uploads with every index type but DEBE. *)
Section index.
Context `{EVPLaws} `{!EVPBytes} `{LZ4}.
Variable cfg : Config.
Variable U : bytes -> Prop.
Hypothesis HU : universe cfg U.
Hypothesis HT : hashType_ (c_crypto cfg) = SHA_256.
Hypothesis HB : 0 < c_sendRecipeBatchSize cfg.
Hypothesis HS : 0 < c_sendChunkBatchSize cfg < 2 ^ 32.
Hypothesis HK : (2 <= topThreshold_ cfg)%nat.
Hypothesis Ty : c_indexType cfg <> DEBE.

Lemma index_class_cases : index_class cfg = FreqIndex cfg \/ index_class cfg = MeGAIndex cfg.
Proof. unfold index_class. destruct (c_indexType cfg); tauto. Qed.
Lemma index_upload r sv batches :
  server_inv cfg U sv -> request_ok cfg U r batches -> s_con_times sv + blen (concat batches) + 5 < 2 ^ 31 ->
  exists sv' file, upload_file cfg r sv = Ok (sv', file) /\ server_inv cfg U sv' /\
    s_con_times sv' <= s_con_times sv + blen (concat batches) + 4 /\
    indexObj_ (s_index sv) ⊆ indexObj_ (s_index sv') /\ recipe_of_chunks cfg U (s_index sv') file (concat batches) /\
    new_containers (s_dirs sv) (s_dirs sv').
Proof.
  intros I [Mo Ms] Ht. destruct index_class_cases as [Ec|Ec].
  - destruct (upload_file_ok cfg U HU HT HB HS HK _ (freq_new cfg U) (HC := freq_laws cfg U HU HT) Ec r sv batches I Mo Ms Ht) as (sv' & file & E & I' & T & Sub & R & _ & N).
    by exists sv', file.
  - destruct (upload_file_ok cfg U HU HT HB HS HK _ (fun _ => mega_new cfg) (HC := mega_laws cfg U HU HT) Ec r sv batches I Mo Ms Ht) as (sv' & file & E & I' & T & Sub & R & _ & N).
    by exists sv', file.
Qed.
Lemma index_uploads rs files sv : Forall2 (request_ok cfg U) rs files -> server_inv cfg U sv -> s_con_times sv + names_used files < 2 ^ 31 ->
  exists sv' recipes, uploads cfg rs sv = Ok (sv', recipes) /\ server_inv cfg U sv' /\
    Forall2 (fun recipe f => recipe_of_chunks cfg U (s_index sv') recipe (concat f)) recipes files /\ s_con_times sv' <= s_con_times sv + names_used files.
Proof.
  intros F I Ht. destruct index_class_cases as [Ec|Ec].
  - destruct (uploads_ok cfg U HU HT HB HS HK _ (freq_new cfg U) (HC := freq_laws cfg U HU HT) Ec rs files F sv I Ht) as (sv' & recipes & E & I' & _ & R & _ & T).
    by exists sv', recipes.
  - destruct (uploads_ok cfg U HU HT HB HS HK _ (fun _ => mega_new cfg) (HC := mega_laws cfg U HU HT) Ec rs files F sv I Ht) as (sv' & recipes & E & I' & _ & R & _ & T).
    by exists sv', recipes.
Qed.
End index.

(** C3. What was uploaded is restored.  A server in a good state takes any number of
    uploads, each with any batches of allowed chunks, whatever the data writer has
    written when a chunk is stored; every upload ends without an error, the server is in
    a good state again, and each file's recipe gives it back ([gives_back]): it lists the
    fingerprints of the file's chunks, and a restore by a client with any session key and
    the program's buffers ends and sends exactly those chunks, in order, be they
    deduplicated, compressed, stored as delta against similar chunks, or as they are; but
    if the containers of the chunks and their bases need, at some point, a seventeenth
    identifier, it is written past the buffer.  This holds for every index type but DEBE. *)
Theorem uploads_restore `{EVPLaws} `{!EVPBytes} `{LZ4} (cfg : Config) (U : bytes -> Prop) (sv : Server)
    (rs : list Upload_request) (files : list (list (list bytes))) (sk : bytes) :
  universe cfg U -> hashType_ (c_crypto cfg) = SHA_256 -> 0 < c_sendRecipeBatchSize cfg ->
  0 < c_sendChunkBatchSize cfg < 2 ^ 32 -> (2 <= topThreshold_ cfg)%nat ->
  c_indexType cfg <> DEBE ->
  server_inv cfg U sv -> Forall2 (request_ok cfg U) rs files -> s_con_times sv + names_used files < 2 ^ 31 ->
  exists sv' recipes, uploads cfg rs sv = Ok (sv', recipes) /\ server_inv cfg U sv' /\
    Forall2 (fun recipe file => gives_back (setting cfg sk (s_dirs sv') (s_index sv')) recipe (concat file)) recipes files.
Proof.
  intros HU HT HB HS HK Ty I F Ht. destruct (index_uploads cfg U HU HT HB HS HK Ty rs files sv F I Ht) as (sv' & recipes & E & I' & R & _).
  exists sv', recipes. split; [done|]. split; [done|]. eapply Forall2_impl; [exact R|].
  intros recipe file Rf. by apply (recipe_restores cfg U HU HT HB HS sv').
Qed.

(** C22. Nonces.  An upload, with any index type but DEBE, stores its new chunks, plain or
    as delta, in new containers ([ProcessSheUniqueChunk] encrypts each with the IV of
    [PickNewIV], a counter that starts at random, and puts the IV behind it); in all the
    containers the session writes no IV comes twice, in up to 2^64 chunks.  The recipe at
    the front of an entry holds the length of the chunk, so the bytes of a container leave
    no choice which entries it has.  Nothing else of the directories changes. *)
Theorem upload_IVs_distinct `{EVPLaws} `{!EVPBytes} `{LZ4} (cfg : Config) (U : bytes -> Prop) (sv : Server)
    (r : Upload_request) (batches : list (list bytes)) :
  universe cfg U -> hashType_ (c_crypto cfg) = SHA_256 -> 0 < c_sendRecipeBatchSize cfg ->
  0 < c_sendChunkBatchSize cfg < 2 ^ 32 -> (2 <= topThreshold_ cfg)%nat -> c_indexType cfg <> DEBE ->
  server_inv cfg U sv -> request_ok cfg U r batches -> s_con_times sv + blen (concat batches) + 5 < 2 ^ 31 ->
  exists sv' file files, upload_file cfg r sv = Ok (sv', file) /\ s_dirs sv' = spec_dirs (s_dirs sv) files /\
    Forall file_laid_out files /\
    (Z.of_nat (length (concat (map snd files))) <= 2 ^ 64 -> NoDup (map e_iv (concat (map snd files)))).
Proof.
  intros HU HT HB HS HK Ty I Rq Ht. destruct (index_upload cfg U HU HT HB HS HK Ty r sv batches I Rq Ht) as (sv' & file & E & _ & _ & _ & _ & (files & D & L & N)).
  by exists sv', file, files.
Qed.

(** ** A server to run *)

(** A server that starts for the first time: [new EcallCMSketch], an empty heap, an
    empty cache, an empty index, two empty directories; names are counted from 1. *)
Definition new_server (width depth cacheSize : nat) (tmp : bytes) : Server :=
  mk_server (sketch_init width depth) empty_heap (InContainercache_init cacheSize) (fun _ => 0) (0, 0) tmp empty_store 1
    {| base_dir := ∅; delta_dir := ∅ |}.
Lemma new_server_ok `{EVPLaws} `{!EVPBytes} `{LZ4} (cfg : Config) (U : bytes -> Prop) (width depth cacheSize : nat) (tmp : bytes) :
  (0 < width)%nat -> (0 < cacheSize)%nat -> blen tmp = MAX_CONTAINER_SIZE -> server_inv cfg U (new_server width depth cacheSize tmp).
Proof.
  intros Hw Hc Ht. split; cbn [new_server s_cmSketch s_insideDedupIndex s_containercache s_tmpOcallcontainer s_index s_con_times s_dirs].
  - exists []. by apply sketch_init_sees.
  - split; [apply empty_heap_wf|apply Nat.le_0_l|]. intros fp a g E. unfold content, empty_heap in E. cbn [_index] in E. by rewrite lookup_empty in E.
  - exists []. split; [by apply init_refines|constructor].
  - done.
  - split.
    + intros k v. unfold empty_store. cbn [indexObj_]. by rewrite lookup_empty.
    + by_decide.
    + intros k (i & m & f & l & Hi & Hf & _). apply lookup_replicate in Hi as [-> _]. by rewrite lookup_empty in Hf.
  - intros n N. destruct N. split; apply lookup_empty.
  - intros n b. cbn [base_dir delta_dir]. rewrite !lookup_empty. by intros [E|E].
  - lia.
Qed.

(** Ciphers on bytes, for an example: each adds the first byte of the key. *)
Definition rot (k b : Z) : Z := if (0 <=? b) && (b <? 256) then (b + k) mod 256 else b.
Definition byte_evp : EVP := {|
  EVP_Encrypt := fun _ key _ data => Some (map (rot (hd 0 key)) data);
  EVP_Decrypt := fun _ key _ data => Some (map (rot (- hd 0 key)) data);
  EVP_Digest := fun _ data => Some (take 32 (data ++ replicate 32 0)) |}.
Lemma rot_rot k b : rot (- k) (rot k b) = b.
Proof.
  unfold rot. destruct ((0 <=? b) && (b <? 256)) eqn:E; [|by rewrite E]. boolz.
  pose proof (Z.mod_pos_bound (b + k) 256). rewrite (proj2 (Z.leb_le _ _)), (proj2 (Z.ltb_lt _ _)) by lia. cbn [andb].
  rewrite Zplus_mod_idemp_l. replace (b + k + - k) with b by lia. apply Z.mod_small. lia.
Qed.
Definition byte_laws : @EVPLaws byte_evp.
Proof.
  constructor. intros c key iv data _. eexists. split; [reflexivity|]. split; [apply length_map|]. cbn. f_equal.
  rewrite map_map. rewrite <- (map_id data) at 2. apply map_ext. intros. apply rot_rot.
Defined.
Definition byte_bytes : @EVPBytes byte_evp.
Proof.
  constructor.
  - intros c key iv data d Hb [= <-]. apply Forall_map. eapply Forall_impl; [exact Hb|]. intros b Hr. unfold byte_ok, rot in *.
    case_if; [|done]. apply Z.mod_pos_bound. lia.
  - intros data Hb. eexists. split; [reflexivity|]. split.
    + rewrite length_take, length_app, length_replicate. lia.
    + apply Forall_take, Forall_app. split; [done|]. by apply Forall_replicate.
Defined.

Lemma decodable_half `{EVP} (x y : bytes) (cfg : Config) : encode_undefined x (blen x) y (blen y) = false -> blen x <= 2 * blen y -> decodable x y.
Proof.
  intros Un Hl. split; [done|]. intros buf t d n t' P E. destruct (encode_complete _ _ _ _ buf t 0 P Un) as (d' & n' & t2 & E' & _ & Hn & _).
  rewrite E in E'. injection E' as <- <- <-. pose proof (blen_nonneg y). lia.
Qed.

Definition ex_config : Config := {|
  c_crypto := toy_crypto; c_indexQueryKey := [3]; c_enclaveKey := [5]; c_masterKey := [8]; c_sessionKey := [11];
  c_sendChunkBatchSize := 2; c_sendRecipeBatchSize := 3; topThreshold_ := 2; c_indexType := FORWORD |}.
Definition ex_chunk (i : Z) : bytes := if i =? 0 then replicate 6 4 else [10; 20; 30; 40; i].
Definition ex_universe (x : bytes) : Prop := x ∈ map ex_chunk [0; 1; 2; 3].
Definition ex_message (l : list Z) : bytes * nat :=
  (value [] (@SessionKeyEnc byte_evp toy_crypto (frames (map ex_chunk l)) [11]), length l).
Definition ex_malloc : Malloc := {|
  m_inQueryBase := replicate 2 (mk_in_query 0 0 [] blank_recipe 0 0 [] blank_recipe);
  m_outQueryBase := replicate 2 (mk_out 0 0 0 [] (replicate 144 0) [] []);
  m_recvBuffer := []; m_entryFpList := replicate 96 0; m_deltaBuffer := [];
  m_containers := ([], []); m_curContainers := (mk_container [] 0 [] 0, mk_container [] 0 [] 0); m_iv := replicate 16 9 |}.
Definition ex_request (batches : list (list Z)) : Upload_request :=
  mk_request ex_malloc (fun _ _ _ => 0%nat) (map ex_message batches).
Definition ex_tmp : bytes := replicate (Z.to_nat MAX_CONTAINER_SIZE) 0.

Lemma ex_universe_ok : @universe byte_evp toy_lz4 ex_config ex_universe.
Proof.
  assert (All : forall P : bytes -> Prop, Forall P (map ex_chunk [0; 1; 2; 3]) -> forall x, ex_universe x -> P x)
    by (intros P F x Hx; rewrite Forall_forall in F; by apply F).
  split.
  - apply All. by_decide.
  - apply All. by_decide.
  - intros x y h Hx Hy. revert x Hx. refine (All _ _). revert y Hy. refine (All _ _).
    repeat (constructor; [repeat (constructor; [vm_compute; intros E E'; injection E as <-; (done || discriminate E')|]); constructor|]); constructor.
  - apply All. by_decide.
  - intros x y Hx Hy. apply (@decodable_half byte_evp x y ex_config).
    + revert x Hx. refine (All _ _). revert y Hy. refine (All _ _). by_decide.
    + revert x Hx. refine (All _ _). revert y Hy. refine (All _ _). by_decide.
Qed.

Lemma ex_request_ok batches : Forall (fun l => l ⊆ [0; 1; 2; 3] /\ (length l <= 2)%nat) batches ->
  @request_ok byte_evp ex_config ex_universe (ex_request batches) (map (map ex_chunk) batches).
Proof.
  intros F. split.
  - split; try by_decide; (split; [done|]); repeat constructor; apply blank_recipe_ok.
  - cbn [rq_messages ex_request]. induction F as [|l batches [Sub Len] F IH]; cbn [map]; constructor; [|done]. split.
    + apply Forall_map, Forall_forall. intros i Hi. by apply list_elem_of_In, in_map, list_elem_of_In, Sub.
    + by rewrite length_map.
    + destruct (@SessionKey_ok byte_evp byte_laws toy_crypto (frames (map ex_chunk l)) [11]) as (d & E & _).
      unfold ex_message. cbn [fst ex_config c_crypto c_sessionKey]. rewrite E. reflexivity.
    + by rewrite length_map.
Qed.

(** Two files with chunks in common, in two sessions. *)
Lemma uploads_restore_witness :
  exists sv' recipes, @uploads byte_evp toy_lz4 ex_config [ex_request [[0; 1]; [0; 2]]; ex_request [[1; 3]; [2; 1]]] (new_server 3 2 2 ex_tmp) = Ok (sv', recipes) /\
    @server_inv byte_evp toy_lz4 ex_config ex_universe sv' /\
    Forall2 (fun recipe file => @gives_back byte_evp toy_lz4 (setting ex_config [12] (s_dirs sv') (s_index sv')) recipe (concat file))
      recipes (map (map (map ex_chunk)) [[[0; 1]; [0; 2]]; [[1; 3]; [2; 1]]]).
Proof.
  apply (@uploads_restore byte_evp byte_laws byte_bytes toy_lz4 ex_config ex_universe).
  - apply ex_universe_ok.
  - reflexivity.
  - reflexivity.
  - by_decide.
  - by_decide.
  - discriminate.
  - apply (@new_server_ok byte_evp byte_laws byte_bytes toy_lz4); [by_decide|by_decide|unfold ex_tmp, blen; rewrite length_replicate; by_decide].
  - constructor; [|constructor; [|constructor]]; apply ex_request_ok; by_decide.
  - reflexivity.
Defined.

Lemma upload_IVs_distinct_witness :
  exists sv' file files, @upload_file byte_evp toy_lz4 ex_config (ex_request [[0; 1]; [0; 2]]) (new_server 3 2 2 ex_tmp) = Ok (sv', file) /\
    s_dirs sv' = spec_dirs (s_dirs (new_server 3 2 2 ex_tmp)) files /\
    Forall file_laid_out files /\
    (Z.of_nat (length (concat (map snd files))) <= 2 ^ 64 -> NoDup (map e_iv (concat (map snd files)))).
Proof.
  apply (@upload_IVs_distinct byte_evp byte_laws byte_bytes toy_lz4 ex_config ex_universe _ _ (map (map ex_chunk) [[0; 1]; [0; 2]])).
  - apply ex_universe_ok.
  - reflexivity.
  - reflexivity.
  - by_decide.
  - by_decide.
  - discriminate.
  - apply (@new_server_ok byte_evp byte_laws byte_bytes toy_lz4); [by_decide|by_decide|unfold ex_tmp, blen; rewrite length_replicate; by_decide].
  - apply ex_request_ok; by_decide.
  - reflexivity.
Defined.
