(* ===== verification/DebeCorrect.v ===== *)
(** What the index of DEBE stores (Debe.v): every chunk stands at its address, its
    content and its IV next to the others; and what a restore makes of it. *)
From Stdlib Require Import ZArith Lia.
From stdpp Require Import base list gmap.
From S2P Require Import Prelude Types HTable ContainerCache Util Database ReqContainers Container Writer Crypto Restore RestoreCorrect Library Ingest Debe Upload IngestStore IngestQuery Session.

(** ** Containers of chunks without headers *)

Abbreviation cur u := (ic_curSize (_inContainer u)).
Abbreviation name_of u := (co_containerID (curContainer u)).
(** The base containers of a session and what is in them, the open one last. *)
Definition handed (c : Container_t) : bytes * bytes := (snd (fst (SaveToFile c)), snd (SaveToFile c)).
Definition containers_of (u : Upload) : list (bytes * bytes) :=
  map handed (inputMQ u) ++ [(name_of u, slice (ic_buf (_inContainer u)) 0 (cur u))].
Record core_wf (u : Upload) : Prop := {
  cw_cur : 0 <= cur u < MAX_CONTAINER_SIZE /\ cur u <= blen (ic_buf (_inContainer u));
  cw_name : blen (name_of u) = 7;
  cw_iv : blen (_iv u) = 16;
  cw_times : 0 <= con_times u
}.

Lemma append_two (buf data iv : bytes) n : 0 <= n <= blen buf ->
  slice (write (write buf n data) (n + blen data) iv) 0 (n + (blen data + blen iv)) = slice buf 0 n ++ data ++ iv.
Proof.
  intros Hn. rewrite write_write, slice_0 by done. rewrite <- blen_app. rewrite take_write by done. by rewrite slice_0.
Qed.
Lemma handed_dump u : core_wf u -> handed (set_delta_flag (dump (curContainer u) (_inContainer u)) 0) = (name_of u, slice (ic_buf (_inContainer u)) 0 (cur u)).
Proof.
  intros [[Hc Hb] Hn _ _]. unfold handed, SaveToFile. cbn. f_equal.
  - unfold CONTAINER_ID_LENGTH. rewrite <- Hn. apply slice_full.
  - set (dt := slice (ic_buf (_inContainer u)) 0 (cur u)). assert (Ld : blen dt = cur u) by (apply blen_slice; lia). rewrite <- Ld at 1.
    apply slice_write_same. pose proof (blen_nonneg (co_body (curContainer u))). lia.
Qed.

(** [SaveChunk]: content and IV behind the others, or at the start of a new container. *)
Record appended (u : Upload) (data : bytes) (u' : Upload) (addr : RecipeEntry_t) : Prop := {
  ap_wf : core_wf u';
  ap_name : re_containerName addr = name_of u';
  ap_len : re_length addr = blen data;
  ap_new : exists pre old, containers_of u' = pre ++ [(name_of u', old ++ data ++ _iv u)] /\ re_offset addr = blen old /\
    (containers_of u = pre ++ [(name_of u', old)] /\ con_times u' = con_times u \/
     containers_of u = pre /\ old = [] /\ CreateUUID (con_times u) = Ok (name_of u') /\ con_times u' = con_times u + 1)
}.
Lemma SaveChunk_ok u data addr : core_wf u -> blen data <= MAX_CHUNK_SIZE -> con_times u < 2 ^ 31 - 1 ->
  exists u' addr', SaveChunk u data (blen data) addr = Ok (u', addr') /\ appended u data u' addr'.
Proof.
  intros W Hd Ht. pose proof W as [[Hc Hb] Hn Hi Ti]. pose proof (blen_nonneg data). unfold MAX_CHUNK_SIZE in Hd. change MAX_CONTAINER_SIZE with 4194304 in *.
  assert (Si : slice (_iv u) 0 CRYPTO_BLOCK_SIZE = _iv u) by (change CRYPTO_BLOCK_SIZE with 16; rewrite <- Hi; apply slice_full).
  assert (U1 : forall z, 0 <= z < 2 ^ 32 -> u32 z = z) by (intros z Hz; unfold u32; by apply Z.mod_small).
  unfold SaveChunk. rewrite slice_full. change CRYPTO_BLOCK_SIZE with 16 in *. change MAX_CONTAINER_SIZE with 4194304. rewrite (U1 (16 + blen data)), (U1 (16 + blen data + cur u)) by lia.
  destruct (Z.ltb_spec (16 + blen data + cur u) 4194304) as [Ft|Ft].
  - cbn [rbind]. rewrite Si, (proj2 (Z.ltb_ge _ _)) by lia. cbn [rbind]. rewrite (U1 (cur u + blen data)), U1 by lia.
    pose proof (append_two (ic_buf (_inContainer u)) data (_iv u) (cur u) ltac:(lia)) as Ap. rewrite Hi in Ap.
    eexists _, _. split; [reflexivity|]. split; cbn [count Container.with_base _inContainer ic_curSize ic_buf curContainer _iv con_times]; try done.
    + split; cbn [count Container.with_base _inContainer ic_curSize ic_buf curContainer _iv con_times]; try done. split; [change MAX_CONTAINER_SIZE with 4194304; lia|].
      rewrite blen_write_grow by (rewrite blen_write_grow; lia). lia.
    + exists (map handed (inputMQ u)), (slice (ic_buf (_inContainer u)) 0 (cur u)). split; [|split; [cbn; symmetry; apply blen_slice; lia|by left]].
      unfold containers_of. cbn [count Container.with_base _inContainer ic_curSize ic_buf curContainer inputMQ]. do 3 f_equal. rewrite <- Ap. f_equal. lia.
  - destruct (renew_ok (set_delta_flag (dump (curContainer u) (_inContainer u)) 0) (con_times u)) as (id & R & [Lid _] & Cu); [lia|].
    unfold Ocall_WriteContainer. cbn [curContainer Container.with_base con_times]. rewrite R. cbn [rbind fst snd].
    cbn [_inContainer Container.with_base ic_buf ic_curSize]. rewrite Si, (proj2 (Z.ltb_ge _ _)) by lia. cbn [rbind]. rewrite (U1 (0 + blen data)), U1 by lia.
    pose proof (blen_nonneg (ic_buf (_inContainer u))) as Bn. pose proof (append_two (ic_buf (_inContainer u)) data (_iv u) 0 ltac:(lia)) as Ap. rewrite Hi in Ap.
    eexists _, _. split; [reflexivity|]. split; cbn [count Container.with_base _inContainer ic_curSize ic_buf curContainer _iv con_times co_containerID]; try done.
    + split; cbn [count Container.with_base _inContainer ic_curSize ic_buf curContainer _iv con_times co_containerID]; [|unfold blen; lia|done|lia].
      split; [change MAX_CONTAINER_SIZE with 4194304; lia|]. rewrite blen_write_grow by (rewrite blen_write_grow; lia). lia.
    + exists (containers_of u), []. split; [|split; [done|right; done]].
      unfold containers_of. cbn [count Container.with_base _inContainer ic_curSize ic_buf curContainer inputMQ]. rewrite map_app. cbn [map].
      rewrite handed_dump by done. do 3 f_equal. change (slice (ic_buf (_inContainer u)) 0 0) with (@nil Z) in Ap. rewrite <- Ap. f_equal.
Qed.

(** ** Every chunk at its address *)

Section debe.
Context `{EVPLaws} `{LZ4}.
Variable cfg : Config.

(** A container without headers, and a chunk in it. *)
Definition stands (body : bytes) (r : RecipeEntry_t) (x : bytes) : Prop :=
  0 <= re_offset r /\ 0 <= re_length r /\ re_offset r + re_length r + CRYPTO_BLOCK_SIZE <= blen body /\ exists data,
    DecryptionWithKeyIV (c_crypto cfg) (slice body (re_offset r) (re_length r)) (c_enclaveKey cfg)
      (slice body (re_offset r + re_length r) CRYPTO_BLOCK_SIZE) = Ok data /\ decompress data = x.
(** The chunks [l] were stored with these recipes. *)
Record debe_inv (u : Upload) (l : list (RecipeEntry_t * bytes)) : Prop := {
  di_wf : core_wf u;
  di_names : NoDup (map fst (containers_of u)) /\ forall n, n ∈ map fst (containers_of u) -> exists t, 0 <= t < con_times u /\ CreateUUID t = Ok n;
  di_chunks : forall r x, (r, x) ∈ l -> exists body, (re_containerName r, body) ∈ containers_of u /\ stands body r x
}.

Lemma stands_app body more r x : stands body r x -> stands (body ++ more) r x.
Proof.
  intros (Ho & Hl & Hr & data & D & E). unfold stands, CRYPTO_BLOCK_SIZE in *. pose proof (blen_nonneg more). do 2 (split; [done|]). split; [rewrite blen_app; lia|].
  exists data. split; [|done]. rewrite !slice_app_l by lia. done.
Qed.
Lemma stands_new old cipher iv r data x : re_offset r = blen old -> re_length r = blen cipher -> blen iv = 16 ->
  DecryptionWithKeyIV (c_crypto cfg) cipher (c_enclaveKey cfg) iv = Ok data -> decompress data = x -> stands (old ++ cipher ++ iv) r x.
Proof.
  intros Ho Hl Hi D E. unfold stands, CRYPTO_BLOCK_SIZE. rewrite Ho, Hl. pose proof (blen_nonneg old). rewrite !blen_app. split; [done|]. split; [apply blen_nonneg|]. split; [lia|]. exists data. split; [|done].
  rewrite slice_app_exact. rewrite app_assoc, <- (app_nil_r iv), <- blen_app, <- Hi, slice_app_exact. done.
Qed.

Lemma appended_keeps u u' data addr l : debe_inv u l -> con_times u < 2 ^ 31 - 1 -> appended u data u' addr ->
  (NoDup (map fst (containers_of u')) /\ forall n, n ∈ map fst (containers_of u') -> exists t, 0 <= t < con_times u' /\ CreateUUID t = Ok n) /\
  forall r x body, (r, x) ∈ l -> (re_containerName r, body) ∈ containers_of u -> exists more, (re_containerName r, body ++ more) ∈ containers_of u'.
Proof.
  intros [[_ _ _ Ti] [Nd Nm] _] Ht [_ _ _ (pre & old & E' & _ & [[E Et]|(E & -> & Cu & Et)])]; rewrite E', E in *; rewrite ?map_app in *.
  - split; [by rewrite Et|]. intros r x body _ [Hb|Hb%list_elem_of_singleton]%elem_of_app.
    + exists []. rewrite app_nil_r. apply elem_of_app. by left.
    + injection Hb as -> ->. eexists. apply elem_of_app. right. by apply list_elem_of_singleton.
  - split; [split|].
    + apply NoDup_app. split; [done|]. split; [|apply NoDup_singleton]. intros n Hn ->%list_elem_of_singleton. cbn in Hn.
      destruct (Nm _ Hn) as (t & Tr & Ct). assert (t = con_times u); [|lia]. eapply CreateUUID_inj; [| |exact Ct|exact Cu]; lia.
    + rewrite Et. intros n [Hn| ->%list_elem_of_singleton]%elem_of_app; [destruct (Nm n Hn) as (t & ? & ?); exists t; split; [lia|done]|].
      exists (con_times u). split; [lia|done].
    + intros r x body _ Hb. exists []. rewrite app_nil_r. apply elem_of_app. by left.
Qed.
(** [ProcessUniqueChunk]: the chunk stands at the address it returns. *)
Lemma ProcessUniqueChunk_stands (s : Core) (l : list (RecipeEntry_t * bytes)) (addr : RecipeEntry_t) (x : bytes) :
  debe_inv (c_store s) l -> con_times (c_store s) < 2 ^ 31 - 1 ->
  decompress (stored_form NO_DELTA x) = x -> blen (stored_form NO_DELTA x) <= MAX_CHUNK_SIZE ->
  exists s' addr', ProcessUniqueChunk cfg s addr x = Ok (s', addr') /\ debe_inv (c_store s') (l ++ [(addr', x)]) /\
    re_length addr' = blen (stored_form NO_DELTA x) /\ con_times (c_store s') <= con_times (c_store s) + 1 /\ c_recipe s' = c_recipe s.
Proof.
  intros I Ht Dx Sz. unfold ProcessUniqueChunk. change (default x (LZ4_compress_fast x (blen x))) with (stored_form NO_DELTA x).
  set (data := stored_form NO_DELTA x) in *. set (u := with_iv (c_store s) (PickNewIV (_iv (c_store s)))). rewrite (proj2 (Z.ltb_ge _ _)) by done.
  destruct (KeyIV_ok (c_crypto cfg) data (c_enclaveKey cfg) (_iv u)) as (cipher & Ec & Lc & Dc). rewrite Ec. cbn [rbind].
  assert (Lb : blen data = blen cipher) by (unfold blen; lia). rewrite Lb.
  assert (Iu : debe_inv u l).
  { destruct I as [[Hc Hn Hi Ti] Nm Ch]. split; [|exact Nm|exact Ch]. split; try done. by apply PickNewIV_blen. }
  destruct (SaveChunk_ok u cipher addr (di_wf _ _ Iu) ltac:(lia) Ht) as (u' & addr' & Es & Ap). rewrite Es. cbn [rbind fst snd].
  destruct (appended_keeps u u' cipher addr' l Iu Ht Ap) as [Nm Old]. eexists _, addr'. split; [reflexivity|].
  pose proof (cw_iv _ (di_wf _ _ Iu)) as Liv. destruct Ap as [W' Na Ln (pre & old & E' & Of & Ti)].
  split; [|split; [done|split; [|done]]].
  - split; [exact W'|exact Nm|]. intros r y [Hr|[= -> ->]%list_elem_of_singleton]%elem_of_app.
    + destruct (di_chunks _ _ Iu r y Hr) as (body & Hb & St). destruct (Old r y body Hr Hb) as [more Hm]. exists (body ++ more).
      split; [exact Hm|]. by apply stands_app.
    + exists (old ++ cipher ++ _iv u). rewrite Na. split; [change (c_store _) with u'; rewrite E'; apply elem_of_app; right; by apply list_elem_of_singleton|].
      by eapply stands_new.
  - change (con_times u' <= con_times u + 1). destruct Ti as [[_ ->]|(_ & _ & _ & ->)]; lia.
Qed.

(** A chunk whose stored form is not too long and decodes to it. *)
Definition storable (x : bytes) : Prop := decompress (stored_form NO_DELTA x) = x /\ blen (stored_form NO_DELTA x) <= MAX_CHUNK_SIZE.

(** The new chunks of a session, one after the other, with their addresses. *)
Fixpoint ProcessUniqueChunks (xs : list (RecipeEntry_t * bytes)) (s : Core) : result (Core * list (RecipeEntry_t * bytes)) :=
  match xs with
  | [] => Ok (s, [])
  | (addr, x) :: xs =>
    y <-- ProcessUniqueChunk cfg s addr x ;;
    z <-- ProcessUniqueChunks xs (fst y) ;;
    Ok (fst z, (snd y, x) :: snd z)
  end.
Lemma ProcessUniqueChunks_stand xs : Forall (fun e => storable (snd e)) xs -> forall s l, debe_inv (c_store s) l ->
  con_times (c_store s) + blen xs < 2 ^ 31 ->
  exists s' l', ProcessUniqueChunks xs s = Ok (s', l') /\ map snd l' = map snd xs /\ debe_inv (c_store s') (l ++ l') /\
    Forall (fun e => re_length (fst e) = blen (stored_form NO_DELTA (snd e)) /\ storable (snd e)) l'.
Proof.
  induction 1 as [|[addr x] xs [Dx Sx] _ IH]; intros s l I Ht; cbn [ProcessUniqueChunks].
  - exists s, []. rewrite app_nil_r. split; [done|]. split; [done|]. split; [done|constructor].
  - rewrite blen_cons in Ht. pose proof (blen_nonneg xs).
    destruct (ProcessUniqueChunk_stands s l addr x I ltac:(lia) Dx Sx) as (s1 & a1 & -> & I1 & L1 & T1 & _). cbn [rbind fst snd].
    destruct (IH s1 (l ++ [(a1, x)]) I1 ltac:(lia)) as (s2 & l2 & -> & M2 & I2 & F2). cbn [rbind fst snd].
    exists s2, ((a1, x) :: l2). split; [done|]. split; [cbn; by rewrite M2|]. split; [by rewrite <- app_assoc in I2|]. by repeat constructor.
Qed.

(** What the restore reads for the address [r]: what stands [header_size] behind it. *)
Lemma read_behind env D r body : containers env = D -> open_container D (re_containerName r) = Ok body -> blen body <= MAX_CONTAINER_SIZE ->
  item_chunk env (r, None) = (d <-- read_chunk env body (re_offset r) (re_length r) ;; Ok (decompress d)).
Proof. intros <- Ho Hm. unfold item_chunk, stored_chunk. cbn [fst snd]. rewrite Ho. cbn [rbind]. by rewrite (proj2 (Z.ltb_ge _ _)). Qed.
Lemma read_chunk_behind sk D db body r r' y : stands body r' y -> re_offset r' = re_offset r + header_size -> re_length r' = re_length r ->
  re_length r <= MAX_CHUNK_SIZE ->
  (d <-- read_chunk (setting cfg sk D db) body (re_offset r) (re_length r) ;; Ok (decompress d)) = Ok y.
Proof.
  intros (Ho & Hl & Hb & data & Dd & Ey) Eo El Mx. rewrite Eo, El in *. unfold read_chunk, in_bounds, CRYPTO_BLOCK_SIZE in *. cbn zeta.
  rewrite !(proj2 (Z.leb_le _ _)) by lia. cbn [andb]. rewrite (proj2 (Z.ltb_ge _ _)) by lia. cbn [setting cryptoObj_ enclaveKey_].
  rewrite Dd. cbn [rbind]. by rewrite Ey.
Qed.
Lemma read_chunk_beyond env body off n : blen body < off + header_size + n + CRYPTO_BLOCK_SIZE -> read_chunk env body off n = Err Undefined.
Proof.
  intros Hb. unfold read_chunk, in_bounds. cbn zeta. rewrite (proj2 (Z.leb_gt (off + header_size + n + CRYPTO_BLOCK_SIZE) _)) by lia.
  by rewrite !andb_false_r.
Qed.
End debe.

(** C24. What DEBE stores is there: [ProcessUniqueChunk] compresses and encrypts a chunk and
    puts it with its IV behind the others of the open container, or into a new one.  The
    chunk can be read back at the address it returns, and so can every chunk that was
    stored before in the session, in containers of different names, of at most
    [MAX_CONTAINER_SIZE]: right at [offset], without an entry header. *)
Theorem ProcessUniqueChunk_ok `{EVPLaws} `{LZ4} (cfg : Config) (s : Core) (l : list (RecipeEntry_t * bytes)) (addr : RecipeEntry_t) (x : bytes) :
  debe_inv cfg (c_store s) l -> con_times (c_store s) < 2 ^ 31 - 1 ->
  decompress (stored_form NO_DELTA x) = x -> blen (stored_form NO_DELTA x) <= MAX_CHUNK_SIZE ->
  exists s' addr', ProcessUniqueChunk cfg s addr x = Ok (s', addr') /\ debe_inv cfg (c_store s') (l ++ [(addr', x)]) /\
    re_length addr' = blen (stored_form NO_DELTA x) /\ con_times (c_store s') <= con_times (c_store s) + 1 /\ c_recipe s' = c_recipe s.
Proof. apply ProcessUniqueChunk_stands. Qed.

(** C23. What DEBE stores is not what a restore reads: the restore skips the header of an
    entry ([header_size], 272 bytes), which [SaveChunk] does not write.  Whatever chunks
    a session stores one after the other, once the containers are on disk a restore of
    any of them, at the very address that was returned for it, gives another chunk of the
    session, without an error, when that one stands 272 bytes behind it and is stored in
    as many bytes; and within 272 bytes of the end of what was written it reads past the
    end. *)
Theorem DEBE_restores_others `{EVPLaws} `{LZ4} (cfg : Config) (xs : list (RecipeEntry_t * bytes)) (s : Core) :
  debe_inv cfg (c_store s) [] -> con_times (c_store s) + blen xs < 2 ^ 31 -> Forall (fun e => storable (snd e)) xs ->
  exists s' l, ProcessUniqueChunks cfg xs s = Ok (s', l) /\ map snd l = map snd xs /\
    forall D db sk r x, (forall n b, (n, b) ∈ containers_of (c_store s') -> open_container D n = Ok b /\ blen b <= MAX_CONTAINER_SIZE) -> (r, x) ∈ l ->
      (forall r' y, (r', y) ∈ l -> re_containerName r' = re_containerName r -> re_offset r' = re_offset r + header_size -> re_length r' = re_length r ->
         item_chunk (setting cfg sk D db) (r, None) = Ok y) /\
      (forall b, (re_containerName r, b) ∈ containers_of (c_store s') -> blen b < re_offset r + header_size + re_length r + CRYPTO_BLOCK_SIZE ->
         item_chunk (setting cfg sk D db) (r, None) = Err Undefined).
Proof.
  intros I Ht F. destruct (ProcessUniqueChunks_stand cfg xs F s [] I Ht) as (s' & l & E & M & [_ _ Ch] & Fl). cbn [app] in Ch.
  exists s', l. split; [exact E|]. split; [exact M|]. intros D db sk r x HD Hr. split.
  - intros r' y Hr' En Eo El. destruct (Ch r' y Hr') as (body & Hb & St). rewrite En in Hb. destruct (HD _ _ Hb) as [Ho Hm].
    rewrite (read_behind _ D r body) by done. apply (read_chunk_behind cfg sk D db body r r' y); try done.
    rewrite Forall_forall in Fl. destruct (Fl _ Hr) as [Lr [_ Sz]]. cbn [fst snd] in *. lia.
  - intros b Hb Hs. destruct (HD _ _ Hb) as [Ho Hm]. rewrite (read_behind _ D r b) by done. by rewrite read_chunk_beyond.
Qed.


(** ** Sessions to run *)

Definition debe_config : Config := {|
  c_crypto := toy_crypto; c_indexQueryKey := [3]; c_enclaveKey := [5]; c_masterKey := [8]; c_sessionKey := [11];
  c_sendChunkBatchSize := 2; c_sendRecipeBatchSize := 3; topThreshold_ := 2; c_indexType := DEBE |}.
(** Chunks of 18 bytes: with the IV of a chunk they fill the header of an entry eight
    times. *)
Definition debe_chunk (i : Z) : bytes := i :: replicate 17 7.

(** A new session, and the first chunk of it. *)
Definition debe_core : Core :=
  mk_core (mk_upload (mk_in_container [] 0) (mk_in_container [] 0) (mk_container (value [] (CreateUUID 1)) 0 [] 0) (mk_container [] 0 [] 0) [] 3 (replicate 16 9) 0 0)
    (InContainercache_init 2) (init 0 8 64) [] [] (mk_recipe_buf [] 0 []) (fun _ => 0).
Lemma debe_core_ok : @debe_inv byte_evp toy_lz4 debe_config (c_store debe_core) [].
Proof.
  split.
  - split; by_decide.
  - split; [apply NoDup_singleton|]. intros n ->%list_elem_of_singleton. exists 1. split; [by_decide|reflexivity].
  - intros r x C. by apply elem_of_nil in C.
Qed.
Lemma ProcessUniqueChunk_ok_witness :
  exists s' addr', @ProcessUniqueChunk byte_evp toy_lz4 debe_config debe_core blank_recipe (debe_chunk 10) = Ok (s', addr') /\
    @debe_inv byte_evp toy_lz4 debe_config (c_store s') [(addr', debe_chunk 10)] /\ re_length addr' = 18.
Proof.
  destruct (@ProcessUniqueChunk_ok byte_evp byte_laws toy_lz4 debe_config debe_core [] blank_recipe (debe_chunk 10)) as (s' & addr' & E & I & L & _).
  - exact debe_core_ok.
  - reflexivity.
  - reflexivity.
  - by_decide.
  - exists s', addr'. split; [exact E|]. split; [exact I|exact L].
Defined.

(** Nine chunks: a restore of the first gives the ninth. *)
Definition debe_nine : list (RecipeEntry_t * bytes) := map (fun i => (blank_recipe, debe_chunk i)) [10; 11; 12; 13; 14; 15; 16; 17; 18].
Definition debe_out : Core * list (RecipeEntry_t * bytes) :=
  value (debe_core, []) (@ProcessUniqueChunks byte_evp toy_lz4 debe_config debe_nine debe_core).
Definition debe_dirs : Directories :=
  {| base_dir := list_to_map (containers_of (c_store (fst debe_out))); delta_dir := ∅ |}.
Definition debe_addr (i : nat) : RecipeEntry_t := fst (nth i (snd debe_out) (blank_recipe, [])).
Lemma debe_dirs_ok : Forall (fun x => open_container debe_dirs (fst x) = Ok (snd x) /\ blen (snd x) <= MAX_CONTAINER_SIZE) (containers_of (c_store (fst debe_out))).
Proof. by_decide. Qed.
Lemma DEBE_restores_others_witness :
  snd debe_out !! 0%nat = Some (debe_addr 0, debe_chunk 10) /\
  @item_chunk byte_evp toy_lz4 (setting debe_config [12] debe_dirs empty_store) (debe_addr 0, None) = Ok (debe_chunk 18) /\
  @item_chunk byte_evp toy_lz4 (setting debe_config [12] debe_dirs empty_store) (debe_addr 1, None) = Err Undefined.
Proof.
  destruct (@DEBE_restores_others byte_evp byte_laws toy_lz4 debe_config debe_nine debe_core debe_core_ok) as (s' & l & E & _ & R).
  - by_decide.
  - repeat constructor; by_decide.
  - assert (Eo : debe_out = (s', l)) by (unfold debe_out; by rewrite E).
    assert (Hl : forall i x, snd debe_out !! i = Some x -> x ∈ l) by (intros i x Hx; rewrite Eo in Hx; by eapply list_elem_of_lookup_2).
    assert (HD : forall n b, (n, b) ∈ containers_of (c_store s') -> open_container debe_dirs n = Ok b /\ blen b <= MAX_CONTAINER_SIZE).
    { intros n b Hb. pose proof debe_dirs_ok as F. rewrite Eo, Forall_forall in F. exact (F _ Hb). }
    split; [vm_compute; reflexivity|]. split.
    + apply (R debe_dirs empty_store [12] (debe_addr 0) (debe_chunk 10) HD) with (r' := debe_addr 8).
      * apply (Hl 0%nat). vm_compute. reflexivity.
      * apply (Hl 8%nat). vm_compute. reflexivity.
      * vm_compute. reflexivity.
      * vm_compute. reflexivity.
      * vm_compute. reflexivity.
    + eapply (R debe_dirs empty_store [12] (debe_addr 1) (debe_chunk 11) HD).
      * apply (Hl 1%nat). vm_compute. reflexivity.
      * assert (Hc : forall x, containers_of (c_store (fst debe_out)) !! 0%nat = Some x -> x ∈ containers_of (c_store s')) by (intros x Hx; rewrite Eo in Hx; by eapply list_elem_of_lookup_2).
        apply Hc. vm_compute. reflexivity.
      * by_decide.
Defined.
