(* ===== verification/Stale.v ===== *)
(** The container cache of the enclave and the offline pass: [Update_cold_container]
    (ecallUtil/ecallOffline.cc) rewrites a container under its old name, and
    [InContainercache_] (ecallIndex/ecallFreqIndex.cc) keeps the old bytes. *)
From Stdlib Require Import ZArith Lia.
From stdpp Require Import base list gmap.
From S2P Require Import Prelude Types Util Database LruCache ContainerCache ReqContainers Container Crypto Cold Restore RestoreCorrect SuperFeature Ingest Library Classify IngestStore.

(** A base chunk is read from the front of a buffer. *)
Lemma base_chunk_prefix `{EVP} `{LZ4} cfg (body buf : bytes) r x :
  take (length body) buf = body -> base_chunk cfg body r = Ok x -> base_chunk cfg buf r = Ok x.
Proof.
  intros T. unfold base_chunk, in_bounds. cbn zeta. change CRYPTO_BLOCK_SIZE with 16. set (o := re_offset r + header_size).
  assert (L : blen body <= blen buf) by (unfold blen; rewrite <- T at 1; rewrite length_take; lia).
  assert (S : forall i m, 0 <= i -> 0 <= m -> i + m <= blen body -> slice body i m = slice buf i m).
  { intros i m Hi Hm Him. rewrite <- T at 1. replace (take (length body) buf) with (slice buf 0 (blen body)).
    - rewrite slice_slice by lia. by rewrite Z.add_0_l.
    - unfold slice, blen. by rewrite Nat2Z.id. }
  case_if; [|done]. boolz. intros X. rewrite !S in X by lia.
  rewrite !(proj2 (Z.leb_le _ _)) by lia. exact X.
Qed.

(** The container that [Ocall_getRefContainer] loads into a buffer of the largest size. *)
Definition loaded (body : bytes) : bytes := write (replicate (Z.to_nat MAX_CONTAINER_SIZE) 0) 0 body.
Lemma loaded_size body : blen body <= MAX_CONTAINER_SIZE -> blen (loaded body) = MAX_CONTAINER_SIZE.
Proof.
  intros L. unfold loaded. assert (R : blen (replicate (Z.to_nat MAX_CONTAINER_SIZE) 0) = MAX_CONTAINER_SIZE).
  { unfold blen. rewrite length_replicate. apply Z2Nat.id. by_decide. }
  rewrite blen_write; lia.
Qed.
Lemma loaded_front body : take (length body) (loaded body) = body.
Proof. apply take_write_0. Qed.

(** What a stored chunk is, decrypted and decompressed. *)
Definition entry_content `{EVP} `{LZ4} (cfg : Config) (e : entry) : result bytes :=
  d <-- DecryptionWithKeyIV (c_crypto cfg) (e_data e) (c_enclaveKey cfg) (e_iv e) ;; Ok (decompress d).

(** A base chunk is where its entry is, with any recipe of that place and length. *)
Lemma base_chunk_entry `{EVP} `{LZ4} cfg name pre e post r : laid_out 0 name (pre ++ e :: post) ->
  re_offset r = total_size pre -> re_length r = blen (e_data e) -> blen (e_data e) <= 2 * MAX_CHUNK_SIZE ->
  base_chunk cfg (body_bytes (pre ++ e :: post)) r = entry_content cfg e.
Proof.
  intros La Eo El Mx. pose proof (body_bytes_size 0 name _ La) as Sb. rewrite body_bytes_app in *.
  apply laid_out_app in La as [Lp (Oke & _ & _ & Lq)]. pose proof (body_bytes_size 0 name pre Lp) as Sp.
  change (body_bytes (e :: post)) with (entry_bytes e ++ body_bytes post) in *. rewrite total_size_app in Sb.
  change (total_size (e :: post)) with (entry_size e + total_size post) in Sb. unfold entry_size in Sb.
  pose proof (total_size_nonneg post). pose proof (blen_nonneg (e_data e)). pose proof (total_size_nonneg pre).
  pose proof (recipe_put_length (e_recipe e) (eok_recipe e Oke)) as Lr. pose proof (eok_fp e Oke) as Lf. pose proof (eok_sf e Oke) as Ls. pose proof (eok_iv e Oke) as Li.
  unfold base_chunk, in_bounds, header_size, sizeof_RecipeEntry, CHUNK_HASH_SIZE, CRYPTO_BLOCK_SIZE. cbn zeta. rewrite El, Eo.
  rewrite !(proj2 (Z.leb_le _ _)) by lia. cbn [andb]. rewrite (proj2 (Z.ltb_ge _ _)) by done. unfold entry_bytes.
  set (front := body_bytes pre ++ recipe_put (e_recipe e) ++ e_fp e ++ e_sf e).
  assert (Lfr : blen front = total_size pre + (144 + 4 * 32)) by (unfold front; rewrite !blen_app; unfold blen in *; rewrite Lr, Lf, Ls; lia).
  replace (body_bytes pre ++ (recipe_put (e_recipe e) ++ e_fp e ++ e_sf e ++ e_data e ++ e_iv e) ++ body_bytes post)
    with (front ++ e_data e ++ e_iv e ++ body_bytes post) by (unfold front; by rewrite <- !app_assoc).
  rewrite <- Lfr, slice_app_exact. rewrite (app_assoc front), <- blen_app.
  replace 16 with (blen (e_iv e)) by (unfold blen; rewrite Li; done). rewrite slice_app_exact. reflexivity.
Qed.

(** The index after recipes were updated: an entry whose key comes once has its own. *)
Lemma index_entries_other `{EVP} crypto key es : forall db k, (forall e, e ∈ es -> e_fp e <> k) ->
  indexObj_ (index_entries crypto key db es) !! k = indexObj_ db !! k.
Proof.
  induction es as [|e es IH]; intros db k Hk; [done|]. unfold index_entries in *. cbn [foldl]. rewrite IH by (intros e' He'; apply Hk; by apply list_elem_of_further).
  unfold Insert, set_index. cbn [indexObj_]. apply lookup_insert_ne. apply Hk, list_elem_of_here.
Qed.
Lemma index_entries_lookup `{EVPLaws} `{LZ4} cfg sk D db pre e post : entry_ok e -> (forall e', e' ∈ post -> e_fp e' <> e_fp e) ->
  lookup_recipe (setting cfg sk D (index_entries (c_crypto cfg) (c_indexQueryKey cfg) db (pre ++ e :: post))) (e_fp e) = Ok (e_recipe e).
Proof.
  intros Ok Hp. destruct (enc_recipe_ok (c_crypto cfg) (c_indexQueryKey cfg) (e_recipe e) (eok_recipe e Ok)) as (_ & Le & De).
  unfold lookup_recipe, QueryBuffer. cbn [setting indexStoreObj_ cryptoObj_ indexQueryKey_].
  replace (slice (e_fp e) 0 CHUNK_HASH_SIZE) with (e_fp e).
  2: { symmetry. change CHUNK_HASH_SIZE with 32. replace 32 with (blen (e_fp e)) by (unfold blen; rewrite (eok_fp e Ok); done). apply slice_full. }
  unfold index_entries. rewrite foldl_app. cbn [foldl]. fold (index_entries (c_crypto cfg) (c_indexQueryKey cfg) db pre).
  match goal with |- context [foldl ?f ?d post] => change (foldl f d post) with (index_entries (c_crypto cfg) (c_indexQueryKey cfg) d post) end.
  rewrite index_entries_other by done. unfold Insert, set_index. cbn [indexObj_]. rewrite lookup_insert_eq. cbn [of_option rbind].
  replace (blen _ =? sizeof_RecipeEntry) with true by (symmetry; apply Z.eqb_eq; unfold blen; rewrite Le; done).
  rewrite De. cbn [rbind]. f_equal. rewrite <- (app_nil_r (recipe_put (e_recipe e))). apply recipe_get_put, (eok_recipe e Ok).
Qed.

(** C27. The cache of the enclave is not told about the offline pass.  Take a container of
    any entries, in which two chunks [a] and [b] that follow each other are stored in as
    many bytes, and cache it; then [Update_cold_container] cuts [a] out.  The index it
    leaves gives, for the fingerprint of [b], a recipe with which the base chunk read from
    the file is [b].  But for any chunk that is similar to [b] [OfflinedeltaTure] takes the
    container from the cache, and there the same recipe gives [a], a chunk that is not in
    the container any more: the delta is computed against it, and a restore will apply it
    to [b]. *)
Theorem cache_is_stale `{EVPLaws} `{LZ4} (cfg : Config) (n : nat) (w : World) (name sk buf : bytes) (pre rest : list entry) (a b : entry) (x y : bytes) :
  (0 < n)%nat -> blen name = CONTAINER_ID_LENGTH -> let body := body_bytes (pre ++ a :: b :: rest) in
  delta_dir (w_dirs w) !! name = None -> base_dir (w_dirs w) !! name = Some body ->
  laid_out 0 name (pre ++ a :: b :: rest) -> total_size (pre ++ a :: b :: rest) <= MAX_CONTAINER_SIZE ->
  blen (e_data a) = blen (e_data b) -> blen (e_data b) <= 2 * MAX_CHUNK_SIZE -> (forall e, e ∈ rest -> e_fp e <> e_fp b) ->
  entry_content cfg a = Ok x -> entry_content cfg b = Ok y ->
  exists c w' r body' slot,
    InsertToCache_Offline (InContainercache_init n) name (loaded body) MAX_CONTAINER_SIZE = Ok c /\
    Update_cold_container (c_crypto cfg) (c_indexQueryKey cfg) w name [cold_pair a] buf = Ok w' /\
    lookup_recipe (setting cfg sk (w_dirs w') (w_db w')) (e_fp b) = Ok r /\
    re_containerName r = name /\ base_dir (w_dirs w') !! name = Some body' /\ base_chunk cfg body' r = Ok y /\
    base_chunk cfg slot r = Ok x /\
    forall disk e o batch_map core, c_cache core = c -> excluded (iq_chunkHash e) = false -> oq_deltaFlag o = OUT_DELTA ->
      slice (oq_basechunkAddr o) 0 CONTAINER_ID_LENGTH = name ->
      exists e' o' core', OfflinedeltaTure disk false e o batch_map core = Ok (e', o', Some slot, batch_map, core').
Proof.
  intros Hn Nm body Dd Db La Mx Hl Sz Un Ca Cb. pose proof (init_refines n Hn) as R.
  assert (Lb : blen body <= MAX_CONTAINER_SIZE) by (unfold body; by rewrite (body_bytes_size 0 name)).
  destruct (InContainercache_ok _ _ name R) as (_ & Ins & _).
  destruct (Ins ltac:(apply not_elem_of_nil) (loaded body) MAX_CONTAINER_SIZE (loaded_size body Lb)) as (c & Ec & Rc).
  destruct (InContainercache_ok _ _ name Rc) as (Ex & _ & Rd).
  assert (Es : spec_insert (cacheSize_ (InContainercache_init n)) [] name (loaded body) = [(name, loaded body)]).
  { unfold spec_insert. cbn [InContainercache_init cacheSize_]. by destruct n as [|[|n]]; [lia|..]. }
  destruct (Rd ltac:(rewrite Es; apply (list_elem_of_here name []))) as (c' & p & dt & s' & slot & Er & Eq & Dr & Tk & _).
  assert (dt = loaded body) as ->.
  { revert Eq. rewrite Es. unfold spec_read. cbn [LruCache.node]. rewrite decide_True by done. by intros [= _ <-]. }
  assert (Eall : all_entries [(pre, a)] (b :: rest) = pre ++ a :: b :: rest) by (unfold all_entries; cbn; by rewrite app_nil_r, <- app_assoc).
  destruct (Update_cold_container_run (c_crypto cfg) (c_indexQueryKey cfg) w name false [(pre, a)] (b :: rest) [cold_pair a] buf Nm) as (w' & Ew & Ed & Ei & Lo & _).
  { rewrite Eall. by split. } { by rewrite Eall. } { by rewrite Eall. } { done. }
  cbn [survivors] in *. rewrite Z.add_0_l in *. set (b' := moved (shift_down (entry_size a)) b) in *. cbn [map] in *. fold b' in Ed, Ei, Lo.
  set (pre' := map (moved (shift_down 0)) pre) in *. set (rest' := map (moved (shift_down (entry_size a))) rest) in *.
  pose proof Lo as Lo'. apply laid_out_app in Lo' as [Lp' (Okb & Ob & Nb & _)]. rewrite Z.add_0_l in Ob.
  assert (Tp : total_size pre' = total_size pre) by apply total_size_moved.
  exists c, w', (e_recipe b'), (body_bytes (pre' ++ b' :: rest')), slot. split; [exact Ec|]. split; [exact Ew|]. split.
  { rewrite Ei. apply (index_entries_lookup cfg sk _ (w_db w) pre' b' rest'); [done|]. intros e (e0 & -> & He)%list_elem_of_fmap. exact (Un e0 He). }
  split; [exact Nb|]. split; [rewrite Ed; apply lookup_insert_eq|]. split.
  { rewrite (base_chunk_entry cfg name pre' b' rest' (e_recipe b') Lo Ob (eok_length b' Okb)); [exact Cb|exact Sz]. }
  split.
  - apply (base_chunk_prefix cfg body).
    { apply (take_prefix _ (loaded body)); [apply loaded_front|exact Tk]. }
    unfold body. rewrite (base_chunk_entry cfg name pre a (b :: rest) (e_recipe b') La); [exact Ca|by rewrite Ob|rewrite (eok_length b' Okb); symmetry; exact Hl|by rewrite Hl].
  - intros disk e o bm core Hc He Ho Hs. unfold OfflinedeltaTure. rewrite He, Ho, Hs, Hc, Z.eqb_refl. cbn [andb].
    rewrite Ex, Es. rewrite bool_decide_eq_true_2 by apply (list_elem_of_here name []). rewrite Er. cbn [rbind]. rewrite Dr. cbn [rbind]. by eexists _, _, _.
Qed.

Definition even_entries : list entry := [some_entry some_name 0 1 [7]; some_entry some_name 289 2 [9]].
Lemma even_entries_ok : laid_out 0 some_name even_entries.
Proof.
  split; [apply some_entry_ok; by_decide|]. split; [done|]. split; [done|].
  split; [apply some_entry_ok; by_decide|]. done.
Qed.
Definition even_world : World :=
  set_world_dirs cold_world {| base_dir := {[ some_name := body_bytes even_entries ]}; delta_dir := ∅ |}.
Lemma cache_is_stale_witness : exists c w' r body' slot,
  InsertToCache_Offline (InContainercache_init 1) some_name (loaded (body_bytes even_entries)) MAX_CONTAINER_SIZE = Ok c /\
  @Update_cold_container toy_evp (c_crypto ex_config4) (c_indexQueryKey ex_config4) even_world some_name [(0, 289)] [] = Ok w' /\
  @lookup_recipe toy_evp (setting ex_config4 [12] (w_dirs w') (w_db w')) (e_fp (some_entry some_name 289 2 [9])) = Ok r /\
  re_containerName r = some_name /\ base_dir (w_dirs w') !! some_name = Some body' /\ @base_chunk toy_evp toy_lz4 ex_config4 body' r = Ok [4] /\
  @base_chunk toy_evp toy_lz4 ex_config4 slot r = Ok [2] /\
  forall disk e o batch_map core, c_cache core = c -> excluded (iq_chunkHash e) = false -> oq_deltaFlag o = OUT_DELTA ->
    slice (oq_basechunkAddr o) 0 CONTAINER_ID_LENGTH = some_name ->
    exists e' o' core', OfflinedeltaTure disk false e o batch_map core = Ok (e', o', Some slot, batch_map, core').
Proof.
  apply (@cache_is_stale toy_evp toy_laws toy_lz4 ex_config4 1 even_world some_name [12] [] [] [] (some_entry some_name 0 1 [7]) (some_entry some_name 289 2 [9]) [2] [4]).
  - lia.
  - reflexivity.
  - reflexivity.
  - by_decide.
  - apply even_entries_ok.
  - by_decide.
  - reflexivity.
  - by_decide.
  - intros e He. by apply elem_of_nil in He.
  - vm_compute. reflexivity.
  - vm_compute. reflexivity.
Defined.
