(* ===== verification/Offline.v ===== *)
(** The offline pass (ecallUtil/ecallOffline.cc, [OFFLineBackward::Easy_update], and its
    ocalls in ocallSrc/storeOCall.cc): chunks whose successor was stored as a base
    become deltas of it, their own deltas are encoded again, what moved is cut out of
    the old containers, small containers are merged. *)
From Stdlib Require Import ZArith Lia.
From stdpp Require Import base list gmap sorting.
From S2P Require Import Prelude Types HTable EDelta Codec Util Database ReqContainers Container Crypto Cold Merge Restore Ingest.

(** ** State *)

(** The counters of [OFFLineBackward]; three of them are signed. *)
Module Stats.
Inductive offline_counter :=
| _offlineCompress_size | _offlineCurrBackup_size | _offlineDeltanum | _offlineDeDeltanum | _offlineDeletenum
| _Offline_DeltaSaveSize | _baseChunkNum | _baseDataSize | _deltaChunkNum | _deltaDataSize | _lz4SaveSize
| _DeltaSaveSize | _offlinedeltaChunkNum.
#[export] Instance offline_counter_dec : EqDecision offline_counter.
Proof. solve_decision. Defined.
Definition signed (c : offline_counter) : bool :=
  match c with _Offline_DeltaSaveSize | _baseChunkNum | _lz4SaveSize => true | _ => false end.
Definition add (st : offline_counter -> Z) (c : offline_counter) (n : Z) : offline_counter -> Z :=
  fun c' => if decide (c' = c) then
              let v := u64 (st c + n) in
              if signed c && (2 ^ 63 <=? v) then v - 2 ^ 64 else v
            else st c'.
Definition adds (st : offline_counter -> Z) (l : list (offline_counter * Z)) : offline_counter -> Z :=
  fold_left (fun st x => add st (fst x) (snd x)) l st.
End Stats.

(** The pass: the index, the containers and the ocall buffer; [chunkAddr] of the query
    entry; the hot container; the counter of the container names; the encoder's table
    and output; [delta_map]; [skip_num]; the counters. *)
Record Pass := mk_pass {
  p_world : World;
  p_chunkAddr : bytes;
  hot_container : Container_t;
  p_times : Z;
  psHTable2Offline_ : htable DeltaRecord;
  plainNewDeltaChunkBuffer_ : bytes;
  delta_map : gmap bytes (list bytes);
  skip_num : Z;
  p_stats : Stats.offline_counter -> Z
}.
Definition with_world (s : Pass) (w : World) : Pass :=
  mk_pass w (p_chunkAddr s) (hot_container s) (p_times s) (psHTable2Offline_ s) (plainNewDeltaChunkBuffer_ s) (delta_map s) (skip_num s) (p_stats s).
Definition with_query (s : Pass) (a : bytes) : Pass :=
  mk_pass (p_world s) a (hot_container s) (p_times s) (psHTable2Offline_ s) (plainNewDeltaChunkBuffer_ s) (delta_map s) (skip_num s) (p_stats s).
Definition with_hot (s : Pass) (c : Container_t) (t : Z) : Pass :=
  mk_pass (p_world s) (p_chunkAddr s) c t (psHTable2Offline_ s) (plainNewDeltaChunkBuffer_ s) (delta_map s) (skip_num s) (p_stats s).
Definition with_table (s : Pass) (t : htable DeltaRecord) (d : bytes) : Pass :=
  mk_pass (p_world s) (p_chunkAddr s) (hot_container s) (p_times s) t d (delta_map s) (skip_num s) (p_stats s).
Definition with_deltas (s : Pass) (m : gmap bytes (list bytes)) : Pass :=
  mk_pass (p_world s) (p_chunkAddr s) (hot_container s) (p_times s) (psHTable2Offline_ s) (plainNewDeltaChunkBuffer_ s) m (skip_num s) (p_stats s).
Definition with_skip (s : Pass) (n : Z) : Pass :=
  mk_pass (p_world s) (p_chunkAddr s) (hot_container s) (p_times s) (psHTable2Offline_ s) (plainNewDeltaChunkBuffer_ s) (delta_map s) n (p_stats s).
Definition with_stats (s : Pass) (st : Stats.offline_counter -> Z) : Pass :=
  mk_pass (p_world s) (p_chunkAddr s) (hot_container s) (p_times s) (psHTable2Offline_ s) (plainNewDeltaChunkBuffer_ s) (delta_map s) (skip_num s) st.
Definition pstat (s : Pass) (l : list (Stats.offline_counter * Z)) : Pass := with_stats s (Stats.adds (p_stats s) l).
Definition pocall (s : Pass) : Pass := with_world s (ocall (p_world s)).
Definition p_db (s : Pass) : IndexStore := w_db (p_world s).
Definition with_db (s : Pass) (db : IndexStore) : Pass := with_world s (set_world_db (p_world s) db).

(** ** Ocalls *)

(** [Ocall_OneContainer] and [Ocall_OneDeltaContainer]: a file that is not there leaves
    the buffer; only the first one reports it. *)
Definition read_into (w : World) (file : option bytes) : result (World * bool) :=
  match file with
  | Some body => if MAX_CONTAINER_SIZE <? blen body then Err Undefined
                 else Ok (set_world_buf w (write (Cold.tmpOcallcontainer w) 0 body) (containersize w), true)
  | None => Ok (w, false)
  end.
Definition Ocall_OneContainer (w : World) (name : bytes) : result (World * bool) := read_into w (base_dir (w_dirs w) !! name).
Definition Ocall_OneDeltaContainer (w : World) (name : bytes) : result World :=
  x <-- read_into w (delta_dir (w_dirs w) !! name) ;; Ok (fst x).

(** [Ocall_OneRecipe] copies the entry of the index to [chunkAddr]; a hash that is not
    found leaves it. *)
Definition Ocall_OneRecipe (db : IndexStore) (chunkHash addr : bytes) : result bytes :=
  match QueryBuffer db chunkHash CHUNK_HASH_SIZE with
  | Some v => stored_recipe v
  | None => Ok addr
  end.

(** The super-features leave the index with their chunk, or offer a new one. *)
Definition Ocall_OFFline_updateIndex (db : IndexStore) (superfeature chunkHash : bytes) (keySize : Z) : result IndexStore :=
  InsertSF db superfeature chunkHash (if keySize =? 0 then 2 else 1).

(** [Ocall_QueryDeltaIndex]: the buffer has room for 100000 hashes, the first one is
    that of the base. *)
Definition Ocall_QueryDeltaIndex (db : IndexStore) (hash : bytes) : result (IndexStore * list bytes) :=
  let '(db, found) := QueryDeltaIndex db hash in
  let l := default [] found in
  if 100000 <? blen l + 1 then Err Undefined else Ok (db, l).

Definition Ocall_SavehotContainer (w : World) (containerID body : bytes) : World :=
  let d := w_dirs w in
  set_world_dirs w {| base_dir := base_dir d; delta_dir := <[slice containerID 0 CONTAINER_ID_LENGTH := body]> (delta_dir d) |}.

(** A [std::set] of names. *)
Fixpoint set_insert (x : bytes) (l : list bytes) : list bytes :=
  match l with
  | [] => [x]
  | y :: l => if lex_le x y then x :: y :: l else y :: set_insert x l
  end.
Definition Ocall_ColdInsert (db : IndexStore) (ColdContainerID : bytes) (pair : Z * Z) : IndexStore :=
  set_cold db (push (_cold_map db) ColdContainerID pair) (_cold_container_vector db)
    (if bool_decide (ColdContainerID ∈ _cold_container_set db) then _cold_container_set db
     else set_insert ColdContainerID (_cold_container_set db)).
Definition Ocall_Coldrevise (db : IndexStore) : IndexStore :=
  set_cold db (_cold_map db) (_cold_container_vector db ++ _cold_container_set db) [].

(** [pop_back] of at most [n] elements, the last one first. *)
Definition pop_back {V} (n : nat) (l : list V) : list V * list V :=
  (take (length l - n) l, take n (reverse l)).

(** [Ocall_GetCold], in batches of [Cold_Batch] containers; the list of a container is
    emptied from its end.  The buffer has 4000 * 32 bytes. *)
Definition Cold_Batch : nat := 1.
Definition cold_bytes (x : bytes * list (Z * Z)) : Z := CONTAINER_ID_LENGTH + 4 + 8 * blen (snd x).
Fixpoint take_cold (names : list bytes) (m : gmap bytes (list (Z * Z))) : gmap bytes (list (Z * Z)) * list (bytes * list (Z * Z)) :=
  match names with
  | [] => (m, [])
  | n :: names =>
    let '(m', l) := take_cold names (delete n m) in (m', (n, reverse (default [] (m !! n))) :: l)
  end.
Definition Ocall_GetCold (db : IndexStore) : result (IndexStore * list (bytes * list (Z * Z))) :=
  let '(rest, names) := pop_back Cold_Batch (_cold_container_vector db) in
  let '(m, l) := take_cold names (_cold_map db) in
  if 4000 * CHUNK_HASH_SIZE <? 4 + foldr Z.add 0 (map cold_bytes l) then Err Undefined
  else Ok (set_cold db m rest (_cold_container_set db), l).

(** [Ocall_GetLocal], in batches of [Local_Batch] pairs. *)
Definition Local_Batch : nat := 100.
Definition Ocall_GetLocal (db : IndexStore) : IndexStore * list (bytes * bytes) :=
  let '(rest, l) := pop_back Local_Batch (_local_map db) in
  (set_local db (_local_tmp_map db) rest (skipMap db), l).

(** [Ocall_CleanLocalIndex]. *)
Definition Ocall_CleanLocalIndex (db : IndexStore) : IndexStore := set_local db (_local_tmp_map db) [] (skipMap db).

(** [myGreedyCompare] orders the pairs by the number of deltas of the old chunk. *)
Definition myGreedyCompare (v1 v2 : bytes * Z) : bool := snd v1 <? snd v2.
Definition greedy_le (x y : bytes * Z) : Prop := myGreedyCompare y x = false.
#[export] Instance greedy_le_dec : RelDecision greedy_le.
Proof. intros x y. unfold greedy_le. apply _. Defined.

Section order.
Context `{MapOrder}.
(** The pairs of [Ocall_Localrevise]: every queued one, and the chunks that were passed
    over for a later successor, with that successor. *)
Definition greedy_pairs (db : IndexStore) (x : bytes * bytes) : list (bytes * bytes) :=
  x :: map (fun prev => (prev, snd x)) (default [] (skipMap db !! fst x)).
Definition local_greedy_basemap (db : IndexStore) : gmap bytes bytes :=
  fold_left (fun m x => <[fst x := snd x]> m) (concat (map (greedy_pairs db) (order (_local_tmp_map db)))) ∅.
Definition Ocall_Localrevise (db : IndexStore) : IndexStore :=
  let m := local_greedy_basemap db in
  let Tmp_pair := map (fun x => (fst x, blen (default [] (delta_index db !! fst x)))) (order m) in
  let sorted := merge_sort greedy_le Tmp_pair in
  set_local db ∅ (_local_map db ++ map (fun x => (fst x, default [] (m !! fst x))) sorted) ∅.
End order.

Section pass.
Context `{EVP} `{LZ4} `{MapOrder}.
(** [cryptoObj_], [Enclave::indexQueryKey_], [Enclave::enclaveKey_]. *)
Variables (cryptoObj_ : EcallCrypto) (indexQueryKey_ enclaveKey_ : bytes).

(** ** Reading chunks *)

Definition one_recipe (s : Pass) (hash : bytes) : result (Pass * RecipeEntry_t) :=
  a <-- Ocall_OneRecipe (p_db s) hash (p_chunkAddr s) ;;
  plain <-- AESCBCDec cryptoObj_ a indexQueryKey_ ;;
  Ok (with_query s a, recipe_get plain).

(** The name of the container goes to [chunkAddr.containerName]. *)
Definition name_query (s : Pass) (r : RecipeEntry_t) : Pass := with_query s (write (p_chunkAddr s) 0 (re_containerName r)).
Definition load_base (s : Pass) (r : RecipeEntry_t) : result (Pass * bool) :=
  let s := name_query s r in
  x <-- Ocall_OneContainer (p_world s) (re_containerName r) ;;
  Ok (with_world s (fst x), snd x).
Definition load_delta (s : Pass) (r : RecipeEntry_t) : result Pass :=
  let s := name_query s r in
  w <-- Ocall_OneDeltaContainer (p_world s) (re_containerName r) ;;
  Ok (with_world s w).
Definition update_sf (s : Pass) (hash : bytes) (r : RecipeEntry_t) (keySize : Z) : result Pass :=
  db <-- Ocall_OFFline_updateIndex (p_db s) (re_superfeature r) hash keySize ;; Ok (with_db s db).

(** The content of a chunk, decrypted with the IV behind it; the buffers have the size
    of the largest chunk. *)
Definition chunk_content (container : bytes) (r : RecipeEntry_t) : result bytes :=
  let at_ := re_offset r + header_size in
  if in_bounds container at_ (re_length r) && in_bounds container (at_ + re_length r) CRYPTO_BLOCK_SIZE then
    if MAX_CHUNK_SIZE <? re_length r then Err Undefined else
    DecryptionWithKeyIV cryptoObj_ (fst (GetChunk_content_buffer container r true (0, 0))) enclaveKey_ (GetChunk_IV container r)
  else Err Undefined.
(** Here only a negative result of LZ4 says that the chunk was not compressed. *)
Definition chunk_plain (content : bytes) : bytes := default content (LZ4_decompress_safe content MAX_CHUNK_SIZE).

(** ** One delta of the old base *)

(** [ed3_encode_buffer] into [offline_plainNewDeltaChunkBuffer_]. *)
Definition encode_delta (s : Pass) (chunk base : bytes) : result (Pass * bytes) :=
  x <-- OFFLineBackward.ed3_encode_buffer chunk (blen chunk) base (blen base) (plainNewDeltaChunkBuffer_ s) (psHTable2Offline_ s) 0 ;;
  let '(d, n, t) := x in
  if MAX_CHUNK_SIZE <? n then Err Undefined else Ok (with_table s t d, slice d 0 n).

(** [GetNew_deltachunk]: the delta is decoded with the old base and encoded with the new
    one; the second component is the flag. *)
Definition GetNew_deltachunk (s : Pass) (old_deltachunk old_basechunk new_basechunk : bytes) : result (Pass * bytes * bool) :=
  x <-- OFFLineBackward.ed3_decode_buffer old_deltachunk (blen old_deltachunk) old_basechunk (blen old_basechunk) [] ;;
  let '(buffer, size) := x in
  if MAX_CHUNK_SIZE <? blen buffer then Err Undefined else
  let old_unique_chunk := take (Z.to_nat size) buffer in
  y <-- encode_delta s old_unique_chunk new_basechunk ;;
  let '(s, d) := y in
  let old := blen old_deltachunk in let new := blen d in
  if size <? new then Ok (s, d, false) else
  Ok (pstat s [(Stats._offlineCompress_size, new - old); (Stats._offlineCurrBackup_size, new - old);
        (Stats._Offline_DeltaSaveSize, old - new); (Stats._DeltaSaveSize, old - new); (Stats._deltaDataSize, new - old);
        (Stats._offlineDeltanum, 1); (Stats._offlineDeDeltanum, 1)], d, true).

(** A chunk that is now the delta [content] of [base]: it goes to the hot container with
    the IV it had, the indexes learn about it, and its old place [cold] is remembered. *)
Definition insert_hot (s : Pass) (data : bytes) (r : RecipeEntry_t) (fp sf iv : bytes) : result (Pass * RecipeEntry_t) :=
  x <-- InsertHot_container (hot_container s) (p_times s) data r fp sf iv ;;
  let '(c, t, saved, r) := x in
  let s := with_hot s c t in
  Ok (match saved with Some (name, body) => with_world s (Ocall_SavehotContainer (p_world s) name body) | None => s end, r).
Definition move_to_hot (s : Pass) (hash base content : bytes) (r : RecipeEntry_t) (fp sf iv : bytes) (cold : Z * Z) : result Pass :=
  let containerID := re_containerName r in
  cipher <-- EncryptWithKeyIV cryptoObj_ content enclaveKey_ iv ;;
  x <-- insert_hot s cipher (set_addr_base (set_addr r containerID (re_offset r) (u32 (blen content)) (re_superfeature r)) base) fp sf iv ;;
  let '(s, r) := x in
  outRecipe <-- AESCBCEnc cryptoObj_ (recipe_put r) indexQueryKey_ ;;
  let s := with_world s (UpdateIndexStore (p_world s) hash outRecipe sizeof_RecipeEntry) in
  let s := pocall (with_db s (Ocall_UpdateDeltaIndex (p_db s) [(base, hash)])) in
  Ok (pocall (with_db s (Ocall_ColdInsert (p_db s) containerID cold))).

Definition move_delta (s : Pass) (old_chunk new_chunk new_basechunkhash delta_chunkhash : bytes) : result (Pass * bool) :=
  x <-- one_recipe s delta_chunkhash ;;
  let '(s, delta_recipe) := x in
  s <-- load_delta s delta_recipe ;;
  let s := pocall s in
  let tmpDeltaContainer := Cold.tmpOcallcontainer (p_world s) in
  let delta_fp := GetChunk_FP tmpDeltaContainer delta_recipe in
  let delta_sf := GetChunk_SF tmpDeltaContainer delta_recipe in
  let delta_iv := GetChunk_IV tmpDeltaContainer delta_recipe in
  let deltapair := snd (GetChunk_content_buffer tmpDeltaContainer delta_recipe true (0, 0)) in
  content <-- chunk_content tmpDeltaContainer delta_recipe ;;
  y <-- GetNew_deltachunk s content old_chunk new_chunk ;;
  let '(s, new_delta_content, tmp_delta_flag) := y in
  if tmp_delta_flag then
    s <-- move_to_hot s delta_chunkhash new_basechunkhash new_delta_content delta_recipe delta_fp delta_sf delta_iv deltapair ;;
    Ok (s, true)
  else Ok (s, false).

(** The loop over [delta_map[old_basechunkhash]], with [delta_flag]. *)
Fixpoint move_deltas (l : list bytes) (old_chunk new_chunk new_basechunkhash : bytes) (delta_flag : bool) (s : Pass) : result (Pass * bool) :=
  match l with
  | [] => Ok (s, delta_flag)
  | delta_chunkhash :: l =>
    x <-- move_delta s old_chunk new_chunk new_basechunkhash delta_chunkhash ;;
    move_deltas l old_chunk new_chunk new_basechunkhash (if snd x then delta_flag else false) (fst x)
  end.

(** ** One pair *)

(** The deltas of the old base are taken out of the index outside. *)
Definition take_deltas (s : Pass) (old_basechunkhash : bytes) : result Pass :=
  x <-- Ocall_QueryDeltaIndex (p_db s) old_basechunkhash ;;
  Ok (with_deltas (with_db s (fst x)) (fold_left (fun m d => push m old_basechunkhash d) (snd x) (delta_map s))).

(** The old base itself becomes a delta of the new one. *)
Definition convert_base (s : Pass) (old_basechunkhash new_basechunkhash : bytes) (old_recipe : RecipeEntry_t)
    (old_chunk new_chunk old_chunk_IV : bytes) (basepair : Z * Z) (delta_flag : bool) : result Pass :=
  x <-- encode_delta s old_chunk new_chunk ;;
  let '(s, d) := x in
  let n := blen d in let size := re_length old_recipe in
  let saved := blen old_chunk - n in
  let '(s, delta_flag) :=
    if blen old_chunk <? n then (s, false) else
    (pstat s [(Stats._offlineCompress_size, n - size); (Stats._offlineCurrBackup_size, n - size);
       (Stats._offlinedeltaChunkNum, 1); (Stats._deltaChunkNum, 1); (Stats._baseChunkNum, -1); (Stats._deltaDataSize, n);
       (Stats._baseDataSize, - size); (Stats._Offline_DeltaSaveSize, saved); (Stats._lz4SaveSize, size - blen old_chunk);
       (Stats._DeltaSaveSize, saved); (Stats._offlineDeltanum, 1)], delta_flag) in
  if delta_flag then
    move_to_hot s old_basechunkhash new_basechunkhash d old_recipe old_basechunkhash (re_superfeature old_recipe) old_chunk_IV basepair
  else Ok s.

(** Nothing is moved when enough was saved: with [GREEDY_THRESHOLD] 0.0, when the size of
    the backup is 0. *)
Definition GREEDY_THRESHOLD : Z := 0.
Definition process_greedy (s : Pass) (old_basechunkhash new_basechunkhash : bytes) : result Pass :=
  x <-- one_recipe s old_basechunkhash ;;
  let '(s, old_recipe) := x in
  s <-- update_sf s old_basechunkhash old_recipe 0 ;;
  x <-- one_recipe s new_basechunkhash ;;
  let '(s, new_recipe) := x in
  s <-- update_sf s new_basechunkhash new_recipe 1 ;;
  x <-- Ocall_QueryDeltaIndex (p_db s) old_basechunkhash ;;
  Ok (pocall (with_db s (fst x))).

(** Both containers are in the enclave. *)
Definition process_loaded (s : Pass) (old_basechunkhash new_basechunkhash : bytes) (old_recipe new_recipe : RecipeEntry_t)
    (tmpOldContainer tmpNewContainer : bytes) : result Pass :=
  let basepair := snd (GetChunk_content_buffer tmpOldContainer old_recipe true (0, 0)) in
  let old_chunk_IV := GetChunk_IV tmpOldContainer old_recipe in
  old_content <-- chunk_content tmpOldContainer old_recipe ;;
  new_content <-- chunk_content tmpNewContainer new_recipe ;;
  let old_chunk := chunk_plain old_content in
  let new_chunk := chunk_plain new_content in
  s <-- take_deltas s old_basechunkhash ;;
  x <-- move_deltas (default [] (delta_map s !! old_basechunkhash)) old_chunk new_chunk new_basechunkhash true s ;;
  let '(s, delta_flag) := x in
  let s := with_deltas s (delete old_basechunkhash (delta_map s)) in
  convert_base s old_basechunkhash new_basechunkhash old_recipe old_chunk new_chunk old_chunk_IV basepair delta_flag.

Definition process_pair (GreeyOfflineSize : Z) (pair : bytes * bytes) (s : Pass) : result Pass :=
  let '(old_basechunkhash, new_basechunkhash) := pair in
  if p_stats s Stats._offlineCurrBackup_size <=? GreeyOfflineSize then process_greedy s old_basechunkhash new_basechunkhash else
  x <-- one_recipe s old_basechunkhash ;;
  let '(s, old_recipe) := x in
  x <-- load_base s old_recipe ;;
  let '(s, found) := x in
  if negb found then Ok s else
  let tmpOldContainer := Cold.tmpOcallcontainer (p_world s) in
  s <-- update_sf s old_basechunkhash old_recipe 0 ;;
  let s := pocall s in
  x <-- one_recipe s new_basechunkhash ;;
  let '(s, new_recipe) := x in
  x <-- load_base s new_recipe ;;
  let '(s, found) := x in
  if negb found then Ok (with_skip s (skip_num s + 1)) else
  let tmpNewContainer := Cold.tmpOcallcontainer (p_world s) in
  s <-- update_sf s new_basechunkhash new_recipe 1 ;;
  process_loaded (pocall s) old_basechunkhash new_basechunkhash old_recipe new_recipe tmpOldContainer tmpNewContainer.

Fixpoint process_pairs (GreeyOfflineSize : Z) (l : list (bytes * bytes)) (s : Pass) : result Pass :=
  match l with
  | [] => Ok s
  | x :: l => s <-- process_pair GreeyOfflineSize x s ;; process_pairs GreeyOfflineSize l s
  end.

(** ** The pass *)

(** The loop over the batches of pairs; the next batch is fetched before the current one
    is processed.  A batch takes at least one pair out of the queue, so [fuel] above
    its length is enough. *)
Fixpoint local_loop (fuel : nat) (GreeyOfflineSize : Z) (batch : list (bytes * bytes)) (s : Pass) : result Pass :=
  match batch with
  | [] => Ok s
  | _ =>
    match fuel with
    | O => Err Fuel
    | S fuel =>
      let local_basemap : gmap bytes bytes := fold_left (fun m x => <[fst x := snd x]> m) batch ∅ in
      let '(db, next) := Ocall_GetLocal (p_db s) in
      let s := pocall (with_db s db) in
      s <-- process_pairs GreeyOfflineSize (order local_basemap) s ;;
      local_loop fuel GreeyOfflineSize next s
    end
  end.

(** The rewriting of the containers with cold chunks, in the same manner.  What is in
    [buf], the buffer for the new container, is never read. *)
Fixpoint update_cold (l : list (bytes * list (Z * Z))) (buf : bytes) (s : Pass) : result Pass :=
  match l with
  | [] => Ok s
  | (name, cold) :: l =>
    w <-- Update_cold_container cryptoObj_ indexQueryKey_ (p_world s) name cold buf ;;
    update_cold l buf (pstat (with_world s w) [(Stats._offlineDeletenum, 1)])
  end.
Fixpoint cold_loop (fuel : nat) (batch : list (bytes * list (Z * Z))) (buf : bytes) (s : Pass) : result Pass :=
  match batch with
  | [] => Ok s
  | _ =>
    match fuel with
    | O => Err Fuel
    | S fuel =>
      let cold_basemap : gmap bytes (list (Z * Z)) :=
        fold_left (fun m x => fold_left (fun m p => push m (fst x) p) (snd x) m) batch ∅ in
      x <-- Ocall_GetCold (p_db s) ;;
      s <-- update_cold (order cold_basemap) buf (pocall (with_db s (fst x))) ;;
      cold_loop fuel (snd x) buf s
    end
  end.

Definition save_hot (s : Pass) : Pass :=
  let c := hot_container s in
  if co_currentSize c =? 0 then s
  else pocall (with_world s (Ocall_SavehotContainer (p_world s) (co_containerID c) (slice (co_body c) 0 (co_currentSize c)))).

Definition Easy_update (mergeContainer buf : bytes) (s : Pass) : result Pass :=
  let GreeyOfflineSize := p_stats s Stats._offlineCurrBackup_size * GREEDY_THRESHOLD in
  let '(db, batch) := Ocall_GetLocal (p_db s) in
  let fuel := S (length (_local_map (p_db s))) in
  s <-- local_loop fuel GreeyOfflineSize batch (pocall (with_db s db)) ;;
  let s := save_hot s in
  let s := pocall (with_db s (Ocall_Coldrevise (p_db s))) in
  let fuel := S (length (_cold_container_vector (p_db s))) in
  x <-- Ocall_GetCold (p_db s) ;;
  s <-- cold_loop fuel (snd x) buf (pocall (with_db s (fst x))) ;;
  w <-- MergeContainer cryptoObj_ indexQueryKey_ (p_world s) mergeContainer buf ;;
  Ok (with_deltas (with_world s w) ∅).

(** [EcallFreqIndex::ProcessOffline]: the counters of the upload are taken over, the hot
    container gets a new name; without [Offline_Flag] the queue is dropped. *)
Definition take_over (st : counter -> Z) (p : Stats.offline_counter -> Z) : Stats.offline_counter -> Z :=
  fun c => match c with
  | Stats._offlineCompress_size => st _onlineCompress_size
  | Stats._offlineCurrBackup_size => st _onlineBackupSize
  | Stats._baseChunkNum => st _baseChunkNum
  | Stats._baseDataSize => st _baseDataSize
  | Stats._deltaChunkNum => st _deltaChunkNum
  | Stats._deltaDataSize => st _deltaDataSize
  | Stats._DeltaSaveSize => st _DeltaSaveSize
  | Stats._lz4SaveSize => st _lz4SaveSize
  | _ => p c
  end.
Definition ProcessOffline (Offline_Flag : bool) (st : counter -> Z) (mergeContainer buf : bytes) (s : Pass) : result Pass :=
  let s := with_stats s (take_over st (p_stats s)) in
  x <-- Init (hot_container s) (p_times s) ;;
  let s := with_hot s (fst x) (snd x) in
  if Offline_Flag then Easy_update mergeContainer buf s
  else Ok (pocall (with_db s (Ocall_CleanLocalIndex (p_db s)))).
(** [EnclaveIndex::ProcessOff]. *)
Definition ProcessOff (Offline_Flag : bool) (st : counter -> Z) (mergeContainer buf : bytes) (s : Pass) : result Pass :=
  ProcessOffline Offline_Flag st mergeContainer buf (with_db s (Ocall_Localrevise (p_db s))).
End pass.
