(* ===== verification/Vault.v ===== *)
(** The containers as a vault of entries: which entry stands for which chunk, where each
    is, which ones wait to be cut out; the bridge from the vault to the library that a
    restore needs, and what reading a chunk back gives. *)
From Stdlib Require Import ZArith Lia.
From stdpp Require Import base list gmap.
From S2P Require Import Prelude Types HTable EDelta EDeltaEnc EDeltaCorrect Codec ReqContainers Database Container Writer Crypto Cold Merge Restore RestoreCorrect Ingest Library IngestStore.

#[export] Instance recipe_eq_dec : EqDecision RecipeEntry_t.
Proof. solve_decision. Defined.
#[export] Instance entry_eq_dec : EqDecision entry.
Proof. solve_decision. Defined.

(** ** Containers on shelves *)

(** Every container: whether it is in the delta directory, and its entries. *)
Abbreviation shelves := (gmap bytes (bool * list entry)).
Definition shelf (delta : bool) (F : shelves) : gmap bytes (list entry) :=
  omap (fun p => if Bool.eqb (fst p) delta then Some (snd p) else None) F.
Record on_shelves (D : Directories) (F : shelves) : Prop := {
  os_base : base_dir D = body_bytes <$> shelf false F;
  os_delta : delta_dir D = body_bytes <$> shelf true F
}.

Lemma shelf_lookup delta F n es : shelf delta F !! n = Some es <-> F !! n = Some (delta, es).
Proof.
  unfold shelf. rewrite lookup_omap. destruct (F !! n) as [[d l]|]; cbn; [destruct d, delta; cbn; split; congruence|split; congruence].
Qed.
Lemma shelf_none delta F n : F !! n = None -> shelf delta F !! n = None.
Proof. intros E. unfold shelf. by rewrite lookup_omap, E. Qed.
Lemma shelf_other delta F n es : F !! n = Some (delta, es) -> shelf (negb delta) F !! n = None.
Proof. intros E. unfold shelf. rewrite lookup_omap, E. by destruct delta. Qed.
Lemma shelf_insert delta F n es : shelf delta (<[n := (delta, es)]> F) = <[n := es]> (shelf delta F).
Proof. unfold shelf. apply omap_insert_Some. cbn. by rewrite eqb_reflx. Qed.
Lemma shelf_insert_other delta F n es : shelf (negb delta) F !! n = None -> shelf (negb delta) (<[n := (delta, es)]> F) = shelf (negb delta) F.
Proof.
  intros N. apply map_eq. intros k. unfold shelf in *. rewrite lookup_omap in N |- *. rewrite lookup_omap.
  destruct (decide (k = n)) as [->|]; [|by rewrite lookup_insert_ne]. rewrite lookup_insert_eq, N. by destruct delta.
Qed.
Lemma shelf_delete delta F n : shelf delta (delete n F) = delete n (shelf delta F).
Proof. unfold shelf. apply omap_delete. Qed.

Section shelves.
Variables (D : Directories) (F : shelves).
Hypothesis HD : on_shelves D F.

Lemma shelves_base n : base_dir D !! n = body_bytes <$> shelf false F !! n.
Proof. by rewrite (os_base _ _ HD), lookup_fmap. Qed.
Lemma shelves_delta n : delta_dir D !! n = body_bytes <$> shelf true F !! n.
Proof. by rewrite (os_delta _ _ HD), lookup_fmap. Qed.
Lemma shelves_stored n delta es : F !! n = Some (delta, es) -> stored D delta n (body_bytes es).
Proof.
  intros E. pose proof (shelf_other _ _ _ _ E) as N. apply shelf_lookup in E. destruct delta; cbn [stored negb] in *.
  - by rewrite shelves_delta, E.
  - by rewrite shelves_delta, N, shelves_base, E.
Qed.
Lemma shelves_open n delta es : F !! n = Some (delta, es) -> open_container D n = Ok (body_bytes es).
Proof.
  intros E. pose proof (shelf_other _ _ _ _ E) as N. apply shelf_lookup in E. unfold open_container.
  destruct delta; cbn [negb] in N; [by rewrite shelves_base, N, shelves_delta, E|by rewrite shelves_base, E].
Qed.
Lemma shelves_fresh n : fresh D n <-> F !! n = None.
Proof.
  unfold fresh. rewrite shelves_base, shelves_delta. split.
  - intros [B Dl]. destruct (F !! n) as [[[] es]|] eqn:E; [| |done]; apply shelf_lookup in E; [by rewrite E in Dl|by rewrite E in B].
  - intros E. by rewrite !shelf_none.
Qed.
(** A file written to one directory is not in the other. *)
Lemma shelves_store n delta es :
  shelf (negb delta) F !! n = None -> on_shelves (store_at D delta n (body_bytes es)) (<[n := (delta, es)]> F).
Proof.
  intros N. destruct delta; cbn [negb store_at] in *; split; cbn [base_dir delta_dir]; rewrite ?shelf_insert, ?(shelf_insert_other true), ?(shelf_insert_other false) by done;
    rewrite ?fmap_insert, ?(os_base _ _ HD), ?(os_delta _ _ HD); done.
Qed.
End shelves.

(** ** Where an entry is *)

Definition file_ok (name : bytes) (p : bool * list entry) : Prop :=
  fixed 7 name /\ laid_out 0 name (snd p) /\ total_size (snd p) <= MAX_CONTAINER_SIZE /\
  Forall (fun e => re_deltaFlag (e_recipe e) = if fst p then DELTA else NO_DELTA) (snd p).

Lemma laid_out_elem off name es e : laid_out off name es -> e ∈ es ->
  entry_ok e /\ re_containerName (e_recipe e) = name /\ off <= re_offset (e_recipe e) < off + total_size es.
Proof.
  revert off. induction es as [|x es IH]; intros off; [by intros _ ?%elem_of_nil|]. intros (Ox & Off & Nm & L).
  change (total_size (x :: es)) with (entry_size x + total_size es). pose proof (entry_size_pos x). pose proof (total_size_nonneg es).
  intros [->|He]%elem_of_cons; [split; [done|]; split; [done|lia]|]. destruct (IH _ L He) as (? & ? & ?). split; [done|]. split; [done|lia].
Qed.
Lemma laid_out_inj off name es e e' : laid_out off name es -> e ∈ es -> e' ∈ es ->
  re_offset (e_recipe e) = re_offset (e_recipe e') -> e = e'.
Proof.
  revert off. induction es as [|x es IH]; intros off; [by intros _ ?%elem_of_nil|]. intros (Ox & Off & Nm & L).
  pose proof (entry_size_pos x).
  intros [->|He]%elem_of_cons [->|He']%elem_of_cons E; [done| | |by eapply IH].
  - destruct (laid_out_elem _ _ _ _ L He') as (_ & _ & ?). lia.
  - destruct (laid_out_elem _ _ _ _ L He) as (_ & _ & ?). lia.
Qed.
Lemma laid_out_nodup off name es : laid_out off name es -> NoDup es.
Proof.
  revert off. induction es as [|x es IH]; intros off; [constructor|]. intros (Ox & Off & Nm & L).
  constructor; [|by eapply IH]. intros He. pose proof (entry_size_pos x). destruct (laid_out_elem _ _ _ _ L He) as (_ & _ & ?). lia.
Qed.

Lemma entry_in_body name es e : laid_out 0 name es -> e ∈ es -> in_body (body_bytes es) (e_recipe e) (e_data e) (e_iv e).
Proof.
  intros L He. apply list_elem_of_split in He as (pre & post & ->). pose proof (body_bytes_size _ _ _ L) as S.
  apply laid_out_app in L as [Lp (Oke & Off & _ & Lq)].
  rewrite Z.add_0_l in Off. rewrite <- (body_bytes_size 0 name pre Lp) in Off. pose proof (body_bytes_size _ _ _ Lq) as Sq.
  rewrite body_bytes_app in *. change (body_bytes (e :: post)) with (entry_bytes e ++ body_bytes post) in *.
  destruct (entry_parts (body_bytes pre) e (body_bytes post) Oke Off) as (_ & _ & _ & C & I).
  pose proof (entry_bytes_size e Oke) as Es. unfold entry_size in Es. pose proof (eok_length e Oke) as El.
  pose proof (blen_nonneg (body_bytes pre)). pose proof (blen_nonneg (body_bytes post)). split.
  - rewrite !blen_app, Es, El, Off. lia.
  - done.
  - rewrite <- C. unfold GetChunk_content_buffer, sizeof_RecipeEntry, CHUNK_HASH_SIZE. cbn [fst]. f_equal. lia.
  - unfold GetChunk_IV, sizeof_RecipeEntry, CHUNK_HASH_SIZE, CRYPTO_BLOCK_SIZE in I. rewrite <- I. f_equal. lia.
Qed.

Definition entries (F : shelves) (n : bytes) : list entry := from_option snd [] (F !! n).
Lemma entries_lookup (F : shelves) n e : e ∈ entries F n <-> exists delta es, F !! n = Some (delta, es) /\ e ∈ es.
Proof.
  unfold entries. destruct (F !! n) as [[delta es]|]; cbn; split.
  - intros He. by exists delta, es.
  - by intros (? & ? & [= <- <-] & He).
  - by intros ?%elem_of_nil.
  - by intros (? & ? & ? & _).
Qed.
Lemma entries_insert (F : shelves) n delta es m : entries (<[n := (delta, es)]> F) m = if decide (m = n) then es else entries F m.
Proof. unfold entries. case_decide as E; [by rewrite E, lookup_insert_eq|by rewrite lookup_insert_ne]. Qed.

(** The chunks that wait to be cut out of a container. *)
Definition cold_of (cold : gmap bytes (list (Z * Z))) (n : bytes) : list (Z * Z) := default [] (cold !! n).
Lemma cold_of_push cold n q m : cold_of (push cold n q) m = if decide (m = n) then cold_of cold n ++ [q] else cold_of cold m.
Proof. unfold cold_of, push. case_decide as E; [by rewrite E, lookup_insert_eq|by rewrite lookup_insert_ne]. Qed.

(** The entries [V], by their keys, are in the containers [F]; every other entry of a
    container is in its cold list. *)
Record housed (V : gmap bytes entry) (F : shelves) (cold : gmap bytes (list (Z * Z))) : Prop := {
  ho_files : map_Forall file_ok F;
  ho_home : forall k e, V !! k = Some e -> e_fp e = k /\ e ∈ entries F (re_containerName (e_recipe e));
  ho_cold : forall n, NoDup (cold_of cold n) /\
              forall q, q ∈ cold_of cold n <-> exists e, e ∈ entries F n /\ V !! e_fp e <> Some e /\ q = cold_pair e
}.

Lemma files_laid (F : shelves) n : map_Forall file_ok F -> laid_out 0 n (entries F n).
Proof. intros Fo. unfold entries. destruct (F !! n) as [[delta es]|] eqn:E; [|done]. apply (Fo _ _ E). Qed.
Lemma cold_pair_inj (F : shelves) n e e' : map_Forall file_ok F -> e ∈ entries F n -> e' ∈ entries F n -> cold_pair e = cold_pair e' -> e = e'.
Proof. intros Fo He He' [= E _]. eapply laid_out_inj; [by apply files_laid|done..]. Qed.

(** An entry is stored a second time, under the same key: the old place becomes cold. *)
Lemma housed_move V F F' cold k e e' :
  housed V F cold -> V !! k = Some e -> e_fp e' = k -> map_Forall file_ok F' ->
  (forall n x, x ∈ entries F' n <-> x ∈ entries F n \/ n = re_containerName (e_recipe e') /\ x = e') ->
  (forall n, e' ∉ entries F n) ->
  housed (<[k := e']> V) F' (push cold (re_containerName (e_recipe e)) (cold_pair e)).
Proof.
  intros [Fo Hm Co] Ek Fp Fo' En Nw. destruct (Hm _ _ Ek) as [Fe He]. split; [done| |].
  - intros k' x Ex. apply lookup_insert_Some in Ex as [[<- <-]|[N Ex]].
    + split; [done|]. apply En. by right.
    + destruct (Hm _ _ Ex) as [? ?]. split; [done|]. apply En. by left.
  - assert (Dead : forall n x, x ∈ entries F n -> (<[k := e']> V !! e_fp x <> Some x <-> V !! e_fp x <> Some x \/ x = e)).
    { intros n x Hx. destruct (decide (e_fp x = k)) as [Ex|Ex].
      - rewrite Ex, lookup_insert_eq, Ek. split; [|intros _ [= ->]; by apply (Nw n)].
        intros _. destruct (decide (x = e)) as [|N]; [by right|left]. intros [= E']. by apply N.
      - rewrite lookup_insert_ne by done. split; [by left|]. intros [?| ->]; [done|by destruct Ex]. }
    intros n. destruct (Co n) as [Nd Iff]. rewrite cold_of_push. split.
    + case_decide as En'; [|done]. subst n. destruct (Co (re_containerName (e_recipe e))) as [Nd' Iff'].
      apply NoDup_app. split; [done|]. split; [|by apply NoDup_singleton]. intros q Hq ->%list_elem_of_singleton.
      apply Iff' in Hq as (x & Hx & Nx & Ex). assert (x = e) as -> by (symmetry; by eapply (cold_pair_inj F)). by rewrite Fe in Nx.
    + intros q. split.
      * intros Hq. assert (C : q ∈ cold_of cold n \/ n = re_containerName (e_recipe e) /\ q = cold_pair e).
        { revert Hq. case_decide as En'; [subst n; rewrite elem_of_app, list_elem_of_singleton; tauto|by left]. }
        destruct C as [C|[-> ->]].
        -- apply Iff in C as (x & Hx & Nx & ->). exists x. split; [apply En; by left|]. split; [|done]. apply (Dead n x Hx). by left.
        -- exists e. split; [apply En; by left|]. split; [|done]. eapply Dead; [done|by right].
      * intros (x & Hx & Nx & ->). apply En in Hx as [Hx|[-> ->]]; [|by rewrite Fp, lookup_insert_eq in Nx].
        apply (Dead n x Hx) in Nx as [Nx| ->].
        -- assert (C : cold_pair x ∈ cold_of cold n) by (apply Iff; by exists x). case_decide as En'; [subst n; apply elem_of_app; by left|done].
        -- destruct (laid_out_elem _ _ _ _ (files_laid F n Fo) Hx) as (_ & <- & _). rewrite decide_True by done.
           apply elem_of_app. right. by apply list_elem_of_singleton.
Qed.

(** ** What an entry stands for *)

Lemma KeyIV_blen `{EVP} o data key iv d : DecryptionWithKeyIV o data key iv = Ok d -> blen data = blen d.
Proof.
  unfold DecryptionWithKeyIV, same_size. intros X. inv_bind X. case_if_in X; [|done]. injection X as <-. boolz. done.
Qed.

Section vault.
Context `{EVP} `{LZ4}.
Variable cfg : Config.
Variable U : bytes -> Prop.

Definition plain (e : entry) : result bytes := DecryptionWithKeyIV (c_crypto cfg) (e_data e) (c_enclaveKey cfg) (e_iv e).
Definition is_delta (e : entry) : Prop := re_deltaFlag (e_recipe e) = DELTA.
Definition is_base (e : entry) : Prop := re_deltaFlag (e_recipe e) = NO_DELTA.
Definition based_on (e : entry) : bytes := re_basechunkHash (e_recipe e).

(** [d] is a delta of [x] against [y] that every decoder has room for. *)
Definition delta_of (x y d : bytes) : Prop := complete x (blen x) y d (blen d) /\ blen x <= 2 * (blen d + blen y).

Inductive content (V : gmap bytes entry) (e : entry) (x : bytes) : Prop :=
| content_base : is_base e -> plain e = Ok (stored_form NO_DELTA x) -> content V e x
| content_delta b y d : is_delta e -> V !! based_on e = Some b -> is_base b -> U y -> plain b = Ok (stored_form NO_DELTA y) ->
    plain e = Ok d -> delta_of x y d -> content V e x.

Definition chunks (V : gmap bytes entry) : Prop :=
  map_Forall (fun k e => blen (e_data e) <= MAX_CHUNK_SIZE /\ exists x, U x /\ keyed cfg x k /\ content V e x) V.

(** An entry that moved, or was copied: only its place in the recipe is different. *)
Record same_entry (e e' : entry) : Prop := {
  se_fp : e_fp e' = e_fp e;
  se_data : e_data e' = e_data e;
  se_iv : e_iv e' = e_iv e;
  se_flag : re_deltaFlag (e_recipe e') = re_deltaFlag (e_recipe e);
  se_base : re_basechunkHash (e_recipe e') = re_basechunkHash (e_recipe e);
  se_sf : re_superfeature (e_recipe e') = re_superfeature (e_recipe e)
}.
#[export] Instance same_entry_preorder : PreOrder same_entry.
Proof. split; [by split|]. intros a b c [] []. split; congruence. Qed.

Lemma content_same V V' e e' x : same_entry e e' ->
  (forall k b, V !! k = Some b -> is_base b -> exists b', V' !! k = Some b' /\ same_entry b b') -> content V e x -> content V' e' x.
Proof.
  intros [Fp Dt Iv Fl Bs _] Hb [B P|b y d Dl Lb Bb Uy Pb Pe Do]; unfold plain, is_base, is_delta, based_on in *.
  - apply content_base; unfold plain, is_base; congruence.
  - destruct (Hb _ _ Lb Bb) as (b' & Lb' & [Fp' Dt' Iv' Fl' Bs' _]).
    eapply (content_delta V' e' x b' y d); unfold plain, is_base, is_delta, based_on; rewrite ?Dt, ?Iv, ?Fl, ?Bs, ?Dt', ?Iv', ?Fl'; done.
Qed.
(** All entries stay what they are, wherever they are. *)
Record relocated (V V' : gmap bytes entry) : Prop := {
  rl_dom : dom V' = dom V;
  rl_same : forall k e, V !! k = Some e -> exists e', V' !! k = Some e' /\ same_entry e e'
}.
#[export] Instance relocated_preorder : PreOrder relocated.
Proof.
  split; [intros V; split; [done|]; intros k e E; by exists e|]. intros V1 V2 V3 [D S] [D' S']. split; [by rewrite D', D|].
  intros k e E. destruct (S _ _ E) as (e' & E' & R). destruct (S' _ _ E') as (e2 & E2 & R2). exists e2. split; [done|by etrans].
Qed.
Lemma relocated_back V V' k e' : relocated V V' -> V' !! k = Some e' -> exists e, V !! k = Some e /\ same_entry e e'.
Proof.
  intros [D S] E. assert (is_Some (V !! k)) as [e Ee] by (apply elem_of_dom; rewrite <- D; by eapply elem_of_dom_2).
  destruct (S _ _ Ee) as (e2 & E2 & R). exists e. split; [done|]. congruence.
Qed.
Lemma chunks_same V V' : relocated V V' -> chunks V -> chunks V'.
Proof.
  intros R C k e' Ek. destruct (relocated_back _ _ _ _ R Ek) as (e & E & S).
  destruct (C _ _ E) as (Ln & x & Ux & Kx & Cx). split; [by rewrite (se_data _ _ S)|]. exists x. split; [done|]. split; [done|].
  eapply content_same; [exact S| |exact Cx]. intros j b Ej _. by apply (rl_same _ _ R).
Qed.

Context `{!EVPLaws} `{!EVPBytes}.
Hypothesis HU : universe cfg U.
Hypothesis HT : hashType_ (c_crypto cfg) = SHA_256.

Lemma keyed_inj x y k : U x -> U y -> keyed cfg x k -> keyed cfg y k -> x = y.
Proof.
  intros Ux Uy (fp & Hx & Kx) (fp' & Hy & Ky). pose proof (hash_blen cfg HT _ _ Hx) as L. pose proof (hash_blen cfg HT _ _ Hy) as L'.
  assert (fp = fp') as <- by (eapply CMC_inj; [| |exact Kx|exact Ky]; rewrite ?L, ?L'; done). by eapply (un_hash _ _ HU).
Qed.
Lemma stored_inj x y : U x -> U y -> stored_form NO_DELTA x = stored_form NO_DELTA y -> x = y.
Proof. intros Ux Uy E. rewrite <- (proj1 (un_lz4 _ _ HU x Ux)), E. apply (un_lz4 _ _ HU y Uy). Qed.
Lemma base_delta e : is_base e -> is_delta e -> False.
Proof. unfold is_base, is_delta. intros -> D. done. Qed.
Lemma content_of_base V e x : is_base e -> content V e x -> plain e = Ok (stored_form NO_DELTA x).
Proof. intros B [_ P|? ? ? D]; [done|by destruct (base_delta e)]. Qed.
Lemma delta_has_base V k e : chunks V -> V !! k = Some e -> is_delta e -> exists b, V !! based_on e = Some b /\ is_base b.
Proof.
  intros C E D. destruct (C _ _ E) as (_ & x & _ & _ & [B _|b y d _ Lb Bb _ _ _ _]); [by destruct (base_delta e)|by exists b].
Qed.

(** ** The library *)

Abbreviation enc := (enc_recipe (c_crypto cfg) (c_indexQueryKey cfg)).
Definition index_of (V : gmap bytes entry) : gmap bytes bytes := (fun e => enc (e_recipe e)) <$> V.

Section library.
Variables (D : Directories) (F : shelves) (V : gmap bytes entry) (cold : gmap bytes (list (Z * Z))) (db : IndexStore).
Hypothesis HD : on_shelves D F.
Hypothesis HV : housed V F cold.
Hypothesis HC : chunks V.
Hypothesis HI : indexObj_ db = index_of V.

Lemma home k e : V !! k = Some e -> exists delta es, F !! re_containerName (e_recipe e) = Some (delta, es) /\ e ∈ es /\
  file_ok (re_containerName (e_recipe e)) (delta, es) /\ entry_ok e /\ re_deltaFlag (e_recipe e) = (if delta then DELTA else NO_DELTA).
Proof.
  intros E. destruct (ho_home _ _ _ HV _ _ E) as (_ & (delta & es & Ef & He)%entries_lookup). exists delta, es. split; [done|]. split; [done|].
  pose proof (ho_files _ _ _ HV _ _ Ef) as Fo. split; [done|]. destruct Fo as (_ & L & _ & Fl). cbn [snd fst] in *.
  split; [by apply (laid_out_elem _ _ _ _ L He)|]. rewrite Forall_forall in Fl. by apply Fl.
Qed.

Lemma home_stored k e c : V !! k = Some e -> plain e = Ok c -> stored_chunk (setting cfg [] D db) (e_recipe e) = Ok c.
Proof.
  intros E P. destruct (home k e E) as (delta & es & Ef & He & (_ & L & M & _) & Oe & _). cbn [snd] in *.
  unfold stored_chunk. cbn [setting containers]. rewrite (shelves_open _ _ HD _ _ _ Ef). cbn [rbind].
  rewrite (body_bytes_size _ _ _ L), (proj2 (Z.ltb_ge _ _)) by done.
  destruct (entry_in_body _ _ _ L He) as [Rm Ln Dt Iv]. pose proof (eok_length e Oe) as El.
  destruct (HC _ _ E) as (Sz & _). pose proof (blen_nonneg (e_data e)).
  unfold read_chunk, in_bounds, header_size, sizeof_RecipeEntry, CHUNK_HASH_SIZE, CRYPTO_BLOCK_SIZE.
  replace (re_offset (e_recipe e) + (144 + 4 * 32)) with (re_offset (e_recipe e) + 272) by lia. rewrite Dt, Iv.
  rewrite !(proj2 (Z.leb_le _ _)) by lia. cbn [andb]. rewrite (proj2 (Z.ltb_ge _ _)) by lia. exact P.
Qed.

Lemma enc_value r : recipe_ok r -> AESCBCEnc (c_crypto cfg) (recipe_put r) (c_indexQueryKey cfg) = Ok (enc r).
Proof. intros R. by apply enc_recipe_ok. Qed.

Lemma vault_indexed k e x : V !! k = Some e -> U x -> keyed cfg x k -> content V e x ->
  indexed cfg U D db k (enc (e_recipe e)) x (e_recipe e).
Proof.
  intros E Ux Kx C. destruct (home k e E) as (delta & es & _ & _ & _ & Oe & _). pose proof (eok_recipe _ Oe) as R.
  destruct (HC _ _ E) as (Sz & _). pose proof (eok_length e Oe) as El.
  destruct C as [B P|b y d Dl Lb Bb Uy Pb Pe (Cm & Rm)].
  - apply (indexed_base cfg U HU); try done; [by apply enc_value| |by eapply home_stored].
    rewrite El. apply (KeyIV_blen (c_crypto cfg) _ _ _ _ P).
  - pose proof (home k e E) as _. destruct (home _ b Lb) as (_ & esb & _ & _ & _ & Ob & _).
    destruct (HC _ _ Lb) as (_ & y' & Uy' & Ky' & Cy').
    assert (y' = y) as ->.
    { apply (content_of_base _ _ _ Bb) in Cy'. rewrite Pb in Cy'. injection Cy' as P'. by apply stored_inj. }
    assert (Ib : indexed cfg U D db (based_on e) (enc (e_recipe b)) y (e_recipe b)).
    { apply (indexed_base cfg U HU); try done; [apply Ob|by apply enc_value, Ob| |by eapply home_stored].
      rewrite (eok_length b Ob). apply (KeyIV_blen (c_crypto cfg) _ _ _ _ Pb). }
    apply (indexed_delta cfg U HT _ _ _ _ _ _ d (enc (e_recipe b)) y (e_recipe b)); try done; [by apply enc_value|lia|by eapply home_stored|..].
    + rewrite HI. unfold index_of. fold (based_on e). by rewrite lookup_fmap, Lb.
    + pose proof (un_size _ _ HU x Ux). pose proof (un_size _ _ HU y Uy). unfold MAX_CHUNK_SIZE in *.
      assert (Ld : re_length (e_recipe e) = blen d) by (rewrite El; apply (KeyIV_blen (c_crypto cfg) _ _ _ _ Pe)).
      rewrite Ld, (complete_decode x (blen x) y (blen y) (init 0 8 64) d (blen d)); [f_equal; apply take_ge; unfold blen; lia| |done|done].
      apply (pre_of cfg U HU); [done|done|]. exact small_table_ok.
Qed.

(** What the super-feature index offers are bases, under their own features. *)
Definition offers : Prop := forall i m f l k, sfObj_ db !! i = Some m -> m !! f = Some l -> k ∈ l ->
  exists e, V !! k = Some e /\ is_base e /\ f = sf_key (re_superfeature (e_recipe e)) (Z.of_nat i).
(** The delta index knows all deltas of [b]. *)
Definition tracked (b : bytes) : Prop :=
  NoDup (default [] (delta_index db !! b)) /\
  forall k, k ∈ default [] (delta_index db !! b) <-> exists e, V !! k = Some e /\ is_delta e /\ based_on e = b.

Lemma vault_library : sf_wf db -> offers -> library cfg U D db.
Proof.
  intros W O. assert (Ix : forall k v, indexObj_ db !! k = Some v -> exists e x, V !! k = Some e /\ v = enc (e_recipe e) /\
    indexed cfg U D db k v x (e_recipe e)).
  { intros k v. rewrite HI. unfold index_of. rewrite lookup_fmap. destruct (V !! k) as [e|] eqn:E; [|done]. intros [= <-].
    destruct (HC _ _ E) as (_ & x & Ux & Kx & Cx). exists e, x. split; [done|]. split; [done|]. by apply vault_indexed. }
  split; [|done|].
  - intros k v E. destruct (Ix k v E) as (e & x & _ & _ & I). by exists x, (e_recipe e).
  - intros k (i & m & f & l & Hi & Hf & Hk). destruct (O _ _ _ _ _ Hi Hf Hk) as (e & E & B & _).
    assert (Ek : indexObj_ db !! k = Some (enc (e_recipe e))) by (rewrite HI; unfold index_of; by rewrite lookup_fmap, E).
    destruct (Ix _ _ Ek) as (e' & x & E' & _ & I). assert (e' = e) as -> by congruence. by exists (enc (e_recipe e)), x, (e_recipe e).
Qed.
End library.
End vault.
