(* ===== verification/OfflineSteps.v ===== *)
(** The steps of the offline pass on a vault: reading a recipe and a container, taking a
    chunk out of a container, encoding a delta again. *)
From Stdlib Require Import ZArith Lia.
From stdpp Require Import base list gmap.
From S2P Require Import Prelude Types HTable EDelta EDeltaEnc EDeltaCorrect Codec ReqContainers Database Container Writer Crypto Cold Merge Restore RestoreCorrect Ingest Library IngestStore Vault Offline.

Section steps.
Context `{EVPLaws} `{!EVPBytes} `{LZ4}.
Variable cfg : Config.
Variable U : bytes -> Prop.
Hypothesis HU : universe cfg U.
Hypothesis HT : hashType_ (c_crypto cfg) = SHA_256.
Abbreviation enc := (enc_recipe (c_crypto cfg) (c_indexQueryKey cfg)).
Abbreviation index_of := (index_of cfg).

(** What the pass needs of the chunks besides: room for a delta in a buffer of the size
    of the largest chunk, and no compressed form that LZ4 decodes to nothing. *)
Record roomy : Prop := {
  rm_size : forall x, U x -> blen x + 11 <= MAX_CHUNK_SIZE;
  rm_lz4 : forall x, U x -> LZ4_decompress_safe (stored_form NO_DELTA x) MAX_CHUNK_SIZE <> Some []
}.
Hypothesis HR : roomy.

Lemma chunk_plain_ok x : U x -> chunk_plain (stored_form NO_DELTA x) = x.
Proof.
  intros Ux. pose proof (proj1 (un_lz4 _ _ HU x Ux)) as E. pose proof (rm_lz4 HR x Ux) as N. unfold chunk_plain, decompress in *.
  destruct (LZ4_decompress_safe _ _) as [d|]; [|done]. cbn [default]. unfold id. case_if_in E; [done|]. destruct N. f_equal.
  apply nil_length_inv. boolz. unfold blen in *. lia.
Qed.

(** ** Reading *)

Section reading.
Variables (V : gmap bytes entry) (F : shelves) (cold : gmap bytes (list (Z * Z))) (s : Pass).
Hypothesis HV : housed V F cold.
Hypothesis HC : chunks cfg U V.
Hypothesis HI : indexObj_ (p_db s) = index_of V.

Lemma key_32 k e : V !! k = Some e -> blen k = 32.
Proof. intros E. destruct (HC _ _ E) as (_ & x & _ & Kx & _). by eapply keyed_blen. Qed.

Lemma one_recipe_ok k e : V !! k = Some e ->
  exists a, one_recipe (c_crypto cfg) (c_indexQueryKey cfg) s k = Ok (with_query s a, e_recipe e).
Proof.
  intros E. destruct (home F V cold HV k e E) as (_ & _ & _ & _ & _ & Oe & _). pose proof (eok_recipe _ Oe) as R.
  destruct (enc_recipe_ok (c_crypto cfg) (c_indexQueryKey cfg) _ R) as (_ & L & D).
  unfold one_recipe, Ocall_OneRecipe, QueryBuffer. change CHUNK_HASH_SIZE with 32. rewrite (slice_32 k (key_32 k e E)), HI.
  unfold Vault.index_of. rewrite lookup_fmap, E. cbn [fmap option_fmap option_map]. unfold stored_recipe.
  change sizeof_RecipeEntry with 144. assert (Lb : blen (enc (e_recipe e)) = 144) by (unfold blen; lia).
  rewrite Lb. cbn [Z.ltb rbind]. rewrite (slice_144 _ Lb), Z.ltb_irrefl. cbn [rbind]. rewrite D. cbn [rbind].
  eexists. by rewrite <- (app_nil_r (recipe_put _)), recipe_get_put.
Qed.
End reading.

(** The buffer begins with the container. *)
Definition loaded (buf : bytes) (es : list entry) : Prop := exists rest, buf = body_bytes es ++ rest.

Lemma read_into_ok w body : blen body <= MAX_CONTAINER_SIZE ->
  exists rest, read_into w (Some body) = Ok (set_world_buf w (body ++ rest) (containersize w), true).
Proof.
  intros L. unfold read_into. rewrite (proj2 (Z.ltb_ge _ _)) by done. by exists (drop (0 + length body) (Cold.tmpOcallcontainer w)).
Qed.

Lemma load_base_ok (F : shelves) s r es : on_shelves (w_dirs (p_world s)) F -> F !! re_containerName r = Some (false, es) ->
  file_ok (re_containerName r) (false, es) ->
  exists a rest, load_base s r = Ok (with_world (with_query s a) (set_world_buf (p_world s) (body_bytes es ++ rest) (containersize (p_world s))), true).
Proof.
  intros HD E (_ & L & M & _). unfold load_base, Ocall_OneContainer. cbn [p_world name_query with_query].
  apply shelf_lookup in E. rewrite (shelves_base _ _ HD), E. cbn [fmap option_fmap option_map snd] in *.
  destruct (read_into_ok (p_world s) (body_bytes es)) as (rest & ->); [by rewrite (body_bytes_size _ _ _ L)|].
  cbn [rbind fst snd]. by exists (write (p_chunkAddr s) 0 (re_containerName r)), rest.
Qed.
Lemma load_delta_ok (F : shelves) s r es : on_shelves (w_dirs (p_world s)) F -> F !! re_containerName r = Some (true, es) ->
  file_ok (re_containerName r) (true, es) ->
  exists a rest, load_delta s r = Ok (with_world (with_query s a) (set_world_buf (p_world s) (body_bytes es ++ rest) (containersize (p_world s)))).
Proof.
  intros HD E (_ & L & M & _). unfold load_delta, Ocall_OneDeltaContainer. cbn [p_world name_query with_query].
  apply shelf_lookup in E. rewrite (shelves_delta _ _ HD), E. cbn [fmap option_fmap option_map snd] in *.
  destruct (read_into_ok (p_world s) (body_bytes es)) as (rest & ->); [by rewrite (body_bytes_size _ _ _ L)|].
  cbn [rbind fst snd]. by exists (write (p_chunkAddr s) 0 (re_containerName r)), rest.
Qed.

(** The parts of an entry in a loaded container. *)
Record parts (buf : bytes) (e : entry) : Prop := {
  pt_fp : GetChunk_FP buf (e_recipe e) = e_fp e;
  pt_sf : GetChunk_SF buf (e_recipe e) = e_sf e;
  pt_iv : GetChunk_IV buf (e_recipe e) = e_iv e;
  pt_pair : snd (GetChunk_content_buffer buf (e_recipe e) true (0, 0)) = cold_pair e;
  pt_plain : chunk_content (c_crypto cfg) (c_enclaveKey cfg) buf (e_recipe e) = plain cfg e
}.
Lemma loaded_parts name delta es rest e : file_ok name (delta, es) -> e ∈ es -> blen (e_data e) <= MAX_CHUNK_SIZE ->
  parts (body_bytes es ++ rest) e.
Proof.
  intros (_ & L & M & _) He Sz. cbn [snd] in *. pose proof (entry_in_body _ _ _ L He) as [Rm Ln _ _].
  destruct (laid_out_elem _ _ _ _ L He) as (Oe & _ & _). pose proof (eok_length e Oe) as El.
  pose proof He as Hs. apply list_elem_of_split in Hs as (pre & post & Es).
  assert (Off : re_offset (e_recipe e) = total_size pre).
  { subst es. apply laid_out_app in L as [_ (_ & -> & _)]. done. }
  rewrite Es in L, M. destruct (GetChunk_parts name pre post e rest L M) as (P1 & P2 & P3 & P4). rewrite <- Es in P1, P2, P3, P4.
  split; try done.
  - rewrite P4. unfold cold_pair. cbn [snd]. by rewrite Off.
  - unfold chunk_content. rewrite P4, P3. cbn [fst]. pose proof (blen_nonneg (e_data e)). pose proof (blen_nonneg rest).
    unfold in_bounds, header_size, sizeof_RecipeEntry, CHUNK_HASH_SIZE, CRYPTO_BLOCK_SIZE. rewrite blen_app.
    rewrite !(proj2 (Z.leb_le _ _)) by lia. cbn [andb]. rewrite (proj2 (Z.ltb_ge _ _)) by lia. done.
Qed.

(** ** Encoding *)

Lemma reset_encoder t : encoder_ok t -> encoder_ok (ResetTable t).
Proof. intros [(p & W & Hp) E]. destruct (ResetTable_wf p t W) as [W' E']. split; [by exists p|done]. Qed.

Lemma encode_delta_ok s x y : U x -> U y -> encoder_ok (psHTable2Offline_ s) ->
  exists t buf d, encode_delta s x y = Ok (with_table s t buf, d) /\ encoder_ok t /\ delta_of x y d /\ blen d <= MAX_CHUNK_SIZE.
Proof.
  intros Ux Uy T. destruct (un_delta _ _ HU x y Ux Uy) as [Un Room].
  set (t0 := if blen y <=? u32 (head_scan x (blen x) y (blen y) + tail_scan x (blen x) y (blen y) (head_scan x (blen x) y (blen y)))
             then psHTable2Offline_ s else ResetTable (psHTable2Offline_ s)).
  assert (T0 : encoder_ok t0) by (unfold t0; case_if; [done|by apply reset_encoder]).
  pose proof (pre_of cfg U HU x y t0 Ux Uy T0) as P.
  destruct (encode_complete _ _ _ _ (plainNewDeltaChunkBuffer_ s) t0 0 P Un) as (d & n & t' & E & P' & C).
  pose proof (un_size _ _ HU x Ux). pose proof (un_size _ _ HU y Uy). pose proof (rm_size HR x Ux). pose proof C as (Hd & Hn & _).
  assert (Ed : OFFLineBackward.ed3_encode_buffer x (blen x) y (blen y) (plainNewDeltaChunkBuffer_ s) (psHTable2Offline_ s) 0 = Ok (d, n, t')).
  { unfold OFFLineBackward.ed3_encode_buffer, OFFLineBackward.EDeltaEncode. unfold EcallFreqIndex.ed3_encode in E.
    unfold MAX_CHUNK_SIZE in *. rewrite !(u32_id (blen _)) in * by lia. exact E. }
  unfold encode_delta. rewrite Ed. cbn [rbind]. rewrite (proj2 (Z.ltb_ge _ _)) by lia. eexists t', d, (slice d 0 n). split; [done|].
  rewrite blen_slice by lia. split; [|split; [split|lia]].
  - split; [exact (ep_table _ _ _ _ _ P')|exact (ep_empty _ _ _ _ _ P')].
  - rewrite blen_slice by lia. by apply complete_slice.
  - rewrite blen_slice by lia. eapply Room; [exact P|exact E].
Qed.

Lemma decode_delta_ok x y d : U x -> U y -> delta_of x y d -> blen d <= MAX_CHUNK_SIZE ->
  exists buf, OFFLineBackward.ed3_decode_buffer d (blen d) y (blen y) [] = Ok (buf, blen x) /\ take (Z.to_nat (blen x)) buf = x /\ blen buf = blen x.
Proof.
  intros Ux Uy (C & Rm) Sz. pose proof (pre_of cfg U HU x y small_table Ux Uy small_table_ok) as P.
  destruct (complete_decodes _ _ _ _ _ P d (blen d) [] C) as (out & E & Tk & L). pose proof C as ((? & _) & _ & _).
  exists out. split; [|split].
  - unfold OFFLineBackward.ed3_decode_buffer, OFFLineBackward.EDeltaDecode. unfold MAX_CHUNK_SIZE in Sz. rewrite u32_id by lia. exact E.
  - rewrite Tk. apply take_ge. unfold blen. lia.
  - rewrite L, blen_nil. pose proof (blen_nonneg x). lia.
Qed.

(** The counters do not matter to the rest. *)
Definition same_but_stats (s s' : Pass) : Prop := exists st, s' = with_stats s st.

Lemma GetNew_deltachunk_ok s x y y' d : U x -> U y -> U y' -> delta_of x y d -> blen d <= MAX_CHUNK_SIZE -> encoder_ok (psHTable2Offline_ s) ->
  exists t buf st d' flag, GetNew_deltachunk s d y y' = Ok (with_stats (with_table s t buf) st, d', flag) /\ encoder_ok t /\
    delta_of x y' d' /\ blen d' <= MAX_CHUNK_SIZE.
Proof.
  intros Ux Uy Uy' Do Sz T. destruct (decode_delta_ok x y d Ux Uy Do Sz) as (b & E & Tk & L).
  destruct (encode_delta_ok s x y' Ux Uy' T) as (t & buf & d' & E' & T' & Do' & Sz').
  pose proof (rm_size HR x Ux). unfold GetNew_deltachunk. rewrite E. cbn [rbind]. rewrite L, (proj2 (Z.ltb_ge _ _)) by lia.
  rewrite Tk, E'. cbn [rbind]. case_if.
  - exists t, buf, (p_stats s), d', false. split; [by destruct s|done].
  - eexists t, buf, _, d', true. split; [reflexivity|done].
Qed.
End steps.
