(* ===== verification/OfflineMove.v ===== *)
(** The state of the offline pass between two steps, and what moving one chunk to the hot
    container does to it. *)
From Stdlib Require Import ZArith Lia.
From stdpp Require Import base list gmap.
From S2P Require Import Prelude Types HTable EDelta EDeltaCorrect Codec Util ReqContainers Database Container Writer Crypto Cold Merge Restore RestoreCorrect Ingest Library IngestStore Vault Offline OfflineSteps.

(** ** The cold chunks *)

Lemma set_insert_perm x l : set_insert x l ≡ₚ x :: l.
Proof. induction l as [|y l IH]; [done|]. cbn. case_if; [done|]. rewrite IH. apply Permutation_swap. Qed.

(** The set has the containers with cold chunks; nothing is taken out yet. *)
Record cold_queue (db : IndexStore) : Prop := {
  cq_nodup : NoDup (_cold_container_set db);
  cq_set : forall n, n ∈ _cold_container_set db <-> cold_of (_cold_map db) n <> [];
  cq_vector : _cold_container_vector db = []
}.
Lemma ColdInsert_queue db n q : cold_queue db -> cold_queue (Ocall_ColdInsert db n q).
Proof.
  intros [Nd St Ve]. split; cbn [Ocall_ColdInsert set_cold _cold_container_set _cold_map _cold_container_vector]; [| |done].
  - case_bool_decide as Hn; [done|]. rewrite set_insert_perm. by constructor.
  - intros m. rewrite cold_of_push. assert (E : m ∈ (if bool_decide (n ∈ _cold_container_set db) then _cold_container_set db else set_insert n (_cold_container_set db)) <-> m = n \/ m ∈ _cold_container_set db).
    { case_bool_decide as Hn; [split; [by right|intros [->|]; done]|]. by rewrite set_insert_perm, elem_of_cons. }
    rewrite E. clear E. case_decide as D; [subst m|].
    + split; [intros _ C; by apply app_nil in C as [_ ?]|by left].
    + rewrite St. split; [intros [?|?]; done|by right].
Qed.

(** ** The state of the pass *)

(** The parts of the index that wait for other steps. *)
Definition waiting (db : IndexStore) := (_local_tmp_map db, _local_map db, skipMap db).

Section move.
Context `{EVPLaws} `{!EVPBytes} `{LZ4}.
Variable cfg : Config.
Variable U : bytes -> Prop.
Hypothesis HU : universe cfg U.
Hypothesis HT : hashType_ (c_crypto cfg) = SHA_256.
Abbreviation index_of := (index_of cfg).
Abbreviation hot s := (co_containerID (hot_container s)).
Abbreviation cold s := (_cold_map (p_db s)).

(** The entries [V] are in the containers [F] and in the hot container with the entries
    [hes]; [olds] are the bases still to be replaced, [news] their successors. *)
Record going (olds news : list bytes) (V : gmap bytes entry) (F : shelves) (hes : list entry) (s : Pass) : Prop := {
  go_chunks : chunks cfg U V;
  go_housed : housed V (<[(hot s) := (true, hes)]> F) (cold s);
  go_disk : on_shelves (w_dirs (p_world s)) F;
  go_new : F !! hot s = None;
  go_hot : in_ok (co_body (hot_container s)) (co_currentSize (hot_container s)) (hot s) hes;
  go_names : forall n, is_Some (F !! n) \/ n = hot s -> exists t, 0 <= t < p_times s /\ CreateUUID t = Ok n;
  go_times : 0 <= p_times s;
  go_index : indexObj_ (p_db s) = index_of V;
  go_sf : sf_wf (p_db s);
  go_offers : offers V (p_db s);
  go_tracked : forall b, b ∈ olds \/ b ∈ news \/ offered (p_db s) b \/ V !! b = None -> tracked V (p_db s) b;
  go_olds : forall b, b ∈ olds -> (b ∉ news) /\ exists e, V !! b = Some e /\ is_base e;
  go_news : forall b, b ∈ news -> exists e, V !! b = Some e /\ is_base e;
  go_hotbase : forall e, e ∈ hes -> based_on e ∈ news;
  go_encoder : encoder_ok (psHTable2Offline_ s);
  go_cold : cold_queue (p_db s);
  go_pairs : baseMergePair (p_world s) = []
}.

Lemma hot_fixed olds news V F hes s : going olds news V F hes s -> fixed 7 (hot s).
Proof. intros G. apply (ho_files _ _ _ (go_housed _ _ _ _ _ _ G) (hot s) (true, hes)). by rewrite lookup_insert_eq. Qed.

(** What a move leaves as it was. *)
Record kept (news : list bytes) (s s' : Pass) : Prop := {
  kp_deltas : forall b, b ∉ news -> delta_index (p_db s') !! b = delta_index (p_db s) !! b;
  kp_sf : sfObj_ (p_db s') = sfObj_ (p_db s);
  kp_waiting : waiting (p_db s') = waiting (p_db s);
  kp_map : delta_map s' = delta_map s
}.
#[export] Instance kept_preorder news : PreOrder (kept news).
Proof. split; [by split|]. intros a b c [D1 ? ? ?] [D2 ? ? ?]. split; [|congruence..]. intros n Hn. by rewrite D2, D1. Qed.

Lemma offered_sf db db' b : sfObj_ db' = sfObj_ db -> offered db' b <-> offered db b.
Proof. intros E. unfold offered. by rewrite E. Qed.

(** *** The hot container *)

(** One entry in the hot container, or in a new one. *)
Lemma insert_hot_ok olds news V F hes s data r k sf iv :
  going olds news V F hes s -> p_times s < 2 ^ 31 - 1 -> recipe_ok r -> re_length r = blen data -> blen data <= MAX_CHUNK_SIZE ->
  96 <= blen sf -> blen k = 32 -> blen iv = 16 ->
  exists s' F' hes' e r', insert_hot s data r k sf iv = Ok (s', r') /\ e_recipe e = r' /\ e_fp e = k /\ e_data e = data /\ e_iv e = iv /\
    is_delta e /\ based_on e = re_basechunkHash r /\
    (exists db, s' = mk_pass (set_world_dirs (p_world s) db) (p_chunkAddr s) (hot_container s') (p_times s') (psHTable2Offline_ s) (plainNewDeltaChunkBuffer_ s) (delta_map s) (skip_num s) (p_stats s)) /\
    p_times s <= p_times s' <= p_times s + 1 /\ F ⊆ F' /\ F' !! hot s' = None /\ on_shelves (w_dirs (p_world s')) F' /\
    in_ok (co_body (hot_container s')) (co_currentSize (hot_container s')) (hot s') hes' /\ re_containerName (e_recipe e) = hot s' /\
    map_Forall file_ok (<[(hot s') := (true, hes')]> F') /\
    (forall n x, x ∈ entries (<[(hot s') := (true, hes')]> F') n <-> x ∈ entries (<[(hot s) := (true, hes)]> F) n \/ n = hot s' /\ x = e) /\
    (forall n, e ∉ entries (<[(hot s) := (true, hes)]> F) n) /\
    (forall x, x ∈ hes' -> x ∈ hes \/ x = e) /\
    (forall n, is_Some (F' !! n) \/ n = hot s' -> exists t, 0 <= t < p_times s' /\ CreateUUID t = Ok n).
Proof.
  intros G Ht R El Sz Sf Lk Li. pose proof (hot_fixed _ _ _ _ _ _ G) as Fx. pose proof (go_hot _ _ _ _ _ _ G) as Hh.
  pose proof (go_times _ _ _ _ _ _ G). pose proof (ho_files _ _ _ (go_housed _ _ _ _ _ _ G)) as Fo.
  destruct (InsertHot_container_run (hot_container s) (p_times s) hes data r k sf iv Hh Fx ltac:(lia)) as
    (c' & t' & saved & r' & e & E & (Er & Ef & _ & Ed & Ei) & Fl & Bs & Fx' & Cs); [done| |lia..|].
  { rewrite El. split; [apply blen_nonneg|lia]. }
  rewrite El, slice_full in Ed. rewrite (slice_32 k Lk) in Ef. unfold insert_hot. rewrite E. cbn [rbind].
  assert (Ide : is_delta e) by (unfold is_delta; by rewrite Er). assert (Ibe : based_on e = re_basechunkHash r) by (unfold based_on; by rewrite Er).
  assert (Fd : map_Forall file_ok F).
  { intros n p En. apply Fo. rewrite lookup_insert_ne; [done|]. intros <-. pose proof (go_new _ _ _ _ _ _ G). congruence. }
  assert (Hes : Forall (fun x => re_deltaFlag (e_recipe x) = DELTA) hes).
  { destruct (Fo (hot s) (true, hes)) as (_ & _ & _ & Fh); [by rewrite lookup_insert_eq|done]. }
  revert Cs. case_if; intros Cs.
  - destruct Cs as (-> & -> & Nm & I'). rewrite Nm in *.
    pose proof (iok_layout _ _ _ _ I') as L'. pose proof (iok_max _ _ _ _ I') as M'. pose proof (iok_cur _ _ _ _ I') as C'.
    assert (Ne : re_containerName (e_recipe e) = co_containerID (hot_container s)).
    { apply laid_out_app in L' as (_ & _ & _ & N & _). done. }
    eexists _, F, (hes ++ [e]), e, r'. split; [reflexivity|]. cbn [hot_container with_hot p_times p_world]. rewrite Nm.
    repeat (split; [done|]). split; [exists (w_dirs (p_world s)); by destruct s as [[] ? ? ? ? ? ? ? ?]|]. split; [lia|]. split; [done|].
    split; [apply (go_new _ _ _ _ _ _ G)|]. split; [apply (go_disk _ _ _ _ _ _ G)|]. split; [done|]. split; [done|].
    split; [|split; [|split; [|split]]].
    + apply map_Forall_insert_2; [|done]. split; [done|]. cbn [snd fst]. split; [done|]. split; [lia|]. apply Forall_app. split; [done|by constructor].
    + intros n x. rewrite !entries_insert. case_decide as D; [|tauto]. rewrite elem_of_app, list_elem_of_singleton. tauto.
    + intros n He. rewrite entries_insert in He. case_decide as D.
      * apply laid_out_nodup in L'. apply NoDup_app in L' as (_ & L' & _). apply (L' e He). by apply list_elem_of_singleton.
      * destruct (laid_out_elem _ _ _ _ (files_laid F n Fd) He) as (_ & N & _). congruence.
    + intros x [?|Hx%list_elem_of_singleton]%elem_of_app; [by left|by right].
    + apply (go_names _ _ _ _ _ _ G).
  - destruct Cs as (-> & -> & Cu & I'). pose proof (iok_layout _ _ _ _ I') as L'. pose proof (iok_max _ _ _ _ I') as M'. pose proof (iok_cur _ _ _ _ I') as C'.
    assert (Ne : re_containerName (e_recipe e) = co_containerID c') by apply L'.
    assert (Nw : forall n, is_Some (F !! n) \/ n = hot s -> n <> co_containerID c').
    { intros n Hn ->. destruct (go_names _ _ _ _ _ _ G _ Hn) as (t & T & Et). assert (t = p_times s); [|lia].
      eapply CreateUUID_inj; [| |exact Et|exact Cu]; lia. }
    assert (Nf : F !! co_containerID c' = None) by (apply eq_None_not_Some; intros C; by apply (Nw _ (or_introl C))).
    assert (Nh : hot s <> co_containerID c') by (by apply Nw; right).
    eexists _, (<[(hot s) := (true, hes)]> F), [e], e, r'. split; [reflexivity|]. cbn [hot_container with_hot with_world p_times p_world Ocall_SavehotContainer].
    repeat (split; [done|]). split; [by eexists|]. split; [lia|]. split; [apply insert_subseteq, (go_new _ _ _ _ _ _ G)|].
    split; [by rewrite lookup_insert_ne|]. split.
    { unfold Ocall_SavehotContainer. destruct Fx as [L7 _]. unfold CONTAINER_ID_LENGTH. rewrite slice_0, take_ge by lia.
      apply (shelves_store _ _ (go_disk _ _ _ _ _ _ G) _ true), shelf_none, (go_new _ _ _ _ _ _ G). }
    split; [done|]. split; [done|]. split; [|split; [|split; [|split]]].
    + apply map_Forall_insert_2; [|done]. split; [done|]. cbn [snd fst]. split; [done|]. split; [lia|]. by constructor.
    + intros n x. rewrite (entries_insert (<[_ := _]> F)). case_decide as D; [|tauto]. subst n.
      rewrite entries_insert, decide_False by done. unfold entries. rewrite Nf. cbn [from_option].
      rewrite list_elem_of_singleton, elem_of_nil. tauto.
    + intros n He. destruct (laid_out_elem _ _ _ _ (files_laid _ n Fo) He) as (_ & N & _).
      rewrite entries_insert, decide_False in He by congruence. unfold entries in He. rewrite <- N, Ne, Nf in He. by apply elem_of_nil in He.
    + intros x Hx%list_elem_of_singleton. by right.
    + intros n Hn. destruct (decide (n = co_containerID c')) as [->|Hc].
      * exists (p_times s). split; [lia|done].
      * destruct (go_names _ _ _ _ _ _ G n) as (t & T & Et); [|exists t; split; [lia|done]].
        destruct Hn as [Hn|?]; [|done]. destruct (decide (n = hot s)) as [->|N]; [by right|left]. by rewrite lookup_insert_ne in Hn.
Qed.

(** *** Moving a chunk *)

(** A chunk that becomes a delta: nobody is encoded against it, it is not offered. *)
Record movable (olds news : list bytes) (V : gmap bytes entry) (F : shelves) (db : IndexStore) (k : bytes) (e : entry) : Prop := {
  mv_entry : V !! k = Some e;
  mv_home : e ∈ entries F (re_containerName (e_recipe e));
  mv_nobase : forall k' e', V !! k' = Some e' -> is_delta e' -> based_on e' <> k;
  mv_offered : ~ offered db k;
  mv_olds : k ∉ olds;
  mv_news : k ∉ news;
  mv_base : is_delta e -> (based_on e ∉ olds) /\ (based_on e ∉ news) /\ ~ offered db (based_on e)
}.

(** The chunks after one of them was encoded again. *)
Lemma chunks_moved V k e e' nb bn x y d :
  chunks cfg U V -> V !! k = Some e -> (forall k' a, V !! k' = Some a -> is_delta a -> based_on a <> k) ->
  V !! nb = Some bn -> is_base bn -> k <> nb -> U x -> keyed cfg x k -> U y -> plain cfg bn = Ok (stored_form NO_DELTA y) ->
  is_delta e' -> based_on e' = nb -> plain cfg e' = Ok d -> delta_of x y d -> blen (e_data e') <= MAX_CHUNK_SIZE ->
  chunks cfg U (<[k := e']> V).
Proof.
  intros C Ek Nb En Bn Nk Ux Kx Uy Pn De Be Pe Do Sz k' a. rewrite lookup_insert_Some. intros [[<- <-]|[N Ea]].
  - split; [done|]. exists x. split; [done|]. split; [done|]. eapply (content_delta cfg U _ e' x bn y d); try done.
    by rewrite Be, lookup_insert_ne.
  - destruct (C _ _ Ea) as (La & z & Uz & Kz & Cz). split; [done|]. exists z. split; [done|]. split; [done|].
    destruct Cz as [B P|b w g Dl Lb Bb Uw Pb Pa Dg]; [by apply content_base|]. eapply (content_delta cfg U _ a z b w g); try done.
    rewrite lookup_insert_ne; [done|]. intros E. by apply (Nb _ _ Ea Dl).
Qed.

Lemma tracked_moved V db k e e' nb b :
  V !! k = Some e -> is_delta e' -> based_on e' = nb -> tracked V db b -> (is_delta e -> based_on e <> b) ->
  tracked (<[k := e']> V) (set_delta db (push (delta_index db) nb k)) b.
Proof.
  intros Ek De Be [Nd Iff] Ne. unfold tracked. cbn [set_delta delta_index]. unfold push.
  assert (S : forall k', (exists a, <[k := e']> V !! k' = Some a /\ is_delta a /\ based_on a = b) <->
    (exists a, V !! k' = Some a /\ is_delta a /\ based_on a = b) \/ k' = k /\ nb = b).
  { intros k'. destruct (decide (k' = k)) as [->|N].
    - rewrite lookup_insert_eq. split; [intros (a & [= <-] & _ & Ba); right; by rewrite <- Be|].
      intros [(a & Ea & Da & Ba)|[_ <-]]; [|by exists e']. assert (a = e) as -> by congruence. by apply Ne in Da.
    - rewrite lookup_insert_ne by done. split; [by left|]. by intros [?|[? _]]. }
  destruct (decide (b = nb)) as [->|N].
  - rewrite lookup_insert_eq. cbn [default]. unfold id. split.
    + apply NoDup_app. split; [done|]. split; [|by apply NoDup_singleton]. intros k' Hk' ->%list_elem_of_singleton.
      apply Iff in Hk' as (a & Ea & Da & Ba). assert (a = e) as -> by congruence. by apply Ne in Da.
    + intros k'. rewrite S, elem_of_app, list_elem_of_singleton, Iff. tauto.
  - rewrite lookup_insert_ne by done. split; [done|]. intros k'. rewrite S, Iff. split; [by left|]. by intros [?|[_ ?]].
Qed.

Lemma move_to_hot_ok olds news V F hes s k e nb x y d sf :
  going olds news V F hes s -> movable olds news V F (p_db s) k e -> nb ∈ news ->
  (exists bn, V !! nb = Some bn /\ is_base bn /\ plain cfg bn = Ok (stored_form NO_DELTA y)) ->
  U x -> keyed cfg x k -> U y -> delta_of x y d -> blen d <= MAX_CHUNK_SIZE -> 96 <= blen sf -> p_times s < 2 ^ 31 - 1 ->
  exists s' F' hes' e',
    move_to_hot (c_crypto cfg) (c_indexQueryKey cfg) (c_enclaveKey cfg) s k nb d (e_recipe e) k sf (e_iv e) (cold_pair e) = Ok s' /\
    going olds news (<[k := e']> V) F' hes' s' /\ is_delta e' /\ based_on e' = nb /\ F ⊆ F' /\ kept news s s' /\
    p_times s' <= p_times s + 1.
Proof.
  intros G [Ek He Nb No Ko Kn Mb] Hn (bn & En & Bn & Pn) Ux Kx Uy Do Sz Hsf Ht.
  pose proof (key_32 cfg U HT V (go_chunks _ _ _ _ _ _ G)) as K32. pose proof (K32 _ _ Ek) as Lk. pose proof (K32 _ _ En) as Ln.
  destruct (home _ _ _ (go_housed _ _ _ _ _ _ G) k e Ek) as (_ & _ & _ & _ & _ & Oe & _).
  destruct (home _ _ _ (go_housed _ _ _ _ _ _ G) nb bn En) as (_ & _ & _ & _ & _ & On & _).
  destruct (go_chunks _ _ _ _ _ _ G _ _ En) as (_ & y' & Uy' & Kn' & _).
  assert (Fn : fixed 32 nb).
  { split; [unfold blen in Ln; lia|]. destruct Kn' as (fp & Hh & Hk). destruct (GenerateHash_ok (c_crypto cfg) y' HT) as (h & Eh & [_ Hb]); [by apply (un_bytes _ _ HU)|].
    rewrite Hh in Eh. injection Eh as <-. by eapply CMC_bytes. }
  unfold move_to_hot. destruct (KeyIV_ok (c_crypto cfg) d (c_enclaveKey cfg) (e_iv e)) as (cipher & -> & Lc & Dc). cbn [rbind].
  assert (Lb : blen cipher = blen d) by (unfold blen; lia). pose proof (blen_nonneg d). unfold MAX_CHUNK_SIZE in Sz. rewrite (u32_id (blen d)) by lia.
  set (r := set_addr_base _ nb).
  assert (R : recipe_ok r).
  { pose proof (eok_recipe _ Oe) as [? ? ? ? ? ?]. constructor; try done. unfold word32. cbn. lia. }
  destruct (insert_hot_ok olds news V F hes s cipher r k sf (e_iv e) G Ht R) as
    (s1 & F' & hes' & e' & r' & E1 & Er & Fp & Ed & Ei & De & Be & (dd & Es) & T1 & Sub & Nw & Dk & Hh & Nm & Fo & En' & Ne & Hx & Names);
    [cbn; lia|unfold MAX_CHUNK_SIZE; lia|done|done|unfold blen; by rewrite (eok_iv _ Oe)|]. cbn [re_basechunkHash set_addr_base r] in Be.
  rewrite E1. cbn [rbind]. destruct (enc_recipe_ok (c_crypto cfg) (c_indexQueryKey cfg) r') as (Ee & Le & _).
  { rewrite <- Er. pose proof (Fo (hot s1) (true, hes')) as (_ & Lh & _); [by rewrite lookup_insert_eq|]. cbn [snd] in Lh.
    assert (Hin : e' ∈ hes'). { assert (He' : e' ∈ entries (<[(hot s1) := (true, hes')]> F') (hot s1)) by (apply En'; by right). by rewrite entries_insert, decide_True in He'. }
    apply (laid_out_elem _ _ _ _ Lh Hin). }
  rewrite Ee. cbn [rbind].
  assert (Db : p_db s1 = p_db s) by (rewrite Es; done).
  assert (Dbw : w_db (p_world s1) = p_db s) by exact Db.
  eexists _, F', hes', e'. split; [reflexivity|].
  set (s' := pocall _).
  assert (Db' : p_db s' = Ocall_ColdInsert (InsertDeltaIndex (Insert (p_db s) k (enc_recipe (c_crypto cfg) (c_indexQueryKey cfg) r')) nb k)
                            (re_containerName (e_recipe e)) (cold_pair e)).
  { unfold s', p_db, pocall, with_db, with_world, UpdateIndexStore, InsertBothBuffer, Insert. cbn. rewrite Dbw, slice_full.
    assert (Lv : sizeof_RecipeEntry = blen (enc_recipe (c_crypto cfg) (c_indexQueryKey cfg) r')) by (unfold blen; by rewrite Le).
    by rewrite Lv, slice_full. }
  assert (Hot' : hot_container s' = hot_container s1) by done. assert (Tm' : p_times s' = p_times s1) by done.
  assert (Nk : k <> nb) by (intros ->; done).
  assert (NF : re_containerName (e_recipe e) <> hot s).
  { intros C. rewrite C in He. unfold entries in He. rewrite (go_new _ _ _ _ _ _ G) in He. by apply elem_of_nil in He. }
  split; [|split; [done|split; [done|split; [done|split; [|cbn; lia]]]]].
  - pose proof G as [Gc Gh Gd Gn Gi Gm Gt Gx Gs Go Gk Gol Gnw Gb Ge Gq Gp]. split; rewrite ?Hot', ?Tm', ?Db'; try done.
    + eapply (chunks_moved V k e e' nb bn x y d); try done; [|rewrite Ed; unfold MAX_CHUNK_SIZE; lia]. unfold plain. by rewrite Ed, Ei.
    + cbn [Ocall_ColdInsert set_cold _cold_map InsertDeltaIndex set_delta Insert set_index].
      apply (housed_move V (<[(hot s) := (true, hes)]> F) _ _ k e); try done. intros n z. by rewrite En', Nm.
    + lia.
    + cbn [Ocall_ColdInsert set_cold indexObj_ InsertDeltaIndex set_delta Insert set_index]. rewrite Gx. unfold Vault.index_of. by rewrite fmap_insert, Er.
    + intros i m f l j Hi Hf Hj. destruct (Go i m f l j Hi Hf Hj) as (a & Ea & Ba & Fa). exists a. split; [|done].
      rewrite lookup_insert_ne; [done|]. intros <-. apply No. by exists i, m, f, l.
    + intros b Hb. assert (Hb' : b ∈ olds \/ b ∈ news \/ offered (p_db s) b \/ V !! b = None).
      { destruct Hb as [?|[?|[?|[? _]%lookup_insert_None]]]; tauto. }
      pose proof (Gk b Hb') as Tr. apply (tracked_moved V (p_db s) k e e' nb b); try done. intros Dle <-.
      destruct (Mb Dle) as (M1 & M2 & M3). destruct (delta_has_base _ _ _ _ _ Gc Ek Dle) as (eb & Eb & _). destruct Hb' as [?|[?|[?|?]]]; [done..|congruence].
    + intros b Hb. destruct (Gol b Hb) as (Nbn & a & Ea & Ba). split; [done|]. exists a. rewrite lookup_insert_ne; [done|]. by intros ->.
    + intros b Hb. destruct (Gnw b Hb) as (a & Ea & Ba). exists a. rewrite lookup_insert_ne; [done|]. by intros ->.
    + intros a Ha. destruct (Hx a Ha) as [?| ->]; [by apply Gb|]. by rewrite Be.
    + change (psHTable2Offline_ s') with (psHTable2Offline_ s1). by rewrite Es.
    + apply ColdInsert_queue. by destruct Gq.
    + change (baseMergePair (p_world s')) with (baseMergePair (p_world s1)). by rewrite Es.
  - split; rewrite ?Db'; [|done|done|].
    { intros b Hb. cbn [Ocall_ColdInsert set_cold delta_index InsertDeltaIndex set_delta]. unfold push. rewrite lookup_insert_ne; [done|]. by intros <-. }
    change (delta_map s') with (delta_map s1). by rewrite Es.
Qed.
End move.
