(* ===== verification/OfflinePairs.v ===== *)
(** The pairs of the offline pass: the deltas of the old base are encoded again with its
    successor, then the old base itself; every chunk stays in the vault. *)
From Stdlib Require Import ZArith Lia.
From stdpp Require Import base list gmap.
From S2P Require Import Prelude Types HTable EDelta EDeltaCorrect Codec Util ReqContainers Database Container Writer Crypto Cold Merge Restore RestoreCorrect Ingest Library IngestStore Vault Offline OfflineSteps OfflineMove.

(** ** The super-feature index *)

(** The features of a chunk replaced or removed: what is left under them. *)
Lemma InsertSF_revise db key buffer keySize : sf_wf db ->
  exists sf', Ocall_OFFline_updateIndex db key buffer keySize = Ok (set_sf db sf') /\ sf_wf (set_sf db sf') /\
    forall i m f l k, sf' !! i = Some m -> m !! f = Some l -> k ∈ l ->
      (keySize <> 0 /\ f = sf_key key (Z.of_nat i) /\ k = slice buffer 0 CHUNK_HASH_SIZE) \/
      (f <> sf_key key (Z.of_nat i) /\ exists m0, sfObj_ db !! i = Some m0 /\ m0 !! f = Some l).
Proof.
  intros W. unfold Ocall_OFFline_updateIndex. set (flag := if keySize =? 0 then 2 else 1).
  assert (Hf : flag = 1 /\ keySize <> 0 \/ flag = 2) by (unfold flag; case_if; [by right|left; split; [done|lia]]).
  destruct (InsertSF_ok db key buffer flag W ltac:(lia)) as (db' & E & W' & _).
  destruct (sf_cases db W) as (m0 & m1 & m2 & Es & _). unfold InsertSF in *. rewrite Es in *. cbn -[sf_key slice] in E |- *.
  injection E as <-. eexists. split; [reflexivity|]. split; [exact W'|]. intros i m f l k Hi Hl Hk.
  assert (C : exists mi, [m0; m1; m2] !! i = Some mi /\
    m = (if flag =? 0 then push mi (sf_key key (Z.of_nat i)) (slice buffer 0 CHUNK_HASH_SIZE)
         else if flag =? 1 then push (delete (sf_key key (Z.of_nat i)) mi) (sf_key key (Z.of_nat i)) (slice buffer 0 CHUNK_HASH_SIZE)
         else if flag =? 2 then delete (sf_key key (Z.of_nat i)) mi else mi)).
  { destruct i as [|[|[|]]]; cbn -[sf_key slice] in Hi; [| | |done]; injection Hi as <-; eexists; split; reflexivity. }
  destruct C as (mi & Ei & ->). destruct Hf as [[F K]|F]; rewrite F in Hl; cbn -[sf_key slice] in Hl.
  - unfold push in Hl. rewrite lookup_delete_eq in Hl. apply lookup_insert_Some in Hl as [[<- <-]|[N Hl]].
    + left. split; [done|]. split; [done|]. by apply list_elem_of_singleton in Hk.
    + rewrite lookup_delete_ne in Hl by done. right. split; [done|]. by exists mi.
  - apply lookup_delete_Some in Hl as [N Hl]. right. split; [done|]. by exists mi.
Qed.

(** Many values under one key. *)
Lemma push_all_lookup {V} (l : list V) (A : bytes) m :
  default [] (fold_left (fun m d => push m A d) l m !! A) = default [] (m !! A) ++ l /\ delete A (fold_left (fun m d => push m A d) l m) = delete A m.
Proof.
  revert m. induction l as [|d l IH]; intros m; cbn; [by rewrite app_nil_r|]. destruct (IH (push m A d)) as [-> ->]. unfold push.
  rewrite lookup_insert_eq, delete_insert_eq. cbn [default]. unfold id. by rewrite <- app_assoc.
Qed.

Section pairs.
Context `{EVPLaws} `{!EVPBytes} `{LZ4}.
Variable cfg : Config.
Variable U : bytes -> Prop.
Hypothesis HU : universe cfg U.
Hypothesis HT : hashType_ (c_crypto cfg) = SHA_256.
Hypothesis HR : roomy U.
Abbreviation hot s := (co_containerID (hot_container s)).
Abbreviation going := (going cfg U).
Abbreviation cryptoObj := (c_crypto cfg).
Abbreviation qk := (c_indexQueryKey cfg).
Abbreviation ek := (c_enclaveKey cfg).

(** ** Steps that the vault does not see *)

Record quiet (s s' : Pass) : Prop := {
  qt_dirs : w_dirs (p_world s') = w_dirs (p_world s);
  qt_db : p_db s' = p_db s;
  qt_merge : baseMergePair (p_world s') = baseMergePair (p_world s);
  qt_hot : hot_container s' = hot_container s;
  qt_times : p_times s' = p_times s;
  qt_map : delta_map s' = delta_map s;
  qt_encoder : encoder_ok (psHTable2Offline_ s) -> encoder_ok (psHTable2Offline_ s')
}.
#[export] Instance quiet_preorder : PreOrder quiet.
Proof. split; [by split|]. intros a b c [? ? ? ? ? ? Q1] [? ? ? ? ? ? Q2]. split; try congruence. intros. by apply Q2, Q1. Qed.
Lemma quiet_kept news s s' : quiet s s' -> kept news s s'.
Proof. intros [? Db ? ? ? ? ?]. by split; rewrite ?Db. Qed.
Lemma going_quiet olds news V F hes s s' : quiet s s' -> going olds news V F hes s -> going olds news V F hes s'.
Proof. intros [Dr Db Mp Ho Ti Dm En] []. split; rewrite ?Dr, ?Db, ?Mp, ?Ho, ?Ti; auto. Qed.
Lemma going_olds olds olds' news V F hes s : olds' ⊆ olds -> going olds news V F hes s -> going olds' news V F hes s.
Proof.
  intros Sub []. split; try done.
  - intros b [Hb|Hb]; [|by auto]. apply go_tracked. left. by apply Sub.
  - intros b Hb. by apply go_olds, Sub.
Qed.

(** ** What is not in the hot container *)

Lemma still_home olds news V F hes s k e : going olds news V F hes s -> V !! k = Some e ->
  is_base e \/ based_on e ∉ news -> e ∈ entries F (re_containerName (e_recipe e)).
Proof.
  intros G E C. pose proof (ho_home _ _ _ (go_housed _ _ _ _ _ _ _ _ G) _ _ E) as [_ He].
  rewrite entries_insert in He. case_decide as D; [|done]. destruct C as [B|N].
  - destruct (ho_files _ _ _ (go_housed _ _ _ _ _ _ _ _ G) (hot s) (true, hes)) as (_ & _ & _ & Fl); [by rewrite lookup_insert_eq|].
    cbn [fst snd] in Fl. rewrite Forall_forall in Fl. destruct (base_delta e B). by apply Fl.
  - by apply (go_hotbase _ _ _ _ _ _ _ _ G) in He.
Qed.
(** The container such a chunk is in. *)
Lemma still_there olds news V F hes s k e : going olds news V F hes s -> V !! k = Some e ->
  is_base e \/ based_on e ∉ news -> exists delta es,
    F !! re_containerName (e_recipe e) = Some (delta, es) /\ e ∈ es /\ file_ok (re_containerName (e_recipe e)) (delta, es) /\
    re_deltaFlag (e_recipe e) = if delta then DELTA else NO_DELTA.
Proof.
  intros G E C. apply (still_home _ _ _ _ _ _ _ _ G E) in C as (delta & es & Ef & He)%entries_lookup. exists delta, es.
  assert (Fo : file_ok (re_containerName (e_recipe e)) (delta, es)).
  { apply (ho_files _ _ _ (go_housed _ _ _ _ _ _ _ _ G)). rewrite lookup_insert_ne; [done|]. intros Eh.
    pose proof (go_new _ _ _ _ _ _ _ _ G). congruence. }
  split; [done|]. split; [done|]. split; [done|]. destruct Fo as (_ & _ & _ & Fl). cbn [fst snd] in Fl. rewrite Forall_forall in Fl. by apply Fl.
Qed.

Lemma load_old_delta olds news V F hes s k e : going olds news V F hes s -> V !! k = Some e -> is_delta e -> based_on e ∉ news ->
  exists s' , load_delta s (e_recipe e) = Ok s' /\ quiet s s' /\ parts cfg (Cold.tmpOcallcontainer (p_world s')) e.
Proof.
  intros G E D N. destruct (still_there _ _ _ _ _ _ _ _ G E (or_intror N)) as (delta & es & Ef & He & Fo & Fl).
  destruct delta; [|by destruct (base_delta e Fl)].
  destruct (load_delta_ok F s (e_recipe e) es (go_disk _ _ _ _ _ _ _ _ G) Ef Fo) as (a & rest & ->).
  eexists. split; [reflexivity|]. split; [by split|]. cbn. eapply loaded_parts; [done..|]. by destruct (go_chunks _ _ _ _ _ _ _ _ G _ _ E).
Qed.
Lemma load_old_base olds news V F hes s k e : going olds news V F hes s -> V !! k = Some e -> is_base e ->
  exists s' , load_base s (e_recipe e) = Ok (s', true) /\ quiet s s' /\ parts cfg (Cold.tmpOcallcontainer (p_world s')) e.
Proof.
  intros G E B. destruct (still_there _ _ _ _ _ _ _ _ G E (or_introl B)) as (delta & es & Ef & He & Fo & Fl).
  destruct delta; [by destruct (base_delta e B)|].
  destruct (load_base_ok F s (e_recipe e) es (go_disk _ _ _ _ _ _ _ _ G) Ef Fo) as (a & rest & ->).
  eexists. split; [reflexivity|]. split; [by split|]. cbn. eapply loaded_parts; [done..|]. by destruct (go_chunks _ _ _ _ _ _ _ _ G _ _ E).
Qed.
Lemma going_recipe olds news V F hes s k e : going olds news V F hes s -> V !! k = Some e ->
  exists a, one_recipe cryptoObj qk s k = Ok (with_query s a, e_recipe e) /\ quiet s (with_query s a).
Proof.
  intros G E. destruct (one_recipe_ok cfg U HT V _ _ s (go_housed _ _ _ _ _ _ _ _ G) (go_chunks _ _ _ _ _ _ _ _ G) (go_index _ _ _ _ _ _ _ _ G) k e E) as (a & Ea).
  exists a. split; [done|]. by split.
Qed.

(** ** The deltas of the old base *)

(** A base chunk and its content. *)
Definition base_of (V : gmap bytes entry) (k x : bytes) : Prop :=
  U x /\ exists e, V !! k = Some e /\ is_base e /\ plain cfg e = Ok (stored_form NO_DELTA x).

Section deltas.
(** The old base [A] with the content [y], the new one [nb] with the content [y']. *)
Variables (olds news : list bytes) (A nb y y' : bytes).
Hypotheses (HA : A ∉ olds) (HAn : A ∉ news) (Hnb : nb ∈ news).

Lemma move_delta_ok V F hes s k e :
  going olds news V F hes s -> ~ offered (p_db s) A -> base_of V A y -> base_of V nb y' ->
  V !! k = Some e -> is_delta e -> based_on e = A -> p_times s < 2 ^ 31 - 1 ->
  exists s' V' F' hes' flag, move_delta cryptoObj qk ek s y y' nb k = Ok (s', flag) /\ going olds news V' F' hes' s' /\
    kept news s s' /\ p_times s' <= p_times s + 1 /\
    (if flag then exists e', V' = <[k := e']> V /\ is_delta e' /\ based_on e' = nb else V' = V).
Proof.
  intros G No (Uy & a & Ea & Ba & Pa) (Uy' & bn & Eb & Bb & Pb) Ek D Be Ht.
  destruct (go_chunks _ _ _ _ _ _ _ _ G _ _ Ek) as (Sz & x & Ux & Kx & C).
  destruct C as [B|b w d _ Lb Bw Uw Pw Pe Do]; [by destruct (base_delta e)|]. rewrite Be in Lb. assert (b = a) as -> by congruence.
  assert (w = y) as -> by (rewrite Pa in Pw; injection Pw as Pw; symmetry; by eapply (stored_inj cfg U HU)).
  destruct (going_recipe _ _ _ _ _ _ _ _ G Ek) as (q & E1 & Q1). unfold move_delta. rewrite E1. cbn [rbind].
  destruct (load_old_delta _ _ _ _ _ _ _ _ (going_quiet _ _ _ _ _ _ _ Q1 G) Ek D) as (s2 & E2 & Q2 & P2); [by rewrite Be|].
  rewrite E2. cbn [rbind]. set (s3 := pocall s2). assert (Q3 : quiet s s3) by (etrans; [exact Q1|]; etrans; [exact Q2|by split]).
  assert (P3 : parts cfg (Cold.tmpOcallcontainer (p_world s3)) e) by exact P2. destruct P3 as [Pfp Psf Piv Ppair Ppl].
  rewrite Ppl, Pe. cbn [rbind]. rewrite Pfp, Psf, Piv, Ppair.
  assert (Szd : blen d <= MAX_CHUNK_SIZE) by (pose proof (KeyIV_blen _ _ _ _ _ Pe); lia).
  assert (G3 := going_quiet _ _ _ _ _ _ _ Q3 G).
  destruct (GetNew_deltachunk_ok cfg U HU HR s3 x y y' d Ux Uy Uy' Do Szd (go_encoder _ _ _ _ _ _ _ _ G3)) as (t & buf & st & d' & flag & E4 & T & Do' & Sz').
  rewrite E4. cbn [rbind]. set (s4 := with_stats _ st). assert (Q4 : quiet s s4) by (etrans; [exact Q3|by split]).
  destruct flag; [|exists s4, V, F, hes, false; split; [done|]; split; [by eapply going_quiet|]; split; [by apply quiet_kept|]; split; [rewrite (qt_times _ _ Q4); lia|done]].
  destruct (ho_home _ _ _ (go_housed _ _ _ _ _ _ _ _ G) _ _ Ek) as [Fe _].
  destruct (home _ _ _ (go_housed _ _ _ _ _ _ _ _ G) k e Ek) as (_ & _ & _ & _ & _ & Oe & _).
  assert (Nk : ~ is_base e) by (intros ?; by apply (base_delta e)).
  assert (Nobase : forall j, (exists c, V !! j = Some c /\ is_base c) -> j <> k) by (intros j (c & Ec & Bc) ->; assert (c = e) as -> by congruence; done).
  destruct (move_to_hot_ok cfg U HU HT olds news V F hes s4 k e nb x y' d' (e_sf e)) as (s5 & F' & hes' & e' & E5 & G5 & De' & Be' & _ & K5 & T5); try done.
  - by eapply going_quiet.
  - rewrite (qt_db _ _ Q4). split; [done|by eapply still_home; [exact G|exact Ek|right; by rewrite Be]|..].
    + intros k' c' Ec Dc <-. by apply (Nobase (based_on c') (delta_has_base cfg U _ _ _ (go_chunks _ _ _ _ _ _ _ _ G) Ec Dc)).
    + intros (i & m & f & l & Hi & Hf & Hk). destruct (go_offers _ _ _ _ _ _ _ _ G _ _ _ _ _ Hi Hf Hk) as (c & Ec & Bc & _).
      apply (Nobase k); [by exists c|done].
    + intros Hk. destruct (go_olds _ _ _ _ _ _ _ _ G _ Hk) as (_ & c & Ec & Bc). apply (Nobase k); [by exists c|done].
    + intros Hk. destruct (go_news _ _ _ _ _ _ _ _ G _ Hk) as (c & Ec & Bc). apply (Nobase k); [by exists c|done].
    + intros _. by rewrite Be.
  - by exists bn.
  - unfold blen. by rewrite (eok_sf e Oe).
  - by rewrite (qt_times _ _ Q4).
  - rewrite Fe, E5. cbn [rbind]. exists s5, (<[k := e']> V), F', hes', true. split; [done|]. split; [done|]. split.
    + etrans; [by apply (quiet_kept news s s4)|exact K5].
    + split; [rewrite <- (qt_times _ _ Q4); done|]. by exists e'.
Qed.

(** A chunk that is not the one that moved is where it was. *)
Lemma base_moved V k e k' x : base_of V k' x -> k <> k' -> base_of (<[k := e]> V) k' x.
Proof. intros (Ux & a & Ea & Ba) N. split; [done|]. exists a. by rewrite lookup_insert_ne. Qed.
Lemma base_not_delta V k e k' x : V !! k = Some e -> is_delta e -> base_of V k' x -> k <> k'.
Proof. intros Ek D (_ & a & Ea & Ba & _) ->. apply (base_delta a Ba). congruence. Qed.

Lemma move_deltas_ok l : forall V F hes s flag,
  going olds news V F hes s -> ~ offered (p_db s) A -> base_of V A y -> base_of V nb y' -> NoDup l ->
  (forall k, k ∈ l -> exists e, V !! k = Some e /\ is_delta e /\ based_on e = A) -> p_times s + blen l < 2 ^ 31 ->
  exists s' V' F' hes' flag', move_deltas cryptoObj qk ek l y y' nb flag s = Ok (s', flag') /\ going olds news V' F' hes' s' /\
    kept news s s' /\ p_times s' <= p_times s + blen l /\ dom V' = dom V /\ (forall k, k ∉ l -> V' !! k = V !! k) /\
    base_of V' A y /\ base_of V' nb y' /\
    (flag' = true -> flag = true /\ forall k, k ∈ l -> exists e', V' !! k = Some e' /\ based_on e' = nb).
Proof.
  induction l as [|k l IH]; intros V F hes s flag G No BA Bn Nd Hl Ht; cbn [move_deltas].
  { exists s, V, F, hes, flag. split; [done|]. split; [done|]. split; [done|]. rewrite blen_nil. split; [lia|]. split; [done|].
    split; [done|]. split; [done|]. split; [done|]. intros ->. split; [done|]. by intros k ?%elem_of_nil. }
  apply NoDup_cons in Nd as [Nk Nd]. rewrite blen_cons in Ht. pose proof (blen_nonneg l).
  destruct (Hl k) as (e & Ek & De & Be); [by left|].
  destruct (move_delta_ok V F hes s k e G No BA Bn Ek De Be ltac:(lia)) as (s1 & V1 & F1 & hes1 & ok & -> & G1 & K1 & T1 & Hok). cbn [rbind fst snd].
  pose proof (base_not_delta _ _ _ _ _ Ek De BA) as NA. pose proof (base_not_delta _ _ _ _ _ Ek De Bn) as Nn.
  assert (S1 : forall j, j <> k -> V1 !! j = V !! j) by (intros j Hj; destruct ok; [destruct Hok as (e' & -> & _); by rewrite lookup_insert_ne|by rewrite Hok]).
  assert (D1 : dom V1 = dom V) by (destruct ok; [destruct Hok as (e' & -> & _); by rewrite dom_insert_lookup_L|by rewrite Hok]).
  assert (B1 : base_of V1 A y /\ base_of V1 nb y').
  { destruct ok; [destruct Hok as (e' & -> & _); by split; apply base_moved|by rewrite Hok]. }
  destruct B1 as [BA1 Bn1].
  destruct (IH V1 F1 hes1 s1 (if ok then flag else false)) as (s2 & V2 & F2 & hes2 & flag' & -> & G2 & K2 & T2 & D2 & S2 & BA2 & Bn2 & Mv); try done.
  { rewrite (offered_sf (p_db s)); [done|apply (kp_sf _ _ _ K1)]. }
  { intros j Hj. rewrite S1; [apply Hl; by right|by intros ->]. }
  { lia. }
  exists s2, V2, F2, hes2, flag'. split; [done|]. split; [done|]. split; [by etrans|]. rewrite blen_cons. split; [lia|]. split; [by rewrite D2|].
  split; [intros j Hj; apply not_elem_of_cons in Hj as [? ?]; by rewrite S2, S1|]. split; [done|]. split; [done|].
  intros Ft. destruct (Mv Ft) as [Fl Mv']. destruct ok; [|done]. split; [done|].
  intros j Hj. apply elem_of_cons in Hj as [->|Hj]; [|by apply Mv']. rewrite S2 by done.
  destruct Hok as (e' & -> & _ & B'). exists e'. by rewrite lookup_insert_eq.
Qed.

Lemma convert_base_ok V F hes s a flag :
  going olds news V F hes s -> ~ offered (p_db s) A -> V !! A = Some a -> base_of V A y -> base_of V nb y' ->
  (flag = true -> forall k e, V !! k = Some e -> is_delta e -> based_on e <> A) -> p_times s < 2 ^ 31 - 1 ->
  exists s' V' F' hes', convert_base cryptoObj qk ek s A nb (e_recipe a) y y' (e_iv a) (cold_pair a) flag = Ok s' /\
    going olds news V' F' hes' s' /\ kept news s s' /\ p_times s' <= p_times s + 1 /\ dom V' = dom V.
Proof.
  intros G No Ea BA Bn Nb Ht. destruct BA as (Uy & a' & Ea' & Ba & Pa). assert (a' = a) as -> by congruence. clear Ea'.
  destruct Bn as (Uy' & bn & Eb & Bb & Pb). destruct (encode_delta_ok cfg U HU HR s y y' Uy Uy' (go_encoder _ _ _ _ _ _ _ _ G)) as (t & buf & d & E & T & Do & Sz).
  unfold convert_base. rewrite E. cbn [rbind]. set (s1 := with_table s t buf). assert (Q1 : quiet s s1) by (by split).
  assert (Same : forall s', quiet s s' -> exists V' F' hes', going olds news V' F' hes' s' /\ kept news s s' /\ p_times s' <= p_times s + 1 /\ dom V' = dom V).
  { intros s' Q. exists V, F, hes. split; [by eapply going_quiet|]. split; [by apply quiet_kept|]. rewrite (qt_times _ _ Q). split; [lia|done]. }
  case_if; [destruct (Same s1 Q1) as (V' & F' & hes' & S); by exists s1, V', F', hes'|].
  set (s2 := pstat _ _). assert (Q2 : quiet s s2) by (etrans; [exact Q1|by split]).
  destruct flag; [|destruct (Same s2 Q2) as (V' & F' & hes' & S); by exists s2, V', F', hes'].
  destruct (go_chunks _ _ _ _ _ _ _ _ G _ _ Ea) as (_ & x & Ux & Kx & Cx).
  assert (x = y) as ->.
  { apply (content_of_base _ _ _ _ _ Ba) in Cx. rewrite Pa in Cx. injection Cx as Cx. symmetry. by eapply (stored_inj cfg U HU). }
  destruct (home _ _ _ (go_housed _ _ _ _ _ _ _ _ G) A a Ea) as (_ & _ & _ & _ & _ & Oe & _).
  destruct (move_to_hot_ok cfg U HU HT olds news V F hes s2 A a nb y y' d (re_superfeature (e_recipe a))) as (s5 & F' & hes' & e' & E5 & G5 & _ & _ & _ & K5 & T5); try done.
  - by eapply going_quiet.
  - rewrite (qt_db _ _ Q2). split; try done; [by eapply still_home; [exact G|exact Ea|left]|by apply Nb|].
    intros D. by destruct (base_delta a).
  - by exists bn.
  - pose proof (rok_sf _ (eok_recipe _ Oe)) as [Ls _]. unfold blen. lia.
  - rewrite E5. exists s5, (<[A := e']> V), F', hes'. split; [done|]. split; [done|]. split; [etrans; [by apply (quiet_kept news s s2)|done]|].
    rewrite (qt_times _ _ Q2) in T5. split; [done|by apply dom_insert_lookup_L].
Qed.
End deltas.

(** ** One pair *)

Lemma update_sf_ok olds news V F hes s b e keySize :
  going olds news V F hes s -> V !! b = Some e -> is_base e -> (keySize <> 0 -> b ∈ news) ->
  exists db', update_sf s b (e_recipe e) keySize = Ok (with_db s db') /\ going olds news V F hes (with_db s db') /\
    delta_index db' = delta_index (p_db s) /\ waiting db' = waiting (p_db s) /\
    (forall k, offered db' k -> keySize <> 0 /\ k = b \/ offered (p_db s) k) /\ (keySize = 0 -> ~ offered db' b).
Proof.
  intros G Eb Bb Hn. pose proof (key_32 cfg U HT V (go_chunks _ _ _ _ _ _ _ _ G) _ _ Eb) as Lb.
  destruct (InsertSF_revise (p_db s) (re_superfeature (e_recipe e)) b keySize (go_sf _ _ _ _ _ _ _ _ G)) as (sf' & E & W & Hk). set (db' := set_sf (p_db s) sf') in *.
  change CHUNK_HASH_SIZE with 32 in Hk. rewrite (slice_32 b Lb) in Hk. unfold update_sf. rewrite E. cbn [rbind]. exists db'. split; [done|].
  assert (Of : forall k, offered db' k -> keySize <> 0 /\ k = b \/ offered (p_db s) k).
  { intros k (i & m & f & l & Hi & Hf & Hl). destruct (Hk _ _ _ _ _ Hi Hf Hl) as [(? & _ & ?)|(_ & m0 & Hi0 & Hf0)]; [by left|right]. by exists i, m0, f, l. }
  split; [|split; [done|split; [done|split; [done|]]]].
  - destruct G. split; try done.
    + intros i m f l k Hi Hf Hl. destruct (Hk _ _ _ _ _ Hi Hf Hl) as [(_ & -> & ->)|(_ & m0 & Hi0 & Hf0)]; [by exists e|by eapply go_offers].
    + intros k Ho. apply (go_tracked k). destruct Ho as [?|[?|[Ho|?]]]; [tauto..| |tauto]. apply Of in Ho as [[N ->]|Ho]; [|tauto].
      right. left. by apply Hn.
    + by destruct go_cold.
  - intros Hz (i & m & f & l & Hi & Hf & Hl). destruct (Hk _ _ _ _ _ Hi Hf Hl) as [(? & _)|(Nf & m0 & Hi0 & Hf0)]; [done|].
    destruct (go_offers _ _ _ _ _ _ _ _ G _ _ _ _ _ Hi0 Hf0 Hl) as (e' & Ee' & _ & Ff). apply Nf. congruence.
Qed.

(** What a step leaves of the queue and the lists of deltas. *)
Record spared (gone : list bytes) (s s' : Pass) : Prop := {
  sp_deltas : forall b, b ∉ gone -> delta_index (p_db s') !! b = delta_index (p_db s) !! b;
  sp_waiting : waiting (p_db s') = waiting (p_db s);
  sp_map : delta_map s' = delta_map s
}.
#[export] Instance spared_preorder gone : PreOrder (spared gone).
Proof. split; [by split|]. intros a b c [D1 ? ?] [D2 ? ?]. split; [|congruence..]. intros n Hn. by rewrite D2, D1. Qed.
Lemma spared_mono gone gone' s s' : gone ⊆ gone' -> spared gone s s' -> spared gone' s s'.
Proof. intros Sub [D ? ?]. split; try done. intros b Hb. apply D. intros ?. by apply Hb, Sub. Qed.
Lemma kept_spared news s s' : kept news s s' -> spared news s s'.
Proof. intros []. by split. Qed.
Lemma quiet_spared gone s s' : quiet s s' -> spared gone s s'.
Proof. intros [? Db ? ? ? ? ?]. by split; rewrite ?Db. Qed.

(** The deltas of a base. *)
Definition deltas_of (s : Pass) (b : bytes) : list bytes := default [] (delta_index (p_db s) !! b).

Lemma erase_deltas_ok A olds news V F hes s :
  going (A :: olds) news V F hes s -> A ∉ olds -> ~ offered (p_db s) A -> blen (deltas_of s A) < 100000 ->
  exists db', Ocall_QueryDeltaIndex (p_db s) A = Ok (db', deltas_of s A) /\ going olds news V F hes (with_db s db') /\
    spared [A] s (with_db s db') /\ sfObj_ db' = sfObj_ (p_db s).
Proof.
  intros G NA No Sz. unfold Ocall_QueryDeltaIndex, QueryDeltaIndex, deltas_of in *.
  assert (Hq : forall db', (db' = p_db s \/ db' = set_delta (p_db s) (delete A (delta_index (p_db s)))) ->
    going olds news V F hes (with_db s db') /\ spared [A] s (with_db s db') /\ sfObj_ db' = sfObj_ (p_db s)).
  { intros db' Hdb. assert (E : indexObj_ db' = indexObj_ (p_db s) /\ sfObj_ db' = sfObj_ (p_db s) /\ _cold_map db' = _cold_map (p_db s) /\ waiting db' = waiting (p_db s)
      /\ (_cold_container_set db' = _cold_container_set (p_db s) /\ _cold_container_vector db' = _cold_container_vector (p_db s)) /\
      forall b, b ∉ [A] -> delta_index db' !! b = delta_index (p_db s) !! b).
    { destruct Hdb as [->| ->]; [done|]. repeat (split; [done|]). intros b Hb. cbn. rewrite lookup_delete_ne; [done|]. intros ->. apply Hb. by left. }
    destruct E as (Ei & Es & Ec & Ew & [Eq Ev] & Ed). split; [|split; [by split|done]]. destruct (go_olds _ _ _ _ _ _ _ _ G A ltac:(left)) as (NAn & eA & EA & _).
    destruct G. split; cbn; rewrite ?Ei, ?Es, ?Ec; try done.
    - unfold sf_wf. by rewrite Es.
    - intros i m f l k. cbn. rewrite Es. by apply go_offers.
    - intros b Hb. unfold tracked. rewrite Ed; [|intros ->%list_elem_of_singleton; destruct Hb as [?|[?|[Hb|Hb]]]; [done|done| |congruence]; by rewrite (offered_sf (p_db s)) in Hb].
      apply go_tracked. destruct Hb as [?|[?|[Hb|?]]]; [left; by right|tauto| |tauto]. rewrite (offered_sf (p_db s)) in Hb by done. tauto.
    - intros b Hb. apply go_olds. by right.
    - destruct go_cold as [? ? ?]. by split; cbn; rewrite ?Eq, ?Ev, ?Ec. }
  destruct (delta_index (p_db s) !! A) as [l|]; cbn [default] in *; unfold id in *;
    rewrite (proj2 (Z.ltb_ge _ _)) by lia; eexists; (split; [reflexivity|]); apply Hq; [by right|by left].
Qed.


Lemma base_content V k e : chunks cfg U V -> V !! k = Some e -> is_base e -> exists x, base_of V k x /\ plain cfg e = Ok (stored_form NO_DELTA x).
Proof.
  intros C E B. destruct (C _ _ E) as (_ & x & Ux & _ & Cx). apply (content_of_base _ _ _ _ _ B) in Cx. exists x. split; [|done].
  split; [done|]. by exists e.
Qed.

(** Room for the names a pair can use, and for the deltas in the buffer. *)
Definition pair_room (s : Pass) (A : bytes) : Prop :=
  blen (deltas_of s A) < 100000 /\ p_times s + (blen (deltas_of s A) + 1) < 2 ^ 31.

(** What a pair leads to. *)
Definition pair_done (A : bytes) (olds news : list bytes) (V : gmap bytes entry) (s : Pass) (r : result Pass) : Prop :=
  exists s' V' F' hes', r = Ok s' /\ going olds news V' F' hes' s' /\ spared (A :: news) s s' /\
    p_times s' <= p_times s + (blen (deltas_of s A) + 1) /\ dom V' = dom V.

Lemma process_loaded_ok A nb a bn olds news V F hes s old new :
  going (A :: olds) news V F hes s -> A ∉ olds -> nb ∈ news -> ~ offered (p_db s) A -> delta_map s = ∅ -> pair_room s A ->
  V !! A = Some a -> V !! nb = Some bn -> parts cfg old a -> parts cfg new bn ->
  pair_done A olds news V s (process_loaded cryptoObj qk ek s A nb (e_recipe a) (e_recipe bn) old new).
Proof.
  intros G NA Hn No Dm [Sz Ht] Ea Eb [_ _ Piv Ppair Ppl] Pn.
  destruct (go_olds _ _ _ _ _ _ _ _ G A ltac:(left)) as (NAn & a' & Ea' & Ba). assert (a' = a) as -> by congruence. clear Ea'.
  destruct (go_news _ _ _ _ _ _ _ _ G nb Hn) as (b' & Eb' & Bb). assert (b' = bn) as -> by congruence. clear Eb'.
  destruct (base_content V A a (go_chunks _ _ _ _ _ _ _ _ G) Ea Ba) as (y & BA & PA).
  destruct (base_content V nb bn (go_chunks _ _ _ _ _ _ _ _ G) Eb Bb) as (y' & Bn & PN).
  unfold process_loaded. rewrite Ppair, Piv, Ppl, PA, (pt_plain _ _ _ Pn), PN. cbn [rbind].
  rewrite (chunk_plain_ok cfg U HU HR y (proj1 BA)), (chunk_plain_ok cfg U HU HR y' (proj1 Bn)).
  destruct (erase_deltas_ok A olds news V F hes s G NA No Sz) as (db' & E & G1 & Sp1 & Sf1). unfold take_deltas. rewrite E. cbn [rbind fst snd].
  destruct (push_all_lookup (deltas_of s A) A (delta_map s)) as [Lk Dl]. set (m := fold_left _ _ _) in *.
  assert (Lk' : default [] (m !! A) = deltas_of s A) by (by rewrite Lk, Dm).
  set (s1 := with_deltas _ m). change (delta_map s1) with m. rewrite Lk'.
  assert (G2 : going olds news V F hes s1) by (by destruct G1; split).
  destruct (go_tracked _ _ _ _ _ _ _ _ G A) as [Nd Tr]; [left; left|].
  destruct (move_deltas_ok olds news A nb y y' NA NAn Hn (deltas_of s A) V F hes s1 true G2) as
    (s2 & V2 & F2 & hes2 & flag & -> & G3 & K3 & T3 & D3 & S3 & BA3 & Bn3 & Mv); try done.
  { by rewrite (offered_sf (p_db s)). } { intros k Hk. by apply Tr. } { change (p_times s1) with (p_times s). lia. }
  cbn [rbind]. set (s3 := with_deltas s2 _).
  assert (G4 : going olds news V2 F2 hes2 s3) by (by destruct G3; split).
  assert (NAl : A ∉ deltas_of s A).
  { intros HA. apply Tr in HA as (e & Ee & De & _). assert (e = a) as -> by congruence. by destruct (base_delta a). }
  change (p_times s1) with (p_times s) in T3.
  destruct (convert_base_ok olds news A nb y y' NA NAn Hn V2 F2 hes2 s3 a flag) as (s4 & V4 & F4 & hes4 & E4 & G5 & K5 & T5 & D5); try done.
  { change (p_db s3) with (p_db s2). rewrite (offered_sf (p_db s)); [done|]. by rewrite (kp_sf _ _ _ K3). } { by rewrite S3. }
  { intros Fl k e Ek De Be. destruct (Mv Fl) as [_ Mv']. destruct (decide (k ∈ deltas_of s A)) as [Hk|Hk].
    - destruct (Mv' k Hk) as (e' & Ee' & Be'). assert (e' = e) as -> by congruence. by rewrite Be' in Be; subst.
    - apply Hk, Tr. exists e. by rewrite <- S3. }
  { change (p_times s3) with (p_times s2). lia. }
  exists s4, V4, F4, hes4. split; [done|]. split; [done|]. split; [|split; [change (p_times s3) with (p_times s2) in T5; lia|by rewrite D5]].
  destruct Sp1 as [Sd Sw _]. destruct K3 as [Kd _ Kw Km]. destruct K5 as [Kd' _ Kw' Km']. split.
  - intros b Hb. apply not_elem_of_cons in Hb as [HbA Hb]. rewrite Kd', Kd by done. apply Sd. by intros ?%list_elem_of_singleton.
  - rewrite Kw'. change (waiting (p_db s3)) with (waiting (p_db s2)). by rewrite Kw.
  - rewrite Km'. change (delta_map s3) with (delete A (delta_map s2)). rewrite Km. change (delta_map s1) with m. rewrite Dl, Dm. apply delete_empty.
Qed.

Lemma process_greedy_ok A nb olds news V F hes s :
  going (A :: olds) news V F hes s -> A ∉ olds -> nb ∈ news -> delta_map s = ∅ -> pair_room s A ->
  pair_done A olds news V s (process_greedy cryptoObj qk s A nb).
Proof.
  intros G NA Hn Dm Rm. pose proof Rm as [Sz Ht].
  destruct (go_olds _ _ _ _ _ _ _ _ G A ltac:(left)) as (NAn & a & Ea & Ba).
  destruct (go_news _ _ _ _ _ _ _ _ G nb Hn) as (bn & Eb & Bb).
  assert (Nn : A <> nb) by (intros ->; done).
  unfold process_greedy. destruct (going_recipe _ _ _ _ _ _ _ _ G Ea) as (q & E1 & Q1). rewrite E1. cbn [rbind].
  destruct (update_sf_ok _ _ _ _ _ _ A a 0 (going_quiet _ _ _ _ _ _ _ Q1 G) Ea Ba ltac:(done)) as (db2 & E2 & G2 & D2 & W2 & _ & No2). rewrite E2. cbn [rbind].
  destruct (going_recipe _ _ _ _ _ _ _ _ G2 Eb) as (q' & E3 & Q3). rewrite E3. cbn [rbind].
  destruct (update_sf_ok _ _ _ _ _ _ nb bn 1 (going_quiet _ _ _ _ _ _ _ Q3 G2) Eb Bb ltac:(done)) as (db4 & E4 & G4 & D4 & W4 & Of4 & _). rewrite E4. cbn [rbind].
  set (s4 := with_db _ db4) in *. assert (Dl : delta_index (p_db s4) = delta_index (p_db s)) by (change (delta_index (p_db s4)) with (delta_index db4); rewrite D4; exact D2).
  assert (L4 : deltas_of s4 A = deltas_of s A) by (unfold deltas_of; by rewrite Dl).
  assert (No4 : ~ offered (p_db s4) A).
  { intros O. destruct (Of4 A O) as [[_ ?]|O']; [done|]. by apply No2 in O'. }
  destruct (erase_deltas_ok A olds news V F hes s4 G4 NA No4) as (db5 & E5 & G5 & [Sd Sw Sm] & _); [by rewrite L4|].
  rewrite E5. cbn [rbind fst]. exists (pocall (with_db s4 db5)), V, F, hes. split; [done|]. split; [eapply going_quiet; [|exact G5]; by split|].
  split; [split|split; [|done]].
  - intros b Hb. apply not_elem_of_cons in Hb as [HbA _]. change (p_db (pocall _)) with db5. change (p_db (with_db s4 db5)) with db5 in Sd.
    rewrite Sd, Dl; [done|]. by intros ?%list_elem_of_singleton.
  - change (waiting db5 = waiting (p_db s)). change (waiting db5 = waiting db4) in Sw. rewrite Sw, W4. exact W2.
  - done.
  - change (p_times (pocall _)) with (p_times s). pose proof (blen_nonneg (deltas_of s A)). lia.
Qed.

Lemma process_pair_ok A nb olds news V F hes s g :
  going (A :: olds) news V F hes s -> A ∉ olds -> nb ∈ news -> delta_map s = ∅ -> pair_room s A ->
  pair_done A olds news V s (process_pair cryptoObj qk ek g (A, nb) s).
Proof.
  intros G NA Hn Dm Rm. pose proof Rm as [Sz Ht].
  destruct (go_olds _ _ _ _ _ _ _ _ G A ltac:(left)) as (NAn & a & Ea & Ba).
  destruct (go_news _ _ _ _ _ _ _ _ G nb Hn) as (bn & Eb & Bb).
  assert (Nn : A <> nb) by (intros ->; done). unfold process_pair.
  destruct (_ <=? g); [by eapply process_greedy_ok|].
  destruct (going_recipe _ _ _ _ _ _ _ _ G Ea) as (q & E1 & Q1). rewrite E1. cbn [rbind].
  pose proof (going_quiet _ _ _ _ _ _ _ Q1 G) as G1.
  destruct (load_old_base _ _ _ _ _ _ _ _ G1 Ea Ba) as (s2 & E2 & Q2 & P2). rewrite E2. cbn [rbind negb].
  pose proof (going_quiet _ _ _ _ _ _ _ Q2 G1) as G2.
  destruct (update_sf_ok _ _ _ _ _ _ A a 0 G2 Ea Ba ltac:(done)) as (db3 & E3 & G3 & D3 & W3 & _ & No3). rewrite E3. cbn [rbind].
  set (s3 := pocall (with_db s2 db3)). assert (Q3 : quiet (with_db s2 db3) s3) by (by split).
  pose proof (going_quiet _ _ _ _ _ _ _ Q3 G3) as G3'.
  destruct (going_recipe _ _ _ _ _ _ _ _ G3' Eb) as (q' & E4 & Q4). rewrite E4. cbn [rbind].
  pose proof (going_quiet _ _ _ _ _ _ _ Q4 G3') as G4.
  destruct (load_old_base _ _ _ _ _ _ _ _ G4 Eb Bb) as (s5 & E5 & Q5 & P5). rewrite E5. cbn [rbind negb].
  pose proof (going_quiet _ _ _ _ _ _ _ Q5 G4) as G5.
  destruct (update_sf_ok _ _ _ _ _ _ nb bn 1 G5 Eb Bb ltac:(done)) as (db6 & E6 & G6 & D6 & W6 & Of6 & _). rewrite E6. cbn [rbind].
  set (s6 := pocall (with_db s5 db6)). assert (Q6 : quiet (with_db s5 db6) s6) by (by split).
  pose proof (going_quiet _ _ _ _ _ _ _ Q6 G6) as G6'.
  assert (Q35 : quiet s3 s5) by (by etrans). assert (Q02 : quiet s s2) by (by etrans).
  assert (Dl : delta_index (p_db s6) = delta_index (p_db s)).
  { change (p_db s6) with db6. rewrite D6, (qt_db _ _ Q35). change (p_db s3) with db3. by rewrite D3, (qt_db _ _ Q02). }
  assert (Wt : waiting (p_db s6) = waiting (p_db s)).
  { change (p_db s6) with db6. rewrite W6, (qt_db _ _ Q35). change (p_db s3) with db3. by rewrite W3, (qt_db _ _ Q02). }
  assert (Dm6 : delta_map s6 = delta_map s) by (change (delta_map s6) with (delta_map s5); rewrite (qt_map _ _ Q35); exact (qt_map _ _ Q02)).
  assert (T6 : p_times s6 = p_times s) by (change (p_times s6) with (p_times s5); rewrite (qt_times _ _ Q35); exact (qt_times _ _ Q02)).
  assert (L6 : deltas_of s6 A = deltas_of s A) by (unfold deltas_of; by rewrite Dl).
  assert (No6 : ~ offered (p_db s6) A).
  { intros O. destruct (Of6 A O) as [[_ ?]|O']; [done|]. rewrite (qt_db _ _ Q35) in O'. by apply No3 in O'. }
  destruct (process_loaded_ok A nb a bn olds news V F hes s6 (Cold.tmpOcallcontainer (p_world s2)) (Cold.tmpOcallcontainer (p_world s5)) G6' NA Hn No6)
    as (s7 & V' & F' & hes' & E7 & G7 & [Sd Sw Sm] & T7 & D7); [by rewrite Dm6|unfold pair_room; by rewrite L6, T6|done|done|done|done|].
  rewrite E7. exists s7, V', F', hes'. split; [done|]. split; [done|]. rewrite L6, T6 in T7.
  split; [split; [by rewrite <- Dl|by rewrite Sw, Wt|by rewrite Sm, Dm6]|]. split; [done|done].
Qed.
End pairs.
