(* ===== verification/OfflineQueue.v ===== *)
(** The queue of the offline pass: all pairs, batch after batch, and the hot container
    that is saved at the end. *)
From Stdlib Require Import ZArith Lia.
From stdpp Require Import base list gmap.
From S2P Require Import Prelude Types HTable EDelta EDeltaCorrect Codec Util ReqContainers Database Container Writer Crypto Cold Merge Restore RestoreCorrect Ingest Library IngestStore Vault Offline OfflineSteps OfflineMove OfflinePairs.

(** ** Batches *)

Lemma pop_back_perm {V} n (l : list V) : snd (pop_back n l) ++ fst (pop_back n l) ≡ₚ l.
Proof.
  cbn. rewrite <- (take_drop (length l - n) l) at 4. rewrite Permutation_app_comm. f_equiv.
  rewrite <- (reverse_Permutation (drop _ _)). rewrite take_reverse. done.
Qed.
Lemma pop_back_nil {V} n (l : list V) : (0 < n)%nat -> snd (pop_back n l) = [] -> fst (pop_back n l) = [].
Proof.
  cbn. intros Hn E. apply (f_equal length) in E. rewrite length_take, length_reverse in E. cbn in E.
  apply length_zero_iff_nil. rewrite length_take. lia.
Qed.
Lemma pop_back_length {V} n (l : list V) : (0 < n)%nat -> snd (pop_back n l) <> [] -> (length (fst (pop_back n l)) < length l)%nat.
Proof.
  cbn. intros Hn E. rewrite length_take. destruct l as [|x l]; [by destruct n|]. cbn. lia.
Qed.

(** A map made of pairs with different keys has these pairs. *)
Lemma map_of_pairs {V} (l : list (bytes * V)) : NoDup (map fst l) ->
  map_to_list (fold_left (fun (m : gmap bytes V) x => <[fst x := snd x]> m) l ∅) ≡ₚ l.
Proof.
  intros Nd. enough (G : forall l (m : gmap bytes V), NoDup (map fst l) -> (forall x, x ∈ map fst l -> m !! x = None) ->
    map_to_list (fold_left (fun m x => <[fst x := snd x]> m) l m) ≡ₚ l ++ map_to_list m).
  { rewrite G; [|done|intros; apply lookup_empty]. by rewrite map_to_list_empty, app_nil_r. }
  clear. induction l as [|[k v] l IH]; intros m Nd Hm; [done|]. cbn in *. apply NoDup_cons in Nd as [Nk Nd].
  rewrite IH; [|done|].
  - rewrite map_to_list_insert by (apply Hm; left). by rewrite <- Permutation_middle.
  - intros x Hx. rewrite lookup_insert_ne; [apply Hm; by right|]. by intros ->.
Qed.

Section queue.
Context `{EVPLaws} `{!EVPBytes} `{LZ4} `{MapOrder}.
Variable cfg : Config.
Variable U : bytes -> Prop.
Hypothesis HU : universe cfg U.
Hypothesis HT : hashType_ (c_crypto cfg) = SHA_256.
Hypothesis HR : roomy U.
Abbreviation hot s := (co_containerID (hot_container s)).
Abbreviation going := (going cfg U).
Abbreviation cryptoObj := (c_crypto cfg).
Abbreviation qk := (c_indexQueryKey cfg).
Abbreviation ek := (c_enclaveKey cfg).

(** The names that a list of old bases can use. *)
Definition cost (s : Pass) (l : list bytes) : Z := foldr (fun A z => blen (deltas_of s A) + 1 + z) 0 l.
Lemma cost_nonneg s l : 0 <= cost s l.
Proof. unfold cost. induction l as [|A l IH]; cbn; [lia|]. pose proof (blen_nonneg (deltas_of s A)). lia. Qed.
Lemma cost_app s l k : cost s (l ++ k) = cost s l + cost s k.
Proof. unfold cost. induction l as [|A l IH]; cbn; [done|]. rewrite IH. lia. Qed.
Lemma cost_perm s l k : l ≡ₚ k -> cost s l = cost s k.
Proof. unfold cost. induction 1; cbn; lia. Qed.
Lemma deltas_spared gone s s' A : spared gone s s' -> A ∉ gone -> deltas_of s' A = deltas_of s A.
Proof. intros [D _ _] N. unfold deltas_of. by rewrite D. Qed.
Lemma cost_spared gone s s' l : spared gone s s' -> (forall A, A ∈ l -> A ∉ gone) -> cost s' l = cost s l.
Proof.
  intros Sp. unfold cost. induction l as [|A l IH]; intros N; [done|]. cbn. rewrite (deltas_spared _ _ _ A Sp) by (apply N; left). rewrite IH; [done|].
  intros B HB. apply N. by right.
Qed.

(** What the pairs of a queue need. *)
Record fit (s : Pass) (olds : list bytes) : Prop := {
  ft_nodup : NoDup olds;
  ft_small : forall A, A ∈ olds -> blen (deltas_of s A) < 100000;
  ft_cost : p_times s + cost s olds < 2 ^ 31
}.
Lemma fit_perm s l k : l ≡ₚ k -> fit s l -> fit s k.
Proof. intros P [N Sm C]. split; [by rewrite <- P|intros A HA; apply Sm; by rewrite P|by rewrite <- (cost_perm s _ _ P)]. Qed.
Lemma fit_spared gone s s' l k : spared gone s s' -> (forall A, A ∈ k -> A ∉ gone) -> p_times s' <= p_times s + cost s l -> fit s (l ++ k) -> fit s' k.
Proof.
  intros Sp N T [Nd Sm C]. rewrite cost_app in C. apply NoDup_app in Nd as (_ & _ & Nd). split; [done| |].
  - intros A HA. rewrite (deltas_spared _ _ _ A Sp) by (by apply N). apply Sm, elem_of_app. by right.
  - rewrite (cost_spared _ _ _ k Sp N). lia.
Qed.

Lemma process_pairs_ok news olds g l : forall V F hes s,
  going (map fst l ++ olds) news V F hes s -> fit s (map fst l ++ olds) -> (forall x, x ∈ l -> snd x ∈ news) -> delta_map s = ∅ ->
  exists s' V' F' hes', process_pairs cryptoObj qk ek g l s = Ok s' /\ going olds news V' F' hes' s' /\ spared (map fst l ++ news) s s' /\
    p_times s' <= p_times s + cost s (map fst l) /\ dom V' = dom V.
Proof.
  induction l as [|[A nb] l IH]; intros V F hes s G Ft Hn Dm; cbn [process_pairs map app].
  { exists s, V, F, hes. split; [done|]. split; [done|]. split; [done|]. split; [cbn; lia|done]. }
  pose proof Ft as [Nd Sm C]. cbn [map app fst] in *. apply NoDup_cons in Nd as [NA Nd].
  assert (C1 : cost s (A :: map fst l ++ olds) = blen (deltas_of s A) + 1 + cost s (map fst l ++ olds)) by done.
  pose proof (cost_nonneg s (map fst l ++ olds)).
  destruct (process_pair_ok cfg U HU HT HR A nb (map fst l ++ olds) news V F hes s g G NA (Hn (A, nb) ltac:(left)) Dm) as
    (s1 & V1 & F1 & hes1 & E1 & G1 & Sp1 & T1 & D1); [split; [apply Sm; left|lia]|].
  rewrite E1. cbn [rbind].
  assert (Nl : forall B, B ∈ map fst l ++ olds -> B ∉ A :: news).
  { intros B HB. apply not_elem_of_cons. split; [by intros ->|]. apply (go_olds _ _ _ _ _ _ _ _ G1 B HB). }
  assert (Ft1 : fit s1 (map fst l ++ olds)) by (apply (fit_spared _ _ _ [A] _ Sp1); [done|cbn; lia|done]).
  destruct (IH V1 F1 hes1 s1 G1 Ft1) as (s2 & V2 & F2 & hes2 & E2 & G2 & Sp2 & T2 & D2); [intros x Hx; apply Hn; by right|by rewrite (sp_map _ _ _ Sp1)|].
  exists s2, V2, F2, hes2. split; [done|]. split; [done|]. split; [|split; [|by rewrite D2]].
  - etrans; [eapply spared_mono; [|exact Sp1]|eapply spared_mono; [|exact Sp2]]; intros b; rewrite !elem_of_cons, ?elem_of_app; tauto.
  - rewrite (cost_spared _ _ _ _ Sp1) in T2; [cbn; fold (cost s (map fst l)); lia|]. intros B HB. apply Nl, elem_of_app. by left.
Qed.

(** ** The loop over the batches *)

(** The queue is known to nobody but the loop. *)
Lemma going_queue olds news V F hes s q : going olds news V F hes s ->
  going olds news V F hes (pocall (with_db s (set_local (p_db s) (_local_tmp_map (p_db s)) q (skipMap (p_db s))))).
Proof. intros []. split; try done. by destruct go_cold. Qed.
Lemma fit_queue s q l : fit s l -> fit (pocall (with_db s (set_local (p_db s) (_local_tmp_map (p_db s)) q (skipMap (p_db s))))) l.
Proof. intros []. by split. Qed.

Lemma local_loop_ok news g fuel : forall batch queue V F hes s,
  _local_map (p_db s) = queue -> going (map fst batch ++ map fst queue) news V F hes s -> fit s (map fst batch ++ map fst queue) ->
  (forall x, x ∈ batch ++ queue -> snd x ∈ news) -> delta_map s = ∅ ->
  (batch = [] -> queue = []) -> (length queue + (if batch is [] then 0 else 1) < fuel)%nat ->
  exists s' V' F' hes', local_loop cryptoObj qk ek fuel g batch s = Ok s' /\ going [] news V' F' hes' s' /\ dom V' = dom V /\
    delta_map s' = ∅ /\ waiting (p_db s') = (_local_tmp_map (p_db s), [], skipMap (p_db s)) /\
    p_times s' <= p_times s + cost s (map fst batch ++ map fst queue).
Proof.
  induction fuel as [|fuel IH]; intros batch queue V F hes s Eq G Ft Hn Dm He Hf; [lia|].
  destruct batch as [|x0 batch0] eqn:Eb.
  { exists s, V, F, hes. specialize (He eq_refl). rewrite He in *. do 4 (split; [done|]). split; [unfold waiting; by rewrite Eq|]. cbn. lia. }
  cbn [local_loop]. rewrite <- Eb in *. assert (Hb : (length batch <> 0)%nat) by (by rewrite Eb). clear Eb x0 batch0 He. unfold Ocall_GetLocal. rewrite Eq.
  pose proof (pop_back_perm Local_Batch queue) as P. pose proof (pop_back_nil Local_Batch queue ltac:(unfold Local_Batch; lia)) as Pn.
  pose proof (pop_back_length Local_Batch queue ltac:(unfold Local_Batch; lia)) as Pl.
  destruct (pop_back Local_Batch queue) as [rest next] eqn:Ep. cbn [fst snd] in P, Pn, Pl.
  set (s1 := pocall _). set (m := fold_left _ batch _).
  assert (Nb : NoDup (map fst batch)) by (pose proof (ft_nodup _ _ Ft) as Nd; by apply NoDup_app in Nd as (? & _)).
  assert (Po : order m ≡ₚ batch) by (rewrite order_perm; by apply map_of_pairs).
  assert (Pq : map fst queue ≡ₚ map fst next ++ map fst rest) by (by rewrite <- map_app, P).
  assert (Pa : map fst batch ++ map fst queue ≡ₚ map fst (order m) ++ (map fst next ++ map fst rest)) by (by rewrite Po, Pq).
  destruct (process_pairs_ok news (map fst next ++ map fst rest) g (order m) V F hes s1) as (s2 & V2 & F2 & hes2 & E2 & G2 & Sp2 & T2 & D2).
  - eapply going_olds; [|by apply going_queue]. intros b. by rewrite Pa.
  - eapply fit_perm; [exact Pa|by apply fit_queue].
  - intros x Hx. apply Hn, elem_of_app. left. by rewrite Po in Hx.
  - done.
  - rewrite E2. cbn [rbind]. assert (Wt : waiting (p_db s2) = waiting (p_db s1)) by apply Sp2.
    unfold waiting in Wt. injection Wt as Wt1 Wt2 Wt3. change (_local_map (p_db s1)) with rest in Wt2.
    assert (Ap : forall A, A ∈ map fst next ++ map fst rest -> A ∉ map fst (order m) ++ news).
    { intros A HA. rewrite not_elem_of_app. split; [|apply (go_olds _ _ _ _ _ _ _ _ G2 A HA)].
      pose proof (ft_nodup _ _ (fit_perm _ _ _ Pa Ft)) as Nd. apply NoDup_app in Nd as (_ & Nd & _). intros C. by apply (Nd A C). }
    destruct (IH next rest V2 F2 hes2 s2 Wt2) as (s3 & V3 & F3 & hes3 & E3 & G3 & D3 & M3 & W3 & T3).
    + done.
    + eapply (fit_spared _ s1 s2 (map fst (order m))); [exact Sp2|done|done|eapply fit_perm; [exact Pa|by apply fit_queue]].
    + intros x Hx. apply Hn, elem_of_app. right. by rewrite <- P.
    + by rewrite (sp_map _ _ _ Sp2).
    + done.
    + destruct batch; [done|]. destruct next as [|]; [rewrite Pn by done; cbn; lia|specialize (Pl ltac:(done)); lia].
    + exists s3, V3, F3, hes3. split; [done|]. split; [done|]. split; [by rewrite D3|]. split; [done|]. split; [by rewrite W3, Wt1, Wt3|].
      rewrite (cost_spared _ _ _ _ Sp2 Ap) in T3. rewrite (cost_perm s _ _ Pa), cost_app.
      change (cost s1) with (cost s) in *. change (p_times s1) with (p_times s) in T2. lia.
Qed.
End queue.
