(* ===== verification/OfflineCold.v ===== *)
(** The end of the offline pass: what moved is cut out of the old containers and small
    containers are merged; entries change their places and nothing else. *)
From Stdlib Require Import ZArith Lia.
From stdpp Require Import base list gmap.
From S2P Require Import Prelude Types HTable EDelta EDeltaCorrect Codec Util ReqContainers Database Container Writer Crypto Cold Merge Restore RestoreCorrect Ingest Library IngestStore Vault Offline OfflineSteps OfflineMove OfflinePairs OfflineQueue.

(** ** Entries put back in other places *)

Lemma moved_same change e :
  re_deltaFlag (change (e_recipe e)) = re_deltaFlag (e_recipe e) -> re_basechunkHash (change (e_recipe e)) = re_basechunkHash (e_recipe e) ->
  re_superfeature (change (e_recipe e)) = re_superfeature (e_recipe e) -> same_entry e (moved change e).
Proof. by split. Qed.
Lemma survivors_same segs : forall coldset tail,
  Forall2 same_entry (concat (map fst segs) ++ tail) (survivors coldset segs tail).
Proof.
  assert (M : forall c es, Forall2 same_entry es (map (moved (shift_down c)) es)).
  { intros c es. induction es as [|e es IH]; constructor; [by apply moved_same|done]. }
  induction segs as [|[run d] segs IH]; intros coldset tail; cbn; [apply M|]. rewrite <- app_assoc. apply Forall2_app; [apply M|apply IH].
Qed.

Definition put_back (V : gmap bytes entry) (ss : list entry) : gmap bytes entry := foldl (fun V e => <[e_fp e := e]> V) V ss.
Lemma put_back_other ss : forall V k, k ∉ map e_fp ss -> put_back V ss !! k = V !! k.
Proof.
  induction ss as [|e ss IH]; intros V k Hk; [done|]. cbn in *. apply not_elem_of_cons in Hk as [N Hk].
  unfold put_back in *. rewrite IH by done. by rewrite lookup_insert_ne.
Qed.
Lemma put_back_here ss : forall V e, NoDup (map e_fp ss) -> e ∈ ss -> put_back V ss !! e_fp e = Some e.
Proof.
  induction ss as [|x ss IH]; intros V e Nd He; [by apply elem_of_nil in He|]. cbn in Nd. apply NoDup_cons in Nd as [Nx Nd].
  change (put_back V (x :: ss)) with (put_back (<[e_fp x := x]> V) ss).
  apply elem_of_cons in He as [->|He]; [|by apply IH]. rewrite put_back_other by done. apply lookup_insert_eq.
Qed.

(** Entries of the vault with other places, one for one. *)
Section put_back.
Variables (V : gmap bytes entry) (live ss : list entry).
Hypothesis (HS : Forall2 same_entry live ss) (HL : forall e, e ∈ live -> V !! e_fp e = Some e) (HN : NoDup live).

Lemma put_back_keys : map e_fp ss = map e_fp live.
Proof using HS. clear -HS. induction HS as [|x y l k S F IH]; [done|]. cbn. by rewrite (se_fp _ _ S), IH. Qed.
Lemma put_back_nodup : NoDup (map e_fp ss).
Proof using HS HL HN.
  rewrite put_back_keys. clear HS. induction HN as [|x l Nx Nl IH]; [constructor|]. cbn. constructor.
  - intros Hx. apply list_elem_of_In, in_map_iff in Hx as (y & Ey & Hy%list_elem_of_In).
    assert (x = y) as <-; [|done]. assert (E : V !! e_fp x = V !! e_fp y) by (by rewrite Ey). rewrite !HL in E; [by injection E|by right|by left].
  - apply IH; [|done]. intros e He. apply HL. by right.
Qed.
Lemma put_back_live k : k ∈ map e_fp ss -> exists e x, V !! k = Some e /\ e ∈ live /\ x ∈ ss /\ same_entry e x /\ put_back V ss !! k = Some x.
Proof using HS HL HN.
  intros Hk. apply list_elem_of_In, in_map_iff in Hk as (x & <- & Hx%list_elem_of_In). pose proof Hx as Hi.
  apply list_elem_of_lookup in Hi as [i Hi]. destruct (Forall2_lookup_r _ _ _ _ _ HS Hi) as (e & Ee & S).
  assert (He : e ∈ live) by (by eapply list_elem_of_lookup_2). exists e, x.
  split; [rewrite (se_fp _ _ S); by apply HL|]. split; [done|]. split; [done|]. split; [done|]. apply put_back_here; [apply put_back_nodup|done].
Qed.
Lemma put_back_relocated : relocated V (put_back V ss).
Proof using HS HL HN.
  assert (S : forall k e, V !! k = Some e -> exists e', put_back V ss !! k = Some e' /\ same_entry e e').
  { intros k e E. destruct (decide (k ∈ map e_fp ss)) as [Hk|Hk].
    - destruct (put_back_live k Hk) as (e0 & x & E0 & _ & _ & S & Ex). assert (e0 = e) as -> by congruence. by exists x.
    - exists e. split; [by rewrite put_back_other|done]. }
  split; [|done]. apply set_eq. intros k. rewrite !elem_of_dom. split; intros [e E]; [|destruct (S _ _ E) as (e' & E' & _); by exists e'].
  destruct (decide (k ∈ map e_fp ss)) as [Hk|Hk]; [|rewrite put_back_other in E by done; by exists e].
  destruct (put_back_live k Hk) as (e0 & _ & E0 & _). by exists e0.
Qed.

(** The containers [F'] have the new entries in the place of the old ones, and dead
    entries only where they were. *)
Lemma put_back_housed F F' cold cold' :
  housed V F cold -> map_Forall file_ok F' ->
  (forall e, e ∈ ss -> e ∈ entries F' (re_containerName (e_recipe e))) ->
  (forall n e, e ∈ entries F n -> V !! e_fp e = Some e -> e ∉ live -> e ∈ entries F' n) ->
  (forall n e, e ∈ entries F' n -> e ∈ ss \/ e ∈ entries F n /\ (e ∉ live)) ->
  (forall n, NoDup (cold_of cold' n) /\
     forall q, q ∈ cold_of cold' n <-> exists e, e ∈ entries F' n /\ (e ∉ ss) /\ V !! e_fp e <> Some e /\ q = cold_pair e) ->
  housed (put_back V ss) F' cold'.
Proof using HS HL HN.
  intros [Fo Hm Co] Fo' H1 H2 H3 H4. split; [done| |].
  - intros k e E. destruct (decide (k ∈ map e_fp ss)) as [Hk|Hk].
    + destruct (put_back_live k Hk) as (e0 & x & E0 & _ & Hx & S & Ex). assert (x = e) as -> by congruence.
      split; [|by apply H1]. rewrite (se_fp _ _ S). by apply Hm.
    + rewrite put_back_other in E by done. destruct (Hm _ _ E) as [<- He]. split; [done|]. apply H2; [done|done|].
      intros Hl. apply Hk. rewrite put_back_keys. apply list_elem_of_In, in_map, list_elem_of_In, Hl.
  - intros n. destruct (H4 n) as [Nd Iff]. split; [done|]. intros q. rewrite Iff. split; intros (e & He & A & B).
    + exists e. split; [done|]. destruct B as [B ->]. split; [|done]. intros E. destruct (decide (e_fp e ∈ map e_fp ss)) as [Hk|Hk].
      * destruct (put_back_live _ Hk) as (e0 & x & _ & _ & Hx & _ & Ex). apply A. by assert (x = e) as <- by congruence.
      * by rewrite put_back_other in E.
    + subst q. exists e. split; [done|]. assert (Nss : e ∉ ss) by (intros Hs; apply A, put_back_here; [apply put_back_nodup|done]).
      split; [done|]. split; [|done]. intros E. destruct (decide (e_fp e ∈ map e_fp ss)) as [Hk|Hk].
      * destruct (H3 _ _ He) as [?|[Hf Hl]]; [done|]. apply Hl. destruct (put_back_live _ Hk) as (e0 & x & E0 & Hl0 & _). by assert (e0 = e) as <- by congruence.
      * apply A. by rewrite put_back_other.
Qed.
End put_back.

(** ** The state after the queue *)

Section cold.
Context `{EVPLaws} `{!EVPBytes} `{LZ4} `{MapOrder}.
Variable cfg : Config.
Variable U : bytes -> Prop.
Abbreviation cryptoObj := (c_crypto cfg).
Abbreviation qk := (c_indexQueryKey cfg).

(** The entries [V] are in the containers [F], [C] has the cold chunks; the deltas of
    [K] and of the chunks that are offered are known. *)
Record resting (K : list bytes) (V : gmap bytes entry) (F : shelves) (C : gmap bytes (list (Z * Z))) (s : Pass) : Prop := {
  rs_chunks : chunks cfg U V;
  rs_housed : housed V F C;
  rs_disk : on_shelves (w_dirs (p_world s)) F;
  rs_names : forall n, is_Some (F !! n) -> exists t, 0 <= t < p_times s /\ CreateUUID t = Ok n;
  rs_times : 0 <= p_times s;
  rs_index : indexObj_ (p_db s) = index_of cfg V;
  rs_sf : sf_wf (p_db s);
  rs_offers : offers V (p_db s);
  rs_tracked : forall b, b ∈ K \/ offered (p_db s) b \/ V !! b = None -> tracked V (p_db s) b;
  rs_encoder : encoder_ok (psHTable2Offline_ s);
  rs_pairs : baseMergePair (p_world s) = []
}.

Lemma index_entries_eq db ss : index_entries cryptoObj qk db ss = set_index db (indexObj_ (index_entries cryptoObj qk db ss)).
Proof.
  unfold index_entries. revert db. induction ss as [|e ss IH]; intros db; [by destruct db|]. cbn [foldl]. rewrite IH at 1. done.
Qed.
Lemma index_entries_put db ss V : indexObj_ db = index_of cfg V -> indexObj_ (index_entries cryptoObj qk db ss) = index_of cfg (put_back V ss).
Proof.
  unfold index_entries. revert db V. induction ss as [|e ss IH]; intros db V E; [done|]. cbn [foldl]. apply IH. cbn. rewrite E.
  unfold Vault.index_of. by rewrite fmap_insert.
Qed.
Lemma offers_relocated V V' db : relocated V V' -> offers V db -> offers V' db.
Proof.
  intros R O i m f l k Hi Hf Hk. destruct (O _ _ _ _ _ Hi Hf Hk) as (e & E & B & Ff). destruct (rl_same _ _ R _ _ E) as (e' & E' & S).
  exists e'. split; [done|]. unfold is_base. by rewrite (se_flag _ _ S), (se_sf _ _ S).
Qed.
Lemma relocated_none V V' k : relocated V V' -> V !! k = None <-> V' !! k = None.
Proof. intros [D _]. rewrite <- !not_elem_of_dom. by rewrite D. Qed.
Lemma tracked_relocated V V' db b : relocated V V' -> tracked V db b -> tracked V' db b.
Proof.
  intros R [Nd Iff]. split; [done|]. intros k. rewrite Iff. unfold is_delta, based_on. split; intros (e & E & D & B).
  - destruct (rl_same _ _ R _ _ E) as (e' & E' & S). exists e'. by rewrite (se_flag _ _ S), (se_base _ _ S).
  - destruct (relocated_back _ _ _ _ R E) as (e' & E' & S). exists e'. by rewrite <- (se_flag _ _ S), <- (se_base _ _ S).
Qed.

(** A rewriting of containers, its entries known to the index. *)
Lemma resting_back K V F C s ss F' C' w :
  resting K V F C s -> relocated V (put_back V ss) ->
  housed (put_back V ss) F' C' -> on_shelves (w_dirs w) F' -> (forall n, is_Some (F' !! n) -> is_Some (F !! n)) ->
  w_db w = index_entries cryptoObj qk (p_db s) ss -> baseMergePair w = [] ->
  resting K (put_back V ss) F' C' (with_world s w).
Proof.
  intros [Rc Rh Rd Rn Rt Ri Rs Ro Rk Re Rp] R Hh Hd Hn Db Bp.
  assert (Dw : p_db (with_world s w) = set_index (p_db s) (index_of cfg (put_back V ss))).
  { change (p_db (with_world s w)) with (w_db w). rewrite Db, index_entries_eq. f_equal. by apply index_entries_put. }
  split; rewrite ?Dw; try done.
  - by eapply chunks_same.
  - intros n Hf. by apply Rn, Hn.
  - intros i m f l k. cbn. by apply (offers_relocated V _ _ R Ro).
  - intros b Hb. apply (tracked_relocated V _ _ b R), Rk. by rewrite (relocated_none V _ b R).
Qed.
Lemma resting_frame K V F C s s' : resting K V F C s -> w_dirs (p_world s') = w_dirs (p_world s) -> p_times s' = p_times s ->
  indexObj_ (p_db s') = indexObj_ (p_db s) -> sfObj_ (p_db s') = sfObj_ (p_db s) -> delta_index (p_db s') = delta_index (p_db s) ->
  psHTable2Offline_ s' = psHTable2Offline_ s -> baseMergePair (p_world s') = [] -> resting K V F C s'.
Proof.
  intros [Rc Rh Rd Rn Rt Ri Rs Ro Rk Re Rp] Ed Et Ei Es Ex Ee Ep. split; rewrite ?Ed, ?Et, ?Ei, ?Ee; try done.
  - unfold sf_wf. by rewrite Es.
  - intros i m f l k. rewrite Es. apply Ro.
  - intros b Hb. rewrite (offered_sf (p_db s)) in Hb by done. unfold tracked. rewrite Ex. by apply Rk.
Qed.
Lemma housed_perm V F C C' : (forall n, cold_of C' n ≡ₚ cold_of C n) -> housed V F C -> housed V F C'.
Proof. intros P [Fo Hm Co]. split; [done|done|]. intros n. destruct (Co n) as [Nd Iff]. split; [by rewrite P|]. intros q. by rewrite P. Qed.
Lemma resting_perm K V F C C' s : (forall n, cold_of C' n ≡ₚ cold_of C n) -> resting K V F C s -> resting K V F C' s.
Proof. intros P []. split; try done. by eapply housed_perm. Qed.

(** ** A container with cold chunks *)

Lemma segments_of (P : entry -> Prop) `{!forall e, Decision (P e)} es :
  exists segs tail, es = all_entries segs tail /\ Forall (fun s => P (snd s)) segs /\ Forall (fun e => ~ P e) (concat (map fst segs) ++ tail).
Proof.
  induction es as [|e es (segs & tail & -> & Fp & Fn)]; [by exists [], []|]. destruct (decide (P e)) as [Pe|Pe].
  - exists (([], e) :: segs), tail. split; [done|]. split; [by constructor|done].
  - destruct segs as [|[run d] segs].
    + exists [], (e :: tail). split; [done|]. split; [done|by constructor].
    + exists ((e :: run, d) :: segs), tail. split; [done|]. split; [by apply Forall_cons in Fp as [? ?]; constructor|]. by constructor.
Qed.
Lemma segments_perm (segs : segments) (tail : list entry) :
  all_entries segs tail ≡ₚ (concat (map fst segs) ++ tail) ++ map snd segs.
Proof.
  unfold all_entries. induction segs as [|[run d] segs IH]; cbn; [by rewrite app_nil_r|]. rewrite <- !app_assoc. f_equiv. cbn.
  rewrite IH, <- !app_assoc. rewrite !(app_assoc (concat _)). by rewrite <- Permutation_middle.
Qed.
Lemma segments_elem (segs : segments) (tail : list entry) e :
  e ∈ all_entries segs tail <-> e ∈ concat (map fst segs) ++ tail \/ e ∈ map snd segs.
Proof. by rewrite segments_perm, elem_of_app. Qed.

(** The dead entries of a container, by its list. *)
Lemma dead_pairs V F C n delta es segs tail cs :
  housed V F C -> F !! n = Some (delta, es) -> es = all_entries segs tail ->
  Forall (fun s => V !! e_fp (snd s) <> Some (snd s)) segs -> Forall (fun e => ~ V !! e_fp e <> Some e) (concat (map fst segs) ++ tail) ->
  cold_of C n ≡ₚ cs -> cs ≡ₚ map (fun s => cold_pair (snd s)) segs.
Proof.
  intros [Fo Hm Co] Ef Es Fp Fn P. destruct (Co n) as [Nd Iff]. rewrite <- P. pose proof (Fo _ _ Ef) as (_ & L & _ & _). cbn [snd] in L.
  assert (En : entries F n = es) by (unfold entries; by rewrite Ef). rewrite Forall_forall in Fp; rewrite Forall_forall in Fn.
  apply NoDup_Permutation; [done| |].
  - rewrite <- (map_map snd cold_pair). apply laid_out_nodup in L as Nes. rewrite Es, segments_perm in Nes. apply NoDup_app in Nes as (_ & _ & Nes).
    apply NoDup_fmap_2_strong; [|done]. intros x y Hx Hy. apply (cold_pair_inj F n); [done|..]; rewrite En, Es; apply segments_elem; by right.
  - intros q. rewrite Iff, En. rewrite list_elem_of_fmap. split.
    + intros (e & He & Ne & ->). rewrite Es in He. apply segments_elem in He as [He|He]; [by destruct (Fn e He)|].
      apply list_elem_of_fmap in He as (sg & -> & Hs). by exists sg.
    + intros (sg & -> & Hs). exists (snd sg). split; [|split; [by apply Fp|done]]. rewrite Es. apply segments_elem. right.
      apply list_elem_of_fmap. by exists sg.
Qed.

(** The container after the cut: what is left of it is alive. *)
Lemma cut_housed V F C n delta es segs tail :
  housed V F C -> F !! n = Some (delta, es) -> es = all_entries segs tail ->
  Forall (fun e => ~ V !! e_fp e <> Some e) (concat (map fst segs) ++ tail) -> laid_out 0 n (survivors 0 segs tail) ->
  Forall (fun s => V !! e_fp (snd s) <> Some (snd s)) segs ->
  let live := concat (map fst segs) ++ tail in
  (forall e, e ∈ live -> V !! e_fp e = Some e) /\ NoDup live /\
  housed (put_back V (survivors 0 segs tail)) (<[n := (delta, survivors 0 segs tail)]> F) (delete n C).
Proof.
  intros Hh Ef Es Fn Ls Fp live. pose proof Hh as [Fo Hm Co]. pose proof (Fo _ _ Ef) as (Fx & L & Mx & Fl). cbn [snd fst] in *.
  assert (En : entries F n = es) by (unfold entries; by rewrite Ef). pose proof (survivors_same segs 0 tail) as HS. fold live in HS, Fn.
  rewrite Forall_forall in Fn; rewrite Forall_forall in Fp. assert (HL : forall e, e ∈ live -> V !! e_fp e = Some e) by (intros e He; apply dec_stable; by apply Fn).
  assert (HN : NoDup live) by (apply laid_out_nodup in L; rewrite Es, segments_perm in L; by apply NoDup_app in L as (? & _)).
  split; [done|]. split; [done|]. set (ss := survivors 0 segs tail) in *.
  assert (Lv : forall e, e ∈ live -> e ∈ es) by (intros e He; rewrite Es; apply segments_elem; by left).
  apply (put_back_housed V live ss HS HL HN F _ C); try done.
  - apply map_Forall_insert_2; [|done]. split; [done|]. split; [done|]. cbn [snd fst]. split.
    + pose proof (total_size_survivors segs 0 tail) as T. fold ss in T. rewrite <- Es in T. pose proof (cold_size_le segs tail). lia.
    + rewrite Forall_forall in Fl |- *. intros x Hx. apply list_elem_of_lookup in Hx as [i Hi].
      destruct (Forall2_lookup_r _ _ _ _ _ HS Hi) as (e & Ee & S). rewrite (se_flag _ _ S). apply Fl, Lv. by eapply list_elem_of_lookup_2.
  - intros e He. destruct (laid_out_elem _ _ _ _ Ls He) as (_ & -> & _). by rewrite entries_insert, decide_True.
  - intros m e He Ev Nl. rewrite entries_insert. case_decide as D; [|done]. subst m. rewrite En, Es in He.
    apply segments_elem in He as [He|He]; [done|]. apply list_elem_of_fmap in He as (sg & -> & Hs). by destruct (Fp _ Hs).
  - intros m e. rewrite entries_insert. case_decide as D; [by left|]. intros He. right. split; [done|]. intros Hl.
    destruct (laid_out_elem _ _ _ _ (files_laid F m Fo) He) as (_ & N1 & _). destruct (laid_out_elem _ _ _ _ L (Lv _ Hl)) as (_ & N2 & _). congruence.
  - intros m. destruct (decide (m = n)) as [->|N].
    + unfold cold_of. rewrite lookup_delete_eq. split; [constructor|]. intros q. split; [by intros ?%elem_of_nil|].
      intros (e & He & Ns & _). by rewrite entries_insert, decide_True in He.
    + destruct (Co m) as [Nd Iff]. unfold cold_of. rewrite lookup_delete_ne by done. fold (cold_of C m). split; [done|]. intros q. rewrite Iff.
      rewrite entries_insert, decide_False by done. split; intros (e & He & R); exists e; [|tauto]. split; [done|]. split; [|done].
      intros Hs. destruct (laid_out_elem _ _ _ _ Ls Hs) as (_ & N1 & _). destruct (laid_out_elem _ _ _ _ (files_laid F m Fo) He) as (_ & N2 & _). congruence.
Qed.

Lemma cold_container_ok K V F C s n cs buf :
  resting K V F C s -> cold_of C n ≡ₚ cs -> cs <> [] ->
  exists w V' F' ix, Update_cold_container cryptoObj qk (p_world s) n cs buf = Ok w /\ resting K V' F' (delete n C) (with_world s w) /\
    dom V' = dom V /\ w_db w = set_index (p_db s) ix.
Proof.
  intros R P Ne. pose proof (rs_housed _ _ _ _ _ R) as Hh. pose proof Hh as [Fo _ Co].
  assert (exists delta es, F !! n = Some (delta, es)) as (delta & es & Ef).
  { destruct cs as [|q cs]; [done|]. assert (Hq : q ∈ cold_of C n) by (rewrite P; left). apply Co in Hq as (e & He & _).
    apply entries_lookup in He as (delta & es & Ef & _). by exists delta, es. }
  pose proof (Fo _ _ Ef) as (Fx & L & Mx & Fl). cbn [snd] in L, Mx.
  destruct (segments_of (fun e => V !! e_fp e <> Some e) es) as (segs & tail & Es & Fp & Fn).
  pose proof (dead_pairs V F C n delta es segs tail cs Hh Ef Es Fp Fn P) as Pc.
  destruct (Update_cold_container_run cryptoObj qk (p_world s) n delta segs tail cs buf) as (w & E & Dw & Db & Ls & Bp); [| |by rewrite <- Es..|done|].
  { unfold blen. destruct Fx as [-> _]. done. } { rewrite <- Es. apply (shelves_stored _ F (rs_disk _ _ _ _ _ R)). exact Ef. }
  destruct (cut_housed V F C n delta es segs tail Hh Ef Es Fn Ls Fp) as (HL & HN & Hh').
  pose proof (put_back_relocated V _ _ (survivors_same segs 0 tail) HL HN) as Rl.
  exists w, (put_back V (survivors 0 segs tail)), (<[n := (delta, survivors 0 segs tail)]> F), (indexObj_ (w_db w)).
  split; [done|]. split; [|split].
  - eapply resting_back; [exact R|exact Rl|done| |..].
    + rewrite Dw. apply shelves_store; [apply (rs_disk _ _ _ _ _ R)|]. by eapply shelf_other.
    + intros m. destruct (decide (m = n)) as [->|]; [by rewrite Ef|by rewrite lookup_insert_ne].
    + done.
    + rewrite Bp. apply (rs_pairs _ _ _ _ _ R).
  - by apply (rl_dom _ _ Rl).
  - rewrite Db at 1. change (w_db (p_world s)) with (p_db s). rewrite index_entries_eq. f_equal. by rewrite Db.
Qed.

(** ** Batches of cold containers *)

(** The lists of a batch and those still outside. *)
Definition pend (batch : list (bytes * list (Z * Z))) (M : gmap bytes (list (Z * Z))) : gmap bytes (list (Z * Z)) :=
  foldr (fun x m => <[fst x := snd x]> m) M batch.
Lemma pend_other batch M n : n ∉ map fst batch -> cold_of (pend batch M) n = cold_of M n.
Proof.
  induction batch as [|[k l] batch IH]; [done|]. cbn. intros [N Nb]%not_elem_of_cons. unfold cold_of in *. rewrite lookup_insert_ne by done. by apply IH.
Qed.
Lemma cold_of_insert n l M m : cold_of (<[n := l]> M) m = if decide (m = n) then l else cold_of M m.
Proof. unfold cold_of. case_decide as E; [by rewrite E, lookup_insert_eq|by rewrite lookup_insert_ne]. Qed.

(** A batch as [Ocall_GetCold] leaves it. *)
Record batch_ok (batch : list (bytes * list (Z * Z))) (db : IndexStore) : Prop := {
  bt_nodup : NoDup (map fst batch ++ _cold_container_vector db);
  bt_some : forall x, x ∈ batch -> snd x <> [];
  bt_taken : forall n, n ∈ map fst batch -> cold_of (_cold_map db) n = [];
  bt_queue : forall n, (cold_of (_cold_map db) n <> []) <-> n ∈ _cold_container_vector db;
  bt_one : (length batch <= 1)%nat
}.

Lemma update_cold_ok K M buf l : forall V F s,
  resting K V F (pend l M) s -> NoDup (map fst l) -> (forall x, x ∈ l -> snd x <> []) -> (forall n, n ∈ map fst l -> cold_of M n = []) ->
  exists s' V' F' ix, update_cold cryptoObj qk l buf s = Ok s' /\ resting K V' F' M s' /\ dom V' = dom V /\ p_db s' = set_index (p_db s) ix.
Proof.
  induction l as [|[n cs] l IH]; intros V F s R Nd Hs Hm; cbn [update_cold].
  { exists s, V, F, (indexObj_ (p_db s)). split; [done|]. split; [done|]. split; [done|]. by destruct (p_db s). }
  cbn [map fst] in *. apply NoDup_cons in Nd as [Nn Nd].
  destruct (cold_container_ok K V F (pend ((n, cs) :: l) M) s n cs buf) as (w & V1 & F1 & ix & -> & R1 & D1 & Db); [done| |by apply (Hs (n, cs)); left|].
  { cbn. by rewrite cold_of_insert, decide_True. }
  cbn [rbind]. set (s1 := pstat _ _).
  destruct (IH V1 F1 s1) as (s2 & V2 & F2 & ix2 & -> & R2 & D2 & Db2); [|done|intros x Hx; apply Hs; by right|intros m Hi; apply Hm; by right|].
  { eapply (resting_perm K V1 F1 _ (pend l M) s1); [|eapply resting_frame; [exact R1|try done..]; apply (rs_pairs _ _ _ _ _ R1)].
    intros m. cbn. unfold cold_of at 2. destruct (decide (m = n)) as [->|N].
    - rewrite lookup_delete_eq, (pend_other _ _ _ Nn), Hm; [done|left].
    - rewrite lookup_delete_ne, lookup_insert_ne by done. done. }
  exists s2, V2, F2, ix2. split; [done|]. split; [done|]. split; [by rewrite D2|]. rewrite Db2.
  change (p_db s1) with (w_db w). by rewrite Db.
Qed.

Lemma take_cold_ok names : forall M, NoDup names ->
  let r := take_cold names M in map fst (snd r) = names /\ (forall n, cold_of (pend (snd r) (fst r)) n ≡ₚ cold_of M n) /\
    (forall n, cold_of (fst r) n = if decide (n ∈ names) then [] else cold_of M n) /\
    (forall x, x ∈ snd r -> snd x = reverse (cold_of M (fst x))).
Proof.
  induction names as [|n names IH]; intros M Nd; cbn; [split; [done|split; [done|split; [done|by intros x ?%elem_of_nil]]]|].
  apply NoDup_cons in Nd as [Nn Nd]. specialize (IH (delete n M) Nd). destruct (take_cold names (delete n M)) as [M' l]. cbn in *.
  destruct IH as (I1 & I2 & I3 & I4). split; [by rewrite I1|]. split; [|split].
  - intros m. rewrite cold_of_insert. case_decide as D; [subst m; apply reverse_Permutation|]. rewrite I2. unfold cold_of. by rewrite lookup_delete_ne.
  - intros m. rewrite I3. destruct (decide (m = n)) as [->|N].
    + rewrite (decide_False (P := n ∈ names)) by done. rewrite decide_True by left. unfold cold_of. by rewrite lookup_delete_eq.
    + destruct (decide (m ∈ names)) as [Hm|Hm]; [by rewrite decide_True by (by right)|]. rewrite decide_False by (by rewrite not_elem_of_cons).
      unfold cold_of. by rewrite lookup_delete_ne.
  - intros x [->|Hx]%elem_of_cons; [done|]. rewrite I4 by done. assert (fst x <> n) by (intros <-; apply Nn; rewrite <- I1; by apply list_elem_of_fmap_2).
    unfold cold_of. by rewrite lookup_delete_ne.
Qed.

(** The list of a container fits the buffer of the ocall. *)
Lemma cold_bytes_bound V F C n : housed V F C -> 8 * blen (cold_of C n) <= 116509.
Proof.
  intros [Fo _ Co]. destruct (Co n) as [Nd Iff].
  assert (L : (length (cold_of C n) <= length (map cold_pair (entries F n)))%nat).
  { apply submseteq_length, NoDup_submseteq; [done|]. intros q Hq. apply Iff in Hq as (e & He & _ & ->). by apply list_elem_of_fmap_2. }
  rewrite length_map in L. assert (T : 288 * Z.of_nat (length (entries F n)) <= total_size (entries F n)).
  { clear. induction (entries F n) as [|e es IH]; [done|]. change (total_size (e :: es)) with (entry_size e + total_size es).
    unfold entry_size. pose proof (blen_nonneg (e_data e)). cbn [length]. lia. }
  assert (M : total_size (entries F n) <= 4194304).
  { unfold entries. destruct (F !! n) as [[delta es]|] eqn:Ef; [|done]. by destruct (Fo _ _ Ef) as (_ & _ & M & _). }
  unfold blen. lia.
Qed.

Lemma GetCold_ok K V F batch s :
  resting K V F (pend batch (_cold_map (p_db s))) s -> batch_ok batch (p_db s) ->
  exists M rest next, Ocall_GetCold (p_db s) = Ok (set_cold (p_db s) M rest (_cold_container_set (p_db s)), next) /\
    let db' := set_cold (p_db s) M rest (_cold_container_set (p_db s)) in
    batch_ok next db' /\ (next = [] -> rest = []) /\ resting K V F (pend batch (pend next M)) (pocall (with_db s db')) /\
    (forall n, n ∈ map fst batch -> cold_of (pend next M) n = []) /\
    (length rest + (if next is [] then 0 else 1) <= length (_cold_container_vector (p_db s)))%nat.
Proof.
  intros R [Nd Sm Tk Qu On]. set (M0 := _cold_map (p_db s)) in *. set (q := _cold_container_vector (p_db s)) in *.
  apply NoDup_app in Nd as (Nb & Nbq & Nq). pose proof (pop_back_perm Cold_Batch q) as Pq. pose proof (pop_back_nil Cold_Batch q ltac:(unfold Cold_Batch; lia)) as Pn.
  pose proof (pop_back_length Cold_Batch q ltac:(unfold Cold_Batch; lia)) as Pl.
  assert (Pone : (length (snd (pop_back Cold_Batch q)) <= 1)%nat) by (cbn; rewrite length_take; unfold Cold_Batch; lia).
  unfold Ocall_GetCold. fold q M0. destruct (pop_back Cold_Batch q) as [rest names]. cbn [fst snd] in *.
  assert (Nn : NoDup (names ++ rest)) by (by rewrite Pq). pose proof Nn as (Nn1 & Nn2 & Nn3)%NoDup_app.
  destruct (take_cold_ok names M0 Nn1) as (T1 & T2 & T3 & T4). destruct (take_cold names M0) as [M next]. cbn [fst snd] in *.
  assert (Cn : forall n, cold_of (pend batch (pend next M)) n ≡ₚ cold_of (pend batch M0) n).
  { clear -T2. induction batch as [|x batch IH]; intros n; [apply T2|]. cbn. rewrite !cold_of_insert. by case_decide. }
  assert (Bd : (4000 * CHUNK_HASH_SIZE <? 4 + foldr Z.add 0 (map cold_bytes next)) = false).
  { apply Z.ltb_ge. rewrite <- T1, length_map in Pone. destruct next as [|x [|]]; [done| |cbn in Pone; lia]. cbn [map foldr]. unfold cold_bytes.
    rewrite (T4 x) by left. unfold blen. rewrite length_reverse. fold (blen (cold_of M0 (fst x))).
    assert (Hx : fst x ∉ map fst batch).
    { intros Hx. apply (Nbq _ Hx). rewrite <- Pq. apply elem_of_app. left. rewrite <- T1. left. }
    rewrite <- (pend_other _ M0 _ Hx). pose proof (cold_bytes_bound _ _ _ (fst x) (rs_housed _ _ _ _ _ R)).
    unfold CONTAINER_ID_LENGTH, CHUNK_HASH_SIZE. lia. }
  rewrite Bd. exists M, rest, next. split; [done|]. cbn [set_cold _cold_map _cold_container_vector].
  split; [|split; [by intros ->; apply Pn; rewrite <- T1|split; [|split]]].
  - split; cbn [set_cold _cold_map _cold_container_vector]; rewrite ?T1; [done|..].
    + intros x Hx Ex. rewrite (T4 x Hx) in Ex. apply (f_equal reverse) in Ex. rewrite reverse_involutive in Ex.
      assert (Hn : fst x ∈ q) by (rewrite <- Pq; apply elem_of_app; left; rewrite <- T1; by apply list_elem_of_fmap_2). by apply Qu in Hn.
    + intros n Hn. by rewrite T3, decide_True.
    + intros n. rewrite T3. case_decide as D; [split; [done|]; intros Hr; by destruct (Nn2 n D)|]. rewrite Qu, <- Pq, elem_of_app. tauto.
    + rewrite <- T1, length_map in Pone. done.
  - eapply resting_perm; [exact Cn|]. eapply resting_frame; [exact R|try done..]. apply (rs_pairs _ _ _ _ _ R).
  - intros n Hn. rewrite pend_other; [|rewrite T1; intros C; apply (Nbq n Hn); rewrite <- Pq; apply elem_of_app; by left].
    rewrite T3. case_decide; [done|]. by apply Tk.
  - destruct next as [|x next]; [rewrite Pn by (by rewrite <- T1); cbn; lia|]. cbn. specialize (Pl ltac:(by rewrite <- T1)). lia.
Qed.

Lemma cold_basemap_one n (cs : list (Z * Z)) : cs <> [] ->
  order (fold_left (fun m x => fold_left (fun m p => push m (fst x) p) (snd x) m) [(n, cs)] ∅) = [(n, cs)].
Proof.
  intros Ne. cbn [fold_left fst snd]. destruct (push_all_lookup cs n ∅) as [L D].
  assert (E : fold_left (fun m p => push m n p) cs ∅ = {[n := cs]}).
  { apply map_eq. intros k. destruct (decide (k = n)) as [->|N].
    - rewrite lookup_singleton_eq. rewrite lookup_empty in L. destruct (_ !! n) as [l|]; cbn in L; unfold id in L; [by rewrite L|by destruct Ne].
    - rewrite lookup_singleton_ne by done. rewrite <- (lookup_delete_ne _ n k) by done. by rewrite D, delete_empty. }
  rewrite E. apply Permutation_singleton_r. rewrite order_perm. by rewrite map_to_list_singleton.
Qed.

Lemma cold_loop_ok K buf fuel : forall batch V F s,
  resting K V F (pend batch (_cold_map (p_db s))) s -> batch_ok batch (p_db s) -> (batch = [] -> _cold_container_vector (p_db s) = []) ->
  (length (_cold_container_vector (p_db s)) + (if batch is [] then 0 else 1) < fuel)%nat ->
  exists s' V' F', cold_loop cryptoObj qk fuel batch buf s = Ok s' /\ resting K V' F' ∅ s' /\ dom V' = dom V /\
    waiting (p_db s') = waiting (p_db s) /\ _cold_container_set (p_db s') = _cold_container_set (p_db s) /\
    _cold_container_vector (p_db s') = [] /\ (forall n, cold_of (_cold_map (p_db s')) n = []).
Proof.
  induction fuel as [|fuel IH]; intros batch V F s R B La Hf; [lia|]. destruct batch as [|[n cs] batch]; cbn [cold_loop].
  - pose proof (La eq_refl) as Q. assert (Em : forall n, cold_of (_cold_map (p_db s)) n = []).
    { intros n. apply dec_stable. intros C. apply (bt_queue _ _ B) in C. rewrite Q in C. by apply elem_of_nil in C. }
    exists s, V, F. split; [done|]. split; [|done]. eapply resting_perm; [|exact R]. intros n. cbn. by rewrite Em.
  - destruct (GetCold_ok K V F ((n, cs) :: batch) s R B) as (M & rest & next & E & B' & La' & R' & Tk & Ln). rewrite E. cbn [rbind fst snd].
    pose proof (bt_one _ _ B) as On. destruct batch as [|]; [|cbn in On; lia]. pose proof (bt_some _ _ B (n, cs) ltac:(left)) as Ne.
    rewrite cold_basemap_one by done. set (s1 := pocall _) in *.
    destruct (update_cold_ok K (pend next M) buf [(n, cs)] V F s1 R') as (s2 & V2 & F2 & ix & E2 & R2 & D2 & Db2); [by repeat constructor; apply not_elem_of_nil|by intros x ->%list_elem_of_singleton|done|].
    rewrite E2. cbn [rbind].
    assert (W2 : _cold_map (p_db s2) = M /\ _cold_container_vector (p_db s2) = rest /\ _cold_container_set (p_db s2) = _cold_container_set (p_db s) /\
      waiting (p_db s2) = waiting (p_db s)) by (by rewrite Db2).
    destruct W2 as (Wm & Wv & Ws & Ww).
    destruct (IH next V2 F2 s2) as (s3 & V3 & F3 & E3 & R3 & D3 & W3 & S3 & Q3 & C3).
    + by rewrite Wm.
    + rewrite Db2. destruct B'. by split.
    + by rewrite Wv.
    + rewrite Wv. lia.
    + exists s3, V3, F3. split; [done|]. split; [done|]. split; [by rewrite D3|]. split; [by rewrite W3|]. split; [by rewrite S3|done].
Qed.

(** ** Merging *)

Lemma merged_same m p : Forall2 same_entry (default [] (m !! snd p)) (merged m p).
Proof. unfold merged. induction (default [] (m !! snd p)) as [|e es IH]; constructor; [by apply moved_same|done]. Qed.

(** Two containers become one. *)
Lemma merge_housed V F a b es1 es2 :
  housed V F ∅ -> F !! a = Some (false, es1) -> F !! b = Some (false, es2) -> a <> b -> total_size es1 + total_size es2 < MAX_CONTAINER_SIZE ->
  let m := shelf false F in
  (forall e, e ∈ es2 -> V !! e_fp e = Some e) /\ NoDup es2 /\
  housed (put_back V (merged m (a, b))) (delete b (<[a := (false, es1 ++ merged m (a, b))]> F)) ∅.
Proof.
  intros Hh Ea Eb N T m. pose proof Hh as [Fo Hm Co]. pose proof (Fo _ _ Ea) as (Fa & La & Ma & Fla). pose proof (Fo _ _ Eb) as (Fb & Lb & Mb & Flb).
  cbn [fst snd] in *. assert (Eb2 : m !! b = Some es2) by (by apply shelf_lookup). assert (Ea2 : m !! a = Some es1) by (by apply shelf_lookup).
  pose proof (merged_same m (a, b)) as HS. cbn [snd] in HS. rewrite Eb2 in HS. cbn [default] in HS. unfold id in HS. set (ss := merged m (a, b)) in *.
  assert (Enb : entries F b = es2) by (unfold entries; by rewrite Eb). assert (Ena : entries F a = es1) by (unfold entries; by rewrite Ea).
  assert (Alive : forall n e, e ∈ entries F n -> V !! e_fp e = Some e).
  { intros n e He. apply dec_stable. intros C. destruct (Co n) as [_ Iff]. assert (Hq : cold_pair e ∈ cold_of ∅ n) by (apply Iff; by exists e).
    unfold cold_of in Hq. rewrite lookup_empty in Hq. by apply elem_of_nil in Hq. }
  assert (HL : forall e, e ∈ es2 -> V !! e_fp e = Some e) by (intros e He; apply (Alive b); by rewrite Enb).
  split; [done|]. assert (HN : NoDup es2) by (by eapply laid_out_nodup). split; [done|].
  assert (Lm : laid_out 0 a (es1 ++ ss)).
  { apply laid_out_app. split; [done|]. rewrite Z.add_0_l. unfold ss, merged. cbn [fst snd]. rewrite Ea2, Eb2. cbn [default]. unfold id.
    pose proof (total_size_nonneg es1). pose proof (total_size_nonneg es2). change MAX_CONTAINER_SIZE with 4194304 in T.
    apply (laid_out_up 0 (total_size es1) b a es2); try done; lia. }
  assert (En' : forall n, entries (delete b (<[a := (false, es1 ++ ss)]> F)) n = if decide (n = b) then [] else if decide (n = a) then es1 ++ ss else entries F n).
  { intros n. case_decide as D; [subst n; unfold entries; by rewrite lookup_delete_eq|]. rewrite <- (entries_insert F a false (es1 ++ ss) n). unfold entries. by rewrite lookup_delete_ne. }
  assert (Nm : forall x, x ∈ ss -> re_containerName (e_recipe x) = a).
  { intros x Hx. apply (laid_out_elem 0 a (es1 ++ ss) x Lm). apply elem_of_app. by right. }
  apply (put_back_housed V es2 ss HS HL HN F _ ∅); try done.
  - apply map_Forall_delete, map_Forall_insert_2; [|done]. split; [done|]. split; [done|]. cbn [snd fst]. split.
    + rewrite total_size_app. unfold ss, merged. rewrite total_size_moved. cbn [snd]. rewrite Eb2. cbn [default]. unfold id. lia.
    + apply Forall_app. split; [done|]. rewrite Forall_forall in Flb |- *. intros x Hx. apply list_elem_of_lookup in Hx as [i Hi].
      destruct (Forall2_lookup_r _ _ _ _ _ HS Hi) as (e & Ee & S). rewrite (se_flag _ _ S). apply Flb. by eapply list_elem_of_lookup_2.
  - intros x Hx. rewrite En', Nm, decide_False, decide_True by done. apply elem_of_app. by right.
  - intros n e He _ Nl. rewrite En'. case_decide as D; [subst n; by rewrite Enb in He|]. case_decide as D'; [|done]. subst n. rewrite Ena in He.
    apply elem_of_app. by left.
  - intros n e. rewrite En'. case_decide as D; [by intros ?%elem_of_nil|]. intros He. assert (C : e ∈ ss \/ e ∈ entries F n).
    { case_decide as D'; [|by right]. subst n. rewrite Ena. apply elem_of_app in He. tauto. }
    destruct C as [?|C]; [by left|right]. split; [done|]. intros Hl. rewrite <- Enb in Hl.
    destruct (laid_out_elem _ _ _ _ (files_laid F n Fo) C) as (_ & N1 & _). destruct (laid_out_elem _ _ _ _ (files_laid F b Fo) Hl) as (_ & N2 & _). congruence.
  - intros n. unfold cold_of. rewrite lookup_empty. split; [constructor|]. intros q. split; [by intros ?%elem_of_nil|].
    intros (e & He & Ns & Nv & _). destruct Nv. rewrite En' in He. case_decide as D; [by apply elem_of_nil in He|].
    apply (Alive n). case_decide as D'; [|done]. subst n. rewrite Ena. apply elem_of_app in He. tauto.
Qed.

Lemma merge_all_housed pairs : forall V F, housed V F ∅ -> pairs_ok (shelf false F) pairs ->
  let r := merge_all (shelf false F) pairs in
  exists F', shelf false F' = fst r /\ shelf true F' = shelf true F /\ housed (put_back V (snd r)) F' ∅ /\ relocated V (put_back V (snd r)) /\
    forall n, is_Some (F' !! n) -> is_Some (F !! n).
Proof.
  induction pairs as [|[a b] pairs IH]; intros V F Hh P; cbn [merge_all fst snd]; [by exists F|].
  destruct (pairs_ok_tail _ _ _ _ P) as [Nab P']. destruct P as [_ Fi]. apply Forall_cons in Fi as [(es1 & es2 & E1 & E2 & T) _].
  cbn [fst snd] in *. pose proof E1 as Ea. pose proof E2 as Eb. apply shelf_lookup in Ea, Eb.
  destruct (merge_housed V F a b es1 es2 Hh Ea Eb Nab T) as (HL & HN & Hh').
  pose proof (merged_same (shelf false F) (a, b)) as HS. cbn [snd] in HS. rewrite E2 in HS. cbn [default] in HS. unfold id in HS.
  set (F1 := delete b _) in Hh'.
  assert (M1 : shelf false F1 = merge_one (shelf false F) (a, b)).
  { unfold F1, merge_one. cbn [fst snd]. by rewrite shelf_delete, shelf_insert, E1. }
  assert (T1 : shelf true F1 = shelf true F).
  { unfold F1. pose proof (shelf_other _ _ _ _ Ea) as Oa. pose proof (shelf_other _ _ _ _ Eb) as Ob. cbn [negb] in *.
    rewrite shelf_delete, (shelf_insert_other false) by done. by apply delete_id. }
  destruct (IH (put_back V (merged (shelf false F) (a, b))) F1 Hh') as (F' & S1 & S2 & H' & R' & N'); [by rewrite M1|].
  rewrite M1 in S1, H', R'. exists F'. split; [done|]. split; [by rewrite S2|]. unfold put_back in *. rewrite foldl_app. split; [done|]. split.
  - etrans; [|exact R']. by apply (put_back_relocated V es2).
  - intros n Hn. apply N' in Hn. unfold F1 in Hn. destruct (decide (n = b)) as [->|]; [by rewrite Eb|]. rewrite lookup_delete_ne in Hn by done.
    destruct (decide (n = a)) as [->|]; [by rewrite Ea|]. by rewrite lookup_insert_ne in Hn.
Qed.

Lemma merge_resting K V F s body buf :
  resting K V F ∅ s ->
  exists w V' F' ix, MergeContainer cryptoObj qk (p_world s) body buf = Ok w /\ resting K V' F' ∅ (with_world s w) /\ dom V' = dom V /\
    w_db w = set_index (p_db s) ix.
Proof.
  intros R. pose proof (rs_disk _ _ _ _ _ R) as [Db Dd]. pose proof (rs_housed _ _ _ _ _ R) as Hh.
  assert (Dk : disk_ok (w_dirs (p_world s)) (shelf false F)).
  { split; [done|]. intros n es En%shelf_lookup. by destruct (ho_files _ _ _ Hh _ _ En) as (? & ? & ? & _). }
  destruct (MergeContainer_run cryptoObj qk (p_world s) (shelf false F) body buf Dk (rs_pairs _ _ _ _ _ R)) as (w & E & P & Dk' & Ei & Ed & _ & Bp).
  set (pairs := found_pairs _) in *. destruct (merge_all_housed pairs V F Hh P) as (F' & S1 & S2 & H' & R' & N').
  exists w, (put_back V (snd (merge_all (shelf false F) pairs))), F', (indexObj_ (w_db w)). split; [done|]. split; [|split].
  - eapply resting_back; [exact R|exact R'|exact H'| |exact N'|exact Ei|exact Bp].
    split; [by rewrite S1, (dok_bodies _ _ Dk')|by rewrite S2, Ed].
  - apply (rl_dom _ _ R').
  - rewrite Ei at 1. change (w_db (p_world s)) with (p_db s). rewrite index_entries_eq. f_equal. by rewrite Ei.
Qed.
End cold.
