(* ===== verification/OfflineCorrect.v ===== *)
(** The offline pass as a whole: it ends without an error on a good state, the state is
    good again, and what could be restored before can be restored after it. *)
From Stdlib Require Import ZArith Lia.
From stdpp Require Import base list gmap sorting.
From S2P Require Import Prelude Types HTable EDelta EDeltaCorrect Codec Util ReqContainers Database Container Writer Crypto Cold Merge Restore RestoreCorrect Ingest Library IngestStore IngestCorrect Session Vault Offline OfflineSteps OfflineMove OfflinePairs OfflineQueue OfflineCold.

Section offline.
Context `{EVPLaws} `{!EVPBytes} `{LZ4} `{MapOrder}.
Variable cfg : Config.
Variable U : bytes -> Prop.
Abbreviation cryptoObj := (c_crypto cfg).
Abbreviation qk := (c_indexQueryKey cfg).
Abbreviation ek := (c_enclaveKey cfg).

(** A state between two passes: the vault is in order and nothing is cold. *)
Record vault_ok (V : gmap bytes entry) (F : shelves) (s : Pass) : Prop := {
  vk_resting : resting cfg U [] V F ∅ s;
  vk_map : delta_map s = ∅;
  vk_queue : _local_map (p_db s) = [];
  vk_cold : forall n, cold_of (_cold_map (p_db s)) n = [];
  vk_set : _cold_container_set (p_db s) = [];
  vk_vector : _cold_container_vector (p_db s) = []
}.
(** What was queued during the uploads: old and new chunks are bases whose deltas are
    known, no new chunk is itself an old one, and the names and the buffer suffice. *)
Record queue_ok (V : gmap bytes entry) (s : Pass) : Prop := {
  qk_base : forall A nb, local_greedy_basemap (p_db s) !! A = Some nb ->
    local_greedy_basemap (p_db s) !! nb = None /\ forall b, b = A \/ b = nb -> (exists e, V !! b = Some e /\ is_base e) /\ tracked V (p_db s) b;
  qk_small : forall A nb, local_greedy_basemap (p_db s) !! A = Some nb -> blen (deltas_of s A) < 100000;
  qk_names : p_times s + 1 + cost s (map fst (map_to_list (local_greedy_basemap (p_db s)))) < 2 ^ 31
}.

Definition revised (s : Pass) : Pass := with_db s (Ocall_Localrevise (p_db s)).

(** The queue after [Ocall_Localrevise]: the map of pairs, in another order. *)
Lemma revised_queue s : _local_map (p_db s) = [] ->
  _local_map (p_db (revised s)) ≡ₚ map_to_list (local_greedy_basemap (p_db s)).
Proof.
  intros E. cbn. rewrite E, app_nil_l. set (m := local_greedy_basemap (p_db s)). rewrite merge_sort_Permutation, map_map. cbn [fst].
  rewrite <- (map_id (map_to_list m)). rewrite order_perm.
  apply Permutation_refl', map_ext_Forall, Forall_forall. intros [k v] Hk. apply elem_of_map_to_list in Hk. cbn. by rewrite Hk.
Qed.

(** ** The hot container *)

(** An empty container more or less. *)
Lemma housed_empty V F n C : F !! n = None -> fixed 7 n -> housed V (<[n := (true, [])]> F) C <-> housed V F C.
Proof.
  intros Nf Fx. assert (En : forall m, entries (<[n := (true, [])]> F) m = entries F m).
  { intros m. rewrite entries_insert. case_decide as D; [subst m; unfold entries; by rewrite Nf|done]. }
  split; intros [Fo Hm Co]; split.
  - intros m p Em. apply Fo. rewrite lookup_insert_ne; [done|]. intros <-. congruence.
  - intros k e E. rewrite <- En. by apply Hm.
  - intros m. rewrite <- En. apply Co.
  - apply map_Forall_insert_2; [|done]. split; [done|]. split; [done|]. split; [by_decide|constructor].
  - intros k e E. rewrite En. by apply Hm.
  - intros m. rewrite En. apply Co.
Qed.

Lemma init_going V F s st : vault_ok V F s -> queue_ok V s ->
  exists c, let s' := revised (with_stats s st) in
    Init (hot_container s') (p_times s') = Ok (c, p_times s + 1) /\
    going cfg U (map fst (_local_map (p_db s'))) (map snd (_local_map (p_db s'))) V F [] (with_hot s' c (p_times s + 1)) /\
    fit (with_hot s' c (p_times s + 1)) (map fst (_local_map (p_db s'))).
Proof.
  intros [R Dm Lm Co St Ve] [Qb Qs Qn]. pose proof (revised_queue s Lm) as P. set (m := local_greedy_basemap (p_db s)) in *.
  set (olds := map fst (_local_map (p_db (revised (with_stats s st))))). set (news := map snd (_local_map (p_db (revised (with_stats s st))))).
  assert (P1 : olds ≡ₚ map fst (map_to_list m)) by (unfold olds; change (_local_map (p_db (revised (with_stats s st)))) with (_local_map (p_db (revised s))); by rewrite P).
  assert (P2 : news ≡ₚ map snd (map_to_list m)) by (unfold news; change (_local_map (p_db (revised (with_stats s st)))) with (_local_map (p_db (revised s))); by rewrite P).
  assert (Ho : forall b, b ∈ olds <-> exists nb, m !! b = Some nb).
  { intros b. rewrite P1. setoid_rewrite <- elem_of_map_to_list. rewrite list_elem_of_fmap. split; [intros ([x y] & -> & ?); by exists y|intros (y & ?); by exists (b, y)]. }
  assert (Hn : forall b, b ∈ news <-> exists A, m !! A = Some b).
  { intros b. rewrite P2. setoid_rewrite <- elem_of_map_to_list. rewrite list_elem_of_fmap. split; [intros ([x y] & -> & ?); by exists x|intros (x & ?); by exists (x, b)]. }
  assert (C0 : 0 <= cost s (map fst (map_to_list m))) by apply cost_nonneg. pose proof (rs_times _ _ _ _ _ _ _ R) as T0.
  destruct (renew_ok (hot_container s) (p_times s) ltac:(lia)) as (id & E & Fx & Cu). eexists. split; [exact E|].
  assert (Nf : F !! id = None).
  { apply eq_None_not_Some. intros C. destruct (rs_names _ _ _ _ _ _ _ R _ C) as (t & T & Et). assert (t = p_times s); [|lia].
    eapply CreateUUID_inj; [| |exact Et|exact Cu]; lia. }
  split.
  - destruct R. split; cbn [hot_container with_hot co_containerID co_currentSize co_body p_times p_world]; try done.
    + apply housed_empty; [done|done|]. eapply housed_perm; [|exact rs_housed]. intros n. change (cold_of (_cold_map (p_db s)) n ≡ₚ cold_of ∅ n). by rewrite Co.
    + apply in_ok_empty.
    + intros n [Hf| ->]; [destruct (rs_names n Hf) as (t & ? & ?); exists t; split; [lia|done]|exists (p_times s); split; [lia|done]].
    + lia.
    + intros b [Hb|[Hb|Hb]].
      * apply Ho in Hb as (nb & Hb). destruct (Qb b nb Hb) as [_ Tb]. by apply Tb; left.
      * apply Hn in Hb as (A & Hb). destruct (Qb A b Hb) as [_ Tb]. by apply Tb; right.
      * apply (rs_tracked b). by right.
    + intros b Hb. apply Ho in Hb as (nb & Hb). destruct (Qb b nb Hb) as [_ Tb]. split; [|by apply Tb; left].
      intros Hx. apply Hn in Hx as (A & Hx). destruct (Qb A b Hx) as [Nb _]. congruence.
    + intros b Hb. apply Hn in Hb as (A & Hb). destruct (Qb A b Hb) as [_ Tb]. by apply Tb; right.
    + by intros e He%elem_of_nil.
    + split; cbn; change (p_db (with_stats s st)) with (p_db s); rewrite ?St; [constructor| |done]. intros n. split; [by intros ?%elem_of_nil|]. intros C. destruct C. apply (Co n).
  - split.
    + change (NoDup olds). rewrite P1. apply NoDup_fst_map_to_list.
    + intros A HA. change (A ∈ olds) in HA. apply Ho in HA as (nb & HA). by eapply Qs.
    + change (p_times s + 1 + cost s olds < 2 ^ 31). by rewrite (cost_perm s _ _ P1).
Qed.

Lemma save_hot_ok news V F hes s : going cfg U [] news V F hes s ->
  exists F', resting cfg U news V F' (_cold_map (p_db s)) (save_hot s) /\ p_db (save_hot s) = p_db s /\ delta_map (save_hot s) = delta_map s.
Proof.
  intros G. pose proof (go_new _ _ _ _ _ _ _ _ G) as Nf. pose proof (go_hot _ _ _ _ _ _ _ _ G) as [La Cu Bo Mx _].
  pose proof (hot_fixed _ _ _ _ _ _ _ _ G) as Fx. unfold save_hot. case_if.
  - boolz. assert (hes = []) as ->.
    { destruct hes as [|e hes]; [done|]. change (total_size (e :: hes)) with (entry_size e + total_size hes) in Cu.
      pose proof (entry_size_pos e). pose proof (total_size_nonneg hes). lia. }
    exists F. split; [|done]. destruct G. split; try done; [by eapply housed_empty|..].
    + intros n Hn. apply go_names. by left.
    + intros b Hb. apply go_tracked. tauto.
  - exists (<[(co_containerID (hot_container s)) := (true, hes)]> F). split; [|done]. destruct G. split; try done.
    + cbn [p_world pocall with_world ocall w_dirs set_world_dirs Ocall_SavehotContainer]. rewrite Bo. destruct Fx as [L7 _].
      unfold CONTAINER_ID_LENGTH. rewrite slice_0, take_ge by lia. apply (shelves_store _ _ go_disk _ true), shelf_none, Nf.
    + intros n Hn. apply go_names. destruct (decide (n = co_containerID (hot_container s))) as [->|N]; [by right|left]. by rewrite lookup_insert_ne in Hn.
    + intros b Hb. apply go_tracked. tauto.
Qed.

(** ** The pass *)

Hypothesis HU : universe cfg U.
Hypothesis HT : hashType_ (c_crypto cfg) = SHA_256.
Hypothesis HR : roomy U.

Lemma first_batch (queue : list (bytes * bytes)) : let r := pop_back Local_Batch queue in
  snd r ++ fst r ≡ₚ queue /\ (snd r = [] -> fst r = []) /\ (length (fst r) + (if snd r is [] then 0 else 1) < S (length queue))%nat.
Proof.
  cbn zeta. split; [apply pop_back_perm|]. split; [apply pop_back_nil; unfold Local_Batch; lia|].
  pose proof (pop_back_nil Local_Batch queue ltac:(unfold Local_Batch; lia)) as Pn. pose proof (pop_back_length Local_Batch queue ltac:(unfold Local_Batch; lia)) as Pl.
  destruct (snd (pop_back Local_Batch queue)); [rewrite Pn by done; cbn; lia|]. specialize (Pl ltac:(done)). lia.
Qed.

(** The part before the containers are rewritten. *)
Lemma pairs_phase news V F s g :
  let queue := _local_map (p_db s) in let r := Ocall_GetLocal (p_db s) in
  going cfg U (map fst queue) news V F [] s -> fit s (map fst queue) -> (forall x, x ∈ queue -> snd x ∈ news) -> delta_map s = ∅ ->
  exists s' V' F' hes', local_loop cryptoObj qk ek (S (length queue)) g (snd r) (pocall (with_db s (fst r))) = Ok s' /\
    going cfg U [] news V' F' hes' s' /\ dom V' = dom V /\ delta_map s' = ∅ /\
    waiting (p_db s') = (_local_tmp_map (p_db s), [], skipMap (p_db s)) /\ p_times s' <= p_times s + cost s (map fst queue).
Proof.
  intros queue r G Ft Hn Dm. destruct (first_batch queue) as (P & Pe & Pl). unfold r, Ocall_GetLocal. fold queue.
  destruct (pop_back Local_Batch queue) as [rest batch]. cbn [fst snd] in *. set (s1 := pocall _).
  assert (Pq : map fst queue ≡ₚ map fst batch ++ map fst rest) by (by rewrite <- map_app, P).
  destruct (local_loop_ok cfg U HU HT HR news g (S (length queue)) batch rest V F [] s1) as (s2 & V2 & F2 & hes2 & E2 & G2 & D2 & M2 & Q2 & T2); try done.
  - eapply going_olds; [|by apply going_queue]. intros b. by rewrite Pq.
  - eapply fit_perm; [exact Pq|by apply fit_queue].
  - intros x Hx. apply Hn. by rewrite <- P.
  - exists s2, V2, F2, hes2. do 5 (split; [done|]). rewrite (cost_perm s _ _ Pq), cost_app in *.
    change (cost s1) with (cost s) in T2. change (p_times s1) with (p_times s) in T2. lia.
Qed.

(** Cutting does not make names. *)
Lemma update_cold_times buf l : forall s s', update_cold cryptoObj qk l buf s = Ok s' -> p_times s' = p_times s.
Proof.
  induction l as [|[n c] l IH]; intros s s' E; cbn [update_cold] in E; [by injection E as <-|]. inv_bind E. by rewrite (IH _ _ E).
Qed.
Lemma cold_loop_times buf fuel : forall batch s s', cold_loop cryptoObj qk fuel batch buf s = Ok s' -> p_times s' = p_times s.
Proof.
  induction fuel as [|fuel IH]; intros [|x batch] s s' E; cbn [cold_loop] in E; try (by injection E as <-); [done|].
  inv_bind E. inv_bind E. rewrite (IH _ _ _ E). by rewrite (update_cold_times _ _ _ _ E1).
Qed.

(** Cutting and merging. *)
Lemma cold_phase news V F s buf :
  resting cfg U news V F (_cold_map (p_db s)) s -> cold_queue (p_db s) ->
  let s1 := pocall (with_db s (Ocall_Coldrevise (p_db s))) in
  exists r s' V' F', Ocall_GetCold (p_db s1) = Ok r /\
    cold_loop cryptoObj qk (S (length (_cold_container_vector (p_db s1)))) (snd r) buf (pocall (with_db s1 (fst r))) = Ok s' /\
    resting cfg U news V' F' ∅ s' /\ dom V' = dom V /\ waiting (p_db s') = waiting (p_db s) /\
    _cold_container_set (p_db s') = [] /\ _cold_container_vector (p_db s') = [] /\ (forall n, cold_of (_cold_map (p_db s')) n = []) /\
    p_times s' = p_times s.
Proof.
  intros R [Nd Cs Cv] s1.
  assert (Db : p_db s1 = set_cold (p_db s) (_cold_map (p_db s)) (_cold_container_set (p_db s)) []) by (unfold s1; cbn; unfold Ocall_Coldrevise; by rewrite Cv).
  assert (R1 : resting cfg U news V F (pend [] (_cold_map (p_db s1))) s1).
  { rewrite Db. cbn [pend foldr set_cold _cold_map]. eapply resting_frame; [exact R|try (by rewrite Db)..]; try done. apply (rs_pairs _ _ _ _ _ _ _ R). }
  assert (B1 : batch_ok [] (p_db s1)).
  { rewrite Db. split; cbn; [done|by intros x ?%elem_of_nil|by intros x ?%elem_of_nil| |lia]. intros n. by rewrite Cs. }
  destruct (GetCold_ok cfg U news V F [] s1 R1 B1) as (M & rest & next & E & B2 & La & R2 & _ & Ln).
  eexists _. destruct (cold_loop_ok cfg U news buf (S (length (_cold_container_vector (p_db s1)))) next V F
    (pocall (with_db s1 (set_cold (p_db s1) M rest (_cold_container_set (p_db s1)))))) as (s2 & V2 & F2 & E2 & R3 & D3 & W3 & S3 & Q3 & C3); [done|done|done| |].
  { cbn [p_db pocall with_db p_world with_world ocall w_db set_world_db set_cold _cold_container_vector]. lia. }
  exists s2, V2, F2. split; [exact E|]. cbn [fst snd]. split; [exact E2|]. split; [done|]. split; [done|]. split; [rewrite W3; change (waiting (p_db s1) = waiting (p_db s)); by rewrite Db|].
  split; [rewrite S3; change (_cold_container_set (p_db s1) = []); by rewrite Db|]. split; [done|]. split; [done|]. by rewrite (cold_loop_times _ _ _ _ _ E2).
Qed.

Lemma Easy_update_run news V F s mergeContainer buf :
  let queue := _local_map (p_db s) in
  going cfg U (map fst queue) news V F [] s -> fit s (map fst queue) -> (forall x, x ∈ queue -> snd x ∈ news) -> delta_map s = ∅ ->
  exists s' V' F', Easy_update cryptoObj qk ek mergeContainer buf s = Ok s' /\ vault_ok V' F' s' /\ dom V' = dom V /\
    waiting (p_db s') = (_local_tmp_map (p_db s), [], skipMap (p_db s)) /\ p_times s' <= p_times s + cost s (map fst queue).
Proof.
  intros queue G Ft Hn Dm. unfold Easy_update. fold queue. set (g := _ * GREEDY_THRESHOLD).
  destruct (pairs_phase news V F s g G Ft Hn Dm) as (s2 & V2 & F2 & hes2 & E2 & G2 & D2 & M2 & Q2 & T2). fold queue in E2, T2.
  destruct (Ocall_GetLocal (p_db s)) as [db batch]. cbn [fst snd] in E2. rewrite E2. cbn [rbind].
  destruct (save_hot_ok _ _ _ _ _ G2) as (F3 & R3 & Db3 & M3). rewrite <- Db3 in R3. pose proof (go_cold _ _ _ _ _ _ _ _ G2) as C2. rewrite <- Db3 in C2.
  destruct (cold_phase news V2 F3 (save_hot s2) buf R3 C2) as (r & s4 & V4 & F4 & E4 & E5 & R5 & D5 & W5 & S5 & Q5 & C5 & T5).
  rewrite E4. cbn [rbind]. rewrite E5. cbn [rbind].
  destruct (merge_resting cfg U news V4 F4 s4 mergeContainer buf R5) as (w & V6 & F6 & ix & E6 & R6 & D6 & Db6). rewrite E6. cbn [rbind].
  exists (with_deltas (with_world s4 w) ∅), V6, F6. split; [done|]. split; [|split; [by rewrite D6, D5, D2|]].
  - assert (Lm : _local_map (p_db s4) = []) by (rewrite Db3, Q2 in W5; by injection W5).
    split; [|done|..]; change (p_db (with_deltas (with_world s4 w) ∅)) with (w_db w); rewrite ?Db6; try done.
    destruct R6. split; try done. intros b [Hb|Hb]; [by apply elem_of_nil in Hb|]. apply rs_tracked. by right.
  - rewrite Db3, Q2 in W5. split; [change (p_db (with_deltas (with_world s4 w) ∅)) with (w_db w); by rewrite Db6|].
    change (p_times s4 <= p_times s + cost s (map fst queue)). rewrite T5. unfold save_hot. by case_if.
Qed.
End offline.

(** ** What a pass does to the files *)

Section restored.
Context `{EVPLaws} `{!EVPBytes} `{LZ4}.
Variable cfg : Config.
Variable U : bytes -> Prop.
Hypothesis HU : universe cfg U.
Hypothesis HT : hashType_ (c_crypto cfg) = SHA_256.
Hypothesis HB : 0 < c_sendRecipeBatchSize cfg.
Hypothesis HS : 0 < c_sendChunkBatchSize cfg < 2 ^ 32.

(** A recipe is about the same chunks as long as no key leaves the index. *)
Lemma recipe_of_chunks_dom db db' file xs : dom (indexObj_ db) = dom (indexObj_ db') -> recipe_of_chunks cfg U db file xs -> recipe_of_chunks cfg U db' file xs.
Proof.
  intros D (fps & R & F). exists fps. split; [done|]. eapply Forall2_impl; [exact F|]. intros fp x (Ux & Hx & k & Hk & Kn). split; [done|]. split; [done|].
  exists k. split; [done|]. apply elem_of_dom. rewrite <- D. by apply elem_of_dom.
Qed.
Lemma vault_index V F s : vault_ok cfg U V F s -> dom (indexObj_ (p_db s)) = dom V.
Proof. intros [R _ _ _ _ _]. rewrite (rs_index _ _ _ _ _ _ _ R). unfold index_of. by rewrite dom_fmap_L. Qed.
Lemma vault_restores V F s file xs sk : vault_ok cfg U V F s -> recipe_of_chunks cfg U (p_db s) file xs ->
  gives_back (setting cfg sk (w_dirs (p_world s)) (p_db s)) file xs.
Proof.
  intros [R _ _ _ _ _] Rc. apply (library_restores cfg U HU HT HB HS); [|done].
  eapply (vault_library cfg U HU HT _ F V); [apply R|apply R|apply R|apply R|apply R|apply R].
Qed.
(** A pass: the server is in order again, with the same keys, and the queue is empty. *)
Lemma ProcessOff_ok `{MapOrder} V F s Offline_Flag st mergeContainer buf : roomy U -> vault_ok cfg U V F s -> queue_ok V s ->
  exists s' V' F', ProcessOff (c_crypto cfg) (c_indexQueryKey cfg) (c_enclaveKey cfg) Offline_Flag st mergeContainer buf s = Ok s' /\
    vault_ok cfg U V' F' s' /\ dom V' = dom V /\ waiting (p_db s') = (∅, [], ∅) /\
    p_times s' <= p_times s + 1 + cost s (map fst (map_to_list (local_greedy_basemap (p_db s)))).
Proof.
  intros HR Vk Qk. unfold ProcessOff, ProcessOffline. fold (revised s).
  destruct (init_going cfg U V F s (take_over st (p_stats (revised s))) Vk Qk) as (c & E & G & Ft). cbn zeta in E, G, Ft.
  change (with_stats (revised s) (take_over st (p_stats (revised s)))) with (revised (with_stats s (take_over st (p_stats (revised s))))).
  set (s1 := revised (with_stats s _)) in *. rewrite E. cbn [rbind fst snd]. set (s2 := with_hot s1 c _) in *.
  set (l := map fst (map_to_list _)). assert (Cl : cost s2 (map fst (_local_map (p_db s2))) = cost s l).
  { change (cost s2) with (cost s). apply cost_perm. change (_local_map (p_db s2)) with (_local_map (p_db (revised s))). by rewrite revised_queue by apply Vk. }
  pose proof (cost_nonneg s l). destruct Offline_Flag.
  - destruct (Easy_update_run cfg U HU HT HR _ V F s2 mergeContainer buf G Ft) as (s' & V' & F' & E' & Vk' & D' & W' & T'); [|apply Vk|].
    + intros x Hx. by apply list_elem_of_fmap_2.
    + exists s', V', F'. do 4 (split; [done|]). change (p_times s2) with (p_times s + 1) in T'. lia.
  - exists (pocall (with_db s2 (Ocall_CleanLocalIndex (p_db s2)))), V, F. split; [done|]. split; [|split; [done|split; [done|cbn; lia]]].
    destruct Vk as [R Dm Lm Co St Ve]. split; try done. destruct R. split; try done.
    + intros n Hn. destruct (rs_names n Hn) as (t & T & Et). exists t. split; [|done]. change (0 <= t < p_times s + 1). lia.
    + change (0 <= p_times s + 1). lia.
Qed.
Lemma pass_keeps V F V' F' s s' file xs : vault_ok cfg U V F s -> vault_ok cfg U V' F' s' -> dom V' = dom V ->
  recipe_of_chunks cfg U (p_db s) file xs -> recipe_of_chunks cfg U (p_db s') file xs.
Proof. intros Vk Vk' D. apply recipe_of_chunks_dom. by rewrite (vault_index _ _ _ Vk'), D, (vault_index _ _ _ Vk). Qed.
End restored.

(** C4. The offline pass loses nothing.  The server is in order (every index entry stands
    for a chunk in the container its recipe names, every delta has a base, nothing waits
    to be cut out) and the queue is as the uploads leave it (old and new chunks are
    bases whose deltas are known, no new chunk is an old one).  Then [ProcessOff], with or
    without [Offline_Flag], ends without an error, the server is in order again with the
    same keys in the index, and every file recipe gives back, with any session key, the
    chunks it stood for: those that became deltas of their successor, the deltas that
    were encoded again, and those whose container was rewritten or merged.  As in
    [gives_back] the restore is the program's: the pass makes deltas, and when the
    containers of the chunks and their new bases need a seventeenth identifier it is
    written past the buffer. *)
Theorem ProcessOff_restores `{EVPLaws} `{!EVPBytes} `{LZ4} `{MapOrder} (cfg : Config) (U : bytes -> Prop) (V : gmap bytes entry) (F : shelves) (s : Pass)
    (Offline_Flag : bool) (st : counter -> Z) (mergeContainer buf : bytes) :
  universe cfg U -> hashType_ (c_crypto cfg) = SHA_256 -> roomy U ->
  0 < c_sendRecipeBatchSize cfg -> 0 < c_sendChunkBatchSize cfg < 2 ^ 32 ->
  vault_ok cfg U V F s -> queue_ok V s ->
  exists s' V' F', ProcessOff (c_crypto cfg) (c_indexQueryKey cfg) (c_enclaveKey cfg) Offline_Flag st mergeContainer buf s = Ok s' /\
    vault_ok cfg U V' F' s' /\ dom V' = dom V /\
    forall file xs sk, recipe_of_chunks cfg U (p_db s) file xs ->
      gives_back (setting cfg sk (w_dirs (p_world s')) (p_db s')) file xs.
Proof.
  intros HU HT HR HB HS Vk Qk. destruct (ProcessOff_ok cfg U HU HT V F s Offline_Flag st mergeContainer buf HR Vk Qk) as (s' & V' & F' & E & Vk' & D & _).
  exists s', V', F'. split; [done|]. split; [done|]. split; [done|]. intros file xs sk Rc.
  apply (vault_restores cfg U HU HT HB HS V' F'); [done|]. exact (pass_keeps cfg U V F V' F' s s' file xs Vk Vk' D Rc).
Qed.
