(* ===== verification/OfflineExample.v ===== *)
(** A vault to run a pass on: a base chunk with a delta, and its successor. *)
From Stdlib Require Import ZArith Lia.
From stdpp Require Import base list gmap sorting.
From S2P Require Import Prelude Types HTable EDelta EDeltaEnc EDeltaCorrect Codec Util ReqContainers Database Container Writer Crypto Cold Merge Restore RestoreCorrect Ingest Library IngestStore IngestCorrect Session Vault Offline OfflineSteps OfflineMove OfflinePairs OfflineQueue OfflineCold OfflineCorrect.

#[local] Existing Instance byte_evp.
#[local] Existing Instance byte_laws.
#[local] Existing Instance byte_bytes.
#[local] Existing Instance toy_lz4.
#[local] Existing Instance some_order.

(** Chunks that differ in the first byte. *)
Definition off_chunk (i : Z) : bytes := i :: replicate 40 7.
Definition off_universe (x : bytes) : Prop := x ∈ map off_chunk [1; 2; 3].

Definition off_name (t : Z) : bytes := value [] (CreateUUID t).
Definition off_key (i : Z) : bytes := value [] (IndexAESCMCEnc toy_crypto (value [] (GenerateHash toy_crypto (off_chunk i))) [3]).
Definition off_entry (i t flag off : Z) (base content : bytes) : entry :=
  let iv := replicate 16 (20 + i) in
  Container.mk_entry (mk_recipe (off_name t) flag off (blen content) base (replicate 96 i)) (off_key i) (replicate 96 i)
    (value [] (EncryptWithKeyIV toy_crypto content [5] iv)) iv.
(** Chunk 3 as a delta of chunk 1. *)
Definition off_delta : bytes :=
  match EcallFreqIndex.ed3_encode (off_chunk 3) (blen (off_chunk 3)) (off_chunk 1) (blen (off_chunk 1)) [] small_table 0 with
  | Ok (d, n, _) => slice d 0 n
  | Err _ => []
  end.
Definition off_1 : entry := off_entry 1 1 NO_DELTA 0 (replicate 32 0) (stored_form NO_DELTA (off_chunk 1)).
Definition off_2 : entry := off_entry 2 1 NO_DELTA (entry_size off_1) (replicate 32 0) (stored_form NO_DELTA (off_chunk 2)).
Definition off_3 : entry := off_entry 3 2 DELTA 0 (off_key 1) off_delta.
Definition off_V : gmap bytes entry := <[off_key 1 := off_1]> (<[off_key 2 := off_2]> {[off_key 3 := off_3]}).
Definition off_F : shelves := <[off_name 1 := (false, [off_1; off_2])]> {[off_name 2 := (true, [off_3])]}.
(** The first chunk is offered for similar ones and waits for the second to replace it. *)
Definition off_db : IndexStore :=
  {| indexObj_ := index_of ex_config off_V;
     sfObj_ := map (fun i => {[ sf_key (replicate 96 1) i := [off_key 1] ]}) [0; 1; 2];
     delta_index := {[ off_key 1 := [off_key 3] ]};
     _local_tmp_map := {[ off_key 1 := off_key 2 ]}; _local_map := []; skipMap := ∅;
     _cold_map := ∅; _cold_container_vector := []; _cold_container_set := [] |}.
Definition off_start : Pass := {|
  p_world := mk_world off_db {| base_dir := {[ off_name 1 := body_bytes [off_1; off_2] ]}; delta_dir := {[ off_name 2 := body_bytes [off_3] ]} |} [] 0 [] false 0;
  p_chunkAddr := []; hot_container := mk_container [] 0 [] 0; p_times := 3; psHTable2Offline_ := small_table;
  plainNewDeltaChunkBuffer_ := []; delta_map := ∅; skip_num := 0; p_stats := fun _ => 0 |}.

(** ** The chunks *)

Lemma off_all (P : bytes -> Prop) : Forall P (map off_chunk [1; 2; 3]) -> forall x, off_universe x -> P x.
Proof. intros F x Hx. rewrite Forall_forall in F. by apply F. Qed.
Lemma off_universe_ok : universe ex_config off_universe.
Proof.
  split.
  - apply off_all. by_decide.
  - apply off_all. by_decide.
  - intros x y h Hx Hy. revert x Hx. refine (off_all _ _). revert y Hy. refine (off_all _ _).
    repeat (constructor; [repeat (constructor; [vm_compute; intros E E'; injection E as <-; (done || discriminate E')|]); constructor|]); constructor.
  - apply off_all. by_decide.
  - intros x y Hx Hy. apply (decodable_half x y ex_config).
    + revert x Hx. refine (off_all _ _). revert y Hy. refine (off_all _ _). by_decide.
    + revert x Hx. refine (off_all _ _). revert y Hy. refine (off_all _ _). by_decide.
Qed.
Lemma off_roomy : roomy off_universe.
Proof. split; apply off_all; by_decide. Qed.

(** A statement about every entry, or every container. *)
Lemma off_each (P : bytes -> entry -> Prop) : P (off_key 1) off_1 -> P (off_key 2) off_2 -> P (off_key 3) off_3 -> forall k e, off_V !! k = Some e -> P k e.
Proof.
  intros P1 P2 P3 k e E. unfold off_V in E. apply lookup_insert_Some in E as [[<- <-]|[_ E]]; [exact P1|].
  apply lookup_insert_Some in E as [[<- <-]|[_ E]]; [exact P2|]. apply lookup_singleton_Some in E as [<- <-]. exact P3.
Qed.
Lemma off_shelf (P : bytes -> bool * list entry -> Prop) : P (off_name 1) (false, [off_1; off_2]) -> P (off_name 2) (true, [off_3]) ->
  forall n p, off_F !! n = Some p -> P n p.
Proof.
  intros P1 P2 n p E. unfold off_F in E. apply lookup_insert_Some in E as [[<- <-]|[_ E]]; [exact P1|].
  apply lookup_singleton_Some in E as [<- <-]. exact P2.
Qed.

Lemma off_delta_of : delta_of (off_chunk 3) (off_chunk 1) off_delta.
Proof.
  assert (P : encode_pre (off_chunk 3) (blen (off_chunk 3)) (off_chunk 1) (blen (off_chunk 1)) small_table) by (apply small_pre; by_decide).
  destruct (encode_complete _ _ _ _ [] small_table 0 P ltac:(by_decide)) as (d & n & t' & E & _ & C).
  split; [|by_decide]. assert (Ed : off_delta = slice d 0 n) by (unfold off_delta; by rewrite E).
  pose proof C as (Hd & Hn & _). rewrite Ed, blen_slice by lia. by apply complete_slice.
Qed.
Lemma off_entry_ok : entry_ok off_1 /\ entry_ok off_2 /\ entry_ok off_3.
Proof. repeat split; by_decide. Qed.
Lemma off_keyed : forall k e, off_V !! k = Some e -> exists x, off_universe x /\ keyed ex_config x k /\ content ex_config off_universe off_V e x.
Proof.
  assert (K : forall i, Forall (fun i => keyed ex_config (off_chunk i) (off_key i)) [1; 2; 3] /\ (i ∈ [1; 2; 3] -> off_universe (off_chunk i))).
  { intros i. split; [|apply list_elem_of_fmap_2]. repeat constructor; eexists; split; vm_compute; reflexivity. }
  destruct (K 1) as [Ks _]. rewrite Forall_forall in Ks. assert (Un : forall i, i ∈ [1; 2; 3] -> off_universe (off_chunk i)) by (intros i; apply K). clear K.
  apply off_each.
  - exists (off_chunk 1). split; [apply Un; by_decide|]. split; [apply Ks; by_decide|]. apply content_base; by_decide.
  - exists (off_chunk 2). split; [apply Un; by_decide|]. split; [apply Ks; by_decide|]. apply content_base; by_decide.
  - exists (off_chunk 3). split; [apply Un; by_decide|]. split; [apply Ks; by_decide|].
    apply (content_delta ex_config off_universe off_V off_3 _ off_1 (off_chunk 1) off_delta); [by_decide|by_decide|by_decide|apply Un; by_decide|by_decide|by_decide|apply off_delta_of].
Qed.

(** ** The state *)

Lemma off_file_ok : map_Forall file_ok off_F.
Proof.
  destruct off_entry_ok as (O1 & O2 & O3). refine (off_shelf _ _ _).
  - split; [by_decide|]. split; [|split; [by_decide|repeat constructor]].
    split; [exact O1|]. split; [reflexivity|]. split; [reflexivity|]. split; [exact O2|]. split; [by_decide|]. split; reflexivity.
  - split; [by_decide|]. split; [|split; [by_decide|repeat constructor]]. split; [exact O3|]. split; [reflexivity|]. split; reflexivity.
Qed.
Lemma off_housed : housed off_V off_F ∅.
Proof.
  split; [exact off_file_ok| |].
  - apply off_each; (split; [reflexivity|by_decide]).
  - intros n. split; [unfold cold_of; rewrite lookup_empty; constructor|]. intros q. split; [unfold cold_of; rewrite lookup_empty; by intros ?%elem_of_nil|].
    intros (e & (delta & es & Ef & He)%entries_lookup & Ne & _). destruct Ne.
    assert (A : forall n p, off_F !! n = Some p -> Forall (fun e => off_V !! e_fp e = Some e) (snd p)) by (apply off_shelf; repeat constructor; by_decide).
    apply A in Ef. rewrite Forall_forall in Ef. by apply Ef.
Qed.
Lemma off_tracked b : b = off_key 1 \/ b = off_key 2 \/ off_V !! b = None -> tracked off_V off_db b.
Proof.
  assert (T : forall b l, delta_index off_db !! b = l -> (forall k e, off_V !! k = Some e -> is_delta e /\ based_on e = b <-> k ∈ default [] l) ->
    (forall k, k ∈ default [] l -> is_Some (off_V !! k)) -> NoDup (default [] l) -> tracked off_V off_db b).
  { intros b' l El Iff So Nd. unfold tracked. rewrite El. split; [exact Nd|]. intros k. split.
    - intros Hk. destruct (So k Hk) as [e Ee]. exists e. split; [exact Ee|]. by apply (Iff k e Ee).
    - intros (e & Ee & De). by apply (Iff k e Ee). }
  intros [->|[->|N]].
  - apply (T _ (Some [off_key 3])); [by_decide| |intros k ->%list_elem_of_singleton; exists off_3; by_decide|apply NoDup_singleton].
    refine (off_each (fun k e => (re_deltaFlag (e_recipe e) = DELTA /\ re_basechunkHash (e_recipe e) = off_key 1) <-> k ∈ [off_key 3]) _ _ _); by_decide.
  - apply (T (off_key 2) None); [by_decide| |intros k Hk; exfalso; exact (proj1 (elem_of_nil k) Hk)|exact (NoDup_nil_2 (A := bytes))].
    refine (off_each (fun k e => (re_deltaFlag (e_recipe e) = DELTA /\ re_basechunkHash (e_recipe e) = off_key 2) <-> k ∈ []) _ _ _); by_decide.
  - assert (N1 : off_key 1 <> b) by (intros <-; revert N; by_decide).
    apply (T b None); [cbn [off_db delta_index]; exact (lookup_singleton_ne _ _ _ N1)| |intros k Hk; exfalso; exact (proj1 (elem_of_nil k) Hk)|exact (NoDup_nil_2 (A := bytes))].
    intros k e E. split; [|intros Hk; exfalso; exact (proj1 (elem_of_nil k) Hk)]. intros [De Be]. destruct N1. rewrite <- Be. clear Be. revert k e E De.
    refine (off_each (fun k e => re_deltaFlag (e_recipe e) = DELTA -> off_key 1 = re_basechunkHash (e_recipe e)) _ _ _); vm_compute; (done || discriminate).
Qed.

Lemma off_vault : vault_ok ex_config off_universe off_V off_F off_start.
Proof.
  split; [|done..|intros n; unfold cold_of; cbn; by rewrite lookup_empty|done|done]. split; cbn [off_start p_world p_times psHTable2Offline_ p_db w_dirs w_db baseMergePair].
  - intros k e E. split; [|by apply off_keyed]. revert k e E. apply off_each; by_decide.
  - exact off_housed.
  - split; by_decide.
  - intros n [p E]. revert n p E. apply off_shelf; [exists 1|exists 2]; (split; [lia|reflexivity]).
  - lia.
  - reflexivity.
  - by_decide.
  - intros i m f l k Hi Hf Hk. cbn [off_db sfObj_] in Hi. apply list_lookup_fmap_Some in Hi as (j & -> & Hj).
    apply lookup_singleton_Some in Hf as [<- <-]. apply list_elem_of_singleton in Hk as ->. exists off_1. split; [by_decide|]. split; [by_decide|].
    assert (j = Z.of_nat i) as -> by (destruct i as [|[|[|i]]]; [by injection Hj as <-..|done]). reflexivity.
  - intros b [Hb|[(i & m & f & l & Hi & Hf & Hk)|N]]; [by apply elem_of_nil in Hb| |by apply off_tracked; tauto]. apply off_tracked. left.
    cbn [off_db sfObj_] in Hi. apply list_lookup_fmap_Some in Hi as (j & -> & Hj).
    apply lookup_singleton_Some in Hf as [<- <-]. by apply list_elem_of_singleton in Hk.
  - exact small_table_ok.
  - reflexivity.
Qed.

Lemma off_map : local_greedy_basemap off_db = {[ off_key 1 := off_key 2 ]}.
Proof. by_decide. Qed.
Lemma off_queue : queue_ok off_V off_start.
Proof.
  split; change (p_db off_start) with off_db; rewrite off_map.
  - intros A nb [<- <-]%lookup_singleton_Some. split; [by_decide|]. intros b Hb. split; [|by apply off_tracked; tauto].
    destruct Hb as [->| ->]; [exists off_1|exists off_2]; split; by_decide.
  - intros A nb [<- <-]%lookup_singleton_Some. by_decide.
  - rewrite map_to_list_singleton. by_decide.
Qed.

Lemma ProcessOff_restores_witness :
  exists s' V' F', ProcessOff toy_crypto [3] [5] true (fun _ => 1) [] [] off_start = Ok s' /\ vault_ok ex_config off_universe V' F' s' /\ dom V' = dom off_V /\
    forall file xs sk, recipe_of_chunks ex_config off_universe off_db file xs ->
      gives_back (setting ex_config sk (w_dirs (p_world s')) (p_db s')) file xs.
Proof.
  apply (ProcessOff_restores ex_config off_universe off_V off_F off_start true (fun _ => 1) [] []).
  - exact off_universe_ok.
  - reflexivity.
  - exact off_roomy.
  - reflexivity.
  - by_decide.
  - exact off_vault.
  - exact off_queue.
Defined.
