(* ===== verification/UploadVault.v ===== *)
(** The uploads fill the vault (Vault.v): the entries that the storage core logs are on
    the shelves, each new chunk gets the entry that stands for it, and the indexes know
    what the offline pass needs to know. *)
From Stdlib Require Import ZArith Lia.
From stdpp Require Import base list gmap.
From S2P Require Import Prelude Types HTable EDelta EDeltaEnc EDeltaCorrect Codec ReqContainers Util Database Container Writer Crypto Cold Merge Restore RestoreCorrect Ingest Library IngestStore IngestQuery IngestCorrect IndexLaws Session Vault.

(** ** The log on the shelves *)

Section shelving.
Variable d : Directories.
Variable F0 : shelves.
Abbreviation base_name u := (co_containerID (curContainer u)).
Abbreviation delta_name u := (co_containerID (curDeltaContainer u)).

(** The containers that were handed over, and the two open ones. *)
Definition put_shelf (F : shelves) (f : bool * bytes * list entry) : shelves := <[snd (fst f) := (fst (fst f), snd f)]> F.
Definition spec_shelves (fs : list (bool * bytes * list entry)) : shelves := fold_left put_shelf fs F0.
Definition lane_shelf (F : shelves) (f : bool * bytes * list entry) : shelves := match snd f with [] => F | _ => put_shelf F f end.
Definition view_shelves (u : Upload) (a : store_spec) : shelves :=
  lane_shelf (lane_shelf (spec_shelves (flushed a)) (false, base_name u, base_open a)) (true, delta_name u, delta_open a).

Lemma spec_shelves_snoc fs f : spec_shelves (fs ++ [f]) = put_shelf (spec_shelves fs) f.
Proof. unfold spec_shelves. by rewrite fold_left_app. Qed.
Lemma write_spec_store D f : write_spec D f = store_at D (fst (fst f)) (snd (fst f)) (body_bytes (snd f)).
Proof. by destruct f as [[[] n] es]. Qed.

Definition flagged (delta : bool) (es : list entry) : Prop := Forall (fun e => re_deltaFlag (e_recipe e) = if delta then DELTA else NO_DELTA) es.
Record shelved (a : store_spec) : Prop := {
  sh_on : on_shelves (spec_dirs d (flushed a)) (spec_shelves (flushed a));
  sh_files : map_Forall file_ok (spec_shelves (flushed a));
  sh_base : flagged false (base_open a);
  sh_delta : flagged true (delta_open a)
}.

Lemma put_on D F f : on_shelves D F -> F !! snd (fst f) = None -> on_shelves (write_spec D f) (put_shelf F f).
Proof.
  intros On N. rewrite write_spec_store. destruct f as [[delta n] es]. apply (shelves_store D F On). by apply shelf_none.
Qed.
Lemma lane_on D F f : on_shelves D F -> F !! snd (fst f) = None -> on_shelves (match snd f with [] => D | _ => write_spec D f end) (lane_shelf F f).
Proof. intros On N. unfold lane_shelf. destruct (snd f) eqn:E; [done|]. by apply put_on. Qed.
Lemma put_files F f : map_Forall file_ok F -> file_ok (snd (fst f)) (fst (fst f), snd f) -> map_Forall file_ok (put_shelf F f).
Proof. intros A B. by apply map_Forall_insert_2. Qed.

Lemma spec_fresh u a : store_inv d u a -> shelved a ->
  spec_shelves (flushed a) !! base_name u = None /\ spec_shelves (flushed a) !! delta_name u = None.
Proof. intros I [On _ _ _]. destruct (si_fresh _ _ _ I) as [Fb Fd]. split; by apply (shelves_fresh _ _ On). Qed.
Lemma lane_shelf_other F f n : n <> snd (fst f) -> lane_shelf F f !! n = F !! n.
Proof. intros N. unfold lane_shelf. destruct (snd f); [done|]. by apply lookup_insert_ne. Qed.

Lemma view_on u a : store_inv d u a -> shelved a -> on_shelves (view d u a) (view_shelves u a).
Proof.
  intros I S. destruct (spec_fresh u a I S) as [Nb Nd]. pose proof (lane_on _ _ (false, base_name u, base_open a) (sh_on _ S) Nb) as O1.
  pose proof (lane_on _ _ (true, delta_name u, delta_open a) O1) as O2. cbn [fst snd] in *. rewrite lane_shelf_other in O2.
  - specialize (O2 Nd). unfold view. set (D := spec_dirs d (flushed a)) in *. replace (Build_Directories _ _) with
      (match delta_open a with [] => match base_open a with [] => D | _ :: _ => write_spec D (false, base_name u, base_open a) end
       | _ :: _ => write_spec (match base_open a with [] => D | _ :: _ => write_spec D (false, base_name u, base_open a) end) (true, delta_name u, delta_open a) end); [exact O2|].
    clear. by destruct D, (base_open a), (delta_open a).
  - cbn. intros E. by apply (si_differ _ _ _ I).
Qed.

(** An open container as a file. *)
Lemma open_file buf cur name es delta : in_ok buf cur name es -> fixed 7 name -> flagged delta es -> file_ok name (delta, es).
Proof. intros [L C _ M _] Fx Fl. split; [done|]. split; [done|]. split; [cbn [snd]; lia|exact Fl]. Qed.
Lemma lane_files F f : map_Forall file_ok F -> file_ok (snd (fst f)) (fst (fst f), snd f) -> map_Forall file_ok (lane_shelf F f).
Proof. intros A B. unfold lane_shelf. destruct (snd f) eqn:E; [done|]. rewrite <- E in B. by apply put_files. Qed.
Lemma view_files u a : store_inv d u a -> shelved a -> map_Forall file_ok (view_shelves u a).
Proof.
  intros I [_ Fo Fb Fd]. destruct (si_ok _ _ _ I) as [Ub Ud [Nb Nd] _ _ _]. apply lane_files; [apply lane_files; [done|]|]; by eapply open_file.
Qed.

Lemma put_entries F f n x : F !! snd (fst f) = None -> x ∈ entries (put_shelf F f) n <-> x ∈ entries F n \/ n = snd (fst f) /\ x ∈ snd f.
Proof.
  intros N. destruct f as [[delta m] es]. cbn [fst snd] in *. unfold put_shelf. cbn [fst snd]. rewrite entries_insert. case_decide as E; [|tauto].
  subst n. unfold entries. rewrite N. cbn. split; [by right|]. intros [C|[_ C]]; [by apply elem_of_nil in C|done].
Qed.
Lemma lane_entries F f n x : F !! snd (fst f) = None -> x ∈ entries (lane_shelf F f) n <-> x ∈ entries F n \/ n = snd (fst f) /\ x ∈ snd f.
Proof.
  intros N. unfold lane_shelf. destruct (snd f) eqn:E; [|rewrite <- E; by apply put_entries].
  split; [by left|]. intros [C|[_ C]]; [done|by apply elem_of_nil in C].
Qed.
Lemma view_entries u a n x : store_inv d u a -> shelved a -> x ∈ entries (view_shelves u a) n <->
  x ∈ entries (spec_shelves (flushed a)) n \/ n = base_name u /\ x ∈ base_open a \/ n = delta_name u /\ x ∈ delta_open a.
Proof.
  intros I S. destruct (spec_fresh u a I S) as [Nb Nd]. unfold view_shelves. rewrite lane_entries.
  - rewrite lane_entries by done. cbn [fst snd]. tauto.
  - cbn [fst snd]. rewrite lane_shelf_other; [done|]. cbn. intros E. by apply (si_differ _ _ _ I).
Qed.

(** One entry more. *)
Lemma logged_step u a u' a' delta e : store_inv d u a -> con_times u < 2 ^ 31 - 1 -> shelved a -> logged u a u' a' delta e -> store_inv d u' a' ->
  re_deltaFlag (e_recipe e) = (if delta then DELTA else NO_DELTA) ->
  shelved a' /\ forall n x, x ∈ entries (view_shelves u' a') n <-> x ∈ entries (view_shelves u a) n \/ n = re_containerName (e_recipe e) /\ x = e.
Proof.
  intros I Ht S L I' Fl. destruct (si_ok _ _ _ I) as [Ub Ud [Nb Nd] _ _ _]. destruct (spec_fresh u a I S) as [Sb Sd].
  destruct (si_ok _ _ _ I') as [Ub' Ud' _ _ _ _]. pose proof S as [On Fo Hb Hd].
  assert (Hn : e ∈ (if delta then delta_open a' else base_open a') -> re_containerName (e_recipe e) = if delta then delta_name u' else base_name u').
  { intros He. destruct delta; [apply (laid_out_elem _ _ _ _ (iok_layout _ _ _ _ Ud') He)|apply (laid_out_elem _ _ _ _ (iok_layout _ _ _ _ Ub') He)]. }
  assert (G : shelved a').
  { destruct delta; cbn [logged] in L; destruct L as [_ [[_ ->]|[_ ->]]]; split; cbn [flushed base_open delta_open]; rewrite ?spec_dirs_snoc, ?spec_shelves_snoc; try done.
    1,5: apply Forall_app; split; [done|by constructor].
    all: first [by constructor|by apply put_on|apply put_files; [done|by eapply open_file]]. }
  split; [exact G|]. intros n x. rewrite (view_entries u' a'), (view_entries u a) by done.
  destruct delta; cbn [logged] in L; destruct L as [En [[Em ->]|[_ ->]]]; cbn [flushed base_open delta_open] in *; rewrite ?En, ?Em, ?spec_shelves_snoc in *.
  all: rewrite ?put_entries, ?elem_of_app, ?list_elem_of_singleton in * by done; cbn [fst snd] in *.
  all: rewrite Hn by (by right || done); tauto.
Qed.
End shelving.

(** ** One entry more in the vault *)

Lemma housed_add V F F' e : housed V F ∅ -> V !! e_fp e = None -> map_Forall file_ok F' ->
  (forall n x, x ∈ entries F' n <-> x ∈ entries F n \/ n = re_containerName (e_recipe e) /\ x = e) ->
  housed (<[e_fp e := e]> V) F' ∅.
Proof.
  intros [Fo Hm Co] N Fo' En. split; [done| |].
  - intros k x. rewrite lookup_insert_Some. intros [[<- <-]|[_ Ex]]; [split; [done|]; apply En; by right|].
    destruct (Hm _ _ Ex). split; [done|]. apply En. by left.
  - intros n. destruct (Co n) as [Nd Iff]. split; [done|]. intros q. unfold cold_of. rewrite lookup_empty. split; [by intros ?%elem_of_nil|].
    intros (x & Hx & Nx & _). destruct Nx. apply En in Hx as [Hx|[_ ->]]; [|apply lookup_insert_eq].
    destruct (decide (V !! e_fp x = Some x)) as [Ex|Ex].
    + rewrite lookup_insert_ne; [done|]. intros E. congruence.
    + exfalso. apply (elem_of_nil (cold_pair x)). change (cold_pair x ∈ cold_of ∅ n). apply Iff. by exists x.
Qed.

Section uploads.
Context `{EVPLaws} `{!EVPBytes} `{LZ4}.
Variable cfg : Config.
Variable U : bytes -> Prop.
Hypothesis HU : universe cfg U.
Hypothesis HT : hashType_ (c_crypto cfg) = SHA_256.
Abbreviation enc := (enc_recipe (c_crypto cfg) (c_indexQueryKey cfg)).

Lemma content_sub V V' e x : V ⊆ V' -> content cfg U V e x -> content cfg U V' e x.
Proof.
  intros Sub [B P|b y dl Dl Lb Bb Uy Pb Pe Do]; [by apply content_base|]. eapply content_delta; try done. by eapply lookup_weaken.
Qed.
Lemma chunks_add V e x : chunks cfg U V -> V !! e_fp e = None -> blen (e_data e) <= MAX_CHUNK_SIZE -> U x -> keyed cfg x (e_fp e) ->
  content cfg U V e x -> chunks cfg U (<[e_fp e := e]> V).
Proof.
  intros C N Sm Ux Kx Cx. assert (Sub : V ⊆ <[e_fp e := e]> V) by by apply insert_subseteq.
  apply map_Forall_insert_2.
  - split; [done|]. exists x. split; [done|]. split; [done|]. by eapply content_sub.
  - intros k e' E. destruct (C _ _ E) as (S & y & Uy & Ky & Cy). split; [done|]. exists y. split; [done|]. split; [done|]. by eapply content_sub.
Qed.

(** The index entry of a base is that of its entry in the vault. *)
Lemma indexed_home V db D k v y r : chunks cfg U V -> (forall k e, V !! k = Some e -> recipe_ok (e_recipe e)) -> indexObj_ db = index_of cfg V ->
  indexObj_ db !! k = Some v -> indexed cfg U D db k v y r -> exists b, V !! k = Some b /\ e_recipe b = r /\ content cfg U V b y.
Proof.
  intros C R HI Ev I. rewrite HI in Ev. unfold index_of in Ev. rewrite lookup_fmap in Ev. destruct (V !! k) as [b|] eqn:Eb; [|done]. injection Ev as <-.
  exists b. split; [done|]. destruct (indexed_value cfg U D db _ _ y r I) as (_ & Dv & G).
  destruct (enc_recipe_ok (c_crypto cfg) (c_indexQueryKey cfg) _ (R _ _ Eb)) as (_ & _ & Dv'). rewrite Dv in Dv'. injection Dv' as Er. split.
  - rewrite <- G, Er. rewrite <- (app_nil_r (recipe_put _)). symmetry. by apply recipe_get_put, R with k.
  - destruct (C _ _ Eb) as (_ & z & Uz & Kz & Cz). assert (z = y) as ->; [|done].
    eapply (keyed_inj cfg U HU HT); [done|apply I|done|]. apply I.
Qed.

Lemma housed_recipe V F C k e : housed V F C -> V !! k = Some e -> recipe_ok (e_recipe e).
Proof.
  intros [Fo Hm _] E. destruct (Hm _ _ E) as [_ He]. apply (laid_out_elem _ _ _ _ (files_laid F _ Fo) He).
Qed.

(** What a new entry stands for. *)
Lemma stored_content d db flag a t x o a' t' en V0 V :
  stored_new cfg U d db flag a t x o a' t' en -> chunks cfg U V0 -> (forall k e, V0 !! k = Some e -> recipe_ok (e_recipe e)) ->
  indexObj_ db = index_of cfg V0 -> V0 ⊆ V -> content cfg U V en x /\ (is_base en \/ is_delta en).
Proof.
  intros S C R HI Sub. destruct (sn_plain _ _ _ _ _ _ _ _ _ _ _ _ S) as (data & Pl & [[F ->]|(F & vb & y & rb & Eb & Ib & Fb & Cm & Rm)]).
  - split; [by apply content_base|by left].
  - split; [|by right]. destruct (indexed_home V0 db _ _ _ _ _ C R HI Eb Ib) as (b & Lb & Er & Cy).
    assert (Bb : is_base b) by (unfold is_base; by rewrite Er). eapply (content_delta cfg U V en x b y data); try done.
    + by eapply lookup_weaken.
    + apply Ib.
    + by eapply content_of_base.
Qed.

(** ** The chunks of a batch *)

Definition new_keys (outs : list OutQueryEntry) : list bytes := map oq_chunkHash (filter (fun o => oq_dedupFlag o = UNIQUE) outs).
Lemma new_keys_app outs outs' : new_keys (outs ++ outs') = new_keys outs ++ new_keys outs'.
Proof. unfold new_keys. by rewrite filter_app, map_app. Qed.
Lemma new_keys_elem k outs : k ∈ new_keys outs <-> exists o, o ∈ outs /\ oq_dedupFlag o = UNIQUE /\ oq_chunkHash o = k.
Proof.
  unfold new_keys. rewrite list_elem_of_fmap. split.
  - intros (o & -> & [? ?]%list_elem_of_filter). by exists o.
  - intros (o & ? & ? & <-). exists o. split; [done|]. by apply list_elem_of_filter.
Qed.
Lemma new_keys_quiet outs : Forall (fun o => oq_dedupFlag o <> UNIQUE) outs -> new_keys outs = [].
Proof. induction 1 as [|o outs N _ IH]; [done|]. unfold new_keys in *. rewrite filter_cons, decide_False by done. exact IH. Qed.

(** An entry outside that was found to be new, and its entry in the vault. *)
Definition shelved_as (V : gmap bytes entry) (o : OutQueryEntry) : Prop :=
  blen (oq_chunkHash o) = 32 /\ exists en, V !! oq_chunkHash o = Some en /\ oq_chunkAddr o = enc (e_recipe en) /\ recipe_ok (e_recipe en) /\
    oq_deltaFlag o = re_deltaFlag (e_recipe en) /\ (is_base en \/ is_delta en) /\
    (is_base en -> re_superfeature (e_recipe en) = slice (oq_superfeature o) 0 96).
Lemma shelved_as_sub V V' o : V ⊆ V' -> shelved_as V o -> shelved_as V' o.
Proof. intros Sub (L & en & E & R). split; [done|]. exists en. split; [by eapply lookup_weaken|done]. Qed.

Section batch.
Variables (d : Directories) (F0 : shelves) (V0 : gmap bytes entry) (db : IndexStore) (flag : bool).
Hypothesis HC : chunks cfg U V0.
Hypothesis HR : forall k e, V0 !! k = Some e -> recipe_ok (e_recipe e).
Hypothesis HI : indexObj_ db = index_of cfg V0.
Abbreviation store t := (c_store (t_core t)).

(** The vault while the chunks of a batch are stored: [outs] are the entries that are
    finished; the index still has the vault [V0]. *)
Record filling (V : gmap bytes entry) (a : store_spec) (t : Turn) (outs : list OutQueryEntry) : Prop := {
  fl_shelved : shelved d F0 a;
  fl_inv : store_inv d (store t) a;
  fl_housed : housed V (view_shelves F0 (store t) a) ∅;
  fl_chunks : chunks cfg U V;
  fl_old : V0 ⊆ V;
  fl_keys : forall k, is_Some (V !! k) <-> is_Some (V0 !! k) \/ k ∈ new_keys outs;
  fl_outs : Forall (fun o => oq_dedupFlag o = UNIQUE -> shelved_as V o) outs;
  fl_deltas : forall b k, (b, k) ∈ t_deltas t <-> k ∈ new_keys outs /\ exists e, V !! k = Some e /\ is_delta e /\ based_on e = b;
  fl_nodup : NoDup (map snd (t_deltas t)) /\ NoDup (map snd (t_batch_map t));
  fl_local : flag = true -> t_deltas t = [];
  fl_pairs : forall A k, (A, k) ∈ t_batch_map t -> offered db A /\ (exists e, V !! k = Some e /\ is_base e) /\
    exists o, o ∈ outs /\ oq_dedupFlag o = UNIQUE /\ oq_chunkHash o = k /\ oq_offlineFlag o = 1
}.

Lemma snoc_nodup {A} (l : list (A * bytes)) x k : NoDup (map snd l) -> (forall y, (y, k) ∉ l) -> NoDup (map snd (l ++ [(x, k)])).
Proof.
  intros Nd N. rewrite map_app. apply NoDup_app. split; [done|]. split; [|by apply NoDup_singleton].
  intros z Hz ->%list_elem_of_singleton. apply list_elem_of_fmap in Hz as ([y k'] & Ek & Hy). cbn in Ek. subst k'. by apply (N y).
Qed.

Lemma filling_quiet V a t out t' pre : filling V a t pre -> mark t' = mark t -> Forall (fun o => oq_dedupFlag o <> UNIQUE) out ->
  filling V a t' (pre ++ out).
Proof.
  intros [] [= E1 E2 E3] Q. split; rewrite ?E1, ?E2, ?E3, ?new_keys_app, ?(new_keys_quiet _ Q), ?app_nil_r; try done.
  - apply Forall_app. split; [done|]. eapply Forall_impl; [exact Q|]. by intros o N F.
  - intros A k Hp. destruct (fl_pairs0 A k Hp) as (? & ? & o & Ho & ?). split; [done|]. split; [done|]. exists o. split; [apply elem_of_app; by left|done].
Qed.

Lemma filling_new V a t x o a' t' en pre : filling V a t pre -> U x -> stored_new cfg U d db flag a t x o a' t' en ->
  V0 !! oq_chunkHash o = None -> oq_chunkHash o ∉ new_keys pre -> filling (<[e_fp en := en]> V) a' t' (pre ++ [o]).
Proof.
  intros [Sh Iv Ho Ch Old Ks Os Ds [Nd Nb] Lo Ps] Ux S N0 Np.
  assert (Nk : V !! oq_chunkHash o = None).
  { apply eq_None_not_Some. intros C. apply Ks in C as [C|C]; [rewrite N0 in C; by destruct C|done]. }
  destruct (stored_content _ _ _ _ _ _ _ _ _ _ V0 V S HC HR HI Old) as [Cx Bd].
  destruct S as [[_ Ht] Af Un Ky Lg Fp Va Rc Sm _ Fl Sf Lc Dl Pa]. rewrite <- Fp in *.
  assert (Kn : new_keys [o] = [e_fp en]) by (unfold new_keys; rewrite filter_cons, decide_True by done; cbn; by rewrite Fp).
  assert (Sub : V ⊆ <[e_fp en := en]> V) by by apply insert_subseteq.
  assert (Nd' : forall b, (b, e_fp en) ∉ t_deltas t) by (intros b [C _]%Ds; done).
  destruct (logged_step d F0 _ _ _ _ _ _ Iv Ht Sh Lg Af) as [Sh' En'].
  { unfold is_base, is_delta in *. by destruct Bd as [-> | ->]. }
  split; rewrite ?new_keys_app, ?Kn; try done.
  - apply (housed_add V _ _ en Ho Nk); [by eapply view_files|exact En'].
  - eapply (chunks_add V en x); try done.
  - by etrans.
  - intros k. rewrite elem_of_app, list_elem_of_singleton. destruct (decide (k = e_fp en)) as [->|N].
    + rewrite lookup_insert_eq. split; [by right; right|by eexists].
    + rewrite lookup_insert_ne, Ks by done. tauto.
  - apply Forall_app. split.
    + eapply Forall_impl; [exact Os|]. intros o' Ho' F. by eapply shelved_as_sub, Ho'.
    + constructor; [|constructor]. intros _. split; [rewrite <- Fp; by eapply (keyed_blen cfg HT x)|]. exists en. rewrite <- Fp, lookup_insert_eq.
      split; [done|]. split; [|done]. destruct (enc_recipe_ok (c_crypto cfg) (c_indexQueryKey cfg) _ Rc) as [Ee _]. congruence.
  - intros b k. rewrite Dl. setoid_rewrite elem_of_app. setoid_rewrite list_elem_of_singleton. split.
    + intros Hk. assert (C : (b, k) ∈ t_deltas t \/ is_delta en /\ b = based_on en /\ k = e_fp en).
      { revert Hk. unfold is_delta. case_if; [|by left]. rewrite elem_of_app, list_elem_of_singleton. boolz. intros [?|[= -> ->]]; [by left|by right]. }
      destruct C as [C|(Dn & -> & ->)].
      * apply Ds in C as (Hk' & e & E & R). split; [by left|]. exists e. split; [by eapply lookup_weaken|done].
      * split; [by right|]. exists en. by rewrite lookup_insert_eq.
    + intros (Hk & e & E & Dn & Bs). destruct (decide (k = e_fp en)) as [->|N].
      * rewrite lookup_insert_eq in E. injection E as <-. unfold is_delta, based_on in *. rewrite Dn, Z.eqb_refl, Bs. apply elem_of_app. right. by apply list_elem_of_singleton.
      * rewrite lookup_insert_ne in E by done. assert (C : (b, k) ∈ t_deltas t) by (apply Ds; split; [tauto|by exists e]).
        case_if; [|done]. apply elem_of_app. by left.
  - split.
    + rewrite Dl. case_if; [|done]. by apply snoc_nodup.
    + destruct Pa as [-> |(A & _ & _ & _ & ->)]; [done|]. apply snoc_nodup; [done|]. intros b Hb. destruct (Ps _ _ Hb) as (_ & [e [E _]] & _). congruence.
  - intros F. rewrite Dl, (Lc F). change (NO_DELTA =? DELTA) with false. by apply Lo.
  - intros A k Hp. assert (Old' : (A, k) ∈ t_batch_map t -> offered db A /\ (exists e, <[e_fp en := en]> V !! k = Some e /\ is_base e) /\
      exists o', o' ∈ pre ++ [o] /\ oq_dedupFlag o' = UNIQUE /\ oq_chunkHash o' = k /\ oq_offlineFlag o' = 1).
    { intros Hq. destruct (Ps _ _ Hq) as (Of & (e & E & B) & o' & Ho' & R). split; [done|]. split; [exists e; split; [by eapply lookup_weaken|done]|].
      exists o'. split; [apply elem_of_app; by left|done]. }
    destruct Pa as [Ep|(A' & Of & F1 & Bn & Ep)]; rewrite Ep in Hp; [by apply Old'|]. apply elem_of_app in Hp as [Hp|Hp]; [by apply Old'|].
    apply list_elem_of_singleton in Hp as [= -> ->]. split; [done|]. split; [exists en; by rewrite lookup_insert_eq|].
    exists o. split; [apply elem_of_app; right; by apply list_elem_of_singleton|done].
Qed.

Lemma filling_turns a t outs a' t' : batch_log U (FreqIndex cfg) (freq_new cfg U d) flag db a t outs a' t' -> forall V pre, filling V a t pre ->
  NoDup (map oq_chunkHash (pre ++ outs)) -> Forall (fun o => oq_dedupFlag o = UNIQUE -> V0 !! oq_chunkHash o = None) outs ->
  exists V', filling V' a' t' (pre ++ outs) /\ V ⊆ V' /\ (base.size V' <= base.size V + length outs)%nat.
Proof.
  induction 1 as [a t|a t out a1 t1 outs a2 t2 L _ IH]; intros V pre Fi Nd Fr.
  - exists V. rewrite app_nil_r. split; [done|]. split; [done|cbn; lia].
  - apply Forall_app in Fr as [Fr Fr']. assert (G : exists V1, filling V1 a1 t1 (pre ++ out) /\ V ⊆ V1 /\ (base.size V1 <= base.size V + length out)%nat).
    { destruct L as [out t1 M Q|x o a1 t1 Ux [en S]].
      - exists V. split; [by eapply filling_quiet|]. split; [done|lia].
      - pose proof (sn_fp _ _ _ _ _ _ _ _ _ _ _ _ S) as Fp. pose proof (sn_unique _ _ _ _ _ _ _ _ _ _ _ _ S) as Un.
        apply Forall_cons in Fr as [No _]. specialize (No Un).
        assert (Np : oq_chunkHash o ∉ new_keys pre).
        { intros (o' & Ho' & _ & E)%new_keys_elem. rewrite map_app in Nd. apply NoDup_app in Nd as (_ & Nd & _).
          apply (Nd (oq_chunkHash o)); [rewrite <- E; by apply list_elem_of_fmap_2|]. left. }
        exists (<[e_fp en := en]> V). split; [by eapply filling_new|].
        assert (Nk : V !! e_fp en = None).
        { rewrite Fp. apply eq_None_not_Some. intros C. apply (fl_keys _ _ _ _ Fi) in C as [C|C]; [rewrite No in C; by destruct C|done]. }
        split; [by apply insert_subseteq|]. rewrite map_size_insert_None by done. cbn. lia. }
    destruct G as (V1 & Fi1 & S1 & Z1). destruct (IH V1 (pre ++ out) Fi1) as (V2 & Fi2 & S2 & Z2); [by rewrite <- app_assoc|done|].
    exists V2. rewrite app_assoc. split; [done|]. split; [by etrans|]. rewrite length_app. lia.
Qed.

Lemma filling_start a t : t_batch_map t = [] -> t_deltas t = [] -> shelved d F0 a -> store_inv d (store t) a ->
  housed V0 (view_shelves F0 (store t) a) ∅ -> filling V0 a t [].
Proof.
  intros E1 E2 Sh Iv Ho. split; rewrite ?E1, ?E2; try done.
  - intros k. split; [by left|]. intros [C|C]; [done|by apply elem_of_nil in C].
  - intros b k. split; [by intros ?%elem_of_nil|]. intros [C _]. by apply elem_of_nil in C.
  - split; apply NoDup_nil_2.
  - by intros A k ?%elem_of_nil.
Qed.
End batch.
End uploads.
