(* ===== verification/UploadIndex.v ===== *)
(** What a batch of an upload leaves in the indexes: the fingerprints, the bases that are
    offered, the deltas of a base, and the pairs that wait for the offline pass. *)
From Stdlib Require Import ZArith Lia.
From stdpp Require Import base list gmap.
From S2P Require Import Prelude Types ReqContainers Database Crypto Ingest Library UploadVault.

(** ** The indexes after a batch *)

Lemma InsertSF_push db key buffer : sf_wf db ->
  InsertSF db key buffer 0 = Ok (set_sf db (imap (fun i m => push m (sf_key key (Z.of_nat i)) (slice buffer 0 CHUNK_HASH_SIZE)) (sfObj_ db))).
Proof.
  intros W. destruct (sf_cases db W) as (m0 & m1 & m2 & E & _). unfold InsertSF. rewrite E. cbn -[sf_key slice]. reflexivity.
Qed.
Lemma push_elem {V} (m : gmap bytes (list V)) k x f l y : push m k x !! f = Some l -> y ∈ l -> f = k /\ y = x \/ exists l0, m !! f = Some l0 /\ y ∈ l0.
Proof.
  unfold push. intros [[<- <-]|[_ E]]%lookup_insert_Some Hy; [|right; by exists l].
  apply elem_of_app in Hy as [Hy|Hy]; [|left; by apply list_elem_of_singleton in Hy]. destruct (m !! k) as [l0|] eqn:E; [right; by exists l0|by apply elem_of_nil in Hy].
Qed.
Lemma push_keeps {V} (m : gmap bytes (list V)) k x f l y : m !! f = Some l -> y ∈ l -> exists l', push m k x !! f = Some l' /\ y ∈ l'.
Proof.
  intros E Hy. unfold push. destruct (decide (f = k)) as [->|N]; [|exists l; by rewrite lookup_insert_ne].
  rewrite lookup_insert_eq, E. eexists. split; [done|]. cbn. apply elem_of_app. by left.
Qed.

(** What [Ocall_UpdateOutIndex] does to the index: the new chunks enter it. *)
Definition index_outs (m : gmap bytes bytes) (outs : list OutQueryEntry) : gmap bytes bytes :=
  fold_left (fun m o => if oq_dedupFlag o =? UNIQUE then <[oq_chunkHash o := oq_chunkAddr o]> m else m) outs m.
Definition becomes_base (o : OutQueryEntry) : Prop := oq_dedupFlag o = UNIQUE /\ oq_deltaFlag o = NO_DELTA /\ oq_offlineFlag o = 0.
(** [k] is offered under the [i]-th feature [f]. *)
Definition offered_as (db : IndexStore) (i : nat) (f k : bytes) : Prop := exists m l, sfObj_ db !! i = Some m /\ m !! f = Some l /\ k ∈ l.
Lemma offered_as_any db k : offered db k <-> exists i f, offered_as db i f k.
Proof. unfold offered, offered_as. split; [intros (i & m & f & l & R); by exists i, f, m, l|intros (i & f & m & l & R); by exists i, m, f, l]. Qed.

Record updated (db : IndexStore) (outs : list OutQueryEntry) (db' : IndexStore) : Prop := {
  ud_index : indexObj_ db' = index_outs (indexObj_ db) outs;
  ud_frame : (delta_index db', _local_tmp_map db', _local_map db', skipMap db') = (delta_index db, _local_tmp_map db, _local_map db, skipMap db) /\
    (_cold_map db', _cold_container_vector db', _cold_container_set db') = (_cold_map db, _cold_container_vector db, _cold_container_set db);
  ud_sf : sf_wf db';
  ud_offers : forall i f k, offered_as db' i f k -> offered_as db i f k \/
    exists o, o ∈ outs /\ becomes_base o /\ oq_chunkHash o = k /\ f = sf_key (oq_superfeature o) (Z.of_nat i) /\ (i < 3)%nat;
  ud_more : forall i f k, offered_as db i f k -> offered_as db' i f k
}.
Lemma updated_refl db outs : sf_wf db -> Forall (fun o => oq_dedupFlag o <> UNIQUE) outs -> updated db outs db.
Proof.
  intros W Q. split; try done; [|by left]. unfold index_outs. induction Q as [|o outs N _ IH]; [done|]. cbn [fold_left]. by rewrite (proj2 (Z.eqb_neq _ _) N).
Qed.
Lemma updated_app db outs db1 outs' db2 : updated db outs db1 -> updated db1 outs' db2 -> updated db (outs ++ outs') db2.
Proof.
  intros [I1 [F1 G1] W1 O1 M1] [I2 [F2 G2] W2 O2 M2]. split; [|split|..]; try done.
  - unfold index_outs in *. by rewrite fold_left_app, I2, I1.
  - by rewrite F2, F1.
  - by rewrite G2, G1.
  - intros i f k H'. apply O2 in H' as [H'|(o & Ho & R)]; [|right; exists o; split; [apply elem_of_app; by right|done]].
    apply O1 in H' as [?|(o & Ho & R)]; [by left|]. right. exists o. split; [apply elem_of_app; by left|done].
  - intros i f k H'. by apply M2, M1.
Qed.

Lemma update_out_updated db o db' : sf_wf db -> update_out db o = Ok db' ->
  (oq_dedupFlag o = UNIQUE -> blen (oq_chunkHash o) = 32 /\ blen (oq_chunkAddr o) = 144) -> updated db [o] db'.
Proof.
  intros W E Ln. unfold update_out in E. destruct (Z.eqb_spec (oq_dedupFlag o) UNIQUE) as [Un|N]; [|injection E as <-; apply updated_refl; [done|by constructor]].
  destruct (Ln Un) as [Lh La]. unfold InsertBothBuffer, sizeof_RecipeEntry in E. change CHUNK_HASH_SIZE with 32 in E. rewrite slice_32, slice_144 in E by done.
  set (db1 := set_index db _) in E. assert (W1 : sf_wf db1) by exact W.
  assert (U1 : indexObj_ db1 = index_outs (indexObj_ db) [o]) by (unfold index_outs; cbn [fold_left]; by rewrite Un, Z.eqb_refl).
  destruct ((oq_deltaFlag o =? NO_DELTA) && (oq_offlineFlag o =? 0)) eqn:C.
  - apply andb_true_iff in C as [C1 C2]. boolz. destruct (InsertSF_ok db1 (oq_superfeature o) (oq_chunkHash o) 0 W1 ltac:(lia)) as (db2 & E' & W2 & _).
    rewrite E in E'. injection E' as <-. rewrite InsertSF_push in E by done. change CHUNK_HASH_SIZE with 32 in E. rewrite slice_32 in E by done. injection E as <-.
    split; try done.
    + intros i f k (m & l & Hi & Hf & Hk). cbn [sfObj_ set_sf] in Hi. apply list_lookup_imap_Some in Hi as (m0 & Hi & ->).
      destruct (push_elem _ _ _ _ _ _ Hf Hk) as [[-> ->]|(l0 & Hl & Hk0)]; [right|left; by exists m0, l0].
      exists o. split; [left|]. split; [done|]. split; [done|]. split; [done|]. destruct (sf_cases db W) as (n0 & n1 & n2 & E & _).
      apply lookup_lt_Some in Hi. change (sfObj_ db1) with (sfObj_ db) in Hi. by rewrite E in Hi.
    + intros i f k (m & l & Hi & Hf & Hk). destruct (push_keeps m (sf_key (oq_superfeature o) (Z.of_nat i)) (oq_chunkHash o) f l k Hf Hk) as (l' & Hl & Hk').
      eexists _, l'. cbn [sfObj_ set_sf]. rewrite list_lookup_imap. change (sfObj_ db1) with (sfObj_ db). rewrite Hi. by split.
  - injection E as <-. split; try done. by left.
Qed.
Lemma update_outs_updated outs : forall db db', sf_wf db -> update_outs db outs = Ok db' ->
  Forall (fun o => oq_dedupFlag o = UNIQUE -> blen (oq_chunkHash o) = 32 /\ blen (oq_chunkAddr o) = 144) outs -> updated db outs db'.
Proof.
  induction outs as [|o outs IH]; intros db db' W E F; cbn [update_outs] in E.
  - injection E as <-. by apply updated_refl.
  - inv_bind E. apply Forall_cons in F as [Fo F]. pose proof (update_out_updated db o _ W E0 Fo) as U1.
    apply (updated_app db [o] a outs); [exact U1|]. by apply IH; [apply U1|..].
Qed.

Lemma index_outs_lookup outs k : NoDup (map oq_chunkHash outs) -> forall m,
  (forall o, o ∈ outs -> oq_dedupFlag o = UNIQUE -> oq_chunkHash o = k -> index_outs m outs !! k = Some (oq_chunkAddr o)) /\
  (k ∉ new_keys outs -> index_outs m outs !! k = m !! k).
Proof.
  induction outs as [|o outs IH]; intros Nd m; [split; [by intros o ?%elem_of_nil|done]|]. cbn in Nd. apply NoDup_cons in Nd as [No Nd].
  unfold index_outs. cbn [fold_left]. set (m1 := if oq_dedupFlag o =? UNIQUE then _ else m). change (fold_left _ outs m1) with (index_outs m1 outs).
  destruct (IH Nd m1) as [I1 I2]. assert (Ek : oq_dedupFlag o = UNIQUE -> m1 = <[oq_chunkHash o := oq_chunkAddr o]> m) by (intros F; unfold m1; by rewrite F, Z.eqb_refl).
  assert (Nh : oq_chunkHash o ∉ new_keys outs).
  { intros (o' & Ho' & _ & E)%new_keys_elem. apply No. rewrite <- E. by apply list_elem_of_fmap_2. }
  split.
  - intros o' [->|Ho']%elem_of_cons Un <-; [|by apply I1]. rewrite I2 by done. rewrite Ek by done. apply lookup_insert_eq.
  - intros Nk. change (o :: outs) with ([o] ++ outs) in Nk. rewrite new_keys_app in Nk. rewrite I2 by (intros C; apply Nk, elem_of_app; by right).
    unfold m1. case_if; [|done]. boolz. rewrite lookup_insert_ne; [done|]. intros <-. apply Nk, elem_of_app. left. apply new_keys_elem. exists o. split; [left|done].
Qed.

(** *** The deltas of a base *)

Lemma UpdateDeltaIndex_deltas ds b : forall db,
  default [] (delta_index (Ocall_UpdateDeltaIndex db ds) !! b) = default [] (delta_index db !! b) ++ map snd (filter (fun x => fst x = b) ds).
Proof.
  induction ds as [|[b' k] ds IH]; intros db; [by rewrite app_nil_r|]. unfold Ocall_UpdateDeltaIndex in *. cbn [fold_left]. rewrite IH.
  cbn [fst snd]. rewrite filter_cons. cbn [fst]. unfold InsertDeltaIndex, push. cbn [delta_index set_delta]. case_decide as E.
  - rewrite E, lookup_insert_eq. cbn. by rewrite <- app_assoc.
  - by rewrite lookup_insert_ne.
Qed.
Lemma UpdateDeltaIndex_frame ds : forall db, let db' := Ocall_UpdateDeltaIndex db ds in
  indexObj_ db' = indexObj_ db /\ sfObj_ db' = sfObj_ db /\ (_local_tmp_map db', _local_map db', skipMap db') = (_local_tmp_map db, _local_map db, skipMap db) /\
  (_cold_map db', _cold_container_vector db', _cold_container_set db') = (_cold_map db, _cold_container_vector db, _cold_container_set db).
Proof.
  induction ds as [|x ds IH]; intros db; [done|]. unfold Ocall_UpdateDeltaIndex in *. cbn [fold_left]. destruct (IH (InsertDeltaIndex db (fst x) (snd x))) as (-> & -> & -> & ->). done.
Qed.

(** *** The queue of the offline pass *)

(** The old chunks satisfy [O], the new ones [P]; a new chunk is queued once. *)
Record queue_inv (O P : bytes -> Prop) (db : IndexStore) : Prop := {
  qi_pairs : forall A k, _local_tmp_map db !! A = Some k -> O A /\ P k;
  qi_skip : forall A k, k ∈ default [] (skipMap db !! A) -> P k;
  qi_inj : forall A A' k, _local_tmp_map db !! A = Some k -> _local_tmp_map db !! A' = Some k -> A = A';
  qi_apart : forall A A' k, _local_tmp_map db !! A = Some k -> k ∉ default [] (skipMap db !! A')
}.
Lemma queue_inv_impl (O P O' P' : bytes -> Prop) db : (forall k, O k -> O' k) -> (forall k, P k -> P' k) -> queue_inv O P db -> queue_inv O' P' db.
Proof.
  intros HO HP [A B C D]. split; [|by intros X k Hk; eapply HP, B|done|done]. intros X k E. destruct (A X k E). split; auto.
Qed.
Lemma queue_inv_same O P db db' : _local_tmp_map db' = _local_tmp_map db -> skipMap db' = skipMap db -> queue_inv O P db -> queue_inv O P db'.
Proof. intros E1 E2 [A B C D]. split; rewrite ?E1, ?E2; done. Qed.

Definition unqueued (db : IndexStore) (k : bytes) : Prop :=
  (forall A, _local_tmp_map db !! A <> Some k) /\ forall A, k ∉ default [] (skipMap db !! A).
Lemma local_insert_skip db A k A' x : x ∈ default [] (skipMap (local_insert db (A, k)) !! A') ->
  x ∈ default [] (skipMap db !! A') \/ _local_tmp_map db !! A = Some x.
Proof.
  cbn. destruct (_local_tmp_map db !! A) as [prev|]; [|by left]. unfold push. destruct (decide (A' = A)) as [->|N].
  - rewrite lookup_insert_eq. cbn. intros [?|Hx]%elem_of_app; [by left|]. apply list_elem_of_singleton in Hx as ->. by right.
  - rewrite lookup_insert_ne by done. by left.
Qed.
Lemma local_insert_pair db A k B x : _local_tmp_map (local_insert db (A, k)) !! B = Some x -> B = A /\ x = k \/ B <> A /\ _local_tmp_map db !! B = Some x.
Proof. cbn. intros [[<- <-]|[N E]]%lookup_insert_Some; [by left|by right]. Qed.
Lemma local_insert_inv O P db A k : queue_inv O P db -> O A -> P k -> unqueued db k -> queue_inv O P (local_insert db (A, k)).
Proof.
  intros [Pa Sk In Ap] HO HP [N1 N2]. split.
  - intros B x [[-> ->]|[_ E]]%local_insert_pair; [done|by eapply Pa].
  - intros B x Hx. apply local_insert_skip in Hx as [Hx|E]; [by eapply Sk|by eapply Pa].
  - intros B B' x [[-> ->]|[NB E]]%local_insert_pair [[-> Ex]|[NB' E']]%local_insert_pair; try done.
    + by destruct (N1 B').
    + subst x. by destruct (N1 B).
    + by eapply In.
  - intros B B' x HB Hx. apply local_insert_pair in HB as [[-> ->]|[NB E]]; apply local_insert_skip in Hx as [Hx|E'].
    + by apply (N2 B').
    + by apply (N1 A).
    + by apply (Ap _ B' _ E).
    + apply NB. by eapply In.
Qed.
Lemma LocalInsert_inv O P bm : (forall A k, (A, k) ∈ bm -> O A /\ P k) -> NoDup (map snd bm) -> forall db,
  queue_inv O P db -> Forall (unqueued db) (map snd bm) -> queue_inv O P (Ocall_LocalInsert db bm).
Proof.
  induction bm as [|[A k] bm IH]; intros Hp Nd db Q F; [done|]. cbn [map snd] in *. apply NoDup_cons in Nd as [Nk Nd]. apply Forall_cons in F as [Fk F].
  unfold Ocall_LocalInsert in *. cbn [fold_left]. destruct (Hp A k ltac:(left)) as [HO HP]. apply IH; [intros B x Hx; by apply Hp; right|done|by apply local_insert_inv|].
  rewrite Forall_forall in F |- *. intros x Hx. destruct (F x Hx) as [N1 N2]. assert (x <> k) by (intros ->; done). split.
  - intros B [[_ E]|[_ E]]%local_insert_pair; [congruence|by apply (N1 B)].
  - intros B Hb. apply local_insert_skip in Hb as [Hb|E]; [by apply (N2 B)|by apply (N1 A)].
Qed.
Lemma LocalInsert_frame bm : forall db, let db' := Ocall_LocalInsert db bm in
  indexObj_ db' = indexObj_ db /\ sfObj_ db' = sfObj_ db /\ (delta_index db', _local_map db') = (delta_index db, _local_map db) /\
  (_cold_map db', _cold_container_vector db', _cold_container_set db') = (_cold_map db, _cold_container_vector db, _cold_container_set db).
Proof.
  induction bm as [|[A k] bm IH]; intros db; [done|]. unfold Ocall_LocalInsert in *. cbn [fold_left]. destruct (IH (local_insert db (A, k))) as (-> & -> & -> & ->). done.
Qed.
