(* ===== verification/Maintenance.v ===== *)
(** Uploads, and then an offline pass: the uploads leave the vault and the queue that the
    pass needs (OfflineCorrect.v), so that every file can be restored after it. *)
From Stdlib Require Import ZArith Lia.
From stdpp Require Import base list gmap sorting.
From S2P Require Import Prelude Types HTable EDelta EDeltaCorrect Codec CMSketch EntryHeap TopK LruCache ContainerCache Util ReqContainers Database Container Writer Crypto Cold Merge Restore RestoreCorrect Ingest Library IngestStore IngestQuery IngestCorrect IndexLaws Upload Session Vault UploadVault UploadIndex Offline OfflineSteps OfflineMove OfflinePairs OfflineQueue OfflineCold OfflineCorrect OfflineExample.

(** ** A request of type OFFLINE_OPT *)

(** The pass works on the index, the directories and the counter of the names of the
    server; the encoder's table, its buffers and counters are of the enclave and stay
    from pass to pass, and so do the global variables of the ocalls. *)
Definition Pass_of (sv : Server) (o : Pass) : Pass :=
  let w := p_world o in
  mk_pass (mk_world (s_index sv) (s_dirs sv) (Cold.tmpOcallcontainer w) (containersize w) (baseMergePair w) (jobDone w) (_offline_Ocall w))
    (p_chunkAddr o) (hot_container o) (s_con_times sv) (psHTable2Offline_ o) (plainNewDeltaChunkBuffer_ o) (delta_map o) (skip_num o) (p_stats o).
(** The server afterwards; [left] is what the pass leaves in the buffer of the ocalls. *)
Definition Server_of (sv : Server) (left : bytes) (s : Pass) : Server :=
  mk_server (s_cmSketch sv) (s_insideDedupIndex sv) (s_containercache sv) (s_stats sv) (s_written sv) left (p_db s) (p_times s) (w_dirs (p_world s)).

(** [ProcessOffline] of the index types: without an offline pass only the counters are
    handed over. *)
Definition index_offline `{EVP} `{LZ4} `{MapOrder} (cfg : Config) (st : counter -> Z) (mergeContainer buf : bytes) (s : Pass) : result Pass :=
  match c_indexType cfg with
  | SECURE_MEGA | DEBE => Ok (with_stats s (take_over st (p_stats s)))
  | FREQ_INDEX | FORWORD | ONLY_FORWORD =>
    ProcessOffline (c_crypto cfg) (c_indexQueryKey cfg) (c_enclaveKey cfg) (Offline_Flag cfg) st mergeContainer buf s
  end.
(** Uploads, the last one of a client that asks for the pass: [ServerOptThread::Run]
    waits for the threads of the upload and calls [EnclaveIndex::ProcessOff]. *)
Definition offline_request `{EVP} `{LZ4} `{MapOrder} (cfg : Config) (rs : list Upload_request)
    (mergeContainer buf left : bytes) (o : Pass) (sv : Server) : result (Server * Pass * list bytes) :=
  x <-- uploads cfg rs sv ;;
  let s := Pass_of (fst x) o in
  s <-- index_offline cfg (s_stats (fst x)) mergeContainer buf (with_db s (Ocall_Localrevise (p_db s))) ;;
  Ok (Server_of (fst x) left s, s, snd x).

Section uploads.
Context `{EVPLaws} `{!EVPBytes} `{LZ4}.
Variable cfg : Config.
Variable U : bytes -> Prop.
Hypothesis HU : universe cfg U.
Hypothesis HT : hashType_ (c_crypto cfg) = SHA_256.
Abbreviation enc := (enc_recipe (c_crypto cfg) (c_indexQueryKey cfg)).

(** ** The indexes of a vault *)

(** A base that is not offered, its deltas known: it waits to replace another one. *)
Definition waits (V : gmap bytes entry) (db : IndexStore) (k : bytes) : Prop :=
  (exists e, V !! k = Some e /\ is_base e) /\ ~ offered db k /\ tracked V db k.
Record cataloged (V : gmap bytes entry) (db : IndexStore) : Prop := {
  cg_index : indexObj_ db = index_of cfg V;
  cg_sf : sf_wf db;
  cg_offers : offers V db;
  cg_tracked : forall b, offered db b \/ V !! b = None -> tracked V db b;
  cg_queue : queue_inv (offered db) (waits V db) db;
  cg_idle : _local_map db = [] /\ (_cold_container_vector db, _cold_container_set db) = ([], []) /\ forall n, cold_of (_cold_map db) n = []
}.

Section batch.
Variables (d : Directories) (F0 : shelves) (V V' : gmap bytes entry) (db db' : IndexStore) (flag : bool).
Variables (a' : store_spec) (t' : Turn) (outs : list OutQueryEntry).
Hypothesis Cg : cataloged V db.
Hypothesis Fi : filling cfg U d F0 V db flag V' a' t' outs.
Hypothesis Nd : NoDup (map oq_chunkHash outs).
Hypothesis Fr : Forall (fun o => oq_dedupFlag o = UNIQUE -> V !! oq_chunkHash o = None) outs.
Abbreviation db1 := (end_queries flag db t').

Lemma fresh_key k : k ∈ new_keys outs -> V !! k = None.
Proof. intros (o & Ho & Un & <-)%new_keys_elem. rewrite Forall_forall in Fr. by apply Fr. Qed.
Lemma old_key k e : V !! k = Some e -> V' !! k = Some e /\ k ∉ new_keys outs.
Proof. intros E. split; [eapply lookup_weaken; [exact E|apply Fi]|]. intros C%fresh_key. congruence. Qed.

Lemma fill_lengths : Forall (fun o => oq_dedupFlag o = UNIQUE -> blen (oq_chunkHash o) = 32 /\ blen (oq_chunkAddr o) = 144) outs.
Proof.
  eapply Forall_impl; [apply Fi|]. intros o Ho Un. destruct (Ho Un) as (L & en & _ & -> & R & _). split; [done|].
  destruct (enc_recipe_ok (c_crypto cfg) (c_indexQueryKey cfg) _ R) as (_ & Le & _). unfold blen. lia.
Qed.

(** What the queries of the end of the batch do. *)
Lemma end_frame : (indexObj_ db1 = indexObj_ db /\ sfObj_ db1 = sfObj_ db /\ _local_map db1 = _local_map db) /\
  (_cold_map db1, _cold_container_vector db1, _cold_container_set db1) = (_cold_map db, _cold_container_vector db, _cold_container_set db) /\
  forall b, default [] (delta_index db1 !! b) = default [] (delta_index db !! b) ++ map snd (filter (fun x => fst x = b) (t_deltas t')).
Proof.
  pose proof (fl_local _ _ _ _ _ _ _ _ _ _ _ Fi) as Lo. unfold end_queries. destruct flag.
  - destruct (LocalInsert_frame (t_batch_map t') db) as (-> & -> & [= -> ->] & ->). rewrite Lo by done. split; [done|]. split; [done|]. intros b. by rewrite app_nil_r.
  - destruct (UpdateDeltaIndex_frame (t_deltas t') db) as (-> & -> & [= _ -> _] & ->). split; [done|]. split; [done|]. intros b. apply UpdateDeltaIndex_deltas.
Qed.

Hypothesis Up : updated db1 outs db'.

Lemma fill_index : indexObj_ db' = index_of cfg V'.
Proof.
  rewrite (ud_index _ _ _ Up). destruct end_frame as ((-> & _) & _). rewrite (cg_index _ _ Cg). apply map_eq. intros k.
  destruct (index_outs_lookup outs k Nd (index_of cfg V)) as [I1 I2]. unfold index_of at 2. rewrite lookup_fmap.
  destruct (decide (k ∈ new_keys outs)) as [Hk|Hk].
  - apply new_keys_elem in Hk as (o & Ho & Un & <-). pose proof (fl_outs _ _ _ _ _ _ _ _ _ _ _ Fi) as Fo. rewrite Forall_forall in Fo.
    destruct (Fo o Ho Un) as (_ & en & -> & Ea & _). rewrite (I1 o Ho Un eq_refl), Ea. done.
  - rewrite (I2 Hk). unfold index_of. rewrite lookup_fmap. destruct (V !! k) as [e|] eqn:E.
    + destruct (old_key _ _ E) as [-> _]. done.
    + destruct (V' !! k) as [e|] eqn:E'; [|done]. exfalso. assert (C : is_Some (V' !! k)) by (by eexists).
      apply (fl_keys _ _ _ _ _ _ _ _ _ _ _ Fi) in C as [[e' C]|C]; [congruence|done].
Qed.

Lemma fill_tracked b : tracked V db b -> tracked V' db' b.
Proof.
  intros [No Iff]. destruct (ud_frame _ _ _ Up) as [[= Ed _ _ _] _]. destruct end_frame as (_ & _ & Dl).
  pose proof (fl_deltas _ _ _ _ _ _ _ _ _ _ _ Fi) as Ds. destruct (fl_nodup _ _ _ _ _ _ _ _ _ _ _ Fi) as [Nt _].
  unfold tracked. rewrite Ed, Dl.
  assert (Fk : forall k, k ∈ map snd (filter (fun x => fst x = b) (t_deltas t')) <-> (b, k) ∈ t_deltas t').
  { intros k. rewrite list_elem_of_fmap. split.
    - intros ([b' k'] & -> & [<- Hx]%list_elem_of_filter). done.
    - intros Hk. exists (b, k). split; [done|]. by apply list_elem_of_filter. }
  split.
  - apply NoDup_app. split; [done|]. split.
    + intros k (e & E & _)%Iff [Hk _]%Fk%Ds. destruct (old_key _ _ E) as [_ N]. by apply N.
    + eapply sublist_NoDup; [exact Nt|]. exact (fmap_sublist snd _ _ (sublist_filter _ _)).
  - intros k. rewrite elem_of_app, Fk, Ds, Iff. split.
    + intros [(e & E & R)|(_ & e & E & R)]; exists e; [split; [by apply (old_key _ _ E)|done]|done].
    + intros (e & E & R). assert (C : is_Some (V' !! k)) by (by eexists).
      apply (fl_keys _ _ _ _ _ _ _ _ _ _ _ Fi) in C as [[e' C]|C]; [left|right; split; [done|by exists e]].
      exists e'. split; [done|]. destruct (old_key _ _ C) as [C' _]. assert (e' = e) as -> by congruence. done.
Qed.

Lemma sf_key_front sf i : (i < 3)%nat -> sf_key (slice sf 0 96) (Z.of_nat i) = sf_key sf (Z.of_nat i).
Proof. intros L. unfold sf_key, CHUNK_HASH_SIZE. rewrite slice_slice by lia. f_equal. Qed.
Lemma fill_offers : offers V' db'.
Proof.
  intros i m f l k Hi Hf Hk. destruct (ud_offers _ _ _ Up i f k) as [(m0 & l0 & Hi0 & Hf0 & Hk0)|(o & Ho & (Un & Dn & _) & <- & -> & Li)]; [by exists m, l| |].
  - destruct end_frame as ((_ & Es & _) & _). rewrite Es in Hi0. destruct (cg_offers _ _ Cg _ _ _ _ _ Hi0 Hf0 Hk0) as (e & E & R).
    exists e. split; [by apply (old_key _ _ E)|done].
  - pose proof (fl_outs _ _ _ _ _ _ _ _ _ _ _ Fi) as Fo. rewrite Forall_forall in Fo. destruct (Fo o Ho Un) as (_ & en & E & _ & _ & Ef & _ & Sf).
    assert (B : is_base en) by (unfold is_base; by rewrite <- Ef). exists en. split; [done|]. split; [done|]. rewrite (Sf B). by rewrite sf_key_front.
Qed.

Lemma same_key o o' : o ∈ outs -> o' ∈ outs -> oq_chunkHash o = oq_chunkHash o' -> o = o'.
Proof.
  intros [i Hi]%list_elem_of_lookup [j Hj]%list_elem_of_lookup E. assert (i = j) as <-; [|congruence].
  eapply (NoDup_lookup (oq_chunkHash <$> outs)); [exact Nd| |]; rewrite list_lookup_fmap; [by rewrite Hi|]. rewrite Hj. cbn. by rewrite E.
Qed.
Lemma offered_base k : offered db k -> exists e, V !! k = Some e /\ is_base e.
Proof. intros (i & m & f & l & Hi & Hf & Hk). destruct (cg_offers _ _ Cg _ _ _ _ _ Hi Hf Hk) as (e & E & B & _). by exists e. Qed.
Lemma offered_more k : offered db k -> offered db' k.
Proof.
  rewrite !offered_as_any. destruct end_frame as ((_ & Es & _) & _). intros (i & f & O). exists i, f. apply (ud_more _ _ _ Up). unfold offered_as. by rewrite Es.
Qed.
Lemma offered_new k : offered db' k -> offered db k \/ exists o, o ∈ outs /\ becomes_base o /\ oq_chunkHash o = k.
Proof.
  rewrite !offered_as_any. destruct end_frame as ((_ & Es & _) & _). intros (i & f & [O|(o & Ho & B & E & _)]%(ud_offers _ _ _ Up)); [left|right; by exists o].
  exists i, f. unfold offered_as in *. by rewrite <- Es.
Qed.

Lemma fill_watch b : offered db' b \/ V' !! b = None -> tracked V' db' b.
Proof.
  intros Hb. apply fill_tracked, (cg_tracked _ _ Cg). destruct Hb as [[O|(o & Ho & [Un _] & <-)]%offered_new|N]; [by left|right..].
  - apply fresh_key, new_keys_elem. by exists o.
  - destruct (V !! b) as [e|] eqn:E; [|done]. destruct (old_key _ _ E). congruence.
Qed.

Lemma fill_queue : queue_inv (offered db') (waits V' db') db'.
Proof.
  enough (Q1 : queue_inv (offered db') (waits V' db') db1) by (destruct (ud_frame _ _ _ Up) as [[= _ Et _ Ek] _]; by apply (queue_inv_same _ _ db1)).
  assert (Q : queue_inv (offered db') (waits V' db') db).
  { eapply queue_inv_impl; [apply offered_more| |apply Cg]. intros k [(e & E & B) [No Tr]]. destruct (old_key _ _ E) as [E' Nk]. split; [by exists e|]. split; [|by apply fill_tracked].
    intros [O|(o & Ho & [Un _] & <-)]%offered_new; [done|]. apply Nk, new_keys_elem. by exists o. }
  pose proof offered_more as Om. pose proof offered_new as On. pose proof fill_tracked as Tk. unfold end_queries. destruct flag.
  - pose proof (fl_pairs _ _ _ _ _ _ _ _ _ _ _ Fi) as Ps. destruct (fl_nodup _ _ _ _ _ _ _ _ _ _ _ Fi) as [_ Nb]. apply LocalInsert_inv; [|done|done|].
    + intros A k Hp. destruct (Ps _ _ Hp) as (O & B & o & Ho & Un & Eo & F1). split; [by apply Om|]. split; [done|].
      assert (Nk : V !! k = None) by (apply fresh_key, new_keys_elem; by exists o). split; [|apply Tk, (cg_tracked _ _ Cg); by right].
      intros [O'|(o' & Ho' & (Un' & _ & F0') & E')]%On.
      * destruct (offered_base _ O') as (e & E & _). congruence.
      * assert (o' = o) as -> by (apply same_key; congruence). congruence.
    + apply Forall_forall. intros k ([A k'] & -> & Hp)%list_elem_of_fmap. cbn [snd]. destruct (Ps _ _ Hp) as (_ & _ & o & Ho & Un & Eo & _).
      assert (Nk : V !! k' = None) by (apply fresh_key, new_keys_elem; by exists o). split.
      * intros B E. destruct (qi_pairs _ _ _ (cg_queue _ _ Cg) _ _ E) as [_ [(e & Ee & _) _]]. congruence.
      * intros B Hb. destruct (qi_skip _ _ _ (cg_queue _ _ Cg) _ _ Hb) as [(e & Ee & _) _]. congruence.
  - destruct (UpdateDeltaIndex_frame (t_deltas t') db) as (_ & _ & [= E1 _ E2] & _). by apply (queue_inv_same _ _ db).
Qed.

Lemma fill_cataloged : cataloged V' db'.
Proof.
  split; [apply fill_index|apply Up|apply fill_offers|apply fill_watch|apply fill_queue|].
  destruct (ud_frame _ _ _ Up) as [[= _ _ -> _] [= Ec Ev Es]]. destruct end_frame as ((_ & _ & ->) & [= Ec' Ev' Es'] & _).
  rewrite Ec, Ev, Es, Ec', Ev', Es'. apply Cg.
Qed.
End batch.

(** ** Batches and sessions *)

(** The storage core, its log and the indexes, in the middle of an upload. *)
Record vaulted (d : Directories) (F0 : shelves) (V : gmap bytes entry) (u : Upload) (a : store_spec) (db : IndexStore) : Prop := {
  vu_shelved : shelved d F0 a;
  vu_inv : store_inv d u a;
  vu_housed : housed V (view_shelves F0 u a) ∅;
  vu_chunks : chunks cfg U V;
  vu_cataloged : cataloged V db
}.
(** [V'] has at most [n] chunks more. *)
Definition grown (n : nat) (V V' : gmap bytes entry) : Prop := V ⊆ V' /\ (base.size V' <= base.size V + n)%nat.
Lemma grown_trans n m V V1 V2 : grown n V V1 -> grown m V1 V2 -> grown (n + m) V V2.
Proof. intros [S1 Z1] [S2 Z2]. split; [by etrans|lia]. Qed.

Lemma batch_vault d F0 V n u a db u' a' db' : vaulted d F0 V u a db -> batch_step U (FreqIndex cfg) (freq_new cfg U d) n (u, a, db) (u', a', db') ->
  exists V', vaulted d F0 V' u' a' db' /\ grown n V V'.
Proof.
  intros [Sh Iv Ho Ch Cg] B. inversion B as [flag ? t outs ? t' ? ? T1 T2 L Eu Ln Nd Fr]; subst. pose proof (cg_index _ _ Cg) as Ci. pose proof (cg_sf _ _ Cg) as Cs.
  assert (Fr' : Forall (fun o => oq_dedupFlag o = UNIQUE -> V !! oq_chunkHash o = None) outs).
  { eapply Forall_impl; [exact Fr|]. intros o No Un. specialize (No Un). rewrite Ci in No. unfold index_of in No. rewrite lookup_fmap in No. by destruct (V !! oq_chunkHash o). }
  pose proof (filling_start cfg U d F0 V db flag Ch a t T1 T2 Sh Iv Ho) as S.
  destruct (filling_turns cfg U HU HT d F0 V db flag Ch (fun k e => housed_recipe V _ _ k e Ho) Ci a t outs a' t' L V [] S Nd Fr') as (V' & Fi & Sub & Z).
  cbn [app] in Fi. destruct (end_freq_queries flag db t') as [st Eq]. cbn [end_batch FreqIndex] in Eu. rewrite Eq in Eu. cbn [fst] in Eu. assert (Up : updated (end_queries flag db t') outs db').
  { apply update_outs_updated; [|exact Eu|by eapply fill_lengths]. destruct (end_frame d F0 V V' db flag a' t' outs Fi) as ((_ & E & _) & _).
    unfold sf_wf in *. by rewrite E. }
  exists V'. split; [|split; [done|lia]]. destruct Fi. split; try done. by eapply fill_cataloged.
Qed.
Lemma batches_vault d F0 n s s' : batch_steps U (FreqIndex cfg) (freq_new cfg U d) n s s' -> forall V, vaulted d F0 V (fst (fst s)) (snd (fst s)) (snd s) ->
  exists V', vaulted d F0 V' (fst (fst s')) (snd (fst s')) (snd s') /\ grown n V V'.
Proof.
  induction 1 as [s|n m s1 s2 s3 B _ IH]; intros V Va; [exists V; split; [done|split; [done|lia]]|].
  destruct s1 as [[u1 a1] db1], s2 as [[u2 a2] db2]. destruct (batch_vault d F0 V n _ _ _ _ _ _ Va B) as (V1 & Va1 & G1).
  destruct (IH V1 Va1) as (V2 & Va2 & G2). exists V2. split; [done|]. by eapply grown_trans.
Qed.

(** A server between two sessions: every chunk has one entry, on a shelf. *)
Record stocked (V : gmap bytes entry) (F : shelves) (sv : Server) : Prop := {
  st_disk : on_shelves (s_dirs sv) F;
  st_housed : housed V F ∅;
  st_chunks : chunks cfg U V;
  st_cataloged : cataloged V (s_index sv)
}.
Lemma session_vault n sv sv' V F : session_step U (FreqIndex cfg) (freq_new cfg U) n sv sv' -> stocked V F sv -> exists V' F', stocked V' F' sv' /\ grown n V V'.
Proof.
  intros [u0 u a Iv0 _ Bs Iv Ed _] [On Ho Ch Cg].
  destruct (batches_vault (s_dirs sv) F n _ _ Bs V) as (V' & [Sh' Iv' Ho' Ch' Cg'] & G).
  - split; try done. split; [done|apply Ho|constructor|constructor].
  - exists V', (view_shelves F u a). split; [|done]. split; try done. rewrite Ed. by eapply view_on.
Qed.
Lemma sessions_vault n sv sv' : session_steps U (FreqIndex cfg) (freq_new cfg U) n sv sv' -> forall V F, stocked V F sv -> exists V' F', stocked V' F' sv' /\ grown n V V'.
Proof.
  induction 1 as [sv|n m sv1 sv2 sv3 S _ IH]; intros V F St; [exists V, F; split; [done|split; [done|lia]]|].
  destruct (session_vault _ _ _ _ _ S St) as (V1 & F1 & St1 & G1). destruct (IH V1 F1 St1) as (V2 & F2 & St2 & G2).
  exists V2, F2. split; [done|]. by eapply grown_trans.
Qed.

(** ** The queue of the pass *)

Lemma concat_map_elem {A B} (f : A -> list B) l x : x ∈ concat (map f l) <-> exists y, y ∈ l /\ x ∈ f y.
Proof.
  rewrite list_elem_of_In, in_concat. setoid_rewrite <- list_elem_of_In. split.
  - intros (ys & (y & -> & Hy)%list_elem_of_fmap & Hx). by exists y.
  - intros (y & Hy & Hx). exists (f y). split; [by apply list_elem_of_fmap_2|done].
Qed.

Section queue.
Context `{MapOrder}.
Lemma fold_pairs_elem (l : list (bytes * bytes)) A nb : forall m : gmap bytes bytes, fold_left (fun m x => <[fst x := snd x]> m) l m !! A = Some nb -> (A, nb) ∈ l \/ m !! A = Some nb.
Proof.
  induction l as [|[k v] l IH]; intros m E; [by right|]. cbn [fold_left] in E. apply IH in E as [E|E]; [left; by right|].
  apply lookup_insert_Some in E as [[<- <-]|[_ E]]; [left; left|by right].
Qed.
(** A pair of the queue: an old chunk and its successor, or one that was passed over. *)
Lemma greedy_pair db A nb : local_greedy_basemap db !! A = Some nb ->
  exists B, _local_tmp_map db !! B = Some nb /\ (A = B \/ A ∈ default [] (skipMap db !! B)).
Proof.
  intros E. apply fold_pairs_elem in E as [E|E]; [|by rewrite lookup_empty in E]. apply concat_map_elem in E as ([B v] & Hx & E). rewrite order_perm in Hx. apply elem_of_map_to_list in Hx.
  unfold greedy_pairs in E. cbn [fst snd] in E. apply elem_of_cons in E as [[= -> ->]|E]; [exists B; split; [done|by left]|].
  apply list_elem_of_fmap in E as (z & [= -> ->] & Hz). exists B. split; [done|by right].
Qed.
Lemma greedy_ok V db A nb : cataloged V db -> local_greedy_basemap db !! A = Some nb ->
  local_greedy_basemap db !! nb = None /\ forall b, b = A \/ b = nb -> (exists e, V !! b = Some e /\ is_base e) /\ tracked V db b.
Proof.
  intros Cg E. pose proof (cg_queue _ _ Cg) as Q. destruct (greedy_pair _ _ _ E) as (B & EB & HA). destruct (qi_pairs _ _ _ Q _ _ EB) as [OB [Bn [Nn Tn]]]. split.
  - destruct (local_greedy_basemap db !! nb) as [nb'|] eqn:E'; [|done]. exfalso. destruct (greedy_pair _ _ _ E') as (B' & EB' & [<-|Hs]).
    + by destruct (qi_pairs _ _ _ Q _ _ EB').
    + by apply (qi_apart _ _ _ Q _ B' _ EB).
  - intros b [->| ->]; [|done]. destruct HA as [->|Hs].
    + destruct OB as (i & m & f & l & Hi & Hf & Hk). destruct (cg_offers _ _ Cg _ _ _ _ _ Hi Hf Hk) as (e & Ee & Be & _).
      split; [by exists e|]. apply (cg_tracked _ _ Cg). left. by exists i, m, f, l.
    + by destruct (qi_skip _ _ _ Q _ _ Hs) as (? & _ & ?).
Qed.

(** The old chunks and their deltas are different chunks. *)
Lemma cost_bound V s l : NoDup l -> (forall b, b ∈ l -> (exists e, V !! b = Some e /\ is_base e) /\ tracked V (p_db s) b) ->
  0 <= cost s l <= Z.of_nat (base.size V).
Proof.
  intros Nd Hl. split; [apply cost_nonneg|]. set (k := l ++ concat (map (deltas_of s) l)).
  assert (Dk : forall d b, b ∈ l -> d ∈ deltas_of s b -> exists e, V !! d = Some e /\ is_delta e /\ based_on e = b).
  { intros d b Hb Hd. destruct (Hl b Hb) as [_ [_ Iff]]. by apply Iff. }
  assert (Ec : cost s l = blen k).
  { unfold k. rewrite blen_app. clear. unfold cost. induction l as [|A l IH]; [done|]. cbn [foldr map concat]. rewrite IH, blen_app, blen_cons. lia. }
  assert (Nk : NoDup k).
  { apply NoDup_app. split; [done|]. split.
    - intros b Hb Hd. apply concat_map_elem in Hd as (b' & Hb' & Hd).
      destruct (Dk b b' Hb' Hd) as (e & E & De & _). destruct (Hl b Hb) as [(e' & E' & Be) _]. rewrite E in E'. injection E' as <-. by apply (base_delta e).
    - clear k Ec. induction l as [|b l IH]; cbn [map concat]; [apply NoDup_nil_2|]. apply NoDup_cons in Nd as [Nb Nd]. apply NoDup_app. split; [apply (Hl b ltac:(left))|]. split.
      + intros d Hd Hd'. apply concat_map_elem in Hd' as (b' & Hb' & Hd').
        destruct (Dk d b ltac:(left) Hd) as (e & E & _ & B1). destruct (Dk d b' ltac:(by right) Hd') as (e' & E' & _ & B2). assert (b = b') as -> by congruence. done.
      + apply IH; [done|intros x Hx; apply Hl; by right|intros d x Hx; apply Dk; by right]. }
  rewrite Ec. unfold blen. assert (L : (length k <= base.size V)%nat); [|lia].
  rewrite <- (size_list_to_set (C := gset bytes) k Nk), <- (size_dom (D := gset bytes) V). apply subseteq_size. intros b Hb%elem_of_list_to_set.
  apply elem_of_dom. apply elem_of_app in Hb as [Hb|Hb]; [destruct (Hl b Hb) as [(e & E & _) _]; by exists e|].
  apply concat_map_elem in Hb as (b' & Hb' & Hd).
  destruct (Dk b b' Hb' Hd) as (e & E & _). by exists e.
Qed.
Lemma cataloged_queue V s : cataloged V (p_db s) -> Z.of_nat (base.size V) < 100000 -> p_times s + 1 + Z.of_nat (base.size V) < 2 ^ 31 ->
  queue_ok V s /\ cost s (map fst (map_to_list (local_greedy_basemap (p_db s)))) <= Z.of_nat (base.size V).
Proof.
  intros Cg Sz Tm. set (l := map fst _). assert (Hl : forall b, b ∈ l -> (exists e, V !! b = Some e /\ is_base e) /\ tracked V (p_db s) b).
  { intros b ([A nb] & -> & Hx%elem_of_map_to_list)%list_elem_of_fmap. destruct (greedy_ok V _ _ _ Cg Hx) as [_ G]. by apply G; left. }
  pose proof (cost_bound V s l (NoDup_fst_map_to_list _) Hl) as C. split; [|lia]. split.
  - intros A nb E. by apply greedy_ok.
  - intros A nb E. destruct (greedy_ok V _ _ _ Cg E) as [_ G]. destruct (cost_bound V s [A] (NoDup_singleton A)) as [_ C1].
    + intros b ->%list_elem_of_singleton. by apply G; left.
    + cbn in C1. lia.
  - fold l. lia.
Qed.
End queue.

(** ** The request *)

(** What stays in the enclave and with the ocalls between two passes. *)
Record idle (o : Pass) : Prop := {
  id_encoder : encoder_ok (psHTable2Offline_ o);
  id_map : delta_map o = ∅;
  id_pairs : baseMergePair (p_world o) = []
}.
(** The cached containers are those of the directory: a pass can end this (Stale.v). *)
Definition coherent (c : PoolCache) (D : Directories) : Prop := exists sp, refines c sp /\
  Forall (fun x => exists body, base_dir D !! fst x = Some body /\ take (length body) (snd x) = body) sp.

Lemma stocked_vault V F sv o : server_inv cfg U sv -> stocked V F sv -> idle o -> vault_ok cfg U V F (Pass_of sv o).
Proof.
  intros I [On Ho Ch [Ci Cs Co Ct Cq (Cl & [= Cv Cst] & Cm)]] [Ie Im Ip]. split; try done. split; try done.
  - intros n [p E]. apply (sv_names _ _ _ I). intros Fr%(shelves_fresh _ _ On). congruence.
  - apply (sv_times _ _ _ I).
  - intros b [Hb|Hb]; [by apply elem_of_nil in Hb|by apply Ct].
Qed.
Lemma vault_stocked V F sv left s : vault_ok cfg U V F s -> waiting (p_db s) = (∅, [], ∅) -> stocked V F (Server_of sv left s) /\ idle s.
Proof.
  intros [[Rc Rh Rd Rn Rt Ri Rs Ro Rk Re Rp] Dm Lm Co St Ve] [= E1 E2 E3]. split; [|done]. split; try done. split; try done.
  - intros b Hb. apply Rk. by right.
  - cbn [Server_of s_index]. split; rewrite ?E1, ?E3; intros *; rewrite ?lookup_empty; try done; cbn; by intros ?%elem_of_nil.
  - cbn [Server_of s_index]. by rewrite Ve, St.
Qed.
(** Everything else of the server is as it should be. *)
Lemma vault_server V F sv left s : server_inv cfg U sv -> vault_ok cfg U V F s -> dom (indexObj_ (s_index sv)) = dom V -> blen left = MAX_CONTAINER_SIZE ->
  coherent (s_containercache sv) (w_dirs (p_world s)) -> server_inv cfg U (Server_of sv left s).
Proof.
  intros I [[Rc Rh Rd Rn Rt Ri Rs Ro Rk Re Rp] Dm Lm Co St Ve] D Le Cc. split; cbn [Server_of s_cmSketch s_insideDedupIndex s_containercache s_tmpOcallcontainer s_index s_con_times s_dirs]; try done.
  - apply (sv_sketch _ _ _ I).
  - eapply heap_inv_impl; [|apply (sv_heap _ _ _ I)]. intros fp (k & Hk & Kn). exists k. split; [done|]. apply elem_of_dom.
    rewrite Ri. unfold index_of. rewrite dom_fmap_L, <- D. by apply elem_of_dom.
  - by eapply (vault_library cfg U HU HT _ F V).
  - intros n Hn. apply Rn. destruct (F !! n) eqn:E; [by eexists|]. destruct Hn. by apply (shelves_fresh _ _ Rd).
  - intros n b Hb. assert (G : exists delta es, F !! n = Some (delta, es) /\ b = body_bytes es).
    { destruct Hb as [Hb|Hb]; [rewrite (os_base _ _ Rd) in Hb|rewrite (os_delta _ _ Rd) in Hb]; apply lookup_fmap_Some in Hb as (es & <- & E%shelf_lookup); eauto. }
    destruct G as (delta & es & E & ->). destruct (ho_files _ _ _ Rh _ _ E) as (_ & L & M & _). cbn [snd] in *.
    rewrite body_bytes_total; [done|]. apply Forall_forall. intros e He. apply (laid_out_elem _ _ _ _ L He).
Qed.

Hypothesis HB : 0 < c_sendRecipeBatchSize cfg.
Hypothesis HS : 0 < c_sendChunkBatchSize cfg < 2 ^ 32.
Hypothesis HK : (2 <= topThreshold_ cfg)%nat.
Hypothesis HR : roomy U.

(** How many chunks there can be after the uploads. *)
Definition chunks_after (V : gmap bytes entry) (files : list (list (list bytes))) : Z :=
  Z.of_nat (base.size V) + blen (concat (map (@concat bytes) files)).
Hypothesis Ty : c_indexType cfg <> SECURE_MEGA /\ c_indexType cfg <> DEBE.
Lemma freq_class : index_class cfg = FreqIndex cfg.
Proof. unfold index_class. destruct (c_indexType cfg); tauto. Qed.
Lemma freq_offline `{MapOrder} st mergeContainer buf s : index_offline cfg st mergeContainer buf (with_db s (Ocall_Localrevise (p_db s))) =
  ProcessOff (c_crypto cfg) (c_indexQueryKey cfg) (c_enclaveKey cfg) (Offline_Flag cfg) st mergeContainer buf s.
Proof. unfold index_offline, ProcessOff. destruct (c_indexType cfg); tauto. Qed.
Lemma request_run `{MapOrder} rs files mergeContainer buf left o sv V F :
  server_inv cfg U sv -> stocked V F sv -> idle o -> Forall2 (request_ok cfg U) rs files ->
  chunks_after V files < 100000 -> s_con_times sv + names_used files + chunks_after V files + 1 < 2 ^ 31 ->
  exists sv' o' recipes V' F', offline_request cfg rs mergeContainer buf left o sv = Ok (sv', o', recipes) /\
    stocked V' F' sv' /\ idle o' /\ Z.of_nat (base.size V') <= chunks_after V files /\
    s_con_times sv' <= s_con_times sv + names_used files + chunks_after V files + 1 /\
    (blen left = MAX_CONTAINER_SIZE -> coherent (s_containercache sv') (s_dirs sv') -> server_inv cfg U sv') /\
    library cfg U (s_dirs sv') (s_index sv') /\
    (forall file xs, recipe_of_chunks cfg U (s_index sv) file xs -> recipe_of_chunks cfg U (s_index sv') file xs) /\
    Forall2 (fun recipe file => recipe_of_chunks cfg U (s_index sv') recipe (concat file)) recipes files.
Proof.
  intros I St Id Rq Nc Nt. assert (N0 : 0 <= chunks_after V files) by (unfold chunks_after; pose proof (blen_nonneg (concat (map (@concat bytes) files))); lia).
  destruct (uploads_ok cfg U HU HT HB HS HK _ (freq_new cfg U) (HC := freq_laws cfg U HU HT) freq_class rs files Rq sv I ltac:(lia)) as (sv1 & recipes & E1 & I1 & Sub & Rs & Ss & T1).
  destruct (sessions_vault _ _ _ Ss V F St) as (V1 & F1 & St1 & [_ Z1]). assert (Z1' : Z.of_nat (base.size V1) <= chunks_after V files) by (unfold chunks_after, blen; lia).
  pose proof (stocked_vault _ _ _ _ I1 St1 Id) as Vk.
  destruct (cataloged_queue V1 (Pass_of sv1 o)) as [Qk Ck]; [apply St1|lia|change (s_con_times sv1 + 1 + Z.of_nat (base.size V1) < 2 ^ 31); lia|].
  destruct (ProcessOff_ok cfg U HU HT V1 F1 _ (Offline_Flag cfg) (s_stats sv1) mergeContainer buf HR Vk Qk) as (s & V2 & F2 & E2 & Vk2 & D2 & W2 & T2).
  change (p_times (Pass_of sv1 o)) with (s_con_times sv1) in T2. destruct (vault_stocked _ _ sv1 left s Vk2 W2) as [St2 Id2].
  assert (Sz : base.size V2 = base.size V1) by (rewrite <- !(size_dom (D := gset bytes)); by rewrite D2).
  assert (Kp : forall file xs, recipe_of_chunks cfg U (s_index sv1) file xs -> recipe_of_chunks cfg U (p_db s) file xs) by (intros file xs; by apply (pass_keeps cfg U V1 F1 V2 F2 (Pass_of sv1 o) s)).
  exists (Server_of sv1 left s), s, recipes, V2, F2. unfold offline_request. rewrite E1. cbn [rbind fst snd]. rewrite freq_offline, E2. cbn [rbind].
  split; [done|]. split; [done|]. split; [done|]. split; [by rewrite Sz|]. split; [cbn [Server_of s_con_times]; lia|]. split; [|split; [|split]].
  - intros Le Cc. apply (vault_server V2 F2); [done|done| |done|done]. rewrite D2. apply (vault_index cfg U V1 F1 (Pass_of sv1 o) Vk).
  - destruct (vk_resting _ _ _ _ _ Vk2) as [Rc Rh Rd _ _ Ri Rs2 Ro _ _ _]. by eapply (vault_library cfg U HU HT _ F2 V2).
  - intros file xs Rc. by eapply Kp, recipe_of_chunks_mono.
  - eapply Forall2_impl; [exact Rs|]. intros. by apply Kp.
Qed.
End uploads.

(** C2. Uploads and an offline pass, from any state in order.  The server takes any
    number of uploads, and then the pass that the last client asked for, with an index
    type that has one or only cleans up, on whatever those uploads, and the ones before them, have stored and
    queued.  With fewer than 100000 chunks in all and names left, every upload and the
    pass end without an error; the recipe of any file, uploaded now or earlier, gives it
    back to a client with any session key: a restore with the program's buffers ends and
    sends exactly the chunks of the file, in order, unless the containers of its chunks
    and of their bases need a seventeenth identifier at some point, which is written past
    the buffer ([gives_back]); every chunk has one entry again, the indexes and the containers agree and the
    queue is empty.  The server can take the next request if the container cache of the
    enclave holds no container that the pass has rewritten. *)
Theorem offline_request_restores `{EVPLaws} `{!EVPBytes} `{LZ4} `{MapOrder} (cfg : Config) (U : bytes -> Prop) (V : gmap bytes entry) (F : shelves) (sv : Server)
    (rs : list Upload_request) (files : list (list (list bytes))) (mergeContainer buf left : bytes) (o : Pass) :
  universe cfg U -> hashType_ (c_crypto cfg) = SHA_256 -> roomy U -> 0 < c_sendRecipeBatchSize cfg ->
  0 < c_sendChunkBatchSize cfg < 2 ^ 32 -> (2 <= topThreshold_ cfg)%nat -> c_indexType cfg <> SECURE_MEGA /\ c_indexType cfg <> DEBE ->
  server_inv cfg U sv -> stocked cfg U V F sv -> idle o -> Forall2 (request_ok cfg U) rs files ->
  chunks_after V files < 100000 -> s_con_times sv + names_used files + chunks_after V files + 1 < 2 ^ 31 ->
  exists sv' o' recipes V' F', offline_request cfg rs mergeContainer buf left o sv = Ok (sv', o', recipes) /\
    stocked cfg U V' F' sv' /\ idle o' /\ Z.of_nat (base.size V') <= chunks_after V files /\
    s_con_times sv' <= s_con_times sv + names_used files + chunks_after V files + 1 /\
    (blen left = MAX_CONTAINER_SIZE -> coherent (s_containercache sv') (s_dirs sv') -> server_inv cfg U sv') /\
    forall sk, let env := setting cfg sk (s_dirs sv') (s_index sv') in
      (forall file xs, recipe_of_chunks cfg U (s_index sv) file xs -> gives_back env file xs) /\
      Forall2 (fun recipe file => gives_back env recipe (concat file)) recipes files.
Proof.
  intros HU HT HR HB HS HK Ty I St Id Rq Nc Nt.
  destruct (request_run cfg U HU HT HB HS HK HR Ty rs files mergeContainer buf left o sv V F I St Id Rq Nc Nt) as
    (sv' & o' & recipes & V' & F' & E & St' & Id' & Sz & Tm & Si & Lb & Old & New).
  exists sv', o', recipes, V', F'. do 6 (split; [done|]). intros sk env. split.
  - intros file xs Rc. by apply (library_restores cfg U HU HT HB HS), Old.
  - eapply Forall2_impl; [exact New|]. intros recipe file Rc. by apply (library_restores cfg U HU HT HB HS).
Qed.

(** A new server has no chunks. *)
Lemma new_server_stocked `{EVP} `{LZ4} (cfg : Config) (U : bytes -> Prop) (width depth cacheSize : nat) (tmp : bytes) :
  stocked cfg U ∅ ∅ (new_server width depth cacheSize tmp).
Proof.
  split.
  - by split.
  - split; [apply map_Forall_empty|by intros k e; rewrite lookup_empty|]. intros n. unfold cold_of. rewrite lookup_empty. cbn. split; [apply NoDup_nil_2|].
    intros q. split; [by intros ?%elem_of_nil|]. intros (e & He & _). unfold entries in He. rewrite lookup_empty in He. by apply elem_of_nil in He.
  - apply map_Forall_empty.
  - split; cbn [new_server s_index empty_store indexObj_ sfObj_ delta_index _local_tmp_map _local_map skipMap _cold_map _cold_container_vector _cold_container_set].
    + unfold index_of. by rewrite fmap_empty.
    + by_decide.
    + intros i m f l k Hi Hf Hk. apply lookup_replicate in Hi as [-> _]. by rewrite lookup_empty in Hf.
    + intros b _. assert (E : delta_index empty_store !! b = None) by apply lookup_empty. unfold tracked. rewrite E. cbn. split; [apply NoDup_nil_2|]. intros k.
      split; [by intros ?%elem_of_nil|]. intros (e & E' & _). by rewrite lookup_empty in E'.
    + split; intros *; cbn [_local_tmp_map skipMap]; rewrite ?lookup_empty; try done; cbn; by intros ?%elem_of_nil.
    + split; [done|]. split; [done|]. intros n. unfold cold_of. by rewrite lookup_empty.
Qed.

#[local] Existing Instance byte_evp.
#[local] Existing Instance byte_laws.
#[local] Existing Instance byte_bytes.
#[local] Existing Instance toy_lz4.
#[local] Existing Instance some_order.

Lemma ex_roomy : roomy ex_universe.
Proof.
  assert (All : forall P : bytes -> Prop, Forall P (map ex_chunk [0; 1; 2; 3]) -> forall x, ex_universe x -> P x)
    by (intros P F x Hx; rewrite Forall_forall in F; by apply F).
  split; apply All; by_decide.
Qed.

(** Two files in two sessions, and the pass. *)
Lemma offline_request_restores_witness :
  exists sv' o' recipes V' F', offline_request ex_config [ex_request [[0; 1]; [0; 2]]; ex_request [[1; 3]; [2; 1]]] [] [] [] off_start (new_server 3 2 2 ex_tmp) = Ok (sv', o', recipes) /\
    stocked ex_config ex_universe V' F' sv' /\
    let env := setting ex_config [12] (s_dirs sv') (s_index sv') in
    Forall2 (fun recipe file => gives_back env recipe (concat file))
      recipes (map (map (map ex_chunk)) [[[0; 1]; [0; 2]]; [[1; 3]; [2; 1]]]).
Proof.
  destruct (offline_request_restores ex_config ex_universe ∅ ∅ (new_server 3 2 2 ex_tmp) [ex_request [[0; 1]; [0; 2]]; ex_request [[1; 3]; [2; 1]]]
    (map (map (map ex_chunk)) [[[0; 1]; [0; 2]]; [[1; 3]; [2; 1]]]) [] [] [] off_start) as (sv' & o' & recipes & V' & F' & E & St & _ & _ & _ & _ & R).
  - apply ex_universe_ok.
  - reflexivity.
  - exact ex_roomy.
  - reflexivity.
  - by_decide.
  - by_decide.
  - split; discriminate.
  - apply new_server_ok; [by_decide|by_decide|unfold ex_tmp, blen; rewrite length_replicate; by_decide].
  - apply new_server_stocked.
  - split; [exact small_table_ok|reflexivity|reflexivity].
  - constructor; [|constructor; [|constructor]]; apply ex_request_ok; by_decide.
  - reflexivity.
  - reflexivity.
  - exists sv', o', recipes, V', F'. split; [exact E|]. split; [exact St|]. apply R.
Defined.
