(* ===== verification/Trace.v ===== *)
(** The lines of a trace of fingerprints (FSLChunking and UBCChunking of
    Client/chunker.cc) and the chunk that is made up for one (GenerateChunkFromCanditdateSet
    of Util/compressGen.cc).  The C functions that take a line apart are written out. *)
From Stdlib Require Import ZArith Lia.
From stdpp Require Import base list.
From S2P Require Import Prelude Types.

(** ** Strings of C *)

Definition is_space (b : Z) : bool := (b =? 32) || ((9 <=? b) && (b <=? 13)).
(** The delimiters [":\t\n "]. *)
Definition is_delim (b : Z) : bool := (b =? 58) || (b =? 9) || (b =? 10) || (b =? 32).
(** What is before the zero. *)
Fixpoint c_str (s : bytes) : bytes := match s with [] => [] | b :: s => if b =? 0 then [] else b :: c_str s end.
(** The tokens that [strtok] gives one after the other; [tok] is the one begun. *)
Fixpoint strtok (s tok : bytes) : list bytes :=
  match s with
  | [] => match tok with [] => [] | _ => [tok] end
  | b :: s => if is_delim b then match tok with [] => strtok s [] | _ => tok :: strtok s [] end else strtok s (tok ++ [b])
  end.

Definition digit_val (b : Z) : Z :=
  if (48 <=? b) && (b <=? 57) then b - 48 else if (97 <=? b) && (b <=? 122) then b - 87 else if (65 <=? b) && (b <=? 90) then b - 55 else 36.
Fixpoint digits (base : Z) (s : bytes) (acc : Z) : Z :=
  match s with [] => acc | b :: s => if digit_val b <? base then digits base s (acc * base + digit_val b) else acc end.
Fixpoint skip_space (s : bytes) : bytes := match s with b :: t => if is_space b then skip_space t else s | [] => [] end.
Definition skip_sign (s : bytes) : Z * bytes :=
  match s with b :: t => if b =? 45 then (-1, t) else if b =? 43 then (1, t) else (1, s) | [] => (1, []) end.
(** In base 16 a prefix [0x] is skipped when a digit follows. *)
Definition skip_0x (base : Z) (s : bytes) : bytes :=
  match s with
  | b :: x :: d :: t => if (base =? 16) && (b =? 48) && ((x =? 120) || (x =? 88)) && (digit_val d <? 16) then d :: t else s
  | _ => s
  end.
Definition strtol (base : Z) (s : bytes) : Z :=
  let '(sign, s) := skip_sign (skip_space s) in
  Z.max (- 2 ^ 63) (Z.min (2 ^ 63 - 1) (sign * digits base (skip_0x base s) 0)).
(** A number that is not an [int] is undefined behaviour. *)
Definition atoi (s : bytes) : result Z :=
  let v := strtol 10 s in if (- 2 ^ 31 <=? v) && (v <? 2 ^ 31) then Ok v else Err Undefined.

(** ** A line *)

(** The fingerprint, of [n] bytes, and the size of a chunk; the buffer has 256 bytes, of
    which the last is the string's end. *)
Definition trace_line (n : nat) (line : bytes) : result (bytes * Z) :=
  if 256 <=? blen line then Err Undefined else
  let toks := strtok (c_str line) [] in
  item <-- of_option Undefined (toks !! n) ;;
  size <-- atoi item ;;
  Ok (map (fun t => u8 (strtol 16 t)) (take n toks), u32 size).

(** ** The chunk of a line *)

(** The generator: the compression ratio, in tenths, that the normal distribution gives for
    a seed, and the candidate blocks of MAX_CHUNK_SIZE bytes, by ratio. *)
Record CompressGen := mk_compress_gen { distribution : Z -> Z; compressBlockSet_ : Z -> bytes }.

Definition GenerateChunkFromCanditdateSet (g : CompressGen) (chunkBuffer : bytes) (compressionInt chunkSize : Z) : result bytes :=
  let compressionInt := if 30 <? compressionInt then 30 else compressionInt in
  let compressionInt := if compressionInt <? 10 then 10 else compressionInt in
  if (MAX_CHUNK_SIZE <? chunkSize) || (blen chunkBuffer <? chunkSize) then Err Undefined else
  Ok (write chunkBuffer 0 (slice (compressBlockSet_ g compressionInt) 0 chunkSize)).

(** The contents of the chunk: a block that depends on the fingerprint only, begun by the
    fingerprint. *)
Definition trace_chunk (g : CompressGen) (maxChunkSize_ : Z) (fp : bytes) (size : Z) : result bytes :=
  let chunkBuffer_ := replicate (Z.to_nat maxChunkSize_) 0 in
  let size := if maxChunkSize_ <? size then maxChunkSize_ else size in
  let seed := le_val fp in
  chunkBuffer_ <-- GenerateChunkFromCanditdateSet g chunkBuffer_ (distribution g seed) size ;;
  if blen chunkBuffer_ <? blen fp then Err Undefined else
  Ok (slice (write chunkBuffer_ 0 fp) 0 size).

(** [getline]: a line, whether the end of the file was met before the end of the line, and
    what follows. *)
Fixpoint getline (file : bytes) : bytes * bool * bytes :=
  match file with
  | [] => ([], true, [])
  | b :: file => if b =? 10 then ([], false, file) else let '(line, eof, rest) := getline file in (b :: line, eof, rest)
  end.
