(* ===== verification/Chunker.v ===== *)
(** Client/chunker.cc and include/chunker.h: the file is cut into chunks, either by
    content (FastCDC, a gear hash over a sliding window) or at a fixed size, or chunks are
    made up from a trace of fingerprints (Trace.v); the chunks and a recipe end are pushed
    to the queue of the data sender. *)
From Stdlib Require Import ZArith Lia.
From stdpp Require Import base list.
From S2P Require Import Prelude Types Util Trace.

(** ** Data *)

(** FileRecipeHead_t: two 64-bit integers. *)
Record FileRecipeHead_t := mk_head { fileSize : Z; totalChunkNum : Z }.
Definition head_put (h : FileRecipeHead_t) : bytes := le_bytes 8 (fileSize h) ++ le_bytes 8 (totalChunkNum h).
Definition head_get (b : bytes) : FileRecipeHead_t := mk_head (rd64 b 0) (rd64 b 8).

(** Data_t: what the queue between chunker and sender carries. *)
Inductive Data_t := DATA_CHUNK (chunk : bytes) | RECIPE_END (recipeHead : FileRecipeHead_t).

Inductive ChunkerType := FIXED_SIZE_CHUNKING | FAST_CDC | FSL_TRACE | UBC_TRACE.

(** The fields of config.json, and the generator of the trace modes; [cc_readSize] is in
    MiB. *)
Record ChunkerConfig := mk_chunker_config {
  cc_chunkingType : ChunkerType; cc_avgChunkSize : Z; cc_minChunkSize : Z; cc_maxChunkSize : Z; cc_readSize : Z;
  cc_compressGen : CompressGen
}.

Record Chunker := mk_chunker {
  chunkerType_ : ChunkerType;
  avgChunkSize_ : Z; minChunkSize_ : Z; maxChunkSize_ : Z;
  readSize_ : Z;
  normalSize_ : Z; maskS_ : Z; maskL_ : Z;
  compressGenObj_ : CompressGen
}.

(** 256 random integers. *)
Definition GEAR_TABLE : list Z := [
  0x5C95C078; 0x22408989; 0x2D48A214; 0x12842087; 0x530F8AFB; 0x474536B9; 0x2963B4F1; 0x44CB738B;
  0x4EA7403D; 0x4D606B6E; 0x074EC5D3; 0x3AF39D18; 0x726003CA; 0x37A62A74; 0x51A2F58E; 0x7506358E;
  0x5D4AB128; 0x4D4AE17B; 0x41E85924; 0x470C36F7; 0x4741CBE1; 0x01BB7F30; 0x617C1DE3; 0x2B0C3A1F;
  0x50C48F73; 0x21A82D37; 0x6095ACE0; 0x419167A0; 0x3CAF49B0; 0x40CEA62D; 0x66BC1C66; 0x545E1DAD;
  0x2BFA77CD; 0x6E85DA24; 0x5FB0BDC5; 0x652CFC29; 0x3A0AE1AB; 0x2837E0F3; 0x6387B70E; 0x13176012;
  0x4362C2BB; 0x66D8F4B1; 0x37FCE834; 0x2C9CD386; 0x21144296; 0x627268A8; 0x650DF537; 0x2805D579;
  0x3B21EBBD; 0x7357ED34; 0x3F58B583; 0x7150DDCA; 0x7362225E; 0x620A6070; 0x2C5EF529; 0x7B522466;
  0x768B78C0; 0x4B54E51E; 0x75FA07E5; 0x06A35FC6; 0x30B71024; 0x1C8626E1; 0x296AD578; 0x28D7BE2E;
  0x1490A05A; 0x7CEE43BD; 0x698B56E3; 0x09DC0126; 0x4ED6DF6E; 0x02C1BFC7; 0x2A59AD53; 0x29C0E434;
  0x7D6C5278; 0x507940A7; 0x5EF6BA93; 0x68B6AF1E; 0x46537276; 0x611BC766; 0x155C587D; 0x301BA847;
  0x2CC9DDA7; 0x0A438E2C; 0x0A69D514; 0x744C72D3; 0x4F326B9B; 0x7EF34286; 0x4A0EF8A7; 0x6AE06EBE;
  0x669C5372; 0x12402DCB; 0x5FEAE99D; 0x76C7F4A7; 0x6ABDB79C; 0x0DFAA038; 0x20E2282C; 0x730ED48B;
  0x069DAC2F; 0x168ECF3E; 0x2610E61F; 0x2C512C8E; 0x15FB8C06; 0x5E62BC76; 0x69555135; 0x0ADB864C;
  0x4268F914; 0x349AB3AA; 0x20EDFDB2; 0x51727981; 0x37B4B3D8; 0x5DD17522; 0x6B2CBFE4; 0x5C47CF9F;
  0x30FA1CCD; 0x23DEDB56; 0x13D1F50A; 0x64EDDEE7; 0x0820B0F7; 0x46E07308; 0x1E2D1DFD; 0x17B06C32;
  0x250036D8; 0x284DBF34; 0x68292EE0; 0x362EC87C; 0x087CB1EB; 0x76B46720; 0x104130DB; 0x71966387;
  0x482DC43F; 0x2388EF25; 0x524144E1; 0x44BD834E; 0x448E7DA3; 0x3FA6EAF9; 0x3CDA215C; 0x3A500CF3;
  0x395CB432; 0x5195129F; 0x43945F87; 0x51862CA4; 0x56EA8FF1; 0x201034DC; 0x4D328FF5; 0x7D73A909;
  0x6234D379; 0x64CFBF9C; 0x36F6589A; 0x0A2CE98A; 0x5FE4D971; 0x03BC15C5; 0x44021D33; 0x16C1932B;
  0x37503614; 0x1ACAF69D; 0x3F03B779; 0x49E61A03; 0x1F52D7EA; 0x1C6DDD5C; 0x062218CE; 0x07E7A11A;
  0x1905757A; 0x7CE00A53; 0x49F44F29; 0x4BCC70B5; 0x39FEEA55; 0x5242CEE8; 0x3CE56B85; 0x00B81672;
  0x46BEECCC; 0x3CA0AD56; 0x2396CEE8; 0x78547F40; 0x6B08089B; 0x66A56751; 0x781E7E46; 0x1E2CF856;
  0x3BC13591; 0x494A4202; 0x520494D7; 0x2D87459A; 0x757555B6; 0x42284CC1; 0x1F478507; 0x75C95DFF;
  0x35FF8DD7; 0x4E4757ED; 0x2E11F88C; 0x5E1B5048; 0x420E6699; 0x226B0695; 0x4D1679B4; 0x5A22646F;
  0x161D1131; 0x125C68D9; 0x1313E32E; 0x4AA85724; 0x21DC7EC1; 0x4FFA29FE; 0x72968382; 0x1CA8EEF3;
  0x3F3B1C28; 0x39C2FB6C; 0x6D76493F; 0x7A22A62E; 0x789B1C2A; 0x16E0CB53; 0x7DECEEEB; 0x0DC7E1C6;
  0x5C75BF3D; 0x52218333; 0x106DE4D6; 0x7DC64422; 0x65590FF4; 0x2C02EC30; 0x64A9AC67; 0x59CAB2E9;
  0x4A21D2F3; 0x0F616E57; 0x23B54EE8; 0x02730AAA; 0x2F3C634D; 0x7117FC6C; 0x01AC6F05; 0x5A9ED20C;
  0x158C4E2A; 0x42B699F0; 0x0C7C14B3; 0x02BD9641; 0x15AD56FC; 0x1C722F60; 0x7DA1AF91; 0x23E0DBCB;
  0x0E93E12B; 0x64B2791D; 0x440D2476; 0x588EA8DD; 0x4665A658; 0x7446C418; 0x1877A774; 0x5626407E;
  0x7F63BD46; 0x32D2DBD8; 0x3C790F4A; 0x772B7239; 0x6F8B2826; 0x677FF609; 0x0DC82C11; 0x23FFE354;
  0x2EAC53A6; 0x16139E09; 0x0AFD0DBC; 0x2A4D4237; 0x56A368C7; 0x234325E4; 0x2DCE9187; 0x32E8EA7E].

(** ** Parameters *)

(** Sums and differences in 32 bits. *)
Definition CalNormalSize (min av max : Z) : Z :=
  let off := min +32 DivCeil min 2 in
  let off := if av <? off then av else off in
  let diff := av -32 off in
  if max <? diff then max else diff.

(** [1 << 31] does not fit an [int]. *)
Definition GenerateFastCDCMask (bits : Z) : result Z :=
  let n := CompareLimit bits 1 31 in
  if n =? 31 then Err Undefined else Ok (u32 (Z.shiftl 1 n - 1)).

(** [round (log2 avg)]: [log2 avg] is above [k + 1/2] when the square of [avg] is above
    [2 ^ (2 * k + 1)]; they are never equal. *)
Definition round_log2 (avg : Z) : Z :=
  let k := Z.log2 avg in if avg * avg <? 2 ^ (2 * k + 1) then k else k + 1.

Definition ChunkerInit (cfg : ChunkerConfig) : result Chunker :=
  let avg := cc_avgChunkSize cfg in let mn := cc_minChunkSize cfg in let mx := cc_maxChunkSize cfg in
  let readSize := cc_readSize cfg *64 (1024 * 1024) in
  let g := cc_compressGen cfg in
  match cc_chunkingType cfg with
  | FSL_TRACE => Ok (mk_chunker FSL_TRACE avg mn mx readSize 0 0 0 g)
  | UBC_TRACE => Ok (mk_chunker UBC_TRACE avg mn mx readSize 0 0 0 g)
  | ty =>
  if (avg <=? mn) || (mx <=? mn) then Err ExitError else
  if (mx <=? avg) || (mx <=? mn) then Err ExitError else
  match ty with
  | FAST_CDC =>
    let bits := round_log2 avg in
    s <-- GenerateFastCDCMask (bits +32 1) ;;
    l <-- GenerateFastCDCMask (bits -32 1) ;;
    Ok (mk_chunker FAST_CDC avg mn mx readSize (CalNormalSize (u32 mn) (u32 avg) (u32 mx)) s l g)
  | _ => Ok (mk_chunker FIXED_SIZE_CHUNKING avg mn mx readSize 0 0 0 g)
  end end.

(** ** A cut point *)

(** [for (; i < n; i++)]: [turns] is [n - i].  The cut, if the masked hash is zero
    somewhere; else where the loop stopped and the hash it ended with. *)
Fixpoint cut_loop (mask : Z) (src : bytes) (turns : nat) (i fp : Z) : option Z * Z * Z :=
  match turns with
  | O => (None, i, fp)
  | S turns =>
    let fp := Z.shiftr fp 1 +32 rd GEAR_TABLE (rd src i) in
    if Z.land fp mask =? 0 then (Some (i +32 1), i, fp) else cut_loop mask src turns (i +32 1) fp
  end.

Section chunker.
Variable c : Chunker.

Definition CutPoint (src : bytes) (len : Z) : Z :=
  let i := Z.min len (u32 (minChunkSize_ c)) in
  let n := Z.min (normalSize_ c) len in
  match cut_loop (maskS_ c) src (Z.to_nat (n - i)) i 0 with
  | (Some cp, _, _) => cp
  | (None, i, fp) =>
    let n := Z.min (u32 (maxChunkSize_ c)) len in
    match cut_loop (maskL_ c) src (Z.to_nat (n - i)) i fp with
    | (Some cp, _, _) => cp
    | (None, i, _) => i
    end
  end.

(** ** Chunking a file *)

(** What has been pushed, and the counts for the recipe head. *)
Record Progress := mk_progress { pushed : list Data_t; p_fileSize : Z; chunkIDCnt : Z }.
Definition no_progress : Progress := mk_progress [] 0 0.

(** A chunk is copied into a Data_t, whose array has MAX_CHUNK_SIZE bytes. *)
Definition push_chunk (chunk : bytes) (size : Z) (p : Progress) : result Progress :=
  if MAX_CHUNK_SIZE <? blen chunk then Err Undefined else
  Ok (mk_progress (pushed p ++ [DATA_CHUNK chunk]) (p_fileSize p +64 size) (chunkIDCnt p +64 1)).
Definition push_end (p : Progress) : list Data_t :=
  pushed p ++ [RECIPE_END (mk_head (p_fileSize p) (chunkIDCnt p))].

(** [chunkingFile_.read]: at most a buffer from [pos] on, and whether the end of the file
    was met. *)
Definition read_chunk_file (file : bytes) (pos : Z) : bytes * bool :=
  let buf := slice file pos (readSize_ c) in (buf, blen buf <? readSize_ c).

(** The chunks of one buffer, up to a tail that may go on in the next one. *)
Fixpoint cdc_buffer (fuel : nat) (buf : bytes) (last : bool) (localOffset : Z) (p : Progress) : result (Z * Progress) :=
  match fuel with
  | O => Err Fuel
  | S fuel =>
    let rest := blen buf -64 localOffset in
    if (maxChunkSize_ c <=? rest) || (last && (localOffset <? blen buf)) then
      let cp := CutPoint (drop (Z.to_nat localOffset) buf) (u32 rest) in
      p <-- push_chunk (slice buf localOffset cp) cp p ;;
      cdc_buffer fuel buf last (localOffset + cp) p
    else Ok (localOffset, p)
  end.

(** The next buffer is read from the end of the last chunk on. *)
Fixpoint cdc_file (fuel : nat) (file : bytes) (totalOffset : Z) (p : Progress) : result Progress :=
  match fuel with
  | O => Err Fuel
  | S fuel =>
    let '(buf, last) := read_chunk_file file totalOffset in
    if blen buf =? 0 then Ok p else
    x <-- cdc_buffer (S (length buf)) buf last 0 p ;;
    let totalOffset := totalOffset + fst x in
    if last then Ok (snd x) else cdc_file fuel file totalOffset (snd x)
  end.
Definition FastCDC (fuel : nat) (file : bytes) : result (list Data_t) :=
  p <-- cdc_file fuel file 0 no_progress ;; Ok (push_end p).

(** The chunks of one buffer, all of it. *)
Fixpoint fixed_buffer (fuel : nat) (buf : bytes) (chunkedSize remainSize : Z) (p : Progress) : result Progress :=
  match fuel with
  | O => Err Fuel
  | S fuel =>
    if chunkedSize <? blen buf then
      let n := if avgChunkSize_ c <? remainSize then avgChunkSize_ c else remainSize in
      p <-- push_chunk (slice buf chunkedSize n) 0 p ;;
      fixed_buffer fuel buf (chunkedSize + n) (remainSize -64 n) p
    else Ok p
  end.
(** The file size is counted by buffers. *)
Fixpoint fixed_file (fuel : nat) (file : bytes) (pos : Z) (p : Progress) : result Progress :=
  match fuel with
  | O => Err Fuel
  | S fuel =>
    let '(buf, last) := read_chunk_file file pos in
    if blen buf =? 0 then Ok p else
    let p := mk_progress (pushed p) (p_fileSize p +64 blen buf) (chunkIDCnt p) in
    p <-- fixed_buffer (S (length buf)) buf 0 (blen buf) p ;;
    if last then Ok p else fixed_file fuel file (pos + blen buf) p
  end.
Definition fixSizeChunking (fuel : nat) (file : bytes) : result (list Data_t) :=
  p <-- fixed_file fuel file 0 no_progress ;; Ok (push_end p).

(** [FSLChunking] and [UBCChunking], with fingerprints of [n] bytes; the first clears
    MAX_CHUNK_SIZE bytes of its buffer after each chunk. *)
Fixpoint trace_file (fuel n : nat) (file : bytes) (p : Progress) : result Progress :=
  match fuel with
  | O => Err Fuel
  | S fuel =>
    let '(line, eof, rest) := getline file in
    if blen line =? 0 then Ok p else
    if eof then Ok p else
    x <-- trace_line n line ;;
    chunk <-- trace_chunk (compressGenObj_ c) (maxChunkSize_ c) (fst x) (snd x) ;;
    p <-- push_chunk chunk (blen chunk) p ;;
    if (n =? 6)%nat && (maxChunkSize_ c <? MAX_CHUNK_SIZE) then Err Undefined else
    trace_file fuel n rest p
  end.
Definition FSLChunking (fuel : nat) (file : bytes) : result (list Data_t) := p <-- trace_file fuel 6 file no_progress ;; Ok (push_end p).
Definition UBCChunking (fuel : nat) (file : bytes) : result (list Data_t) := p <-- trace_file fuel 5 file no_progress ;; Ok (push_end p).

Definition Chunking (fuel : nat) (file : bytes) : result (list Data_t) :=
  match chunkerType_ c with
  | FIXED_SIZE_CHUNKING => fixSizeChunking fuel file
  | FAST_CDC => FastCDC fuel file
  | FSL_TRACE => FSLChunking fuel file
  | UBC_TRACE => UBCChunking fuel file
  end.
End chunker.
