(* ===== verification/ChunkerCorrect.v ===== *)
(** The chunker (Chunker.v) against a reference that cuts the whole file at once: the
    buffer the file is read through does not show in the chunks; the chunks are the file,
    of the sizes the parameters say; both chunkers end. *)
From Stdlib Require Import ZArith Lia.
From stdpp Require Import base list.
From S2P Require Import Prelude Types Util Trace Chunker.

(** Parameters a chunker can work with. *)
Record chunker_ok (c : Chunker) : Prop := {
  ck_min : 0 <= minChunkSize_ c;
  ck_avg : minChunkSize_ c < avgChunkSize_ c < maxChunkSize_ c;
  ck_max : maxChunkSize_ c <= MAX_CHUNK_SIZE;
  ck_read : maxChunkSize_ c <= readSize_ c < 2 ^ 32;
  ck_normal : normalSize_ c <= maxChunkSize_ c
}.

Lemma head_get_put h : 0 <= fileSize h < 2 ^ 64 -> 0 <= totalChunkNum h < 2 ^ 64 -> head_get (head_put h) = h.
Proof.
  destruct h as [s n]. intros Hs Hn. cbn [fileSize totalChunkNum] in *. unfold head_get, head_put, rd64. cbn [fileSize totalChunkNum].
  rewrite slice_app_l by (rewrite ?blen_le_bytes; lia). rewrite slice_app_r by (rewrite ?blen_le_bytes; lia).
  rewrite blen_le_bytes. change (8 - Z.of_nat 8) with 0.
  assert (F : forall z, slice (le_bytes 8 z) 0 8 = le_bytes 8 z).
  { intros z. replace 8 with (blen (le_bytes 8 z)) at 2 by by rewrite blen_le_bytes. apply slice_full. }
  rewrite !F, !le_val_le_bytes; [done| |]; change (256 ^ Z.of_nat 8) with (2 ^ 64); lia.
Qed.
Lemma blen_head_put h : blen (head_put h) = 16.
Proof. unfold head_put. by rewrite blen_app, !blen_le_bytes. Qed.

(** ** One cut *)

Lemma cut_loop_range mask src turns i fp : 0 <= i -> i + Z.of_nat turns < 2 ^ 32 ->
  match cut_loop mask src turns i fp with
  | (Some cp, _, _) => i < cp <= i + Z.of_nat turns
  | (None, j, _) => j = i + Z.of_nat turns
  end.
Proof.
  revert i fp. induction turns as [|turns IH]; intros i fp Hi Ht; cbn [cut_loop]; [lia|].
  unwrap. case_if; [lia|]. specialize (IH (i + 1) (u32 (Z.shiftr fp 1 + rd GEAR_TABLE (rd src i)))).
  destruct cut_loop as [[[cp|] j] fp']; lia.
Qed.
Lemma cut_loop_ext mask src src' turns i fp : 0 <= i -> i + Z.of_nat turns < 2 ^ 32 ->
  (forall j, i <= j < i + Z.of_nat turns -> rd src j = rd src' j) ->
  cut_loop mask src turns i fp = cut_loop mask src' turns i fp.
Proof.
  revert i fp. induction turns as [|turns IH]; intros i fp Hi Ht Ex; cbn [cut_loop]; [done|].
  rewrite (Ex i) by lia. unwrap. case_if; [done|]. apply IH; [lia|lia|]. intros. apply Ex. lia.
Qed.

Section chunker.
Variable c : Chunker.
Hypothesis Hc : chunker_ok c.
Abbreviation mn := (minChunkSize_ c).
Abbreviation mx := (maxChunkSize_ c).

Lemma sizes_small : u32 mn = mn /\ u32 mx = mx /\ mx < 2 ^ 32 /\ 0 < mx.
Proof. destruct Hc as [? ? ? ? ?]. unfold MAX_CHUNK_SIZE in *. rewrite !u32_id by lia. lia. Qed.

(** The cut is at least the minimum, or all there is. *)
Lemma CutPoint_range src len : 1 <= len < 2 ^ 32 ->
  Z.min len mn <= CutPoint c src len <= Z.min mx len /\ 1 <= CutPoint c src len.
Proof.
  intros Hl. destruct sizes_small as (Emn & Emx & Hx & Hp). pose proof (ck_min _ Hc). pose proof (ck_avg _ Hc). pose proof (ck_normal _ Hc). unfold CutPoint.
  rewrite Emn, Emx.
  pose proof (cut_loop_range (maskS_ c) src (Z.to_nat (Z.min (normalSize_ c) len - Z.min len mn)) (Z.min len mn) 0 ltac:(lia) ltac:(lia)) as R.
  destruct cut_loop as [[[cp|] i] fp]; [lia|].
  pose proof (cut_loop_range (maskL_ c) src (Z.to_nat (Z.min mx len - i)) i fp ltac:(lia) ltac:(lia)) as R'.
  destruct cut_loop as [[[cp|] j] fp']; lia.
Qed.
(** It looks at no more than the maximum. *)
Lemma CutPoint_ext src src' len : 0 <= len < 2 ^ 32 ->
  (forall j, 0 <= j < Z.min mx len -> rd src j = rd src' j) -> CutPoint c src len = CutPoint c src' (Z.min mx len).
Proof.
  intros Hl Ex. destruct sizes_small as (Emn & Emx & Hx & Hp). pose proof (ck_min _ Hc). pose proof (ck_avg _ Hc). pose proof (ck_normal _ Hc). unfold CutPoint.
  rewrite Emn, Emx. replace (Z.min (Z.min mx len) mn) with (Z.min len mn) by lia.
  replace (Z.min (normalSize_ c) (Z.min mx len)) with (Z.min (normalSize_ c) len) by lia.
  replace (Z.min mx (Z.min mx len)) with (Z.min mx len) by lia.
  rewrite (cut_loop_ext _ src src') by (try (intros; apply Ex); lia).
  pose proof (cut_loop_range (maskS_ c) src' (Z.to_nat (Z.min (normalSize_ c) len - Z.min len mn)) (Z.min len mn) 0 ltac:(lia) ltac:(lia)) as R.
  destruct cut_loop as [[[cp|] i] fp]; [done|].
  rewrite (cut_loop_ext _ src src') by (try (intros; apply Ex); lia). done.
Qed.

(** ** The reference: a file in memory, cut from the front *)

Definition cut (file : bytes) : Z := CutPoint c file (Z.min mx (blen file)).
Fixpoint chunks_fuel (fuel : nat) (file : bytes) : list bytes :=
  match fuel with
  | O => []
  | S fuel => if blen file =? 0 then [] else slice file 0 (cut file) :: chunks_fuel fuel (drop (Z.to_nat (cut file)) file)
  end.
Definition chunks_of (file : bytes) : list bytes := chunks_fuel (length file) file.

Lemma cut_range file : 1 <= blen file -> Z.min (blen file) mn <= cut file <= Z.min mx (blen file) /\ 1 <= cut file.
Proof.
  intros Hf. destruct sizes_small as (_ & _ & Hx & Hp). pose proof (ck_avg _ Hc).
  pose proof (CutPoint_range file (Z.min mx (blen file)) ltac:(lia)). unfold cut. lia.
Qed.
Lemma chunks_fuel_enough fuel fuel' file : (length file <= fuel)%nat -> (length file <= fuel')%nat -> chunks_fuel fuel file = chunks_fuel fuel' file.
Proof.
  revert fuel' file. induction fuel as [|fuel IH]; intros [|fuel'] file L L'; cbn [chunks_fuel]; try done.
  - unfold blen. by replace (length file) with 0%nat by lia.
  - unfold blen. by replace (length file) with 0%nat by lia.
  - case_if; [done|]. f_equal. pose proof (cut_range file) as R. unfold blen in *. apply IH; rewrite length_drop; lia.
Qed.
Lemma chunks_of_nil : chunks_of [] = [].
Proof. done. Qed.
Lemma chunks_of_cons file : 1 <= blen file -> chunks_of file = slice file 0 (cut file) :: chunks_of (drop (Z.to_nat (cut file)) file).
Proof.
  intros Hf. unfold chunks_of at 1. pose proof (cut_range file Hf) as R. destruct (length file) as [|n] eqn:El; [unfold blen in *; lia|].
  cbn [chunks_fuel]. case_if; [lia|]. f_equal. apply chunks_fuel_enough; rewrite length_drop; unfold blen in *; lia.
Qed.

Lemma drop_ind (P : bytes -> Prop) : P [] -> (forall file, 1 <= blen file -> P (drop (Z.to_nat (cut file)) file) -> P file) -> forall file, P file.
Proof.
  intros P0 PS file. remember (length file) as n eqn:En. revert file En. induction n as [n IH] using lt_wf_ind. intros file ->.
  destruct file as [|b file]; [done|]. assert (Hf : 1 <= blen (b :: file)) by (rewrite blen_cons; pose proof (blen_nonneg file); lia).
  pose proof (cut_range _ Hf). apply PS; [done|]. eapply IH; [|reflexivity]. rewrite length_drop. cbn [length] in *. lia.
Qed.

Lemma chunks_of_concat file : concat (chunks_of file) = file.
Proof.
  induction file as [|file Hf IH] using drop_ind; [done|]. rewrite chunks_of_cons by done. cbn [concat]. rewrite IH. apply take_drop.
Qed.
(** Every chunk is at most the maximum, and every one but the last at least the minimum. *)
Lemma chunks_of_sizes file : Forall (fun x => 1 <= blen x <= mx) (chunks_of file) /\ Forall (fun x => mn <= blen x) (removelast (chunks_of file)).
Proof.
  induction file as [|file Hf IH] using drop_ind; [split; constructor|]. rewrite chunks_of_cons by done.
  pose proof (cut_range file Hf) as R. assert (L : blen (slice file 0 (cut file)) = cut file) by (apply blen_slice; lia).
  destruct IH as [IH1 IH2]. split; [constructor; [lia|done]|]. cbn [removelast].
  destruct (chunks_of (drop _ file)) as [|y ys] eqn:Ey; constructor; [|done]. rewrite L.
  destruct (Z.eq_dec (cut file) (blen file)) as [Ec|]; [|lia]. exfalso.
  rewrite drop_ge in Ey; [by rewrite chunks_of_nil in Ey|]. unfold blen in *. lia.
Qed.

(** ** What is pushed *)

(** The chunks [cs] are pushed, [n] bytes counted. *)
Definition progress (cs : list bytes) (n : Z) : Progress := mk_progress (map DATA_CHUNK cs) (u64 n) (u64 (blen cs)).
Definition to_push (file : bytes) (cs : list bytes) : list Data_t :=
  map DATA_CHUNK cs ++ [RECIPE_END (mk_head (u64 (blen file)) (u64 (blen cs)))].

Lemma push_progress x n cs m : blen x <= MAX_CHUNK_SIZE -> push_chunk x n (progress cs m) = Ok (progress (cs ++ [x]) (m + n)).
Proof.
  intros Hx. unfold push_chunk. rewrite (proj2 (Z.ltb_ge _ _)) by lia. unfold progress. cbn [pushed p_fileSize chunkIDCnt].
  rewrite map_app, blen_app. unfold u64. by rewrite !Zplus_mod_idemp_l.
Qed.
Lemma push_progress_end file cs : push_end (progress cs (blen file)) = to_push file cs.
Proof. done. Qed.

(** What a read gives: all that is left of the file, or a full buffer of it. *)
Lemma read_chunk_file_spec file pos : 0 <= pos <= blen file -> let '(buf, last) := read_chunk_file c file pos in
  buf = slice file pos (blen buf) /\ 0 <= blen buf <= readSize_ c /\ pos + blen buf <= blen file /\
  (if last then pos + blen buf = blen file else blen buf = readSize_ c).
Proof.
  intros Hp. unfold read_chunk_file. destruct sizes_small as (_ & _ & Hx & Hx0). pose proof (ck_read _ Hc). pose proof (ck_avg _ Hc).
  assert (L : blen (slice file pos (readSize_ c)) = Z.min (readSize_ c) (blen file - pos)).
  { unfold blen, slice. rewrite length_take, length_drop. unfold blen in *. lia. }
  rewrite L. split; [|case_if; lia]. unfold slice. destruct (Z.le_gt_cases (readSize_ c) (blen file - pos)) as [Hr|Hr]; [by rewrite Z.min_l|].
  rewrite Z.min_r, !take_ge by (try rewrite length_drop; unfold blen in *; lia). done.
Qed.

Lemma rd_slice (l : bytes) off n j : 0 <= off -> 0 <= j < n -> rd (slice l off n) j = rd (drop (Z.to_nat off) l) j.
Proof. intros Ho Hj. unfold rd, slice. rewrite !nth_lookup, lookup_take_lt by lia. done. Qed.
Lemma drop_slice {A} (l : list A) off n m : 0 <= off -> 0 <= m <= n -> drop (Z.to_nat m) (slice l off n) = slice l (off + m) (n - m).
Proof. intros. unfold slice. rewrite skipn_firstn_comm, drop_drop. f_equal; [lia|f_equal; lia]. Qed.
Lemma drop_drop_Z {A} (l : list A) a b : 0 <= a -> 0 <= b -> drop (Z.to_nat b) (drop (Z.to_nat a) l) = drop (Z.to_nat (a + b)) l.
Proof. intros. rewrite drop_drop. f_equal. lia. Qed.

(** The loop over a buffer that starts at [pos] cuts as the reference does, and stops
    where less than a maximal chunk is left, or at the end of the file. *)
Lemma cdc_buffer_ok file pos n (last : bool) fuel lo cs :
  0 <= pos -> 0 <= n < 2 ^ 32 -> pos + n <= blen file -> (last = true -> pos + n = blen file) ->
  0 <= lo <= n -> n - lo < Z.of_nat fuel ->
  exists lo' new, cdc_buffer c fuel (slice file pos n) last lo (progress cs (blen (concat cs))) = Ok (lo', progress (cs ++ new) (blen (concat (cs ++ new)))) /\
    lo <= lo' <= n /\ chunks_of (drop (Z.to_nat (pos + lo)) file) = new ++ chunks_of (drop (Z.to_nat (pos + lo')) file) /\
    (if last then lo' = n else lo + mx <= n -> lo < lo').
Proof.
  intros Hp Hn Hf Hl. revert lo cs. induction fuel as [|fuel IH]; intros lo cs Hlo Hfu; [lia|]. cbn [cdc_buffer].
  pose proof sizes_small as (_ & _ & Hx & Hx0). pose proof (ck_avg _ Hc). pose proof (ck_min _ Hc). pose proof (ck_max _ Hc).
  assert (Lb : blen (slice file pos n) = n) by (apply blen_slice; lia). rewrite Lb. unfold u64, u32. rewrite !Z.mod_small by (try rewrite Z.mod_small by lia; lia).
  destruct ((mx <=? n - lo) || (last && (lo <? n))) eqn:Eg; cycle 1.
  { boolz. exists lo, []. rewrite app_nil_r. split; [done|]. split; [lia|]. split; [done|]. destruct last; cbn [andb] in *; boolz; lia. }
  set (F := drop (Z.to_nat (pos + lo)) file).
  assert (LF : blen F = blen file - (pos + lo)) by (unfold F, blen in *; rewrite length_drop; lia).
  assert (Hc1 : 1 <= n - lo /\ (mx <= n - lo \/ last = true)) by (apply orb_true_iff in Eg as [G|G]; boolz; lia || (split; [lia|by right])).
  assert (Ecut : CutPoint c (drop (Z.to_nat lo) (slice file pos n)) (n - lo) = cut F).
  { unfold cut. rewrite (CutPoint_ext _ F) by
      (try (intros j Hj; rewrite drop_slice, rd_slice by lia; done); lia).
    f_equal. destruct Hc1 as [? [?|El]]; [lia|]. specialize (Hl El). lia. }
  rewrite Ecut. pose proof (cut_range F ltac:(lia)) as R.
  assert (Rn : cut F <= n - lo) by (destruct Hc1 as [? [?|El]]; [lia|]; specialize (Hl El); lia).
  assert (Es : slice (slice file pos n) lo (cut F) = slice F 0 (cut F)).
  { rewrite slice_slice by lia. unfold slice, F. f_equal. }
  rewrite Es, push_progress by (rewrite blen_slice; lia). cbn [rbind].
  replace (blen (concat cs) + cut F) with (blen (concat (cs ++ [slice F 0 (cut F)]))).
  2: { rewrite concat_app, blen_app. cbn [concat]. rewrite app_nil_r, (blen_slice F 0) by lia. done. }
  destruct (IH (lo + cut F) (cs ++ [slice F 0 (cut F)]) ltac:(lia) ltac:(lia)) as (lo' & new & E & Hlo' & Ech & Hend).
  exists lo', (slice F 0 (cut F) :: new). rewrite E, <- app_assoc. split; [done|]. split; [lia|]. split.
  - fold F. rewrite (chunks_of_cons F) by lia. cbn [app]. f_equal. rewrite <- Ech, Z.add_assoc. unfold F at 2. by rewrite drop_drop_Z by lia.
  - destruct last; lia.
Qed.

Lemma cdc_file_ok file fuel pos cs : 0 <= pos <= blen file -> blen file - pos + 1 < Z.of_nat fuel ->
  cdc_file c fuel file pos (progress cs (blen (concat cs))) =
    Ok (progress (cs ++ chunks_of (drop (Z.to_nat pos) file)) (blen (concat (cs ++ chunks_of (drop (Z.to_nat pos) file))))).
Proof.
  revert pos cs. induction fuel as [|fuel IH]; intros pos cs Hp Hf; [lia|]. cbn [cdc_file].
  pose proof (read_chunk_file_spec file pos Hp) as R. destruct (read_chunk_file c file pos) as [buf last]. destruct R as (Eb & Lb0 & Lb & Hl).
  pose proof sizes_small as (_ & _ & Hx & Hx0). pose proof (ck_read _ Hc).
  case_if.
  { assert (last = true) as -> by (destruct last; [done|lia]). rewrite drop_ge by (unfold blen in *; lia). by rewrite chunks_of_nil, app_nil_r. }
  rewrite Eb at 2. destruct (cdc_buffer_ok file pos (blen buf) last (S (length buf)) 0 cs) as (lo & new & E' & Hlo & Ech & Hend);
    [lia|lia|lia|by destruct last|lia|unfold blen; lia|].
  rewrite E'. cbn [rbind fst snd]. rewrite Z.add_0_r in Ech. rewrite Ech, app_assoc. destruct last.
  - rewrite (drop_ge file) by (unfold blen in *; lia). by rewrite chunks_of_nil, app_nil_r.
  - apply IH; lia.
Qed.

(** ** Fixed size *)

(** The reference for one buffer. *)
Fixpoint fixed_fuel (fuel : nat) (buf : bytes) : list bytes :=
  match fuel with
  | O => []
  | S fuel => if blen buf =? 0 then [] else
      slice buf 0 (Z.min (avgChunkSize_ c) (blen buf)) :: fixed_fuel fuel (drop (Z.to_nat (avgChunkSize_ c)) buf)
  end.
Abbreviation av := (avgChunkSize_ c).
Lemma fixed_fuel_concat fuel buf : (length buf <= fuel)%nat -> concat (fixed_fuel fuel buf) = buf.
Proof.
  pose proof (ck_avg _ Hc). pose proof (ck_min _ Hc). revert buf. induction fuel as [|fuel IH]; intros buf L; cbn [fixed_fuel].
  - by destruct buf; [|cbn in L; lia].
  - case_if; [symmetry; apply nil_length_inv; unfold blen in *; lia|]. pose proof (blen_nonneg buf). cbn [concat].
    rewrite IH by (rewrite length_drop; unfold blen in *; lia).
    rewrite slice_0. destruct (Z.le_gt_cases av (blen buf)); [rewrite Z.min_l by done; apply take_drop|].
    rewrite Z.min_r by lia. unfold blen in *. rewrite Nat2Z.id, firstn_all. rewrite (drop_ge buf) by lia. apply app_nil_r.
Qed.
Lemma fixed_fuel_sizes fuel buf : (length buf <= fuel)%nat ->
  Forall (fun x => 1 <= blen x <= av) (fixed_fuel fuel buf) /\ Forall (fun x => blen x = av) (removelast (fixed_fuel fuel buf)).
Proof.
  pose proof (ck_avg _ Hc). pose proof (ck_min _ Hc). revert buf. induction fuel as [|fuel IH]; intros buf L; cbn [fixed_fuel]; [split; constructor|].
  case_if; [split; constructor|]. pose proof (blen_nonneg buf). destruct (IH (drop (Z.to_nat av) buf)) as [F1 F2]; [rewrite length_drop; unfold blen in *; lia|].
  assert (Ls : blen (slice buf 0 (Z.min av (blen buf))) = Z.min av (blen buf)) by (apply blen_slice; lia).
  split; [constructor; [lia|done]|]. cbn [removelast]. destruct (fixed_fuel fuel _) as [|y ys] eqn:Ey; constructor; [|done].
  rewrite Ls. apply Z.min_l. destruct (Z.le_gt_cases av (blen buf)); [done|]. exfalso. rewrite drop_ge in Ey by (unfold blen in *; lia).
  by destruct fuel.
Qed.

Lemma fixed_buffer_ok buf cs m fuel fuel' k : blen buf < 2 ^ 32 -> 0 <= k <= blen buf -> blen buf - k < Z.of_nat fuel -> (length buf - Z.to_nat k <= fuel')%nat ->
  fixed_buffer c fuel buf k (blen buf - k) (progress cs m) = Ok (progress (cs ++ fixed_fuel fuel' (drop (Z.to_nat k) buf)) m).
Proof.
  intros Hb. pose proof (ck_avg _ Hc). pose proof (ck_min _ Hc). pose proof (ck_max _ Hc). revert cs fuel' k. induction fuel as [|fuel IH]; intros cs fuel' k Hk Hf Hf'; [lia|].
  assert (Ld : blen (drop (Z.to_nat k) buf) = blen buf - k) by (unfold blen in *; rewrite length_drop; lia). cbn [fixed_buffer]. case_if.
  - destruct fuel' as [|fuel']; [unfold blen in *; lia|]. cbn [fixed_fuel]. rewrite Ld. destruct (blen buf - k =? 0) eqn:E0; boolz; [lia|].
    set (n := if av <? blen buf - k then av else blen buf - k). assert (En : n = Z.min av (blen buf - k)) by (unfold n; case_if; lia).
    rewrite push_progress by (rewrite blen_slice; lia). cbn [rbind]. rewrite Z.add_0_r. unwrap.
    replace (blen buf - k - n) with (blen buf - (k + n)) by lia. rewrite (IH _ fuel') by lia. rewrite <- app_assoc. cbn [app].
    replace (slice (drop (Z.to_nat k) buf) 0 (Z.min av (blen buf - k))) with (slice buf k n) by (by rewrite En).
    do 4 f_equal. rewrite <- drop_drop_Z by lia. destruct (Z.le_gt_cases av (blen buf - k)); [do 2 f_equal; lia|].
    by rewrite !drop_ge by (rewrite length_drop; unfold blen in *; lia).
  - assert (k = blen buf) as -> by lia. rewrite drop_ge by (unfold blen; lia). by destruct fuel'; rewrite app_nil_r.
Qed.

(** Buffer by buffer: a buffer's tail is a chunk of its own. *)
Lemma fixed_file_ok file fuel pos cs : 0 <= pos <= blen file -> blen file - pos + 1 < Z.of_nat fuel -> concat cs = take (Z.to_nat pos) file ->
  Forall (fun x => 1 <= blen x <= av) cs ->
  exists cs', fixed_file c fuel file pos (progress cs pos) = Ok (progress cs' (blen file)) /\ concat cs' = file /\ Forall (fun x => 1 <= blen x <= av) cs'.
Proof.
  revert pos cs. induction fuel as [|fuel IH]; intros pos cs Hp Hf Cc Fc; [lia|]. cbn [fixed_file].
  pose proof (read_chunk_file_spec file pos Hp) as R. destruct (read_chunk_file c file pos) as [buf last]. destruct R as (Eb & Lb0 & Lb & Hl).
  pose proof sizes_small as (_ & _ & Hx & Hx0). pose proof (ck_read _ Hc). case_if.
  { assert (last = true) as -> by (destruct last; [done|lia]). assert (pos = blen file) as -> by lia. exists cs. split; [done|]. split; [|done].
    rewrite Cc, take_ge; [done|]. unfold blen. lia. }
  assert (Ep : mk_progress (pushed (progress cs pos)) (p_fileSize (progress cs pos) +64 blen buf) (chunkIDCnt (progress cs pos)) = progress cs (pos + blen buf)).
  { unfold progress. cbn [pushed p_fileSize chunkIDCnt]. unfold u64. by rewrite Zplus_mod_idemp_l. }
  rewrite Ep. replace (fixed_buffer c (S (length buf)) buf 0 (blen buf)) with (fixed_buffer c (S (length buf)) buf 0 (blen buf - 0)) by (f_equal; lia).
  rewrite (fixed_buffer_ok buf cs (pos + blen buf) _ (length buf)) by (unfold blen in *; lia). cbn [rbind Z.to_nat drop].
  assert (Cc' : concat (cs ++ fixed_fuel (length buf) buf) = take (Z.to_nat (pos + blen buf)) file).
  { rewrite concat_app, Cc, fixed_fuel_concat by done. rewrite Eb at 1. apply take_app_slice; lia. }
  assert (Fc' : Forall (fun x => 1 <= blen x <= av) (cs ++ fixed_fuel (length buf) buf)) by (apply Forall_app; split; [done|by apply fixed_fuel_sizes]).
  destruct last.
  - exists (cs ++ fixed_fuel (length buf) buf). rewrite Cc', Hl. split; [done|]. split; [|done]. apply take_ge. unfold blen. lia.
  - apply IH; [lia|lia|done|done].
Qed.
End chunker.

(** ** The parameters of a configuration *)

Record config_ok (cfg : ChunkerConfig) : Prop := {
  co_cuts : cc_chunkingType cfg = FIXED_SIZE_CHUNKING \/ cc_chunkingType cfg = FAST_CDC;
  co_min : 0 <= cc_minChunkSize cfg;
  co_avg : cc_minChunkSize cfg < cc_avgChunkSize cfg < cc_maxChunkSize cfg;
  co_two : 2 <= cc_avgChunkSize cfg;
  co_max : cc_maxChunkSize cfg <= MAX_CHUNK_SIZE;
  co_read : 1 <= cc_readSize cfg < 4096
}.

Lemma round_log2_range n : 2 <= n <= MAX_CHUNK_SIZE -> 1 <= round_log2 n <= 15.
Proof.
  unfold MAX_CHUNK_SIZE. intros Hn. unfold round_log2. assert (1 <= Z.log2 n <= 14); [|case_if; lia].
  split; [apply (Z.log2_le_mono 2); lia|apply (Z.log2_le_mono n 16384); lia].
Qed.
Lemma GenerateFastCDCMask_ok bits : bits <= 30 -> exists m, GenerateFastCDCMask bits = Ok m.
Proof.
  intros Hb. unfold GenerateFastCDCMask. case_if; [|by eexists].
  exfalso. unfold CompareLimit in *. destruct (bits <=? 1) eqn:E1; [done|]. destruct (31 <=? bits) eqn:E2; boolz; lia.
Qed.
Lemma CalNormalSize_max mn av mx : word32 mx -> CalNormalSize mn av mx <= mx.
Proof. intros. unfold CalNormalSize. cbv zeta. destruct (mx <? _) eqn:E; boolz; lia. Qed.

Lemma ChunkerInit_ok cfg : config_ok cfg -> exists c, ChunkerInit cfg = Ok c /\ chunker_ok c /\
  chunkerType_ c = cc_chunkingType cfg /\ minChunkSize_ c = cc_minChunkSize cfg /\ avgChunkSize_ c = cc_avgChunkSize cfg /\ maxChunkSize_ c = cc_maxChunkSize cfg.
Proof.
  intros [Hcuts Hmin Havg Htwo Hmax Hread]. unfold MAX_CHUNK_SIZE in Hmax. unfold ChunkerInit.
  rewrite !(proj2 (Z.leb_gt _ _)) by lia. cbn [orb]. unwrap.
  pose proof (round_log2_range (cc_avgChunkSize cfg) ltac:(unfold MAX_CHUNK_SIZE; lia)) as HR.
  destruct (GenerateFastCDCMask_ok (round_log2 (cc_avgChunkSize cfg) + 1)) as (s & Es); [lia|].
  destruct (GenerateFastCDCMask_ok (round_log2 (cc_avgChunkSize cfg) - 1)) as (l & El); [lia|].
  destruct Hcuts as [-> | ->]; [|rewrite (u32_id (_ + _)), (u32_id (_ - _)), Es, El by lia; cbn [rbind]];
    (eexists; split; [reflexivity|]; split; [|done]; split; unfold MAX_CHUNK_SIZE; cbn [minChunkSize_ avgChunkSize_ maxChunkSize_ readSize_ normalSize_]; try lia).
  unwrap. apply CalNormalSize_max. unfold word32. lia.
Qed.

(** A fuel that is enough for every file of this length. *)
Definition chunking_fuel (file : bytes) : nat := S (S (length file)).

(** Whatever way of chunking is configured. *)
Lemma Chunking_ok c file : chunker_ok c -> chunkerType_ c = FIXED_SIZE_CHUNKING \/ chunkerType_ c = FAST_CDC -> exists cs, Chunking c (chunking_fuel file) file = Ok (to_push file cs) /\
  concat cs = file /\ Forall (fun x => 1 <= blen x <= maxChunkSize_ c) cs.
Proof.
  intros Hc Hcuts. unfold Chunking, chunking_fuel. pose proof (ck_avg _ Hc). destruct Hcuts as [-> | ->].
  - unfold fixSizeChunking. destruct (fixed_file_ok c Hc file (S (S (length file))) 0 []) as (cs & E & Cc & Fc); [unfold blen; lia|unfold blen; lia|done|done|].
    change no_progress with (progress [] 0). rewrite E. cbn [rbind]. rewrite push_progress_end. exists cs. split; [done|]. split; [done|].
    eapply Forall_impl; [exact Fc|]. intros x Hx. cbn in Hx. lia.
  - unfold FastCDC. change no_progress with (progress [] (blen (concat (@nil bytes)))). rewrite (cdc_file_ok c Hc) by (unfold blen; lia). cbn [rbind drop Z.to_nat app].
    rewrite (chunks_of_concat c Hc), push_progress_end. exists (chunks_of c file). split; [done|]. split; [by apply chunks_of_concat|by apply chunks_of_sizes].
Qed.

(** C8. FastCDC reads the file through a buffer, but what it pushes is what a reference
    gives that has the whole file in memory: for a configuration in range it ends, pushes
    the chunks of the reference and then a recipe end with their number and the file's
    size; put together the chunks are the file; every chunk is at most the configured
    maximum, and every one but the last at least the minimum. *)
Theorem FastCDC_is_reference (cfg : ChunkerConfig) (file : bytes) :
  config_ok cfg -> cc_chunkingType cfg = FAST_CDC ->
  exists c, ChunkerInit cfg = Ok c /\ Chunking c (chunking_fuel file) file = Ok (to_push file (chunks_of c file)) /\
    concat (chunks_of c file) = file /\
    Forall (fun x => 1 <= blen x <= cc_maxChunkSize cfg) (chunks_of c file) /\
    Forall (fun x => cc_minChunkSize cfg <= blen x) (removelast (chunks_of c file)).
Proof.
  intros Ok Ty. destruct (ChunkerInit_ok cfg Ok) as (c & Ec & Hc & Et & <- & _ & <-). exists c. split; [done|].
  pose proof (chunks_of_concat c Hc file) as Cc. pose proof (chunks_of_sizes c Hc file) as [S1 S2]. split; [|done].
  unfold Chunking. rewrite Et, Ty. unfold FastCDC, chunking_fuel. change no_progress with (progress [] (blen (concat (@nil bytes)))).
  rewrite (cdc_file_ok c Hc) by (unfold blen; lia). cbn [rbind app]. change (drop (Z.to_nat 0) file) with file. by rewrite Cc, push_progress_end.
Qed.

Definition no_generator : CompressGen := mk_compress_gen (fun _ => 0) (fun _ => []).
Definition default_config : ChunkerConfig := mk_chunker_config FAST_CDC 8192 4096 16384 128 no_generator.
Lemma FastCDC_is_reference_witness :
  exists c, ChunkerInit default_config = Ok c /\
    Chunking c (chunking_fuel (replicate 20 7)) (replicate 20 7) = Ok (to_push (replicate 20 7) (chunks_of c (replicate 20 7))) /\
    concat (chunks_of c (replicate 20 7)) = replicate 20 7 /\
    Forall (fun x => 1 <= blen x <= cc_maxChunkSize default_config) (chunks_of c (replicate 20 7)) /\
    Forall (fun x => cc_minChunkSize default_config <= blen x) (removelast (chunks_of c (replicate 20 7))).
Proof. apply (FastCDC_is_reference default_config (replicate 20 7)); [|reflexivity]. split; [by right|..]; unfold MAX_CHUNK_SIZE; cbn; lia. Defined.

(** The chunker of config.json: the stretch in which the stricter mask applies ends
    before the minimal chunk does, so the mask never applies. *)
Lemma default_normal_size : exists c, ChunkerInit default_config = Ok c /\ normalSize_ c = 2048 /\
  forall src len, fst (fst (cut_loop (maskS_ c) src (Z.to_nat (Z.min (normalSize_ c) len - Z.min len (minChunkSize_ c))) (Z.min len (minChunkSize_ c)) 0)) = None.
Proof.
  eexists. split; [vm_compute; reflexivity|]. split; [done|]. intros src len. cbn [normalSize_ minChunkSize_ maskS_].
  by replace (Z.to_nat _) with 0%nat by lia.
Qed.
