(* ===== verification/TraceCorrect.v ===== *)
(** Chunking from a trace (FSLChunking, UBCChunking): the lines as they are printed are
    read again, and the chunks made up are as equal and as different as the fingerprints of
    the trace. *)
From Stdlib Require Import ZArith Lia.
From stdpp Require Import base list.
From S2P Require Import Prelude Types Util Trace Chunker.

(** ** Printing *)

Definition xdigit (d : Z) : Z := if d <? 10 then 48 + d else 87 + d.
Definition hex_byte (b : Z) : bytes := [xdigit (b / 16); xdigit (b mod 16)].
(** The digits of a number, with fuel for their count. *)
Fixpoint decimal (fuel : nat) (z : Z) (acc : bytes) : bytes :=
  match fuel with O => acc | S fuel => if z <? 10 then (48 + z) :: acc else decimal fuel (z / 10) (48 + z mod 10 :: acc) end.
Definition print_size (z : Z) : bytes := decimal 10 z [].
(** The bytes of the fingerprint with colons between, two tabulators, the size. *)
Fixpoint print_fp (fp : bytes) : bytes :=
  match fp with [] => [] | [b] => hex_byte b | b :: fp => hex_byte b ++ 58 :: print_fp fp end.
Definition print_line (x : bytes * Z) : bytes := print_fp (fst x) ++ [9; 9] ++ print_size (snd x).
Definition print_trace (l : list (bytes * Z)) : bytes := concat (map (fun x => print_line x ++ [10]) l).

(** ** Reading a line *)

Definition is_digit (b : Z) : Prop := 48 <= b < 58.
Definition plain (b : Z) : Prop := 48 <= b < 58 \/ 97 <= b < 103.
Lemma xdigit_plain d : 0 <= d < 16 -> plain (xdigit d) /\ digit_val (xdigit d) = d.
Proof.
  intros Hd. unfold xdigit, plain, digit_val. destruct (d <? 10) eqn:E; boolz; split; try lia.
  - rewrite (proj2 (Z.leb_le _ _)), (proj2 (Z.leb_le _ _)) by lia. cbn [andb]. lia.
  - rewrite (proj2 (Z.leb_le 48 _)), (proj2 (Z.leb_gt (87 + d) 57)), !(proj2 (Z.leb_le _ _)) by lia. cbn [andb]. lia.
Qed.
Lemma plain_delim b : plain b -> is_delim b = false /\ b <> 0 /\ b <> 10 /\ is_space b = false /\ (b =? 45) = false /\ (b =? 43) = false /\ (b =? 120) = false /\ (b =? 88) = false.
Proof.
  unfold plain, is_delim, is_space. intros H. repeat split; try lia; rewrite ?orb_false_iff, ?andb_false_iff, ?Z.eqb_neq, ?Z.leb_gt; lia.
Qed.

Lemma strtok_token t tok s : Forall plain t -> strtok (t ++ s) tok = strtok s (tok ++ t).
Proof.
  intros F. revert tok. induction F as [|b t Hb _ IH]; intros tok; cbn [app]; [by rewrite app_nil_r|]. cbn [strtok].
  destruct (plain_delim b Hb) as [-> _]. by rewrite IH, <- app_assoc.
Qed.
Lemma c_str_plain t s : Forall (fun b => b <> 0) t -> c_str (t ++ s) = t ++ c_str s.
Proof. induction 1 as [|b t Hb _ IH]; [done|]. cbn [app c_str]. rewrite (proj2 (Z.eqb_neq _ _)) by done. by rewrite IH. Qed.

Lemma hex_byte_plain b : byte_ok b -> Forall plain (hex_byte b).
Proof.
  unfold byte_ok. intros Hb. pose proof (Z.mod_pos_bound b 16). assert (0 <= b / 16 < 16) by (split; [apply Z.div_pos; lia|apply Z.div_lt_upper_bound; lia]).
  unfold hex_byte. constructor; [apply xdigit_plain; lia|]. constructor; [apply xdigit_plain; lia|constructor].
Qed.
Lemma strtol_hex b : byte_ok b -> strtol 16 (hex_byte b) = b.
Proof.
  unfold byte_ok. intros Hb. pose proof (Z.mod_pos_bound b 16). assert (0 <= b / 16 < 16) by (split; [apply Z.div_pos; lia|apply Z.div_lt_upper_bound; lia]).
  destruct (xdigit_plain (b / 16)) as [P1 V1]; [lia|]. destruct (xdigit_plain (b mod 16)) as [P2 V2]; [lia|].
  destruct (plain_delim _ P1) as (_ & _ & _ & S1 & M1 & Q1 & _). unfold strtol, hex_byte. cbn [skip_space]. rewrite S1. cbn [skip_sign]. rewrite M1, Q1. cbn [skip_0x digits].
  rewrite V1, V2, !(proj2 (Z.ltb_lt _ _)) by lia. pose proof (Z.div_mod b 16). lia.
Qed.

Lemma decimal_digits fuel z acc : 0 <= z < 10 ^ Z.of_nat fuel -> Forall is_digit acc ->
  Forall is_digit (decimal fuel z acc) /\ (fuel <> O -> decimal fuel z acc <> []).
Proof.
  revert z acc. induction fuel as [|fuel IH]; intros z acc Hz F; cbn [decimal]; [done|]. rewrite Nat2Z.inj_succ, Z.pow_succ_r in Hz by lia.
  destruct (z <? 10) eqn:E; boolz; [split; [constructor; [unfold is_digit; lia|done]|done]|].
  assert (Fa : Forall is_digit (48 + z mod 10 :: acc)) by (constructor; [unfold is_digit; pose proof (Z.mod_pos_bound z 10); lia|done]).
  assert (Hd : 0 <= z / 10 < 10 ^ Z.of_nat fuel) by (split; [apply Z.div_pos; lia|apply Z.div_lt_upper_bound; lia]).
  destruct (IH (z / 10) (48 + z mod 10 :: acc) Hd Fa) as [A B]. split; [done|]. intros _. destruct fuel; [|by apply B]. cbn [decimal]. done.
Qed.
Lemma digits_decimal fuel z acc : 0 <= z < 10 ^ Z.of_nat fuel -> fuel <> O -> digits 10 (decimal fuel z acc) 0 = digits 10 acc z.
Proof.
  revert z acc. induction fuel as [|fuel IH]; intros z acc Hz Nf; [done|]. cbn [decimal]. rewrite Nat2Z.inj_succ, Z.pow_succ_r in Hz by lia.
  assert (V : forall d, 0 <= d < 10 -> digit_val (48 + d) = d).
  { intros d Hd. unfold digit_val. rewrite (proj2 (Z.leb_le _ _)), (proj2 (Z.leb_le _ _)) by lia. cbn [andb]. lia. }
  destruct (z <? 10) eqn:E; boolz; [cbn [digits]; rewrite V by lia; by rewrite (proj2 (Z.ltb_lt _ _)) by lia|].
  assert (Hd : 0 <= z / 10 < 10 ^ Z.of_nat fuel) by (split; [apply Z.div_pos; lia|apply Z.div_lt_upper_bound; lia]).
  pose proof (Z.mod_pos_bound z 10). rewrite IH; [|done|intros ->; cbn in Hz; lia].
  cbn [digits]. rewrite V by lia. rewrite (proj2 (Z.ltb_lt _ _)) by lia. f_equal. pose proof (Z.div_mod z 10). lia.
Qed.
Lemma digit_plain b : is_digit b -> plain b.
Proof. unfold is_digit, plain. lia. Qed.
Lemma print_size_plain z : 0 <= z < 2 ^ 31 -> Forall plain (print_size z) /\ print_size z <> [].
Proof.
  intros Hz. destruct (decimal_digits 10 z []) as [A B]; [change (10 ^ Z.of_nat 10) with 10000000000; lia|done|]. split; [|by apply B].
  eapply Forall_impl; [exact A|]. apply digit_plain.
Qed.
Lemma atoi_print z : 0 <= z < 2 ^ 31 -> atoi (print_size z) = Ok z.
Proof.
  intros Hz. destruct (print_size_plain z Hz) as [F N]. unfold atoi. enough (E : strtol 10 (print_size z) = z).
  { rewrite E, (proj2 (Z.leb_le _ _)), (proj2 (Z.ltb_lt _ _)) by lia. done. }
  pose proof (digits_decimal 10 z [] ltac:(change (10 ^ Z.of_nat 10) with 10000000000; lia) ltac:(done)) as D. fold (print_size z) in D. cbn [digits] in D.
  unfold strtol. destruct (print_size z) as [|b t]; [done|]. apply Forall_cons in F as [Hb _]. destruct (plain_delim b Hb) as (_ & _ & _ & S1 & M1 & Q1 & _).
  cbn [skip_space]. rewrite S1. cbn [skip_sign]. rewrite M1, Q1. unfold skip_0x. change (10 =? 16) with false. cbn [andb].
  replace (match t with x :: d :: t0 => b :: t | _ => b :: t end) with (b :: t) by (destruct t as [|? [|? ?]]; done). rewrite D. lia.
Qed.

Lemma print_fp_strtok fp s : fp <> [] -> Forall byte_ok fp -> strtok (print_fp fp ++ 9 :: s) [] = map hex_byte fp ++ strtok s [].
Proof.
  intros N F. induction F as [|b fp Hb F IH]; [done|]. destruct fp as [|b2 fp].
  - cbn [print_fp map app]. rewrite strtok_token by by apply hex_byte_plain. reflexivity.
  - change (print_fp (b :: b2 :: fp)) with (hex_byte b ++ 58 :: print_fp (b2 :: fp)). rewrite <- app_assoc, strtok_token by by apply hex_byte_plain.
    cbn [app strtok]. change (is_delim 58) with true. cbn [map app hex_byte]. by rewrite IH.
Qed.
Lemma print_fp_bytes fp : Forall byte_ok fp -> Forall (fun b => b <> 0 /\ b <> 10) (print_fp fp) /\ (length (print_fp fp) <= 3 * length fp)%nat.
Proof.
  assert (H2 : forall b, byte_ok b -> Forall (fun b => b <> 0 /\ b <> 10) (hex_byte b)).
  { intros b Hb. eapply Forall_impl; [by apply hex_byte_plain|]. intros x Hx. by destruct (plain_delim x Hx) as (_ & ? & ? & _). }
  induction 1 as [|b fp Hb F [IH L]]; [by split; [|cbn]|]. destruct fp as [|b2 fp]; [split; [by apply H2|cbn; lia]|].
  change (print_fp (b :: b2 :: fp)) with (hex_byte b ++ 58 :: print_fp (b2 :: fp)). split.
  - apply Forall_app. split; [by apply H2|]. by constructor.
  - rewrite length_app. cbn [length] in *. cbn [hex_byte length]. lia.
Qed.
Lemma decimal_length fuel z acc : (length (decimal fuel z acc) <= fuel + length acc)%nat.
Proof. revert z acc. induction fuel as [|fuel IH]; intros z acc; cbn [decimal]; [lia|]. case_if; cbn [length]; [lia|]. pose proof (IH (z / 10) (48 + z mod 10 :: acc)). cbn [length] in *. lia. Qed.

Definition item_ok (n : nat) (x : bytes * Z) : Prop := length (fst x) = n /\ Forall byte_ok (fst x) /\ 0 <= snd x < 2 ^ 31.
Section line.
Variable n : nat.
Hypothesis Hn : (0 < n <= 6)%nat.

Lemma item_nonempty (x : bytes * Z) : item_ok n x -> fst x <> [].
Proof. intros (L & _) E. rewrite E in L. cbn in L. lia. Qed.
Lemma print_line_bytes x : item_ok n x -> Forall (fun b => b <> 0 /\ b <> 10) (print_line x) /\ 0 < blen (print_line x) < 256.
Proof.
  intros Hx. pose proof Hx as (L & F & Hs). destruct (print_fp_bytes (fst x) F) as [Fb Lb]. destruct (print_size_plain (snd x) Hs) as [Fs _].
  pose proof (decimal_length 10 (snd x) []) as Ld. fold (print_size (snd x)) in Ld. cbn [length] in Ld. unfold print_line. split.
  - apply Forall_app. split; [done|]. constructor; [done|]. constructor; [done|]. eapply Forall_impl; [exact Fs|]. intros b Hb. by destruct (plain_delim b Hb) as (_ & ? & ? & _).
  - unfold blen. rewrite !length_app. cbn [length]. lia.
Qed.
Lemma trace_line_print x : item_ok n x -> trace_line n (print_line x) = Ok x.
Proof.
  intros Hx. destruct (print_line_bytes x Hx) as [Fb Lb]. pose proof Hx as (L & F & Hs). destruct (print_size_plain (snd x) Hs) as [Fs Ns].
  unfold trace_line. rewrite (proj2 (Z.leb_gt _ _)) by lia. rewrite <- (app_nil_r (print_line x)), c_str_plain by (eapply Forall_impl; [exact Fb|]; by intros b []).
  cbn [c_str]. rewrite app_nil_r. unfold print_line. change ([9; 9] ++ print_size (snd x)) with (9 :: 9 :: print_size (snd x)).
  rewrite print_fp_strtok by (done || by apply item_nonempty). cbn [strtok]. change (is_delim 9) with true. cbn iota.
  rewrite <- (app_nil_r (print_size (snd x))), strtok_token by done. cbn [strtok app]. destruct (print_size (snd x)) as [|b t] eqn:Ep; [done|].
  assert (Lm : length (map hex_byte (fst x)) = n) by by rewrite length_map.
  rewrite lookup_app_r, Lm, Nat.sub_diag by lia. cbn [lookup list_lookup of_option rbind]. rewrite <- Ep, atoi_print by done. cbn [rbind].
  rewrite take_app_length' by done. rewrite map_map. unfold u32. rewrite Z.mod_small by lia. destruct x as [fp size]. cbn [fst snd] in *. f_equal. f_equal.
  clear -F. induction F as [|b fp Hb _ IH]; [done|]. cbn [map]. rewrite IH, strtol_hex by done. unfold u8, byte_ok in *. by rewrite Z.mod_small by lia.
Qed.
End line.

Lemma getline_line l rest : Forall (fun b => b <> 10) l -> getline (l ++ 10 :: rest) = (l, false, rest).
Proof. induction 1 as [|b l Hb _ IH]; [done|]. cbn [app getline]. rewrite (proj2 (Z.eqb_neq _ _)) by done. by rewrite IH. Qed.
Lemma getline_end l : Forall (fun b => b <> 10) l -> getline l = (l, true, []).
Proof. induction 1 as [|b l Hb _ IH]; [done|]. cbn [app getline]. rewrite (proj2 (Z.eqb_neq _ _)) by done. by rewrite IH. Qed.

(** ** The chunks *)

Section chunks.
Variables (g : CompressGen) (mx : Z) (n : nat).
Hypothesis Hn : (0 < n <= 6)%nat.
Hypothesis Hmx : 6 <= mx <= MAX_CHUNK_SIZE.
Hypothesis Hg : forall r, blen (compressBlockSet_ g r) = MAX_CHUNK_SIZE.

Definition trace_size (x : bytes * Z) : Z := Z.min mx (snd x).
Definition block_of (fp : bytes) : bytes := compressBlockSet_ g (Z.max 10 (Z.min 30 (distribution g (le_val fp)))).
(** The chunk of a line: a block, begun by the fingerprint. *)
Definition made (x : bytes * Z) : bytes :=
  slice (write (write (replicate (Z.to_nat mx) 0) 0 (slice (block_of (fst x)) 0 (trace_size x))) 0 (fst x)) 0 (trace_size x).

Lemma trace_size_range x : item_ok n x -> 0 <= trace_size x <= mx.
Proof. intros (_ & _ & Hs). unfold trace_size. lia. Qed.
Lemma made_buffer x : item_ok n x -> blen (write (replicate (Z.to_nat mx) 0) 0 (slice (block_of (fst x)) 0 (trace_size x))) = mx.
Proof.
  intros Hx. pose proof (trace_size_range x Hx). assert (Lz : blen (replicate (Z.to_nat mx) 0) = mx) by (unfold blen; rewrite length_replicate; lia).
  rewrite blen_write; [done|lia|]. rewrite blen_slice by (unfold block_of; rewrite ?Hg; lia). lia.
Qed.
Lemma trace_chunk_made x : item_ok n x -> trace_chunk g mx (fst x) (snd x) = Ok (made x).
Proof.
  intros Hx. pose proof (trace_size_range x Hx) as R. pose proof (made_buffer x Hx) as B. pose proof Hx as (L & _ & _). unfold trace_chunk, GenerateChunkFromCanditdateSet.
  replace (if mx <? snd x then mx else snd x) with (trace_size x) by (unfold trace_size; case_if; lia). cbv zeta.
  match goal with |- context [compressBlockSet_ g ?r] => replace r with (Z.max 10 (Z.min 30 (distribution g (le_val (fst x))))) end.
  2: { destruct (30 <? distribution g (le_val (fst x))) eqn:E1; boolz; [change (if 30 <? 10 then 10 else 30) with 30; lia|]. destruct (_ <? 10) eqn:E2; boolz; lia. }
  fold (block_of (fst x)). replace (blen (replicate (Z.to_nat mx) 0)) with mx by (unfold blen; rewrite length_replicate; lia).
  rewrite !(proj2 (Z.ltb_ge _ _)) by lia. cbn [orb rbind]. rewrite B. unfold blen at 1. rewrite L, (proj2 (Z.ltb_ge _ _)) by lia. reflexivity.
Qed.
Lemma made_size x : item_ok n x -> blen (made x) = trace_size x.
Proof.
  intros Hx. pose proof (trace_size_range x Hx). pose proof (made_buffer x Hx) as B. pose proof Hx as (L & _ & _). unfold made.
  apply blen_slice; [lia|lia|]. rewrite blen_write; [lia|lia|]. rewrite B. unfold blen. lia.
Qed.
Lemma made_fp x : item_ok n x -> Z.of_nat n <= trace_size x -> take n (made x) = fst x.
Proof.
  intros Hx Hs. pose proof Hx as (L & _ & _). pose proof (made_buffer x Hx) as B. unfold made. rewrite slice_0. rewrite take_take, Nat.min_l by lia.
  match goal with |- take n (write ?b 0 ?d) = _ => change (write b 0 d) with (d ++ drop (length d) b) end. by apply take_app_length'.
Qed.
(** The chunks are as equal as the lines. *)
Lemma made_inj x y : item_ok n x -> item_ok n y -> Z.of_nat n <= trace_size x -> Z.of_nat n <= trace_size y ->
  made x = made y <-> fst x = fst y /\ trace_size x = trace_size y.
Proof.
  intros Hx Hy Sx Sy. split.
  - intros E. split; [by rewrite <- (made_fp x Hx Sx), <- (made_fp y Hy Sy), E|]. by rewrite <- (made_size x Hx), <- (made_size y Hy), E.
  - intros [E1 E2]. unfold made. by rewrite E1, E2.
Qed.
End chunks.

(** ** The file *)

Section file.
Variables (c : Chunker) (n : nat).
Abbreviation mx := (maxChunkSize_ c).
Abbreviation g := (compressGenObj_ c).
Hypothesis Hn : (0 < n <= 6)%nat.
Hypothesis Hmx : 6 <= mx <= MAX_CHUNK_SIZE.
Hypothesis Hfull : n = 6%nat -> mx = MAX_CHUNK_SIZE.
Hypothesis Hg : forall r, blen (compressBlockSet_ g r) = MAX_CHUNK_SIZE.

Definition total_size (items : list (bytes * Z)) : Z := foldr Z.add 0 (map (trace_size mx) items).
Lemma total_size_bounds items : Forall (item_ok n) items -> 0 <= total_size items <= mx * blen items.
Proof.
  induction 1 as [|x l Hx _ IH]; [unfold total_size, blen; cbn [map foldr length Z.of_nat]; lia|]. unfold total_size in *. cbn [map foldr]. rewrite blen_cons. pose proof (trace_size_range mx n Hn Hmx x Hx). lia.
Qed.
Lemma trace_file_ok rest : Forall (fun b => b <> 10) rest -> forall items, Forall (item_ok n) items -> forall fuel p, (length items < fuel)%nat ->
  p_fileSize p + total_size items < 2 ^ 64 -> 0 <= p_fileSize p -> 0 <= chunkIDCnt p -> chunkIDCnt p + blen items < 2 ^ 64 ->
  trace_file c fuel n (print_trace items ++ rest) p =
  Ok (mk_progress (pushed p ++ map (fun x => DATA_CHUNK (made g mx x)) items) (p_fileSize p + total_size items) (chunkIDCnt p + blen items)).
Proof.
  intros Fr items HI. induction HI as [|x items Hx HI IH]; intros fuel p Fu Hs P0 C0 Hc; (destruct fuel as [|fuel]; [cbn in Fu; lia|]); cbn [trace_file].
  - change (print_trace [] ++ rest) with rest. rewrite getline_end by done. rewrite app_nil_r. change (total_size []) with 0. change (blen (@nil (bytes * Z))) with 0. rewrite !Z.add_0_r.
    destruct p. cbn. by destruct (blen rest =? 0).
  - destruct (print_line_bytes n Hn x Hx) as [Fb Lb]. unfold print_trace. cbn [map concat]. rewrite <- !app_assoc. cbn [app]. fold (print_trace items).
    rewrite getline_line by (eapply Forall_impl; [exact Fb|]; by intros b []). rewrite (proj2 (Z.eqb_neq _ _)) by lia. cbn iota.
    rewrite (trace_line_print n Hn x Hx). cbn [rbind]. rewrite (trace_chunk_made g mx n Hn Hmx Hg x Hx). cbn [rbind].
    pose proof (trace_size_range mx n Hn Hmx x Hx) as R. pose proof (made_size g mx n Hn Hmx Hg x Hx) as Ms. unfold push_chunk. rewrite Ms, (proj2 (Z.ltb_ge _ _)) by lia. cbn [rbind].
    replace ((n =? 6)%nat && (mx <? MAX_CHUNK_SIZE)) with false.
    2: { symmetry. apply andb_false_iff. destruct (Nat.eqb_spec n 6); [right; apply Z.ltb_ge; rewrite Hfull by done; lia|by left]. }
    unfold total_size in *. cbn [map foldr] in *. rewrite blen_cons in *. pose proof (total_size_bounds items HI) as T. unfold total_size in T. pose proof (blen_nonneg items). cbn [length] in Fu.
    unwrap. rewrite IH; cbn [pushed p_fileSize chunkIDCnt]; [|lia|lia|lia|lia|lia].
    f_equal. rewrite <- app_assoc. cbn [app]. f_equal; lia.
Qed.
End file.

(** ** Theorem *)

(** C31. Chunking from a trace: of a file of lines as they are printed the chunker makes one
    chunk for each, in order, of the size of the line cut to the maximum, and a recipe end
    with their number and total size.  Of the chunks that have room for the fingerprint
    of their line (6 bytes, or 5) two are equal just when the lines have the same
    fingerprint and the same size, cut to the maximum; of a smaller chunk's fingerprint
    only the beginning is in it, and nothing is said.  A last line without its end is
    passed over. *)
Theorem trace_is_chunked (c : Chunker) (n : nat) (items : list (bytes * Z)) (rest : bytes) (fuel : nat) :
  chunkerType_ c = FSL_TRACE /\ n = 6%nat /\ maxChunkSize_ c = MAX_CHUNK_SIZE \/ chunkerType_ c = UBC_TRACE /\ n = 5%nat /\ 6 <= maxChunkSize_ c <= MAX_CHUNK_SIZE ->
  (forall r, blen (compressBlockSet_ (compressGenObj_ c) r) = MAX_CHUNK_SIZE) ->
  Forall (item_ok n) items -> blen items < 2 ^ 32 -> Forall (fun b => b <> 10) rest -> (length items < fuel)%nat ->
  Chunking c fuel (print_trace items ++ rest) =
    Ok (map (fun x => DATA_CHUNK (made (compressGenObj_ c) (maxChunkSize_ c) x)) items ++ [RECIPE_END (mk_head (total_size c items) (blen items))]) /\
  forall x y, x ∈ items -> y ∈ items -> Z.of_nat n <= trace_size (maxChunkSize_ c) x -> Z.of_nat n <= trace_size (maxChunkSize_ c) y ->
    made (compressGenObj_ c) (maxChunkSize_ c) x = made (compressGenObj_ c) (maxChunkSize_ c) y <-> fst x = fst y /\ trace_size (maxChunkSize_ c) x = trace_size (maxChunkSize_ c) y.
Proof.
  intros Ty Hg HI Hc Fr Fu. assert (Hn : (0 < n <= 6)%nat) by lia. assert (Hmx : 6 <= maxChunkSize_ c <= MAX_CHUNK_SIZE) by (unfold MAX_CHUNK_SIZE in *; lia).
  assert (Hfull : n = 6%nat -> maxChunkSize_ c = MAX_CHUNK_SIZE) by lia. split.
  - pose proof (total_size_bounds c n Hn Hmx Hfull items HI) as T. pose proof (blen_nonneg items). assert (blen items * MAX_CHUNK_SIZE < 2 ^ 32 * 16384) by (unfold MAX_CHUNK_SIZE; lia).
    assert (HT : total_size c items < 2 ^ 64) by (unfold MAX_CHUNK_SIZE in *; nia).
    pose proof (trace_file_ok c n Hn Hmx Hfull Hg rest Fr items HI fuel no_progress Fu ltac:(cbn; lia) ltac:(done) ltac:(done) ltac:(cbn; lia)) as E.
    unfold Chunking, FSLChunking, UBCChunking. destruct Ty as [(-> & -> & _)|(-> & -> & _)]; rewrite E; cbn [rbind]; unfold push_end; cbn [pushed p_fileSize chunkIDCnt no_progress app]; by rewrite !Z.add_0_l.
  - rewrite Forall_forall in HI. intros x y Hx Hy. by apply (made_inj _ _ n Hn Hmx Hg x y (HI x Hx) (HI y Hy)).
Qed.

Definition ex_tracer : Chunker := mk_chunker FSL_TRACE 0 0 MAX_CHUNK_SIZE 0 0 0 0 (mk_compress_gen (fun seed => 10 + seed mod 21) (fun r => replicate (Z.to_nat MAX_CHUNK_SIZE) r)).
Definition ex_trace : list (bytes * Z) := [([1; 2; 3; 250; 5; 6], 7); ([1; 2; 3; 250; 5; 7], 20); ([1; 2; 3; 250; 5; 6], 7)].
Lemma trace_is_chunked_witness :
  Chunking ex_tracer 4 (print_trace ex_trace ++ [48; 49]) =
    Ok (map (fun x => DATA_CHUNK (made (compressGenObj_ ex_tracer) MAX_CHUNK_SIZE x)) ex_trace ++ [RECIPE_END (mk_head (total_size ex_tracer ex_trace) 3)]) /\
  forall x y, x ∈ ex_trace -> y ∈ ex_trace -> Z.of_nat 6 <= trace_size MAX_CHUNK_SIZE x -> Z.of_nat 6 <= trace_size MAX_CHUNK_SIZE y ->
    made (compressGenObj_ ex_tracer) MAX_CHUNK_SIZE x = made (compressGenObj_ ex_tracer) MAX_CHUNK_SIZE y <-> fst x = fst y /\ trace_size MAX_CHUNK_SIZE x = trace_size MAX_CHUNK_SIZE y.
Proof.
  apply (trace_is_chunked ex_tracer 6 ex_trace [48; 49] 4).
  - left. split; [reflexivity|]. split; reflexivity.
  - intros r. cbn [compressGenObj_ ex_tracer compressBlockSet_]. unfold blen. rewrite length_replicate, Z2Nat.id by (unfold MAX_CHUNK_SIZE; lia). reflexivity.
  - repeat constructor; unfold byte_ok; cbn; lia.
  - reflexivity.
  - repeat constructor; lia.
  - cbn. lia.
Defined.
