(* ===== verification/Queue.v ===== *)
(** include/messageQueue.h and the two threads at its ends.  The queue itself is a
    lock-free library with one reader and one writer, first in first out and bounded; the
    producer spins while it is full, says at the end that it is done, and the consumer's
    loop is the one of DataSender::Run, RestoreWriter::Run and DataWriter::Run.  A
    schedule says which thread makes the next step. *)
From Stdlib Require Import ZArith Lia.
From stdpp Require Import base list.
From S2P Require Import Prelude.

(** ** Fair schedules *)

(** Who steps: [true] is the producer. *)
Abbreviation Schedule := (nat -> bool).
Definition fair (sched : Schedule) : Prop := forall n b, exists m, (n <= m)%nat /\ sched m = b.

(** Two threads end under every fair schedule when, in every state, some thread makes
    progress with its next step and the other one does not undo this. *)
Section fair.
Context {St : Type} (step : bool -> St -> St) (inv : St -> Prop) (final : St -> bool) (measure : St -> nat) (role : St -> bool).
Fixpoint run (sched : Schedule) (n : nat) (s : St) : St :=
  match n with O => s | S n => step (sched n) (run sched n s) end.

Hypothesis step_inv : forall b s, inv s -> inv (step b s).
Hypothesis role_progress : forall s, inv s -> final s = false -> (measure (step (role s) s) < measure s)%nat.
Hypothesis other_keeps : forall s, inv s -> final s = false ->
  (measure (step (negb (role s)) s) < measure s \/ measure (step (negb (role s)) s) <= measure s /\ role (step (negb (role s)) s) = role s)%nat.

Lemma run_inv sched n s : inv s -> inv (run sched n s).
Proof. intros I. induction n as [|n IH]; cbn; [done|]. by apply step_inv. Qed.

Lemma fair_ends sched s : fair sched -> inv s -> exists n, final (run sched n s) = true.
Proof.
  intros F I. enough (Main : forall k n, (measure (run sched n s) <= k)%nat -> exists n, final (run sched n s) = true) by by apply (Main (measure s) 0%nat).
  induction k as [k IHk] using lt_wf_ind. intros n Hn. destruct (F n (role (run sched n s))) as (m & Hm & Er).
  remember (m - n)%nat as d eqn:Ed. revert n Hn Hm Er Ed. induction d as [|d IHd]; intros n Hn Hm Er Ed;
    pose proof (run_inv sched n s I) as In; (destruct (final (run sched n s)) eqn:Ef; [by exists n|]).
  - replace m with n in Er by lia. apply (IHk (measure (run sched (S n) s))) with (n := S n); [|done].
    cbn [run]. rewrite Er. pose proof (role_progress _ In Ef). lia.
  - destruct (decide (sched n = role (run sched n s))) as [E|E].
    + apply (IHk (measure (run sched (S n) s))) with (n := S n); [|done]. cbn [run]. rewrite E. pose proof (role_progress _ In Ef). lia.
    + assert (sched n = negb (role (run sched n s))) as E' by (destruct (sched n), (role (run sched n s)); done).
      destruct (other_keeps _ In Ef) as [Lt|[Le Rl]].
      * apply (IHk (measure (run sched (S n) s))) with (n := S n); [|done]. cbn [run]. rewrite E'. lia.
      * apply (IHd (S n)); cbn [run]; rewrite ?E', ?Rl; [lia|lia|done|lia].
Qed.
End fair.

(** ** The queue *)

Record MessageQueue (A : Type) := mk_queue { lockFreeQueue_ : list A; done_ : bool }.
Arguments mk_queue {A}. Arguments lockFreeQueue_ {A}. Arguments done_ {A}.

Section pipe.
Context {A C : Type} (capacity : nat) (handle : A -> C -> C).

(** One attempt of [Push]; [None] when the queue is full. *)
Definition try_push (q : MessageQueue A) (x : A) : option (MessageQueue A) :=
  if (length (lockFreeQueue_ q) <? capacity)%nat then Some (mk_queue (lockFreeQueue_ q ++ [x]) (done_ q)) else None.
Definition MQ_Pop (q : MessageQueue A) : option A * MessageQueue A :=
  match lockFreeQueue_ q with [] => (None, q) | x :: l => (Some x, mk_queue l (done_ q)) end.
Definition IsEmpty (q : MessageQueue A) : bool := match lockFreeQueue_ q with [] => true | _ => false end.

(** ** The two threads *)

(** Where the consumer is in its loop: it reads [done_]; if that is set, it asks whether
    the queue is empty; it tries to pop an element and handles it, with the flag it has
    found; or it has left the loop. *)
Inductive Consumer_pc := CheckDone | CheckEmpty | TryPop (jobDoneFlag : bool) | Exited.

Record Pipe := mk_pipe { to_produce : list A; mq : MessageQueue A; pc : Consumer_pc; consumer : C }.
Definition pipe_start (items : list A) (c : C) : Pipe := mk_pipe items (mk_queue [] false) CheckDone c.

Definition producer_step (p : Pipe) : Pipe :=
  match to_produce p with
  | x :: rest => match try_push (mq p) x with Some q => mk_pipe rest q (pc p) (consumer p) | None => p end
  | [] => mk_pipe [] (mk_queue (lockFreeQueue_ (mq p)) true) (pc p) (consumer p)
  end.
Definition consumer_step (p : Pipe) : Pipe :=
  let go pc := mk_pipe (to_produce p) (mq p) pc (consumer p) in
  match pc p with
  | CheckDone => go (if done_ (mq p) then CheckEmpty else TryPop false)
  | CheckEmpty => go (TryPop (IsEmpty (mq p)))
  | TryPop jobDoneFlag =>
    let '(x, q) := MQ_Pop (mq p) in
    mk_pipe (to_produce p) q (if jobDoneFlag then Exited else CheckDone)
      (match x with Some x => handle x (consumer p) | None => consumer p end)
  | Exited => p
  end.
Definition pipe_step (producer : bool) : Pipe -> Pipe := if producer then producer_step else consumer_step.
Definition exited (p : Pipe) : bool := match pc p with Exited => true | _ => false end.

(** The consumer on all elements, one after the other. *)
Definition handle_all (items : list A) (c : C) : C := fold_left (fun c x => handle x c) items c.

(** ** What holds at every step *)

Record pipe_inv (items : list A) (c : C) (p : Pipe) : Prop := {
  pi_order : exists handled, items = handled ++ lockFreeQueue_ (mq p) ++ to_produce p /\ consumer p = handle_all handled c;
  pi_room : (length (lockFreeQueue_ (mq p)) <= capacity)%nat;
  pi_done : done_ (mq p) = true -> to_produce p = [];
  pi_pc : match pc p with
    | CheckDone | TryPop false => True
    | CheckEmpty => done_ (mq p) = true
    | TryPop true | Exited => done_ (mq p) = true /\ lockFreeQueue_ (mq p) = []
    end
}.
Lemma start_inv items c : pipe_inv items c (pipe_start items c).
Proof. split; cbn; [by exists []|lia|done|done]. Qed.
Lemma producer_inv items c p : pipe_inv items c p -> pipe_inv items c (producer_step p).
Proof.
  intros [(hs & E & Ec) R D P]. unfold producer_step. destruct p as [[|x rest] [q d] w c']; cbn in *.
  - split; cbn; [by exists hs|done|done|]. destruct w as [| |[]|]; by try destruct P.
  - unfold try_push; cbn [lockFreeQueue_ mq done_ pc consumer]. destruct (length q <? capacity)%nat eqn:El; [|split; [exists hs; split; [exact E|exact Ec]|exact R|exact D|exact P]]. apply Nat.ltb_lt in El.
    assert (d = false) as -> by (destruct d; [by specialize (D eq_refl)|done]).
    split; cbn; [exists hs; by rewrite <- app_assoc|rewrite length_app; cbn; lia|done|]. destruct w as [| |[]|]; try done; by destruct P.
Qed.
Lemma consumer_inv items c p : pipe_inv items c p -> pipe_inv items c (consumer_step p).
Proof.
  intros [(hs & E & Ec) R D P]. unfold consumer_step, MQ_Pop, IsEmpty. destruct p as [todo [q d] w c']; cbn in *.
  destruct w as [| |b|]; cbn.
  - split; cbn; [by exists hs|done|done|by destruct d].
  - split; cbn; [by exists hs|done|done|]. by destruct q.
  - destruct q as [|x q]; cbn.
    + split; cbn; [by exists hs|done|done|by destruct b].
    + destruct b; [by destruct P|]. split; cbn in *; [|lia|done|done]. exists (hs ++ [x]). rewrite <- app_assoc. split; [done|].
      unfold handle_all. rewrite fold_left_app. cbn. by rewrite Ec.
  - split; cbn; [by exists hs|done|done|done].
Qed.
Lemma pipe_step_inv items c b p : pipe_inv items c p -> pipe_inv items c (pipe_step b p).
Proof. destruct b; [apply producer_inv|apply consumer_inv]. Qed.
Lemma exited_all items c p : pipe_inv items c p -> exited p = true ->
  consumer p = handle_all items c /\ to_produce p = [] /\ mq p = mk_queue [] true.
Proof.
  intros [(hs & E & Ec) _ D P] X. unfold exited in X. destruct (pc p) as [| |b|]; try done. destruct P as [Pd Pq]. specialize (D Pd).
  rewrite D, Pq, !app_nil_r in E. subst hs. split; [done|]. split; [done|]. destruct (mq p); cbn in *. by subst.
Qed.

(** ** Progress *)

(** The producer, as long as it has something to do and is not blocked; else the consumer. *)
Definition role (p : Pipe) : bool :=
  negb (done_ (mq p)) && (match to_produce p with [] => true | _ => false end || (length (lockFreeQueue_ (mq p)) <? capacity)%nat).
Definition pc_weight (p : Pipe) : nat :=
  match pc p with CheckDone => 3 | CheckEmpty => 2 | TryPop false => if IsEmpty (mq p) then 4 else 1 | TryPop true => 1 | Exited => 0 end.
Definition measure (p : Pipe) : nat :=
  10 * (length (to_produce p) + if done_ (mq p) then 0 else 1) + 5 * length (lockFreeQueue_ (mq p)) + if role p then 0 else pc_weight p.

Hypothesis room : (0 < capacity)%nat.

Lemma pc_weight_le p : (pc_weight p <= 4)%nat.
Proof. unfold pc_weight. destruct (pc p) as [| |[]|]; try lia. case_if; lia. Qed.

Lemma producer_progress p : role p = true -> (measure (producer_step p) < measure p)%nat.
Proof.
  intros Er. unfold measure at 2. rewrite Er. unfold role in Er. destruct p as [todo [q d] w c']. cbn [to_produce mq lockFreeQueue_ done_] in *. apply andb_true_iff in Er as [Ed Er].
  destruct d; [done|]. unfold producer_step. cbn [to_produce mq]. destruct todo as [|x todo].
  - unfold measure. pose proof (pc_weight_le (mk_pipe [] (mk_queue q true) w c')). cbn [to_produce mq lockFreeQueue_ done_ pc consumer length] in *.
    case_if; lia.
  - unfold try_push. cbn [orb] in Er. cbn [lockFreeQueue_ done_]. rewrite Er. unfold measure. cbn [to_produce mq lockFreeQueue_ done_ pc consumer length].
    rewrite length_app. cbn [length]. pose proof (pc_weight_le (mk_pipe todo (mk_queue (q ++ [x]) false) w c')). case_if; lia.
Qed.
(** When the producer has nothing to do, or waits, every step of the consumer counts. *)
Lemma consumer_progress items c p : pipe_inv items c p -> exited p = false -> role p = false -> (measure (consumer_step p) < measure p)%nat.
Proof.
  intros I X Er. unfold measure at 2. rewrite Er. destruct p as [todo [q d] w c']. destruct I as [_ R D P]. unfold role in Er. cbn [to_produce mq lockFreeQueue_ done_ pc] in *.
  assert (Hq : d = false -> q <> []).
  { intros -> ->. cbn [negb andb length] in Er. destruct (Nat.ltb_spec 0 capacity); [|lia]. by rewrite orb_true_r in Er. }
  unfold consumer_step, MQ_Pop, IsEmpty, measure, pc_weight, exited in *. cbn [to_produce mq lockFreeQueue_ done_ pc consumer] in *.
  destruct w as [| |[]|]; [destruct d|destruct q|destruct P; subst|destruct q|done]; cbn [to_produce mq lockFreeQueue_ done_ pc consumer role negb andb length IsEmpty] in *; repeat case_if; try lia.
  all: destruct q; [by destruct Hq|]; cbn [IsEmpty lockFreeQueue_ mq] in *; lia.
Qed.
Lemma consumer_keeps items c p : pipe_inv items c p -> exited p = false -> role p = true ->
  (measure (consumer_step p) <= measure p /\ role (consumer_step p) = role p)%nat.
Proof.
  intros I X Er. assert (Er' : role (consumer_step p) = true).
  { unfold role, consumer_step, MQ_Pop in *. destruct p as [todo [q d] w c']. cbn [to_produce mq lockFreeQueue_ done_ pc] in *.
    apply andb_true_iff in Er as [Ed Er]. destruct w as [| |b|]; [| |destruct q|]; cbn [to_produce mq lockFreeQueue_ done_ pc]; rewrite Ed; cbn [andb]; try done.
    apply orb_true_iff in Er as [->|Er]; [done|]. apply Nat.ltb_lt in Er. cbn [length] in Er. apply orb_true_iff. right. apply Nat.ltb_lt. lia. }
  split; [|by rewrite Er']. unfold measure. rewrite Er', Er. destruct p as [todo [q d] w c']. unfold consumer_step, MQ_Pop.
  destruct w as [| |b|]; [| |destruct q|]; cbn [to_produce mq lockFreeQueue_ done_ pc length]; lia.
Qed.
Lemma producer_waits items c p : pipe_inv items c p -> role p = false -> producer_step p = p.
Proof.
  intros [_ _ D _] Er. unfold role, producer_step, try_push in *. destruct p as [todo [q d] w c']. cbn [to_produce mq lockFreeQueue_ done_] in *.
  destruct d; [by rewrite D|]. cbn [negb andb] in Er. apply orb_false_iff in Er as [E1 E2]. destruct todo as [|x todo]; [done|]. by rewrite E2.
Qed.
End pipe.

(** ** Everything arrives *)

(** C9. Under every fair schedule of the two threads the consumer leaves its loop, and
    whenever it has left it, it has handled every element of the producer, once and in
    order, and nothing is left in the queue (whose destructor would end the program if
    there were).  The order in which the consumer looks at the queue matters: first
    whether the producer is done, then whether the queue is empty. *)
Theorem queue_delivers {A C : Type} (capacity : nat) (handle : A -> C -> C) (items : list A) (c : C) (sched : Schedule) :
  (0 < capacity)%nat -> fair sched ->
  (exists n, exited (run (pipe_step capacity handle) sched n (pipe_start items c)) = true) /\
  (forall n, let p := run (pipe_step capacity handle) sched n (pipe_start items c) in exited p = true ->
    consumer p = handle_all handle items c /\ to_produce p = [] /\ mq p = mk_queue [] true).
Proof.
  intros Room F. pose proof (start_inv capacity handle items c) as I. split.
  - apply (fair_ends (pipe_step capacity handle) (pipe_inv capacity handle items c) exited (measure capacity) (role capacity)); try done.
    + intros b p. apply pipe_step_inv.
    + intros p Ip X. destruct (role capacity p) eqn:Er; [by apply producer_progress|]. by eapply consumer_progress.
    + intros p Ip X. destruct (role capacity p) eqn:Er; cbn [negb pipe_step].
      * right. rewrite <- Er. by eapply consumer_keeps.
      * right. erewrite producer_waits by done. split; [lia|done].
  - intros n p. apply (exited_all capacity). apply run_inv; [|done]. intros b q. apply pipe_step_inv.
Qed.

(** The two threads take turns. *)
Definition turns (n : nat) : bool := Nat.even n.
Lemma turns_fair : fair turns.
Proof.
  intros n b. unfold turns. destruct (Bool.bool_dec (Nat.even n) b); [by exists n|]. exists (S n). split; [lia|].
  rewrite Nat.even_succ, <- Nat.negb_even. by destruct (Nat.even n), b.
Qed.
Lemma queue_delivers_witness :
  (exists n, exited (run (pipe_step 2 cons) turns n (pipe_start [1; 2; 3] [])) = true) /\
  (forall n, let p := run (pipe_step 2 cons) turns n (pipe_start [1; 2; 3] []) in exited p = true ->
    consumer p = handle_all cons [1; 2; 3] [] /\ to_produce p = [] /\ mq p = mk_queue [] true).
Proof. apply (queue_delivers 2 cons [1; 2; 3] [] turns); [lia|apply turns_fair]. Defined.
