(* ===== verification/Client.v ===== *)
(** The client: dataSender.cc (chunks of the queue to encrypted batches), dataRetriever.cc
    (encrypted batches to chunks of the other queue), restoreWriter.cc (chunks to the
    file), and the names of the files (dbeClient.cc). *)
From Stdlib Require Import ZArith Lia.
From stdpp Require Import base list.
From S2P Require Import Prelude Types Crypto Restore RestoreCorrect Ingest Library IngestQuery Chunker.

(** ** Data *)

Inductive client_message_type := CLIENT_UPLOAD_CHUNK | CLIENT_UPLOAD_RECIPE_END.
Record ClientMessage := mk_client_message { cm_type : client_message_type; cm_currentItemNum : Z; cm_data : bytes }.

(** The data sender: the first [dataSize] bytes of its buffer, the count in the header,
    and what it has sent. *)
Record DataSender := mk_sender { sendChunkBuf_ : bytes; ds_currentItemNum : Z; ds_sent : list ClientMessage }.
Definition sender_init : DataSender := mk_sender [] 0 [].

(** The data retriever: what it has pushed to the queue of the writer, its two counters,
    and whether it has set [done_]. *)
Record DataRetriever := mk_retriever { dr_pushed : list bytes; _totalRecvDataSize : Z; _totalRecvChunkNum : Z; dr_done : bool }.
Definition retriever_init : DataRetriever := mk_retriever [] 0 0 false.

Section client.
Context `{EVP}.
Variable cryptoObj : EcallCrypto.
Variable sessionKey : bytes.
Variable batchSize : Z.

(** ** Sending *)

Definition SendChunks (s : DataSender) : result DataSender :=
  enc <-- SessionKeyEnc cryptoObj (sendChunkBuf_ s) sessionKey ;;
  Ok (mk_sender [] 0 (ds_sent s ++ [mk_client_message CLIENT_UPLOAD_CHUNK (ds_currentItemNum s) enc])).

(** The buffer has room for a batch of whole Chunk_t. *)
Definition ProcessChunk (chunk : bytes) (s : DataSender) : result DataSender :=
  if batchSize * sizeof_Chunk <? blen (sendChunkBuf_ s) + 4 + blen chunk then Err Undefined else
  let s := mk_sender (sendChunkBuf_ s ++ le_bytes 4 (blen chunk) ++ chunk) (ds_currentItemNum s +32 1) (ds_sent s) in
  if ds_currentItemNum s mod batchSize =? 0 then SendChunks s else Ok s.

(** The head goes out as it is; the header keeps the count of the buffer, now zero. *)
Definition ProcessRecipeEnd (recipeHead : FileRecipeHead_t) (s : DataSender) : result DataSender :=
  s <-- (if ds_currentItemNum s =? 0 then Ok s else SendChunks s) ;;
  Ok (mk_sender (sendChunkBuf_ s) (ds_currentItemNum s)
        (ds_sent s ++ [mk_client_message CLIENT_UPLOAD_RECIPE_END (ds_currentItemNum s) (head_put recipeHead)])).

(** What [DataSender::Run] does with an element of the queue. *)
Definition sender_handle (x : Data_t) (s : result DataSender) : result DataSender :=
  s <-- s ;;
  match x with DATA_CHUNK chunk => ProcessChunk chunk s | RECIPE_END recipeHead => ProcessRecipeEnd recipeHead s end.

(** ** Receiving *)

(** The frames of a decrypted batch; [off] walks over it. *)
Fixpoint retrieve_chunks (n : nat) (decBuffer : bytes) (off : Z) (r : DataRetriever) : result DataRetriever :=
  match n with
  | O => Ok r
  | S n =>
    if blen decBuffer <? off + 4 then Err Undefined else
    let chunkSize := rd32 decBuffer off in
    if (MAX_CHUNK_SIZE <? chunkSize) || (blen decBuffer <? off + 4 + chunkSize) then Err Undefined else
    retrieve_chunks n decBuffer (off + 4 + chunkSize)
      (mk_retriever (dr_pushed r ++ [slice decBuffer (off + 4) chunkSize])
         (_totalRecvDataSize r +64 chunkSize) (_totalRecvChunkNum r +64 1) (dr_done r))
  end.
Definition ProcessChunkBatch (m : Message) (r : DataRetriever) : result DataRetriever :=
  decBuffer <-- SessionKeyDec cryptoObj (m_data m) sessionKey ;;
  retrieve_chunks (Z.to_nat (m_currentItemNum m)) decBuffer 0 r.

(** [DataRetriever::Run]: until the final batch; a closed connection before it ends the
    program. *)
Fixpoint retrieve (messages : list Message) (r : DataRetriever) : result DataRetriever :=
  match messages with
  | [] => Err ExitError
  | m :: messages =>
    r <-- ProcessChunkBatch m r ;;
    match m_type m with
    | SERVER_RESTORE_CHUNK => retrieve messages r
    | SERVER_RESTORE_FINAL => Ok (mk_retriever (dr_pushed r) (_totalRecvDataSize r) (_totalRecvChunkNum r) true)
    end
  end.
(** The check after the loop. *)
Definition DataRetriever_Run (fileRecipeHead : FileRecipeHead_t) (messages : list Message) : result DataRetriever :=
  r <-- retrieve messages retriever_init ;;
  if _totalRecvChunkNum r =? totalChunkNum fileRecipeHead then Ok r else Err ExitError.

(** What [RestoreWriter::Run] does with an element of the queue. *)
Definition writer_handle (chunk : bytes) (outputFile : bytes) : bytes := outputFile ++ chunk.
End client.

(** ** Names *)

(** [to_string] on an unsigned integer. *)
Fixpoint decimal (fuel : nat) (n : Z) : bytes :=
  match fuel with
  | O => []
  | S fuel => (if n <? 10 then [] else decimal fuel (n / 10)) ++ [48 + n mod 10]
  end.
Definition to_string (n : Z) : bytes := decimal 10 n.
Definition fullName (inputFile : bytes) (clientID : Z) : bytes := inputFile ++ to_string clientID.

(** [sprintf "%02x"] on every byte of the hash. *)
Definition hex_digit (d : Z) : Z := if d <? 10 then 48 + d else 87 + d.
Definition hex (l : bytes) : bytes := concat (map (fun b => [hex_digit (b / 16); hex_digit (b mod 16)]) l).
(** The path of a file recipe, less its prefix and suffix. *)
Definition recipe_name `{EVP} (cryptoObj : EcallCrypto) (inputFile : bytes) (clientID : Z) : result bytes :=
  fileNameHash <-- GenerateHash cryptoObj (fullName inputFile clientID) ;; Ok (hex fileNameHash).

(** The number is appended without a separator: two clients can mean the same file. *)
Lemma names_collide `{EVP} (cryptoObj : EcallCrypto) :
  recipe_name cryptoObj [97; 49] 2 = recipe_name cryptoObj [97] 12.
Proof. reflexivity. Qed.

(** ** The sender packs *)

Section sending.
Context `{EVPLaws}.
Variable cryptoObj : EcallCrypto.
Variable sessionKey : bytes.
Variable batchSize : Z.
Hypothesis HS : 0 < batchSize < 2 ^ 32.
Abbreviation BS := (Z.to_nat batchSize).
Abbreviation frames l := (concat (map frame l)).

(** A message with the chunks [xs]. *)
Record batch_message (xs : list bytes) (m : ClientMessage) : Prop := {
  bm_type : cm_type m = CLIENT_UPLOAD_CHUNK;
  bm_num : cm_currentItemNum m = blen xs;
  bm_size : (length xs <= BS)%nat;
  bm_data : SessionKeyEnc cryptoObj (frames xs) sessionKey = Ok (cm_data m)
}.
(** [cs] have been handled: full batches are sent, less than a batch waits. *)
Definition sending (cs : list bytes) (s : DataSender) : Prop :=
  exists batches pending, cs = concat batches ++ pending /\ Forall2 batch_message batches (ds_sent s) /\
    sendChunkBuf_ s = frames pending /\ ds_currentItemNum s = blen pending /\ blen pending < batchSize /\
    Forall (fun x => blen x <= MAX_CHUNK_SIZE) pending.

Lemma SendChunks_ok s pending : sendChunkBuf_ s = frames pending -> ds_currentItemNum s = blen pending -> (length pending <= BS)%nat ->
  exists m, SendChunks cryptoObj sessionKey s = Ok (mk_sender [] 0 (ds_sent s ++ [m])) /\ batch_message pending m.
Proof.
  intros Eb En Hl. unfold SendChunks. rewrite Eb. destruct (SessionKey_ok cryptoObj (frames pending) sessionKey) as (d & E & _).
  rewrite E. cbn [rbind]. eexists. split; [reflexivity|]. split; cbn; [done|done|done|]. by rewrite E.
Qed.

Lemma ProcessChunk_ok cs s x : sending cs s -> blen x <= MAX_CHUNK_SIZE ->
  exists s', ProcessChunk cryptoObj sessionKey batchSize x s = Ok s' /\ sending (cs ++ [x]) s'.
Proof.
  intros (batches & pending & -> & F & Eb & En & Hn & HL) Hx. unfold ProcessChunk.
  pose proof (frames_bound pending HL) as HB. unfold sizeof_Chunk in *. change MAX_CHUNK_SIZE with 16384 in *.
  pose proof (blen_nonneg pending). rewrite (proj2 (Z.ltb_ge _ _)) by (rewrite Eb; nia).
  cbn [ds_currentItemNum]. rewrite En. set (s1 := mk_sender _ _ _).
  assert (Eb1 : sendChunkBuf_ s1 = frames (pending ++ [x])).
  { cbn. rewrite Eb, map_app, concat_app. cbn. by rewrite app_nil_r. }
  assert (En1 : ds_currentItemNum s1 = blen (pending ++ [x])) by (cbn; rewrite u32_id, blen_app by lia; reflexivity).
  rewrite u32_id by lia. rewrite <- app_assoc. case_if.
  - assert (blen pending + 1 = batchSize).
    { destruct (Z.eq_dec (blen pending + 1) batchSize) as [|N]; [done|]. rewrite Z.mod_small in E by lia. lia. }
    destruct (SendChunks_ok s1 (pending ++ [x]) Eb1 En1) as (m & -> & Bm); [rewrite length_app; cbn; unfold blen in *; lia|].
    eexists. split; [reflexivity|]. exists (batches ++ [pending ++ [x]]), []. rewrite concat_app. unfold s1; cbn [concat ds_sent].
    rewrite !app_nil_r. split; [done|]. split; [apply Forall2_app; [done|by constructor]|]. split; [done|]. split; [done|]. split; [rewrite blen_nil; lia|constructor].
  - assert (blen pending + 1 <> batchSize) by (intros C; rewrite C, Z.mod_same in E by lia; lia).
    exists s1. split; [done|]. exists batches, (pending ++ [x]). split; [done|]. split; [done|]. split; [done|]. split; [done|].
    split; [rewrite blen_app; change (blen [x]) with 1; lia|]. apply Forall_app. split; [done|]. by constructor.
Qed.

Lemma sender_handle_chunks cs done0 s : sending done0 s -> Forall (fun x => blen x <= MAX_CHUNK_SIZE) cs ->
  exists s', fold_left (fun s x => sender_handle cryptoObj sessionKey batchSize x s) (map DATA_CHUNK cs) (Ok s) = Ok s' /\ sending (done0 ++ cs) s'.
Proof.
  intros S F. revert done0 s S. induction F as [|x cs Hx _ IH]; intros done0 s S; [exists s; by rewrite app_nil_r|]. cbn [map fold_left sender_handle rbind].
  destruct (ProcessChunk_ok done0 s x S Hx) as (s1 & -> & S1). destruct (IH (done0 ++ [x]) s1 S1) as (s2 & -> & S2).
  exists s2. split; [done|]. by rewrite <- app_assoc in S2.
Qed.

(** A whole file: batches of at most the batch size, then the head. *)
Lemma sender_ok cs h : Forall (fun x => blen x <= MAX_CHUNK_SIZE) cs ->
  exists s batches messages, fold_left (fun s x => sender_handle cryptoObj sessionKey batchSize x s) (map DATA_CHUNK cs ++ [RECIPE_END h]) (Ok sender_init) = Ok s /\
    ds_sent s = messages ++ [mk_client_message CLIENT_UPLOAD_RECIPE_END 0 (head_put h)] /\
    Forall2 batch_message batches messages /\ concat batches = cs.
Proof.
  intros F. rewrite fold_left_app. destruct (sender_handle_chunks cs [] sender_init) as (s & -> & S); [|done|].
  { exists [], []. repeat (split; [done|]). split; [rewrite blen_nil; lia|constructor]. }
  cbn [fold_left sender_handle rbind app] in *. destruct S as (batches & pending & -> & Fb & Eb & En & Hn & HL). unfold ProcessRecipeEnd. case_if.
  - cbn [rbind]. rewrite En in E. assert (pending = []) as -> by (apply nil_length_inv; unfold blen in *; lia).
    eexists _, batches, (ds_sent s). split; [reflexivity|]. cbn [ds_sent]. rewrite En, app_nil_r. done.
  - destruct (SendChunks_ok s pending Eb En) as (m & -> & Bm); [unfold blen in *; lia|]. cbn [rbind sendChunkBuf_ ds_currentItemNum ds_sent].
    eexists _, (batches ++ [pending]), (ds_sent s ++ [m]). split; [reflexivity|]. cbn [ds_sent]. split; [done|].
    split; [apply Forall2_app; [done|by constructor]|]. rewrite concat_app. cbn. by rewrite app_nil_r.
Qed.
End sending.

(** ** The retriever unpacks *)

Section receiving.
Context `{EVPLaws} `{!EVPBytes} `{LZ4}.
Variable cfg : Config.
Variable U : bytes -> Prop.
Hypothesis HU : universe cfg U.

(** [E] has been pushed and counted. *)
Definition got (E : list bytes) (finished : bool) : DataRetriever :=
  mk_retriever E (u64 (blen (concat E))) (u64 (blen E)) finished.

Lemma retrieve_chunks_ok decBuffer off xs E b : framed decBuffer off xs -> Forall U xs ->
  retrieve_chunks (length xs) decBuffer off (got E b) = Ok (got (E ++ xs) b).
Proof.
  intros Fr F. revert off E Fr. induction F as [|x xs Ux _ IH]; intros off E Fr; [by rewrite app_nil_r|].
  destruct Fr as (Er & Es & Hl & Fr). cbn [length retrieve_chunks]. pose proof (un_size _ _ HU x Ux).
  rewrite Er, Es. rewrite !(proj2 (Z.ltb_ge _ _)) by lia. cbn [orb got dr_pushed _totalRecvDataSize _totalRecvChunkNum dr_done].
  specialize (IH (off + 4 + blen x) (E ++ [x]) Fr). rewrite <- app_assoc in IH. cbn [app] in IH. rewrite <- IH. f_equal. unfold got.
  rewrite concat_app, !blen_app. cbn [concat]. rewrite app_nil_r. unfold u64. rewrite !Zplus_mod_idemp_l. done.
Qed.

Lemma ProcessChunkBatch_ok sk D db t m xs E b : carries (setting cfg sk D db) t m xs -> Forall U xs ->
  ProcessChunkBatch (c_crypto cfg) sk m (got E b) = Ok (got (E ++ xs) b).
Proof.
  intros [_ En Ed] F. unfold ProcessChunkBatch. cbn [setting cryptoObj_ _sessionKey] in Ed. rewrite Ed, En. cbn [rbind].
  unfold blen. rewrite Nat2Z.id. apply retrieve_chunks_ok; [|done].
  pose proof (framed_app _ _ HU [] xs [] F) as Fr. by rewrite app_nil_r in Fr.
Qed.

Lemma retrieve_ok sk D db s E : finished (setting cfg sk D db) s E -> Forall U E ->
  retrieve (c_crypto cfg) sk (sent s) retriever_init = Ok (got E true).
Proof.
  intros (msgs & m & parts & L & -> & -> & Fm & Cm & _ & _) F. apply Forall_app in F as [FE FL].
  change retriever_init with (got [] false). replace (concat parts) with ([] ++ concat parts) by done. revert FE. generalize (@nil bytes) as E.
  induction Fm as [|x part msgs parts Cx _ IH]; intros E FE; cbn [concat app retrieve].
  - rewrite (ProcessChunkBatch_ok sk D db _ m L E false Cm FL). cbn [rbind]. rewrite (ca_type _ _ _ _ Cm), app_nil_r. done.
  - cbn [concat] in FE. apply Forall_app in FE as [F1 F2]. rewrite (ProcessChunkBatch_ok sk D db _ x part E false Cx F1). cbn [rbind].
    rewrite (ca_type _ _ _ _ Cx), app_assoc. by apply IH.
Qed.
Lemma DataRetriever_Run_ok sk D db s E h : finished (setting cfg sk D db) s E -> Forall U E -> totalChunkNum h = u64 (blen E) ->
  DataRetriever_Run (c_crypto cfg) sk h (sent s) = Ok (got E true).
Proof.
  intros Fi F Eh. unfold DataRetriever_Run. rewrite (retrieve_ok sk D db s E Fi F). cbn [rbind]. rewrite Eh. cbn [got _totalRecvChunkNum]. by rewrite Z.eqb_refl.
Qed.
End receiving.

(** The writer writes one chunk behind the other. *)
Lemma writer_writes cs file : fold_left (fun f x => writer_handle x f) cs file = file ++ concat cs.
Proof.
  revert file. induction cs as [|x cs IH]; intros file; cbn [fold_left concat]; [by rewrite app_nil_r|]. unfold writer_handle at 2. by rewrite IH, app_assoc.
Qed.
