(* ===== verification/Backup.v ===== *)
(** From a file to the same file: a client's upload (chunker, queue, data sender), the
    server's part of it (dataReceiver.cc, storageCore.cc, serverOptThread.cc), a restore
    (serverOptThread.cc, data retriever, queue, restore writer). *)
From Stdlib Require Import ZArith Lia.
From stdpp Require Import base list gmap.
From S2P Require Import Prelude Types EDelta EDeltaCorrect Codec Util ReqContainers Database Container Writer Crypto Restore RestoreCorrect Ingest Upload Library IngestStore IngestQuery IngestCorrect Session Queue Chunker ChunkerCorrect Client.

(** ** The server *)

(** The receiver of an upload: [rv_head] is the head of the file recipe once it has been
    written, after which the file is closed. *)
Record Receiver := mk_receiver { rv_ingest : Ingest; rv_head : option bytes }.
Definition sizeof_FileRecipeHead : Z := 16.

Section server.
Context `{EVP} `{LZ4}.
Variable cfg : Config.

(** One turn of [DataReceiver::Run].  A write to a recipe file that is closed ends the
    program ([UpdateRecipeToFile], [FinalizeRecipe]). *)
Definition receive_one (disk : nat -> Upload -> gmap bytes bytes) (m : ClientMessage) (r : Receiver) : result Receiver :=
  match cm_type m with
  | CLIENT_UPLOAD_CHUNK =>
    g <-- EnclaveIndex_ProcessOneBatch cfg (index_class cfg) disk (cm_data m) (Z.to_nat (cm_currentItemNum m)) (rv_ingest r) ;;
    match rv_head r with
    | None => Ok (mk_receiver g None)
    | Some h =>
      if blen (recipeFile (c_recipe (i_core g))) =? blen (recipeFile (c_recipe (i_core (rv_ingest r))))
      then Ok (mk_receiver g (Some h)) else Err ExitError
    end
  | CLIENT_UPLOAD_RECIPE_END =>
    let g := rv_ingest r in
    s <-- ProcessTailBatch cfg (i_core g) ;;
    match rv_head r with
    | Some _ => Err ExitError
    | None => Ok (mk_receiver (mk_ingest (cmSketch_ g) (insideDedupIndex_ g) (_inQueryBase g) (i_outQueryBase g) (i_queryNum g) (_recvBuffer g) s (i_db g))
                    (Some (slice (cm_data m) 0 sizeof_FileRecipeHead)))
    end
  end.
(** Until the client closes the connection. *)
Fixpoint receive (disk : nat -> nat -> Upload -> gmap bytes bytes) (i : nat) (messages : list ClientMessage) (r : Receiver) : result Receiver :=
  match messages with
  | [] => Ok r
  | m :: messages => r <-- receive_one (disk i) m r ;; receive disk (S i) messages r
  end.

(** The recipe file: a head of undefined bytes ([virtualRecipeEnd]), the encrypted
    fingerprints behind it, and at the end the head over the first bytes. *)
Definition recipe_content (virtualRecipeEnd : bytes) (r : Receiver) : bytes :=
  let content := virtualRecipeEnd ++ recipeFile (c_recipe (i_core (rv_ingest r))) in
  match rv_head r with Some h => write content 0 h | None => content end.

(** The file recipes, by name. *)
Abbreviation Recipes := (gmap bytes bytes).

Definition serve_upload (m : Malloc) (virtualRecipeEnd : bytes) (written : nat -> nat -> Upload -> nat) (name : bytes)
    (messages : list ClientMessage) (x : Server * Recipes) : result (Server * Recipes) :=
  let '(sv, recipes) := x in
  g <-- InitUploadBuffer m sv ;;
  r <-- receive (fun i j u => on_disk (s_dirs sv) (inputMQ u) (written i j u)) 0 messages (mk_receiver g None) ;;
  u <-- last_containers (c_store (i_core (rv_ingest r))) ;;
  let g := rv_ingest r in let s := i_core g in
  Ok (mk_server (cmSketch_ g) (insideDedupIndex_ g) (c_cache s) (c_stats s) (writtenDataSize_ u, writtenChunkNum_ u)
        (tmpOcallcontainer s) (i_db g) (con_times u) (write_queue (s_dirs sv) (inputMQ u)),
      <[name := recipe_content virtualRecipeEnd r]> recipes).

(** The answer to a restore: the head from the front of the recipe file, and the messages
    that the rest of it gives.  The client ends when there is no such file. *)
Definition serve_restore (sk : bytes) (name : bytes) (x : Server * Recipes) : result (FileRecipeHead_t * list Message) :=
  file <-- of_option ExitError (snd x !! name) ;;
  let body := drop (Z.to_nat sizeof_FileRecipeHead) file in
  s <-- Run (setting cfg sk (s_dirs (fst x)) (s_index (fst x))) (S (length body)) body (InitRestoreBuffer 64) ;;
  Ok (head_get (slice file 0 sizeof_FileRecipeHead), sent s).

(** ** Clients that upload and restore *)

Variable ck : Chunker.
Variable capacity : nat.     (* CHUNK_QUEUE_SIZE *)

Record Backup := mk_backup {
  bk_inputFile : bytes; bk_clientID : Z; bk_content : bytes;
  bk_sched : Schedule;                       (* of the client's two threads *)
  bk_malloc : Malloc; bk_virtualRecipeEnd : bytes;
  bk_written : nat -> nat -> Upload -> nat   (* how far the data writer is *)
}.

(** The chunker and the data sender after [n] steps. *)
Definition upload_threads (b : Backup) (items : list Data_t) (n : nat) : Pipe :=
  run (pipe_step capacity (sender_handle (c_crypto cfg) (c_sessionKey cfg) (c_sendChunkBatchSize cfg))) (bk_sched b) n (pipe_start items (Ok sender_init)).
(** The retriever and the writer. *)
Definition restore_threads (sched : Schedule) (chunks : list bytes) (n : nat) : Pipe :=
  run (pipe_step capacity writer_handle) sched n (pipe_start chunks []).

(** Uploads, one after the other: the threads of each client end, and the server works
    on what they have sent. *)
Inductive backups : list Backup -> Server * Recipes -> Server * Recipes -> Prop :=
| backups_nil x : backups [] x x
| backups_cons b bs items n s name x y z :
    Chunking ck (chunking_fuel (bk_content b)) (bk_content b) = Ok items ->
    exited (upload_threads b items n) = true -> consumer (upload_threads b items n) = Ok s ->
    recipe_name (c_crypto cfg) (bk_inputFile b) (bk_clientID b) = Ok name ->
    serve_upload (bk_malloc b) (bk_virtualRecipeEnd b) (bk_written b) name (ds_sent s) x = Ok y ->
    backups bs y z -> backups (b :: bs) x z.

(** The file a client gets, by whatever schedule of its threads. *)
Definition restored (sk : bytes) (name : bytes) (x : Server * Recipes) (file : bytes) : Prop :=
  exists h messages r, serve_restore sk name x = Ok (h, messages) /\ DataRetriever_Run (c_crypto cfg) sk h messages = Ok r /\
    forall sched, fair sched ->
      (exists n, exited (restore_threads sched (dr_pushed r) n) = true) /\
      (forall n, exited (restore_threads sched (dr_pushed r) n) = true -> consumer (restore_threads sched (dr_pushed r) n) = file).

(** What comes back under a name: the file, cut into the same chunks, when the restore
    has room for the identifiers of all the containers it needs at a time; when it has
    not, the server writes past the buffer for them. *)
Definition comes_back (sk : bytes) (name : bytes) (x : Server * Recipes) (file : bytes) : Prop :=
  exists cs fps : list bytes, Chunking ck (chunking_fuel file) file = Ok (to_push file cs) /\ concat cs = file /\
    Forall2 (fun fp c => GenerateHash (c_crypto cfg) c = Ok fp) fps cs /\
    if ids_fit (setting cfg sk (s_dirs (fst x)) (s_index (fst x))) CONTAINER_CAPPING_VALUE fps
    then restored sk name x file
    else serve_restore sk name x = Err Undefined.

(** The newest file under each name. *)
Definition newest (bs : list Backup) (files : gmap bytes bytes) : gmap bytes bytes :=
  fold_left (fun files b => match recipe_name (c_crypto cfg) (bk_inputFile b) (bk_clientID b) with
    | Ok name => <[name := bk_content b]> files | Err _ => files end) bs files.
End server.

(** ** The server on what a sender sends *)

Section receive.
Context `{EVP} `{LZ4}.
Variable cfg : Config.

Definition to_pair (m : ClientMessage) : bytes * nat := (cm_data m, Z.to_nat (cm_currentItemNum m)).

Lemma receive_batches disk i messages e g : Forall (fun m => cm_type m = CLIENT_UPLOAD_CHUNK) messages ->
  cm_type e = CLIENT_UPLOAD_RECIPE_END ->
  receive cfg disk i (messages ++ [e]) (mk_receiver g None) =
    (g <-- upload_batches cfg (index_class cfg) disk i (map to_pair messages) g ;;
     s <-- ProcessTailBatch cfg (i_core g) ;;
     Ok (mk_receiver (mk_ingest (cmSketch_ g) (insideDedupIndex_ g) (_inQueryBase g) (i_outQueryBase g) (i_queryNum g) (_recvBuffer g) s (i_db g))
           (Some (slice (cm_data e) 0 sizeof_FileRecipeHead)))).
Proof.
  intros F Ee. revert i g. induction F as [|m messages Em _ IH]; intros i g; cbn [app receive map upload_batches rbind].
  - unfold receive_one. rewrite Ee. cbn [rv_ingest rv_head]. by destruct ProcessTailBatch.
  - unfold receive_one at 1. rewrite Em. cbn [rv_ingest rv_head to_pair]. destruct EnclaveIndex_ProcessOneBatch as [g'|]; [|done]. cbn [rbind]. apply IH.
Qed.

Lemma serve_upload_eq m garbage written name messages h sv recipes :
  Forall (fun m => cm_type m = CLIENT_UPLOAD_CHUNK) messages -> blen garbage = 16 ->
  serve_upload cfg m garbage written name (messages ++ [mk_client_message CLIENT_UPLOAD_RECIPE_END 0 (head_put h)]) (sv, recipes) =
    (x <-- upload_file cfg (mk_request m written (map to_pair messages)) sv ;; Ok (fst x, <[name := head_put h ++ snd x]> recipes)).
Proof.
  intros F Lg. unfold serve_upload, upload_file, upload_session. cbn [rq_malloc rq_written rq_messages].
  destruct InitUploadBuffer as [g|]; [|done]. cbn [rbind]. rewrite receive_batches by done.
  destruct upload_batches as [g'|]; [|done]. cbn [rbind]. destruct ProcessTailBatch as [s|]; [|done]. cbn [rbind rv_ingest i_core].
  destruct last_containers as [u|]; [|done]. cbn [rbind fst snd i_core c_store with_store c_recipe c_cache c_stats tmpOcallcontainer cmSketch_ insideDedupIndex_ i_db].
  do 3 f_equal. unfold recipe_content. cbn [rv_head rv_ingest i_core cm_data].
  assert (Lh : blen (head_put h) = 16) by apply blen_head_put.
  assert (Es : slice (head_put h) 0 sizeof_FileRecipeHead = head_put h) by (unfold sizeof_FileRecipeHead; rewrite <- Lh; apply slice_full).
  rewrite Es. unfold write. change (take (Z.to_nat 0) (garbage ++ recipeFile (c_recipe s))) with (@nil Z). cbn [app].
  rewrite drop_app_length'; [done|]. unfold blen in *. cbn. lia.
Qed.
End receive.

(** ** One backup, and any number of them *)

Section correct.
Context `{EVPLaws} `{!EVPBytes} `{LZ4}.
Variable cfg : Config.
Variable U : bytes -> Prop.
Hypothesis HU : universe cfg U.
Hypothesis HT : hashType_ (c_crypto cfg) = SHA_256.
Hypothesis HB : 0 < c_sendRecipeBatchSize cfg.
Hypothesis HS : 0 < c_sendChunkBatchSize cfg < 2 ^ 32.
Hypothesis HK : (2 <= topThreshold_ cfg)%nat.
Hypothesis Ty : c_indexType cfg <> DEBE.
Variable ck : Chunker.
Hypothesis Hck : chunker_ok ck.
Hypothesis Hcuts : chunkerType_ ck = FIXED_SIZE_CHUNKING \/ chunkerType_ ck = FAST_CDC.
Variable capacity : nat.
Hypothesis room : (0 < capacity)%nat.

(** A client in order: its threads are scheduled fairly, the chunks of its file are in
    the universe, the memory is of the right sizes. *)
Record backup_ok (b : Backup) : Prop := {
  bo_name : bytes_ok (bk_inputFile b);
  bo_sched : fair (bk_sched b);
  bo_malloc : malloc_ok cfg (bk_malloc b);
  bo_head : blen (bk_virtualRecipeEnd b) = 16;
  bo_chunks : forall items x, Chunking ck (chunking_fuel (bk_content b)) (bk_content b) = Ok items -> DATA_CHUNK x ∈ items -> U x
}.
Fixpoint names_for (bs : list Backup) : Z :=
  match bs with [] => 0 | b :: bs => blen (bk_content b) + 5 + names_for bs end.

(** Every recipe file stands for its file. *)
Definition catalog (x : Server * gmap bytes bytes) (files : gmap bytes bytes) : Prop :=
  forall name file, files !! name = Some file -> exists h body cs,
    Chunking ck (chunking_fuel file) file = Ok (to_push file cs) /\
    snd x !! name = Some (head_put h ++ body) /\ totalChunkNum h = u64 (blen cs) /\ fileSize h = u64 (blen file) /\ concat cs = file /\
    Forall U cs /\ recipe_of_chunks cfg U (s_index (fst x)) body cs.

Lemma recipe_name_ok b : backup_ok b -> exists name, recipe_name (c_crypto cfg) (bk_inputFile b) (bk_clientID b) = Ok name.
Proof.
  intros Bo. unfold recipe_name, GenerateHash. rewrite HT. destruct (EVP_Digest_bytes (fullName (bk_inputFile b) (bk_clientID b))) as (h & -> & Lh & _).
  - apply Forall_app. split; [apply (bo_name _ Bo)|]. unfold to_string. generalize 10%nat as fuel. intros fuel. generalize (bk_clientID b) as n.
    induction fuel as [|fuel IH]; intros n; cbn [decimal]; [constructor|]. apply Forall_app. split; [case_if; [constructor|apply IH]|].
    constructor; [|constructor]. unfold byte_ok. pose proof (Z.mod_pos_bound n 10). lia.
  - cbn [of_option rbind]. unfold blen. rewrite Lh. cbn. by eexists.
Qed.

(** What the sender of a client has sent when its threads have ended. *)
Lemma threads_send b : backup_ok b -> exists items cs s batches messages, Chunking ck (chunking_fuel (bk_content b)) (bk_content b) = Ok items /\
  items = to_push (bk_content b) cs /\
  (exists n, exited (upload_threads cfg capacity b items n) = true) /\
  (forall n, exited (upload_threads cfg capacity b items n) = true -> consumer (upload_threads cfg capacity b items n) = Ok s) /\
  ds_sent s = messages ++ [mk_client_message CLIENT_UPLOAD_RECIPE_END 0 (head_put (mk_head (u64 (blen (bk_content b))) (u64 (blen cs))))] /\
  Forall2 (batch_message (c_crypto cfg) (c_sessionKey cfg) (c_sendChunkBatchSize cfg)) batches messages /\
  concat batches = cs /\ concat cs = bk_content b /\ Forall U cs.
Proof.
  intros Bo. destruct (Chunking_ok ck (bk_content b) Hck Hcuts) as (cs & Ec & Cc & Fc). exists (to_push (bk_content b) cs), cs.
  destruct (sender_ok (c_crypto cfg) (c_sessionKey cfg) (c_sendChunkBatchSize cfg) HS cs (mk_head (u64 (blen (bk_content b))) (u64 (blen cs)))) as (s & batches & messages & Es & Em & Fb & Cb).
  { eapply Forall_impl; [exact Fc|]. intros x Hx. cbn in Hx. pose proof (ck_max _ Hck). lia. }
  destruct (queue_delivers capacity (sender_handle (c_crypto cfg) (c_sessionKey cfg) (c_sendChunkBatchSize cfg)) (to_push (bk_content b) cs) (Ok sender_init) (bk_sched b) room (bo_sched _ Bo)) as [Ex All].
  exists s, batches, messages. split; [done|]. split; [done|]. split; [exact Ex|]. split; [|split; [done|split; [done|split; [done|split; [done|]]]]].
  - intros n X. destruct (All n X) as (Ex' & _). unfold upload_threads. rewrite Ex'. exact Es.
  - apply Forall_forall. intros x Hx. eapply (bo_chunks _ Bo); [exact Ec|]. unfold to_push. apply elem_of_app. left. by apply list_elem_of_In, in_map, list_elem_of_In.
Qed.

Lemma batches_ok batches messages : Forall2 (batch_message (c_crypto cfg) (c_sessionKey cfg) (c_sendChunkBatchSize cfg)) batches messages ->
  Forall U (concat batches) -> Forall2 (message_ok cfg U) batches (map to_pair messages) /\ Forall (fun m => cm_type m = CLIENT_UPLOAD_CHUNK) messages.
Proof.
  induction 1 as [|xs m batches messages [Bt Bn Bl Bd] _ IH]; intros F; cbn [concat map] in *; [done|].
  apply Forall_app in F as [F1 F2]. destruct (IH F2) as [I1 I2]. split; constructor; try done. split; cbn [to_pair fst snd]; [done|done|exact Bd|].
  rewrite Bn. unfold blen. lia.
Qed.

Lemma one_backup sv recipes b : server_inv cfg U sv -> backup_ok b -> s_con_times sv + blen (bk_content b) + 5 < 2 ^ 31 ->
  exists name items s sv' content,
    recipe_name (c_crypto cfg) (bk_inputFile b) (bk_clientID b) = Ok name /\
    Chunking ck (chunking_fuel (bk_content b)) (bk_content b) = Ok items /\
    (exists n, exited (upload_threads cfg capacity b items n) = true) /\
    (forall n, exited (upload_threads cfg capacity b items n) = true -> consumer (upload_threads cfg capacity b items n) = Ok s) /\
    serve_upload cfg (bk_malloc b) (bk_virtualRecipeEnd b) (bk_written b) name (ds_sent s) (sv, recipes) = Ok (sv', <[name := content]> recipes) /\
    server_inv cfg U sv' /\ s_con_times sv' <= s_con_times sv + blen (bk_content b) + 4 /\
    forall files, catalog (sv, recipes) files -> catalog (sv', <[name := content]> recipes) (<[name := bk_content b]> files).
Proof.
  intros I Bo Ht. destruct (recipe_name_ok b Bo) as (name & En).
  destruct (threads_send b Bo) as (items & cs & s & batches & messages & Ei & -> & Ex & All & Es & Fb & Cb & Cc & Fu).
  rewrite <- Cb in Fu. destruct (batches_ok batches messages Fb Fu) as [Fm Ft]. rewrite Cb in Fu.
  assert (Lc : blen (concat batches) <= blen (bk_content b)).
  { rewrite Cb, <- Cc. clear -Fu HU. induction Fu as [|x cs Ux _ IH]; [done|]. cbn [concat]. rewrite blen_cons, blen_app. pose proof (un_size _ _ HU x Ux). lia. }
  destruct (index_upload cfg U HU HT HB HS HK Ty (mk_request (bk_malloc b) (bk_written b) (map to_pair messages)) sv batches I (conj (bo_malloc _ Bo) Fm)) as (sv' & body & Eu & I' & T' & Sub & Rc & _); [lia|].
  exists name, (to_push (bk_content b) cs), s, sv'. eexists. split; [exact En|]. split; [exact Ei|]. split; [exact Ex|]. split; [exact All|]. split.
  { rewrite Es, serve_upload_eq by (try apply (bo_head _ Bo); done). rewrite Eu. cbn [rbind fst snd]. reflexivity. }
  split; [exact I'|]. split; [lia|]. intros files Cat nm file Hf. apply lookup_insert_Some in Hf as [[<- <-]|[Nn Hf]].
  - exists (mk_head (u64 (blen (bk_content b))) (u64 (blen cs))), body, cs. cbn [fst snd]. split; [exact Ei|]. split; [apply lookup_insert_eq|]. rewrite Cb in Rc. done.
  - destruct (Cat nm file Hf) as (h & bd & cs' & Hk & Hb & Hn & Hs & Hc & Hu & Hr). exists h, bd, cs'. cbn [fst snd] in *.
    split; [exact Hk|]. split; [by rewrite lookup_insert_ne|]. repeat (split; [done|]). by eapply recipe_of_chunks_mono.
Qed.

(** A catalog restores. *)
Lemma catalog_restores x files name file sk : server_inv cfg U (fst x) -> catalog x files -> files !! name = Some file ->
  comes_back cfg ck capacity sk name x file.
Proof.
  intros I Cat Hf. destruct (Cat name file Hf) as (h & body & cs & Hk & Hb & Hn & Hs & Hc & Hu & Hr).
  destruct (recipe_restores cfg U HU HT HB HS (fst x) body cs sk I Hr) as (fps & Hh & _ & Re). exists cs, fps.
  split; [exact Hk|]. split; [exact Hc|]. split; [exact Hh|].
  assert (Eh : slice (head_put h ++ body) 0 sizeof_FileRecipeHead = head_put h).
  { unfold sizeof_FileRecipeHead. rewrite slice_app_l by (rewrite ?blen_head_put; lia). rewrite <- (blen_head_put h). apply slice_full. }
  assert (Eb : drop (Z.to_nat sizeof_FileRecipeHead) (head_put h ++ body) = body).
  { apply drop_app_length'. pose proof (blen_head_put h). unfold blen in *. unfold sizeof_FileRecipeHead. lia. }
  destruct (ids_fit _ _ fps).
  2: { unfold serve_restore. rewrite Hb. cbn [of_option rbind]. by rewrite Eb, Re. }
  destruct Re as (s & Er & Fi). exists (head_get (head_put h)), (sent s), (got cs true).
  assert (Eg : head_get (head_put h) = h).
  { destruct h as [fs tn]. cbn [fileSize totalChunkNum] in *. subst. apply head_get_put; cbn; apply u64_range. }
  split; [|split].
  - unfold serve_restore. rewrite Hb. cbn [of_option rbind]. rewrite Eb, Er. cbn [rbind]. by rewrite Eh.
  - rewrite Eg. by apply (DataRetriever_Run_ok cfg U HU sk (s_dirs (fst x)) (s_index (fst x))).
  - intros sched F. destruct (queue_delivers capacity writer_handle cs [] sched room F) as [Ex All]. split; [exact Ex|].
    intros n X. destruct (All n X) as (E & _). unfold restore_threads. cbn [dr_pushed got]. rewrite E. unfold handle_all. rewrite writer_writes. done.
Qed.

Lemma backups_ok bs : Forall backup_ok bs -> forall sv recipes files, server_inv cfg U sv -> s_con_times sv + names_for bs < 2 ^ 31 -> catalog (sv, recipes) files ->
  (exists y, backups cfg ck capacity bs (sv, recipes) y) /\
  (forall y, backups cfg ck capacity bs (sv, recipes) y -> server_inv cfg U (fst y) /\ catalog y (newest cfg bs files)).
Proof.
  induction 1 as [|b bs Bo _ IH]; intros sv recipes files I Ht Cat.
  { split; [exists (sv, recipes); constructor|]. intros y B. inversion B; subst. done. }
  cbn [names_for] in Ht. assert (N : 0 <= names_for bs) by (clear; induction bs as [|b bs IH]; cbn; [lia|pose proof (blen_nonneg (bk_content b)); lia]).
  destruct (one_backup sv recipes b I Bo) as (name & items & s & sv' & content & En & Ei & (n & Ex) & All & Eu & I' & T' & Cat'); [lia|].
  specialize (Cat' files Cat). destruct (IH sv' (<[name := content]> recipes) (<[name := bk_content b]> files) I' ltac:(lia) Cat') as [(y & By) Ay].
  split.
  - exists y. eapply backups_cons; [exact Ei|exact Ex|by apply All|exact En|exact Eu|exact By].
  - intros z Bz. inversion Bz as [|? ? items' n' s' name' ? y' ? Ei' Ex' Es' En' Eu' By']; subst.
    rewrite Ei in Ei'. injection Ei' as <-. rewrite (All _ Ex') in Es'. injection Es' as <-. rewrite En in En'. injection En' as <-.
    rewrite Eu in Eu'. injection Eu' as <-. unfold newest. cbn [fold_left]. rewrite En. by apply Ay.
Qed.
End correct.

(** C1. What goes in comes out.  Clients upload files, one after the other: each file is
    cut into chunks, by content or at a fixed size; under any fair schedule of the two
    threads of a client the chunks go through the queue into encrypted batches; the server
    stores them.  Every upload ends without an error, the server is in a good state
    again, and under every name a client with any session key gets back, under any fair
    schedule of its two threads and past the check of the chunk count, exactly the newest
    file that was uploaded under that name, byte for byte.  There is one exception, and
    [comes_back] says exactly when: a restore whose chunks and bases need more than 16
    containers at a time writes past the server's buffer for their identifiers.  This
    holds for every index type but DEBE. *)
Theorem backups_restore `{EVPLaws} `{!EVPBytes} `{LZ4} (cfg : Config) (U : bytes -> Prop) (cc : ChunkerConfig) (capacity : nat)
    (bs : list Backup) (sv : Server) (recipes : gmap bytes bytes) :
  universe cfg U -> hashType_ (c_crypto cfg) = SHA_256 -> 0 < c_sendRecipeBatchSize cfg ->
  0 < c_sendChunkBatchSize cfg < 2 ^ 32 -> (2 <= topThreshold_ cfg)%nat -> (0 < capacity)%nat -> config_ok cc ->
  c_indexType cfg <> DEBE -> server_inv cfg U sv -> s_con_times sv + names_for bs < 2 ^ 31 ->
  exists ck, ChunkerInit cc = Ok ck /\ (Forall (backup_ok cfg U ck) bs ->
    (exists y, backups cfg ck capacity bs (sv, recipes) y) /\
    forall y, backups cfg ck capacity bs (sv, recipes) y -> server_inv cfg U (fst y) /\
      forall name file sk, newest cfg bs ∅ !! name = Some file -> comes_back cfg ck capacity sk name y file).
Proof.
  intros HU HT HB HS HK Hc Hcc Ty I Ht. destruct (ChunkerInit_ok cc Hcc) as (ck & Eck & Hck & Et & _). exists ck. split; [done|]. intros Bo.
  destruct (backups_ok cfg U HU HT HB HS HK Ty ck Hck ltac:(rewrite Et; apply (co_cuts _ Hcc)) capacity Hc bs Bo sv recipes ∅ I Ht) as [Ex All]; [intros name file; by rewrite lookup_empty|].
  split; [done|]. intros y By. destruct (All y By) as [Iy Cat]. split; [done|]. intros name file sk Hf.
  by eapply catalog_restores.
Qed.

(** Two files of one client, cut by content, the second under the name of the first. *)
Definition ex_chunking : ChunkerConfig := mk_chunker_config FAST_CDC 5 4 6 1 no_generator.
Definition ex_files : list (bytes * list Z) := [([97], [2; 0; 2; 3]); ([97], [2; 2; 1])].
Definition ex_backup (x : bytes * list Z) : Backup :=
  mk_backup (fst x) 7 (concat (map ex_chunk (snd x))) turns ex_malloc (replicate 16 0) (fun _ _ _ => 0%nat).
Definition ex_ck : Chunker := value (mk_chunker FAST_CDC 0 0 0 0 0 0 0 no_generator) (ChunkerInit ex_chunking).

Lemma ex_backup_ok x : bytes_ok (fst x) ->
  Chunking ex_ck (chunking_fuel (bk_content (ex_backup x))) (bk_content (ex_backup x)) = Ok (to_push (bk_content (ex_backup x)) (map ex_chunk (snd x))) ->
  snd x ⊆ [0; 1; 2; 3] -> backup_ok ex_config ex_universe ex_ck (ex_backup x).
Proof.
  intros Hb Ec Hs. split.
  - exact Hb.
  - apply turns_fair.
  - split; try by_decide; (split; [done|]); repeat constructor; apply blank_recipe_ok.
  - reflexivity.
  - intros items y Ei Hy. rewrite Ec in Ei. injection Ei as <-. unfold to_push in Hy. apply elem_of_app in Hy as [Hy|Hy].
    + apply list_elem_of_In, in_map_iff in Hy as (z & [= ->] & Hz). apply in_map_iff in Hz as (i & <- & Hi).
      unfold ex_universe. apply list_elem_of_In, in_map, list_elem_of_In, Hs. by apply list_elem_of_In.
    + by apply list_elem_of_singleton in Hy.
Qed.
Lemma backups_restore_witness : exists ck, ChunkerInit ex_chunking = Ok ck /\
  (exists y, @backups byte_evp toy_lz4 ex_config ck 4 (map ex_backup ex_files) (new_server 3 2 2 ex_tmp, ∅) y) /\
  forall y, @backups byte_evp toy_lz4 ex_config ck 4 (map ex_backup ex_files) (new_server 3 2 2 ex_tmp, ∅) y ->
    @server_inv byte_evp toy_lz4 ex_config ex_universe (fst y) /\
    forall name file sk, @newest byte_evp ex_config (map ex_backup ex_files) ∅ !! name = Some file ->
      @comes_back byte_evp toy_lz4 ex_config ck 4 sk name y file.
Proof.
  destruct (@backups_restore byte_evp byte_laws byte_bytes toy_lz4 ex_config ex_universe ex_chunking 4 (map ex_backup ex_files) (new_server 3 2 2 ex_tmp) ∅) as (ck & Eck & All).
  - apply ex_universe_ok.
  - reflexivity.
  - reflexivity.
  - by_decide.
  - by_decide.
  - lia.
  - split; [by right|..]; unfold MAX_CHUNK_SIZE; cbn; lia.
  - discriminate.
  - apply (@new_server_ok byte_evp byte_laws byte_bytes toy_lz4); [by_decide|by_decide|unfold ex_tmp, blen; rewrite length_replicate; by_decide].
  - reflexivity.
  - exists ck. split; [exact Eck|]. apply All. assert (ck = ex_ck) as -> by (unfold ex_ck; rewrite Eck; reflexivity).
    constructor; [|constructor; [|constructor]]; apply ex_backup_ok; (by_decide || (vm_compute; reflexivity)).
Defined.
