(* ===== verification/Enclave.v ===== *)
(** The life of the enclave (storeECall.cc, keyECall.cc, dbeServer.cc) and the login of a
    client (sessionKeyExchange.cc, dataSender.cc): where the keys come from, what is
    written to files at the end, and in which order. *)
From Stdlib Require Import ZArith Lia.
From stdpp Require Import base list gmap.
From S2P Require Import Prelude Types Codec TopK Database Writer Crypto Restore RestoreCorrect Ingest Library IngestStore IngestQuery Session.

(** ** Outside: two sealed files and the streams on them *)

Inductive SealedFile := ENCLAVE_KEY_FILE_NAME | ENCLAVE_INDEX_INFO_NAME.

(** [None] is a file that does not exist; the output stream is on a file or closed; the
    input stream has what is left to read. *)
Record Outside := mk_outside {
  key_file : option bytes; info_file : option bytes;
  outSealedFile_ : option SealedFile; inSealedFile_ : option bytes
}.
Definition file_of (f : SealedFile) (o : Outside) : option bytes :=
  match f with ENCLAVE_KEY_FILE_NAME => key_file o | ENCLAVE_INDEX_INFO_NAME => info_file o end.
Definition set_file (f : SealedFile) (b : bytes) (o : Outside) : Outside :=
  match f with
  | ENCLAVE_KEY_FILE_NAME => mk_outside (Some b) (info_file o) (outSealedFile_ o) (inSealedFile_ o)
  | ENCLAVE_INDEX_INFO_NAME => mk_outside (key_file o) (Some b) (outSealedFile_ o) (inSealedFile_ o)
  end.

(** A stream that is open already is not opened again; the file is truncated. *)
Definition Ocall_InitWriteSealedFile (f : SealedFile) (o : Outside) : bool * Outside :=
  match outSealedFile_ o with
  | Some _ => (false, o)
  | None => let o := set_file f [] o in (true, mk_outside (key_file o) (info_file o) (Some f) (inSealedFile_ o))
  end.
(** What is written goes to the file the stream is on, whatever file is named. *)
Definition write_sealed (data : bytes) (o : Outside) : Outside :=
  match outSealedFile_ o with
  | Some f => set_file f (Ocall_WriteSealedData (default [] (file_of f o)) data) o
  | None => o
  end.
Definition Ocall_CloseWriteSealedFile (o : Outside) : Outside := mk_outside (key_file o) (info_file o) None (inSealedFile_ o).
(** The size of the file, zero when it does not exist. *)
Definition Ocall_InitReadSealedFile (f : SealedFile) (o : Outside) : Z * Outside :=
  match file_of f o with
  | None => (0, o)
  | Some b => (blen b, mk_outside (key_file o) (info_file o) (outSealedFile_ o) (Some b))
  end.
Definition read_sealed (size : Z) (o : Outside) : bytes * Outside :=
  let '(d, rest) := Ocall_ReadSealedData (default [] (inSealedFile_ o)) size in
  (d, mk_outside (key_file o) (info_file o) (outSealedFile_ o) (Some rest)).
Definition Ocall_CloseReadSealedFile (o : Outside) : Outside := mk_outside (key_file o) (info_file o) (outSealedFile_ o) None.

(** ** Inside *)

(** The counters that outlive the enclave, in the order they are written. *)
Record IndexInfo := mk_info {
  _logicalDataSize : Z; _logicalChunkNum : Z; _uniqueDataSize : Z; _uniqueChunkNum : Z; _compressedDataSize : Z
}.
Definition info_words (i : IndexInfo) : list Z :=
  [_logicalDataSize i; _logicalChunkNum i; _uniqueDataSize i; _uniqueChunkNum i; _compressedDataSize i].
Definition info_put (i : IndexInfo) : bytes := concat (map (le_bytes 8) (info_words i)).
Definition info_get (b : bytes) : IndexInfo := mk_info (rd64 b 0) (rd64 b 8) (rd64 b 16) (rd64 b 24) (rd64 b 32).

Record Enclave := mk_enclave {
  enclaveKey_ : bytes; indexQueryKey_ : bytes; firstBootstrap_ : bool;
  clientSessionKeyIndex_ : gmap Z bytes;
  enclaveBaseObj_ : option IndexInfo
}.

Section inside.
(** What [sgx_read_rand] gives for the two keys. *)
Variable rand : bytes * bytes.

Definition Ecall_Enclave_Init (o : Outside) : Enclave * Outside :=
  let '(readFileSize, o) := Ocall_InitReadSealedFile ENCLAVE_KEY_FILE_NAME o in
  if readFileSize =? 0 then
    (mk_enclave (fst rand) (snd rand) true ∅ None, Ocall_CloseReadSealedFile o)
  else
    let '(readBuffer, o) := read_sealed (CHUNK_HASH_SIZE * 2) o in
    (mk_enclave (slice readBuffer 0 CHUNK_HASH_SIZE) (slice readBuffer CHUNK_HASH_SIZE CHUNK_HASH_SIZE) false ∅ None, Ocall_CloseReadSealedFile o).
End inside.

(** The index object is new, but for the counters of the last run. *)
Definition Ecall_Init_Upload (e : Enclave) (o : Outside) : Enclave * Outside :=
  let '(readFileSize, o) := Ocall_InitReadSealedFile ENCLAVE_INDEX_INFO_NAME o in
  let '(info, o) :=
    if readFileSize =? 0 then (mk_info 0 0 0 0 0, o)
    else let '(infoBuf, o) := read_sealed (8 * 5) o in (info_get infoBuf, o) in
  (mk_enclave (enclaveKey_ e) (indexQueryKey_ e) (firstBootstrap_ e) (clientSessionKeyIndex_ e) (Some info), Ocall_CloseReadSealedFile o).

Definition Ecall_Destroy_Upload (e : Enclave) (o : Outside) : result (Enclave * Outside) :=
  let '(ret, o) := Ocall_InitWriteSealedFile ENCLAVE_INDEX_INFO_NAME o in
  if negb ret then Err ExitError else
  info <-- of_option Undefined (enclaveBaseObj_ e) ;;
  let o := fold_left (fun o w => write_sealed (le_bytes 8 w) o) (info_words info) o in
  Ok (mk_enclave (enclaveKey_ e) (indexQueryKey_ e) (firstBootstrap_ e) (clientSessionKeyIndex_ e) None, Ocall_CloseWriteSealedFile o).

(** The keys are written when they are new. *)
Definition Ecall_Enclave_Destroy (e : Enclave) (o : Outside) : result (Enclave * Outside) :=
  if firstBootstrap_ e then
    let '(ret, o) := Ocall_InitWriteSealedFile ENCLAVE_KEY_FILE_NAME o in
    if negb ret then Err ExitError else
    let o := write_sealed (enclaveKey_ e) o in
    let o := write_sealed (indexQueryKey_ e) o in
    Ok (e, Ocall_CloseWriteSealedFile o)
  else Ok (e, o).

(** ** The server's process *)

(** The enclave, as long as it has not been destroyed, and the files. *)
Record Process := mk_process { enclave : option Enclave; outside : Outside }.

(** A call into an enclave that has been destroyed returns SGX_ERROR_INVALID_ENCLAVE_ID
    and does nothing; the server looks at no status of a call. *)
Definition ecall (f : Enclave -> Outside -> result (Enclave * Outside)) (w : Process) : result Process :=
  match enclave w with
  | None => Ok w
  | Some e => x <-- f e (outside w) ;; Ok (mk_process (Some (fst x)) (snd x))
  end.
Definition sgx_destroy_enclave (w : Process) : Process := mk_process None (outside w).

(** [main], up to the loop that waits for clients. *)
Definition boot (rand : bytes * bytes) (o : Outside) : result Process :=
  let '(e, o) := Ecall_Enclave_Init rand o in
  ecall (fun e o => Ok (Ecall_Init_Upload e o)) (mk_process (Some e) o).
(** [CTRLC]: the destructor of the server thread object, then the enclave. *)
Definition CTRLC (w : Process) : result Process :=
  w <-- ecall Ecall_Destroy_Upload w ;;
  let w := sgx_destroy_enclave w in
  ecall Ecall_Enclave_Destroy w.

Definition keys_of (w : Process) : option (bytes * bytes) := (fun e => (enclaveKey_ e, indexQueryKey_ e)) <$> enclave w.
Definition info_of (w : Process) : option IndexInfo := e ← enclave w; enclaveBaseObj_ e.
Definition closed (o : Outside) : Prop := outSealedFile_ o = None.

(** ** What a shutdown keeps *)

Lemma info_get_put i : Forall (fun w => 0 <= w < 2 ^ 64) (info_words i) -> info_get (info_put i) = i.
Proof.
  destruct i as [a b c d e]. unfold info_words. cbn [_logicalDataSize _logicalChunkNum _uniqueDataSize _uniqueChunkNum _compressedDataSize]. intros F.
  assert (R : forall pre z post n, 0 <= z < 2 ^ 64 -> blen pre = n -> rd64 (pre ++ le_bytes 8 z ++ post) n = z).
  { intros pre z post n Hz Hn. unfold rd64. rewrite (slice_field pre (le_bytes 8 z)); [by apply le_val_le_bytes|done|by rewrite blen_le_bytes]. }
  do 5 (apply Forall_cons in F as [? F]). unfold info_get, info_put, info_words.
  cbn [_logicalDataSize _logicalChunkNum _uniqueDataSize _uniqueChunkNum _compressedDataSize map concat].
  f_equal.
  - by apply (R []).
  - apply (R (le_bytes 8 a)); [done|by rewrite blen_le_bytes].
  - rewrite (app_assoc (le_bytes 8 a)). apply (R (le_bytes 8 a ++ le_bytes 8 b)); [done|by rewrite blen_app, !blen_le_bytes].
  - rewrite (app_assoc (le_bytes 8 a)), (app_assoc (le_bytes 8 a ++ _)). apply R; [done|by rewrite !blen_app, !blen_le_bytes].
  - rewrite (app_assoc (le_bytes 8 a)), (app_assoc (le_bytes 8 a ++ _)), (app_assoc ((le_bytes 8 a ++ _) ++ _)). apply R; [done|by rewrite !blen_app, !blen_le_bytes].
Qed.
Lemma blen_info_put i : blen (info_put i) = 40.
Proof. unfold info_put. destruct i. cbn [map concat info_words]. by rewrite !blen_app, !blen_le_bytes. Qed.

(** The files, and that no output stream is open. *)
Definition same_files (o o' : Outside) : Prop := key_file o' = key_file o /\ info_file o' = info_file o /\ outSealedFile_ o' = outSealedFile_ o.

Lemma Enclave_Init_ok rand o : match key_file o with None => True | Some b => blen b = 64 end ->
  let '(e, o') := Ecall_Enclave_Init rand o in same_files o o' /\
    match key_file o with
    | None => (enclaveKey_ e, indexQueryKey_ e) = rand /\ firstBootstrap_ e = true
    | Some b => (enclaveKey_ e, indexQueryKey_ e) = (slice b 0 32, slice b 32 32) /\ firstBootstrap_ e = false
    end.
Proof.
  intros Hk. destruct rand as [k q]. unfold Ecall_Enclave_Init, Ocall_InitReadSealedFile. cbn [file_of]. destruct (key_file o) as [b|] eqn:Ek; [|done].
  rewrite Hk. unfold read_sealed, Ocall_ReadSealedData. cbn [Z.eqb inSealedFile_ default].
  rewrite (take_ge b) by (unfold blen in *; change (CHUNK_HASH_SIZE * 2) with 64; lia). done.
Qed.
Lemma Init_Upload_ok e o : match info_file o with None => True | Some b => exists i, b = info_put i end ->
  let '(e', o') := Ecall_Init_Upload e o in same_files o o' /\ enclaveKey_ e' = enclaveKey_ e /\ indexQueryKey_ e' = indexQueryKey_ e /\
    firstBootstrap_ e' = firstBootstrap_ e /\ enclaveBaseObj_ e' = Some match info_file o with None => mk_info 0 0 0 0 0 | Some b => info_get b end.
Proof.
  intros Hi. unfold Ecall_Init_Upload, Ocall_InitReadSealedFile. cbn [file_of]. destruct (info_file o) as [b|] eqn:Ek; [|done].
  destruct Hi as (i & ->). rewrite blen_info_put. unfold read_sealed, Ocall_ReadSealedData. cbn [Z.eqb inSealedFile_ default].
  rewrite (take_ge (info_put i)) by (pose proof (blen_info_put i); unfold blen in *; lia). done.
Qed.

(** A start: the keys of the file, or new ones; the counters of the file, or zero. *)
Lemma boot_ok rand o : match key_file o with None => True | Some b => blen b = 64 end ->
  match info_file o with None => True | Some b => exists i, b = info_put i end ->
  exists w e, boot rand o = Ok w /\ enclave w = Some e /\ same_files o (outside w) /\
    match key_file o with
    | None => (enclaveKey_ e, indexQueryKey_ e) = rand /\ firstBootstrap_ e = true
    | Some b => (enclaveKey_ e, indexQueryKey_ e) = (slice b 0 32, slice b 32 32) /\ firstBootstrap_ e = false
    end /\
    enclaveBaseObj_ e = Some match info_file o with None => mk_info 0 0 0 0 0 | Some b => info_get b end.
Proof.
  intros Hk Hi. unfold boot. pose proof (Enclave_Init_ok rand o Hk) as E1. destruct (Ecall_Enclave_Init rand o) as [e o1]. destruct E1 as [(F1 & F2 & F3) E1].
  rewrite <- F2 in Hi. pose proof (Init_Upload_ok e o1 Hi) as E2. unfold ecall. cbn [enclave outside rbind]. destruct (Ecall_Init_Upload e o1) as [e2 o2].
  destruct E2 as ((G1 & G2 & G3) & Ek & Eq & Ef & Ei). exists (mk_process (Some e2) o2), e2. split; [done|]. split; [done|].
  split; [split; [by etrans|split; by etrans]|]. rewrite Ek, Eq, Ef, Ei, F2. done.
Qed.

(** The counters are written, whatever happens to the keys. *)
Lemma Destroy_Upload_ok e o i : outSealedFile_ o = None -> enclaveBaseObj_ e = Some i ->
  exists e' o', Ecall_Destroy_Upload e o = Ok (e', o') /\ enclaveKey_ e' = enclaveKey_ e /\ indexQueryKey_ e' = indexQueryKey_ e /\
    firstBootstrap_ e' = firstBootstrap_ e /\ key_file o' = key_file o /\ info_file o' = Some (info_put i) /\ outSealedFile_ o' = None.
Proof.
  intros Ho Hi. unfold Ecall_Destroy_Upload, Ocall_InitWriteSealedFile. rewrite Ho, Hi. cbn [negb of_option rbind]. eexists _, _. split; [reflexivity|].
  destruct o as [kf inf out ins], i as [a b c d e0]. done.
Qed.
Lemma Enclave_Destroy_ok e o : outSealedFile_ o = None -> firstBootstrap_ e = true ->
  exists o', Ecall_Enclave_Destroy e o = Ok (e, o') /\ key_file o' = Some (enclaveKey_ e ++ indexQueryKey_ e) /\ info_file o' = info_file o /\ outSealedFile_ o' = None.
Proof.
  intros Ho Hf. unfold Ecall_Enclave_Destroy, Ocall_InitWriteSealedFile. rewrite Hf, Ho. cbn [negb]. eexists. split; [reflexivity|]. by destruct o.
Qed.

(** C26. What the enclave writes at its end is what it reads at its next start, when both
    calls reach it: the counters of the index, and, if it made its keys itself, the two
    keys. *)
Theorem enclave_restarts (e : Enclave) (o : Outside) (i : IndexInfo) (rand : bytes * bytes) :
  outSealedFile_ o = None -> enclaveBaseObj_ e = Some i -> Forall (fun w => 0 <= w < 2 ^ 64) (info_words i) ->
  blen (enclaveKey_ e) = 32 -> blen (indexQueryKey_ e) = 32 -> firstBootstrap_ e = true ->
  exists w1 w2 w3, ecall Ecall_Destroy_Upload (mk_process (Some e) o) = Ok w1 /\ ecall Ecall_Enclave_Destroy w1 = Ok w2 /\
    boot rand (outside w2) = Ok w3 /\ keys_of w3 = Some (enclaveKey_ e, indexQueryKey_ e) /\ info_of w3 = Some i.
Proof.
  intros Ho Hi Hw L1 L2 Hf. destruct (Destroy_Upload_ok e o i Ho Hi) as (e1 & o1 & E1 & K1 & Q1 & F1 & Kf1 & If1 & O1).
  destruct (Enclave_Destroy_ok e1 o1 O1 ltac:(by rewrite F1)) as (o2 & E2 & Kf2 & If2 & O2).
  destruct (boot_ok rand o2) as (w3 & e3 & E3 & W3 & _ & K3 & I3).
  { rewrite Kf2, K1, Q1, blen_app. lia. }
  { rewrite If2, If1. by exists i. }
  exists (mk_process (Some e1) o1), (mk_process (Some e1) o2), w3. unfold ecall. cbn [enclave outside]. rewrite E1, E2. cbn [rbind fst snd].
  split; [done|]. split; [done|]. split; [done|]. unfold keys_of, info_of. rewrite W3. cbn [fmap option_fmap option_map mbind option_bind].
  rewrite Kf2 in K3. destruct K3 as [-> _]. rewrite I3, If2, If1, info_get_put, K1, Q1 by done.
  rewrite <- L1 at 1. rewrite slice_app_l, slice_full by lia. rewrite slice_app_r by lia. rewrite L1. change (32 - 32) with 0. rewrite <- L2 at 1. by rewrite slice_full.
Qed.

(** ** The order of the shutdown *)

(** What the clients leave in the counters before the end. *)
Definition worked (i : IndexInfo) (w : Process) : Process :=
  mk_process ((fun e => mk_enclave (enclaveKey_ e) (indexQueryKey_ e) (firstBootstrap_ e) (clientSessionKeyIndex_ e) (Some i)) <$> enclave w) (outside w).
(** The server started and shut down any number of times: what each start finds. *)
Fixpoint lives (l : list (bytes * bytes * IndexInfo)) (o : Outside) : result (list (option (bytes * bytes) * option IndexInfo) * Outside) :=
  match l with
  | [] => Ok ([], o)
  | (rand, i) :: l =>
    w <-- boot rand o ;;
    w' <-- CTRLC (worked i w) ;;
    x <-- lives l (outside w') ;;
    Ok ((keys_of w, info_of w) :: fst x, snd x)
  end.
(** New keys every time, and the counters of the life before. *)
Fixpoint found (i0 : IndexInfo) (l : list (bytes * bytes * IndexInfo)) : list (option (bytes * bytes) * option IndexInfo) :=
  match l with [] => [] | (rand, i) :: l => (Some rand, Some i0) :: found i l end.
Definition info_left (o : Outside) : IndexInfo := match info_file o with None => mk_info 0 0 0 0 0 | Some b => info_get b end.

(** One life: the counters survive the shutdown as it is, the keys do not. *)
Lemma life_ok rand i o : key_file o = None -> closed o ->
  match info_file o with None => True | Some b => exists i, b = info_put i end ->
  exists w w', boot rand o = Ok w /\ CTRLC (worked i w) = Ok w' /\ keys_of w = Some rand /\ info_of w = Some (info_left o) /\
    key_file (outside w') = None /\ closed (outside w') /\ info_file (outside w') = Some (info_put i).
Proof.
  intros Hk Ho Hi. destruct (boot_ok rand o) as (w & e & E & W & (S1 & S2 & S3) & K & I); [by rewrite Hk|done|].
  rewrite Hk in K. destruct K as [K _]. destruct w as [en o1]. cbn [enclave outside] in *. subst en.
  destruct (Destroy_Upload_ok (mk_enclave (enclaveKey_ e) (indexQueryKey_ e) (firstBootstrap_ e) (clientSessionKeyIndex_ e) (Some i)) o1 i
    ltac:(by etrans) eq_refl) as (e2 & o2 & E2 & _ & _ & _ & Kf & If & O2).
  exists (mk_process (Some e) o1), (mk_process None o2). split; [exact E|].
  unfold CTRLC, worked, ecall, keys_of, info_of. cbn [enclave outside fmap option_fmap option_map mbind option_bind]. rewrite E2.
  cbn [rbind fst snd enclave outside sgx_destroy_enclave]. split; [done|]. split; [by rewrite K|]. split; [exact I|].
  split; [by rewrite Kf, S1|]. by split.
Qed.

(** C25. A shutdown loses the keys.  The server destroys the enclave and then calls
    [Ecall_Enclave_Destroy], which was to write the keys and is not reached any more:
    however often the server is started and shut down, and whatever its clients do in
    between, there is never a key file and every start makes new keys, while the counters
    of the index, written before the enclave is destroyed, are those of the life before. *)
Theorem shutdown_loses_keys (l : list (bytes * bytes * IndexInfo)) (o : Outside) :
  key_file o = None -> closed o -> info_file o = None -> Forall (fun x => Forall (fun w => 0 <= w < 2 ^ 64) (info_words (snd x))) l ->
  exists o', lives l o = Ok (found (mk_info 0 0 0 0 0) l, o') /\ key_file o' = None.
Proof.
  intros Hk Ho Hi F. assert (G : match info_file o with None => True | Some b => exists i, b = info_put i end) by (by rewrite Hi).
  assert (E0 : mk_info 0 0 0 0 0 = info_left o) by (unfold info_left; by rewrite Hi). rewrite E0. clear Hi E0.
  revert o Hk Ho G. induction F as [|[rand i] l Hw _ IH]; intros o Hk Ho G; cbn [lives found].
  - by exists o.
  - destruct (life_ok rand i o Hk Ho G) as (w & w' & -> & E2 & K & I & Hk' & Ho' & Hi'). cbn [rbind]. rewrite E2. cbn [rbind].
    destruct (IH (outside w') Hk' Ho') as (o' & -> & Ko); [rewrite Hi'; by eexists|]. cbn [rbind fst snd]. exists o'. split; [|done].
    rewrite K, I. unfold info_left at 2. by rewrite Hi', info_get_put.
Qed.

Definition ex_keys1 : bytes * bytes := (replicate 32 5, replicate 32 3).
Definition ex_keys2 : bytes * bytes := (replicate 32 6, replicate 32 4).
Lemma shutdown_loses_keys_witness : exists o',
  lives [(ex_keys1, mk_info 9 2 7 1 4); (ex_keys2, mk_info 9 3 7 1 4)] (mk_outside None None None None) =
    Ok ([(Some ex_keys1, Some (mk_info 0 0 0 0 0)); (Some ex_keys2, Some (mk_info 9 2 7 1 4))], o') /\ key_file o' = None.
Proof.
  apply (shutdown_loses_keys [(ex_keys1, mk_info 9 2 7 1 4); (ex_keys2, mk_info 9 3 7 1 4)] (mk_outside None None None None)); [reflexivity|reflexivity|reflexivity|by_decide].
Defined.

Lemma enclave_restarts_witness : exists w1 w2 w3,
  let e := mk_enclave (replicate 32 5) (replicate 32 3) true ∅ (Some (mk_info 9 2 7 1 4)) in
  ecall Ecall_Destroy_Upload (mk_process (Some e) (mk_outside None None None None)) = Ok w1 /\ ecall Ecall_Enclave_Destroy w1 = Ok w2 /\
  boot ex_keys2 (outside w2) = Ok w3 /\ keys_of w3 = Some (enclaveKey_ e, indexQueryKey_ e) /\ info_of w3 = Some (mk_info 9 2 7 1 4).
Proof.
  apply (enclave_restarts (mk_enclave (replicate 32 5) (replicate 32 3) true ∅ (Some (mk_info 9 2 7 1 4))) (mk_outside None None None None) (mk_info 9 2 7 1 4) ex_keys2);
    [reflexivity|reflexivity|by_decide|reflexivity|reflexivity|reflexivity].
Defined.

(** ** The login of a client *)

(** Key agreement on a curve, a library's: both sides derive the same secret, of 32
    bytes on the curve that is used. *)
Class ECDH := {
  public_key : bytes -> bytes;
  derive : bytes -> bytes -> bytes      (* the other's public key, one's own private key *)
}.
Class ECDHLaws `{ECDH} := {
  derive_comm : forall a b, derive (public_key a) b = derive (public_key b) a;
  derive_size : forall a b, blen (derive (public_key a) b) = 32
}.

Section login.
Context `{EVP} `{ECDH}.
Variable cryptoObj : EcallCrypto.

(** [GeneratingSecret]: what is sent, and the session key from the answer. *)
Definition GeneratingSecret_init (privateKey : bytes) : bytes := public_key privateKey.
Definition GeneratingSecret_finish (privateKey peerKey : bytes) : bytes := derive peerKey privateKey.

(** The enclave keeps the key under the client's number and answers with its own public
    key. *)
Definition Ecall_Session_Key_Exchange (privateKey publicKeyBuffer : bytes) (clientID : Z) (e : Enclave) : bytes * Enclave :=
  let sessionKeyStr := derive publicKeyBuffer privateKey in
  (public_key privateKey,
   mk_enclave (enclaveKey_ e) (indexQueryKey_ e) (firstBootstrap_ e) (<[clientID := sessionKeyStr]> (clientSessionKeyIndex_ e)) (enclaveBaseObj_ e)).

(** [UploadLogin], [RestoreLogin]: the hash of the file's name and the encrypted hash of
    the local secret. *)
Definition Login (sessionKey localSecret fileNameHash : bytes) : result bytes :=
  masterKey <-- GenerateHash cryptoObj localSecret ;;
  enc <-- SessionKeyEnc cryptoObj masterKey sessionKey ;;
  Ok (fileNameHash ++ enc).
(** [Ecall_Init_Client], with [SetMasterKey]: the session key of the client and its
    master key. *)
Definition Ecall_Init_Client (clientID : Z) (message : bytes) (e : Enclave) : result (bytes * bytes) :=
  sessionKey <-- of_option ExitError (clientSessionKeyIndex_ e !! clientID) ;;
  masterKey <-- SessionKeyDec cryptoObj (slice message CHUNK_HASH_SIZE CHUNK_HASH_SIZE) sessionKey ;;
  Ok (sessionKey, masterKey).
End login.

(** After a login client and enclave have the same session key, and the enclave has the
    master key that the client has computed from its secret. *)
Lemma login_ok `{EVPLaws} `{!EVPBytes} `{ECDHLaws} (cryptoObj : EcallCrypto) (a b localSecret fileNameHash : bytes) (clientID : Z) (e : Enclave) :
  hashType_ cryptoObj = SHA_256 -> bytes_ok localSecret -> blen fileNameHash = 32 ->
  let '(answer, e') := Ecall_Session_Key_Exchange a (GeneratingSecret_init b) clientID e in
  let sessionKey := GeneratingSecret_finish b answer in
  exists masterKey message, GenerateHash cryptoObj localSecret = Ok masterKey /\
    Login cryptoObj sessionKey localSecret fileNameHash = Ok message /\
    Ecall_Init_Client cryptoObj clientID message e' = Ok (sessionKey, masterKey) /\ blen sessionKey = 32.
Proof.
  intros HT Hs Hf. cbn [Ecall_Session_Key_Exchange]. unfold GeneratingSecret_finish, GeneratingSecret_init, Login.
  destruct (EVP_Digest_bytes localSecret Hs) as (mk & Em & Lm & _).
  assert (Eg : GenerateHash cryptoObj localSecret = Ok mk) by (unfold GenerateHash; rewrite HT, Em; cbn [of_option rbind]; unfold blen; rewrite Lm; done).
  rewrite Eg. cbn [rbind]. destruct (SessionKey_ok cryptoObj mk (derive (public_key a) b)) as (enc & Ee & Le & De). rewrite Ee. cbn [rbind].
  exists mk, (fileNameHash ++ enc). split; [done|]. split; [done|]. split; [|apply derive_size]. unfold Ecall_Init_Client. cbn [clientSessionKeyIndex_].
  rewrite lookup_insert_eq, <- derive_comm. cbn [of_option rbind].
  replace (slice (fileNameHash ++ enc) CHUNK_HASH_SIZE CHUNK_HASH_SIZE) with enc; [by rewrite De|].
  change CHUNK_HASH_SIZE with 32. rewrite slice_app_r by lia. rewrite Hf. change (32 - 32) with 0.
  replace 32 with (blen enc) by (unfold blen; rewrite Le, Lm; done). by rewrite slice_full.
Qed.
