(* ===== verification/Network.v ===== *)
(** The messages of client and server on a connection (Comm/sslConnect.cc), over an
    interface of OpenSSL: the length in four bytes, then the data. *)
From Stdlib Require Import ZArith Lia.
From stdpp Require Import base list.
From S2P Require Import Prelude.

(** ** OpenSSL *)

(** A connection, a library's: writing gives the number of bytes written or, when that
    fails, what is not positive; so does reading, with the bytes read. *)
Class SSLConn := {
  ssl : Type;
  SSL_write : bytes -> ssl -> Z * ssl;
  SSL_read : Z -> ssl -> Z * bytes * ssl
}.
(** The documented behaviour: data travel in records of at most 16384 bytes; a write is
    complete or, when the connection is broken, fails; a read gives the bytes of one
    record, as many as it has and are asked for, or fails when the peer is gone.  Of the
    result of a call that fails only this is said: it is an [int] and not positive.
    [lasts] is how many more writes there are until the connection breaks. *)
Class SSLLaws `{SSLConn} := {
  incoming : ssl -> list bytes;
  outgoing : ssl -> list bytes;
  lasts : ssl -> nat;
  SSL_read_record : forall n c r rs, 0 < n -> incoming c = r :: rs -> r <> [] ->
    exists c', SSL_read n c = (Z.min n (blen r), take (Z.to_nat n) r, c') /\ incoming c' = if n <? blen r then drop (Z.to_nat n) r :: rs else rs;
  SSL_read_closed : forall n c, incoming c = [] -> exists v c', SSL_read n c = (v, [], c') /\ - 2 ^ 31 <= v <= 0 /\ incoming c' = [];
  SSL_write_open : forall data c, lasts c <> O -> data <> [] -> exists rs c', SSL_write data c = (blen data, c') /\ lasts c = S (lasts c') /\
    outgoing c' = outgoing c ++ rs /\ concat rs = data /\ Forall (fun r => r <> []) rs /\ (blen data <= 16384 -> rs = [data]);
  SSL_write_broken : forall data c, lasts c = O -> exists v c', SSL_write data c = (v, c') /\ - 2 ^ 31 <= v <= 0 /\ outgoing c' = outgoing c /\ lasts c' = O
}.

(** ** SSLConnection *)

(** A signed integer of 32 bits. *)
Definition int32 (z : Z) : Z := (z + 2 ^ 31) mod 2 ^ 32 - 2 ^ 31.

Section SSLConnection.
Context `{SSLConn}.

(** [SendData]: what the later writes return is added to the count, whatever it is; the
    count is signed and compared with an unsigned size. *)
Fixpoint send_loop (fuel : nat) (data : bytes) (sendedSize : Z) (c : ssl) : result ssl :=
  match fuel with
  | O => Err Fuel
  | S fuel =>
    let dataSize := blen data in
    if u32 sendedSize <? dataSize then
      if sendedSize <? 0 then Err Undefined else
      let '(n, c) := SSL_write (slice data sendedSize (dataSize - sendedSize)) c in
      send_loop fuel data (int32 (sendedSize + n)) c
    else Ok c
  end.
Definition SendData (fuel : nat) (data : bytes) (c : ssl) : result (bool * ssl) :=
  let '(writeStatus, c) := SSL_write (le_bytes 4 (blen data)) c in
  if writeStatus <=? 0 then Ok (false, c) else c <-- send_loop fuel data 0 c ;; Ok (true, c).

(** [ReceiveData] into the buffer [data]; bytes that would be written outside of it are
    undefined behaviour. *)
Fixpoint receive_loop (fuel : nat) (len : Z) (data : bytes) (receivedSize : Z) (c : ssl) : result (bytes * ssl) :=
  match fuel with
  | O => Err Fuel
  | S fuel =>
    if receivedSize <? len then
      let '(n, d, c) := SSL_read (len - receivedSize) c in
      if (receivedSize <? 0) || (blen data <? receivedSize + blen d) then Err Undefined else
      receive_loop fuel len (write data receivedSize d) (int32 (receivedSize + n)) c
    else Ok (data, c)
  end.
Definition ReceiveData (fuel : nat) (data : bytes) (c : ssl) : result (option (bytes * Z) * ssl) :=
  let '(readStatus, d, c) := SSL_read 4 c in
  if readStatus <=? 0 then Ok (None, c) else
  let len := int32 (le_val (write [0; 0; 0; 0] 0 d)) in
  x <-- receive_loop fuel len data 0 c ;; Ok (Some (fst x, len), snd x).

(** Messages one after the other: all sent, or all that a number of calls receive. *)
Fixpoint send_all (fuel : nat) (ms : list bytes) (c : ssl) : result (list bool * ssl) :=
  match ms with
  | [] => Ok ([], c)
  | m :: ms => x <-- SendData fuel m c ;; y <-- send_all fuel ms (snd x) ;; Ok (fst x :: fst y, snd y)
  end.
Fixpoint receive_all (fuel : nat) (k : nat) (data : bytes) (c : ssl) : result (list (option bytes) * ssl) :=
  match k with
  | O => Ok ([], c)
  | S k =>
    x <-- ReceiveData fuel data c ;;
    let '(message, c) := x in
    y <-- receive_all fuel k (match message with Some (data, _) => data | None => data end) c ;;
    Ok (match message with Some (data, size) => Some (slice data 0 size) | None => None end :: fst y, snd y)
  end.
End SSLConnection.

(** ** A message *)

Lemma int32_small z : - 2 ^ 31 <= z < 2 ^ 31 -> int32 z = z.
Proof. intros. unfold int32. rewrite Z.mod_small; lia. Qed.

Section message.
Context `{SSLLaws}.

(** The records of a message: its length, and then its bytes, anyhow cut. *)
Definition framed (m : bytes) (rs : list bytes) : Prop :=
  exists l, rs = le_bytes 4 (blen m) :: l /\ concat l = m /\ Forall (fun r => r <> []) l.

(** The length of a message is written, and read, at once. *)
Lemma SendData_length fuel m c : lasts c <> O -> exists c1, lasts c = S (lasts c1) /\ outgoing c1 = outgoing c ++ [le_bytes 4 (blen m)] /\
  SendData fuel m c = (c2 <-- send_loop fuel m 0 c1 ;; Ok (true, c2)).
Proof.
  intros L. unfold SendData. destruct (SSL_write_open (le_bytes 4 (blen m)) c L ltac:(done)) as (r1 & c1 & -> & L1 & O1 & _ & _ & R1).
  rewrite blen_le_bytes in R1 |- *. rewrite R1 in O1 by lia. by exists c1.
Qed.
Lemma ReceiveData_length fuel (m : bytes) l data c : incoming c = le_bytes 4 (blen m) :: l -> blen m < 2 ^ 31 -> exists c1, incoming c1 = l /\
  ReceiveData fuel data c = (x <-- receive_loop fuel (blen m) data 0 c1 ;; Ok (Some (fst x, blen m), snd x)).
Proof.
  intros I L31. unfold ReceiveData. pose proof (blen_nonneg m). destruct (SSL_read_record 4 c _ l ltac:(lia) I ltac:(done)) as (c1 & -> & I1).
  rewrite blen_le_bytes in *. rewrite take_ge by by rewrite length_le_bytes. change (write [0; 0; 0; 0] 0 (le_bytes 4 (blen m))) with (le_bytes 4 (blen m) ++ []).
  rewrite app_nil_r, le_val_le_bytes, int32_small by (change (256 ^ Z.of_nat 4) with (2 ^ 32); lia). by exists c1.
Qed.
Lemma send_loop_turn fuel m c : m <> [] -> blen m < 2 ^ 31 ->
  send_loop (S fuel) m 0 c = let '(n, c) := SSL_write m c in send_loop fuel m (int32 n) c.
Proof.
  intros Hm L31. assert (Hd : 0 < blen m) by (destruct m; [done|rewrite blen_cons; pose proof (blen_nonneg m); lia]).
  cbn [send_loop]. unfold u32 at 1. rewrite Z.mod_small, (proj2 (Z.ltb_lt _ _)) by lia. cbn [Z.ltb Z.compare]. by rewrite Z.sub_0_r, slice_full.
Qed.

Lemma SendData_ok fuel m c : (1 < fuel)%nat -> blen m < 2 ^ 31 -> (2 <= lasts c)%nat ->
  exists c' rs, SendData fuel m c = Ok (true, c') /\ outgoing c' = outgoing c ++ rs /\ framed m rs /\ (lasts c <= lasts c' + 2)%nat.
Proof.
  intros F Hm L. pose proof (blen_nonneg m). destruct (SendData_length fuel m c ltac:(lia)) as (c1 & L1 & O1 & ->). destruct fuel as [|[|fuel]]; [lia..|].
  destruct (decide (m = [])) as [->|Nm]; [cbn; exists c1, [le_bytes 4 0]; split; [done|]; split; [done|]; split; [by exists []|lia]|].
  rewrite send_loop_turn by done. destruct (SSL_write_open m c1 ltac:(lia) Nm) as (r2 & c2 & -> & L2 & O2 & C2 & N2 & _).
  cbn [send_loop]. rewrite int32_small by lia. unfold u32. rewrite Z.mod_small, Z.ltb_irrefl by lia. cbn [rbind].
  exists c2, (le_bytes 4 (blen m) :: r2). split; [done|]. split; [by rewrite O2, O1, <- app_assoc|]. split; [by exists r2|lia].
Qed.

Lemma receive_loop_ok rs : Forall (fun r => r <> []) rs -> forall fuel len data received c more, incoming c = rs ++ more ->
  0 <= received -> received + blen (concat rs) = len -> len <= blen data -> len < 2 ^ 31 -> (length (concat rs) < fuel)%nat ->
  exists c', receive_loop fuel len data received c = Ok (write data received (concat rs), c') /\ incoming c' = more.
Proof.
  induction 1 as [|r rs Hr _ IH]; intros fuel len data received c more I R0 RL LD L31 F; (destruct fuel as [|fuel]; [lia|]); cbn [receive_loop concat] in *.
  - rewrite blen_nil in RL. rewrite (proj2 (Z.ltb_ge _ _)) by lia. exists c. split; [|done]. f_equal. f_equal. unfold write. cbn [app length].
    by rewrite Nat.add_0_r, take_drop.
  - rewrite blen_app in RL. pose proof (blen_nonneg (concat rs)). assert (Hl : 0 < blen r) by (destruct r; [done|rewrite blen_cons; pose proof (blen_nonneg r); lia]).
    rewrite (proj2 (Z.ltb_lt _ _)) by lia. destruct (SSL_read_record (len - received) c r (rs ++ more) ltac:(lia) I Hr) as (c1 & -> & I1).
    rewrite take_ge by (unfold blen in *; lia). rewrite Z.min_r by lia. rewrite (proj2 (Z.ltb_ge (len - received) _)) in I1 by lia.
    rewrite (proj2 (Z.ltb_ge _ _)) by lia. rewrite (proj2 (Z.ltb_ge (blen data) _)) by lia. cbn [orb]. rewrite int32_small by lia.
    rewrite length_app in F. destruct (IH fuel len (write data received r) (received + blen r) c1 more I1) as (c2 & -> & I2);
      [lia|lia|rewrite blen_write; lia|lia|unfold blen in Hl; lia|].
    exists c2. split; [|done]. by rewrite write_write by lia.
Qed.
Lemma ReceiveData_ok fuel m rs more data c : framed m rs -> incoming c = rs ++ more -> blen m <= blen data -> blen m < 2 ^ 31 -> (length m < fuel)%nat ->
  exists c', ReceiveData fuel data c = Ok (Some (write data 0 m, blen m), c') /\ incoming c' = more.
Proof.
  intros (l & -> & C & N) I LD L31 F. pose proof (blen_nonneg m). destruct (ReceiveData_length fuel m (l ++ more) data c I L31) as (c1 & I1 & ->).
  destruct (receive_loop_ok l N fuel (blen m) data 0 c1 more I1) as (c2 & -> & I2); [lia|by rewrite C|lia|lia|by rewrite C|].
  cbn [rbind fst snd]. exists c2. by rewrite C.
Qed.

Lemma send_all_ok fuel ms c : (1 < fuel)%nat -> Forall (fun m => blen m < 2 ^ 31) ms -> (2 * length ms <= lasts c)%nat ->
  exists c' rss, send_all fuel ms c = Ok (map (fun _ => true) ms, c') /\ outgoing c' = outgoing c ++ concat rss /\ Forall2 framed ms rss.
Proof.
  intros F HM. revert c. induction HM as [|m ms Hm _ IH]; intros c L; cbn [send_all length map] in *.
  - exists c, []. split; [done|]. split; [by rewrite app_nil_r|done].
  - destruct (SendData_ok fuel m c F Hm ltac:(lia)) as (c1 & rs & -> & O1 & Fr & L1). destruct (IH c1 ltac:(lia)) as (c2 & rss & E & O2 & Frs).
    cbn [rbind fst snd]. rewrite E. cbn [rbind fst snd]. exists c2, (rs :: rss). split; [done|]. split; [|by constructor]. by rewrite O2, O1, <- app_assoc.
Qed.
Lemma receive_all_ok fuel ms rss : Forall2 framed ms rss -> forall data c, incoming c = concat rss ->
  Forall (fun m => blen m <= blen data /\ blen m < 2 ^ 31 /\ (length m < fuel)%nat) ms ->
  exists c', receive_all fuel (S (length ms)) data c = Ok (map Some ms ++ [None], c').
Proof.
  induction 1 as [|m rs ms rss Fr _ IH]; intros data c I HM.
  - cbn [length receive_all map app]. unfold ReceiveData. destruct (SSL_read_closed 4 c I) as (v & c' & -> & Hv & _). rewrite (proj2 (Z.leb_le _ _)) by lia. by exists c'.
  - apply Forall_cons in HM as [(H1 & H2 & H3) HM]. cbn [length]. remember (S (length ms)) as k. cbn [receive_all map app].
    destruct (ReceiveData_ok fuel m rs (concat rss) data c Fr I H1 H2 H3) as (c1 & -> & I1). cbn [rbind].
    pose proof (blen_nonneg m). assert (Lw : blen (write data 0 m) = blen data) by (apply blen_write; lia).
    destruct (IH (write data 0 m) c1 I1) as (c2 & E); [eapply Forall_impl; [exact HM|]; cbn; intros x; by rewrite Lw|].
    rewrite E. cbn [rbind fst snd]. exists c2. rewrite slice_write_same by lia. done.
Qed.

(** The connection is broken: the loop of the sender ends only by taking a negative
    result for a large count. *)
Lemma send_loop_broken fuel m : m <> [] -> blen m < 2 ^ 31 -> forall c, lasts c = O ->
  send_loop fuel m 0 c = Err Fuel \/ exists c', send_loop fuel m 0 c = Ok c' /\ outgoing c' = outgoing c.
Proof.
  intros Hm L31. induction fuel as [|fuel IH]; intros c L; [by left|]. rewrite send_loop_turn by done.
  destruct (SSL_write_broken m c L) as (v & c1 & -> & Hv & O1 & L1). rewrite int32_small by lia.
  destruct (decide (v = 0)) as [->|]; [rewrite <- O1; by apply IH|]. destruct fuel as [|fuel]; [by left|]. right. exists c1. split; [|done].
  cbn [send_loop]. unfold u32. rewrite <- (Z.mod_add v 1) by lia. rewrite Z.mod_small, (proj2 (Z.ltb_ge _ _)) by lia. done.
Qed.
(** How a call fails on a broken connection, when it always fails in the same way. *)
Definition write_fails (P : Z -> Prop) : Prop := forall data c, lasts c = O -> P (fst (SSL_write data c)).
Lemma send_loop_zero fuel m : m <> [] -> blen m < 2 ^ 31 -> write_fails (fun v => v = 0) -> forall c, lasts c = O -> send_loop fuel m 0 c = Err Fuel.
Proof.
  intros Hm L31 Z0. induction fuel as [|fuel IH]; intros c L; [done|]. rewrite send_loop_turn by done.
  pose proof (Z0 m c L) as V. destruct (SSL_write_broken m c L) as (v & c1 & E & Hv & O1 & L1). rewrite E in *. cbn in V. subst v. by apply IH.
Qed.
Lemma send_loop_negative fuel m c : m <> [] -> blen m < 2 ^ 31 -> write_fails (fun v => v < 0) -> lasts c = O -> (2 <= fuel)%nat ->
  exists c', send_loop fuel m 0 c = Ok c' /\ outgoing c' = outgoing c.
Proof.
  intros Hm L31 N L F. destruct fuel as [|[|fuel]]; [lia..|]. rewrite send_loop_turn by done.
  pose proof (N m c L) as V. destruct (SSL_write_broken m c L) as (v & c1 & E & Hv & O1 & L1). rewrite E in *. cbn in V. rewrite int32_small by lia.
  exists c1. split; [|done]. cbn [send_loop]. unfold u32. rewrite <- (Z.mod_add v 1) by lia. rewrite Z.mod_small, (proj2 (Z.ltb_ge _ _)) by lia. done.
Qed.

(** The peer is gone before the end of a message: the loop does not end, or it steps back
    before the buffer. *)
Lemma receive_loop_broken fuel : forall len rs data received c, incoming c = rs -> Forall (fun r => r <> []) rs ->
  0 <= received -> received + blen (concat rs) < len -> len <= blen data -> len < 2 ^ 31 ->
  receive_loop fuel len data received c = Err Fuel \/ receive_loop fuel len data received c = Err Undefined.
Proof.
  induction fuel as [|fuel IH]; intros len rs data received c I N R0 RL LD L31; [by left|]. cbn [receive_loop].
  pose proof (blen_nonneg (concat rs)). rewrite (proj2 (Z.ltb_lt _ _)) by lia. destruct rs as [|r rs].
  - change (concat []) with (@nil Z) in *. rewrite blen_nil in *.
    destruct (SSL_read_closed (len - received) c I) as (v & c1 & -> & Hv & I1). rewrite (proj2 (Z.ltb_ge _ _)), (proj2 (Z.ltb_ge (blen data) _)) by (rewrite ?blen_nil; lia).
    cbn [orb]. rewrite int32_small by lia. destruct (decide (0 <= received + v)).
    + apply (IH len [] _ (received + v) c1); try done; [cbn; rewrite ?blen_nil; lia|by rewrite blen_write by (rewrite ?blen_nil; lia)].
    + destruct fuel as [|fuel]; [by left|]. right. cbn [receive_loop]. rewrite (proj2 (Z.ltb_lt _ _)) by lia.
      destruct (SSL_read _ c1) as [[got bs] c2]. by rewrite (proj2 (Z.ltb_lt (received + v) 0)) by lia.
  - apply Forall_cons in N as [Nr N]. cbn [concat] in *. rewrite blen_app in *. pose proof (blen_nonneg (concat rs)). pose proof (blen_nonneg r).
    destruct (SSL_read_record (len - received) c r rs ltac:(lia) I Nr) as (c1 & -> & I1).
    rewrite take_ge by (unfold blen in *; lia). rewrite Z.min_r by lia. rewrite (proj2 (Z.ltb_ge (len - received) _)) in I1 by lia.
    rewrite (proj2 (Z.ltb_ge _ _)) by lia. rewrite (proj2 (Z.ltb_ge (blen data) _)) by lia. cbn [orb]. rewrite int32_small by lia.
    apply (IH len rs _ (received + blen r) c1); [done|done|lia|lia|by rewrite blen_write by lia|done].
Qed.
Definition read_fails (P : Z -> Prop) : Prop := forall n c, incoming c = [] -> P (fst (fst (SSL_read n c))).
Lemma receive_loop_spins fuel : read_fails (fun v => v = 0) -> forall len rs data received c, incoming c = rs -> Forall (fun r => r <> []) rs ->
  0 <= received -> received + blen (concat rs) < len -> len <= blen data -> len < 2 ^ 31 -> receive_loop fuel len data received c = Err Fuel.
Proof.
  intros Z0. induction fuel as [|fuel IH]; intros len rs data received c I N R0 RL LD L31; [done|]. cbn [receive_loop].
  pose proof (blen_nonneg (concat rs)). rewrite (proj2 (Z.ltb_lt _ _)) by lia. destruct rs as [|r rs].
  - pose proof (Z0 (len - received) c I) as V. destruct (SSL_read_closed (len - received) c I) as (v & c1 & E & Hv & I1). rewrite E in *. cbn in V. subst v.
    rewrite (proj2 (Z.ltb_ge _ _)), (proj2 (Z.ltb_ge (blen data) _)) by (rewrite ?blen_nil; lia).
    cbn [orb]. rewrite Z.add_0_r, int32_small by lia. apply (IH len [] _ received c1); [done..| |done]. by rewrite blen_write by (rewrite ?blen_nil; lia).
  - apply Forall_cons in N as [Nr N]. cbn [concat] in *. rewrite blen_app in *. pose proof (blen_nonneg (concat rs)). pose proof (blen_nonneg r).
    destruct (SSL_read_record (len - received) c r rs ltac:(lia) I Nr) as (c1 & -> & I1).
    rewrite take_ge by (unfold blen in *; lia). rewrite Z.min_r by lia. rewrite (proj2 (Z.ltb_ge (len - received) _)) in I1 by lia.
    rewrite (proj2 (Z.ltb_ge _ _)) by lia. rewrite (proj2 (Z.ltb_ge (blen data) _)) by lia. cbn [orb]. rewrite int32_small by lia.
    apply (IH len rs _ (received + blen r) c1); [done|done|lia|lia|by rewrite blen_write by lia|done].
Qed.
(** A message that is longer than the buffer is written past its end. *)
Lemma receive_loop_overflows rs : Forall (fun r => r <> []) rs -> forall fuel len data received c more, incoming c = rs ++ more ->
  0 <= received <= blen data -> received + blen (concat rs) = len -> blen data < len -> len < 2 ^ 31 -> (length (concat rs) < fuel)%nat ->
  receive_loop fuel len data received c = Err Undefined.
Proof.
  induction 1 as [|r rs Hr _ IH]; intros fuel len data received c more I R0 RL LD L31 F; cbn [concat] in *; [rewrite blen_nil in RL; lia|].
  destruct fuel as [|fuel]; [lia|]. cbn [receive_loop].
  rewrite blen_app in RL. pose proof (blen_nonneg (concat rs)). assert (Hl : 0 < blen r) by (destruct r; [done|rewrite blen_cons; pose proof (blen_nonneg r); lia]).
  rewrite (proj2 (Z.ltb_lt _ _)) by lia. destruct (SSL_read_record (len - received) c r (rs ++ more) ltac:(lia) I Hr) as (c1 & -> & I1).
  rewrite take_ge by (unfold blen in *; lia). rewrite Z.min_r by lia. rewrite (proj2 (Z.ltb_ge (len - received) _)) in I1 by lia.
  rewrite (proj2 (Z.ltb_ge _ _)) by lia. destruct (blen data <? received + blen r) eqn:E; boolz; [done|]. cbn [orb]. rewrite int32_small by lia.
  rewrite length_app in F. apply (IH fuel len _ (received + blen r) c1 more I1); [rewrite blen_write by lia; lia|lia|rewrite blen_write by lia; lia|lia|unfold blen in Hl; lia].
Qed.
End message.

(** ** Theorems *)

(** C18. Messages arrive: what is sent one after the other on a connection that lasts is
    received one after the other, byte for byte, however the connection cuts it into
    records, by a receiver whose buffer has room for each; and then the receiver learns
    that there is no more. *)
Theorem messages_arrive `{SSLLaws} (fuel : nat) (ms : list bytes) (c : ssl) :
  (1 < fuel)%nat -> Forall (fun m => blen m < 2 ^ 31 /\ (length m < fuel)%nat) ms -> outgoing c = [] -> (2 * length ms <= lasts c)%nat ->
  exists c', send_all fuel ms c = Ok (map (fun _ => true) ms, c') /\
    forall (d : ssl) (data : bytes), incoming d = outgoing c' -> Forall (fun m => blen m <= blen data) ms ->
    exists d', receive_all fuel (S (length ms)) data d = Ok (map Some ms ++ [None], d').
Proof.
  intros F HM O L. destruct (send_all_ok fuel ms c F) as (c' & rss & E & O' & Fr); [by eapply Forall_impl; [exact HM|]; cbn; intros x []|done|].
  exists c'. split; [done|]. intros d data I LD. rewrite O', O in I. apply (receive_all_ok fuel ms rss Fr data d I).
  rewrite Forall_forall in *. intros m Hm. destruct (HM m Hm). split; [by apply LD|done].
Qed.

(** C19. What the code does not check.  A connection that breaks after the length of a
    message, with calls that fail by returning any number that is not positive.
    [SendData] never reports it: it does not end (with calls that return zero), or says
    that all went well although no byte of the message is on its way (with calls that
    return a negative number).  [ReceiveData] never reports it either, nor does it ever
    come back with a message: it does not end (zero again) or steps back before the buffer.
    And a message that is longer than the receiver's buffer is written past its end. *)
Theorem broken_connection `{SSLLaws} (m : bytes) (c : ssl) :
  m <> [] -> blen m < 2 ^ 31 -> lasts c = 1%nat ->
  (forall fuel, SendData fuel m c = Err Fuel \/ exists c', SendData fuel m c = Ok (true, c') /\ outgoing c' = outgoing c ++ [le_bytes 4 (blen m)]) /\
  (write_fails (fun v => v = 0) -> forall fuel, SendData fuel m c = Err Fuel) /\
  (write_fails (fun v => v < 0) -> forall fuel, (2 <= fuel)%nat -> exists c', SendData fuel m c = Ok (true, c')) /\
  (forall (d : ssl) (data : bytes) (some : list bytes), incoming d = le_bytes 4 (blen m) :: some -> Forall (fun r => r <> []) some ->
     blen (concat some) < blen m -> blen m <= blen data ->
     (forall fuel, ReceiveData fuel data d = Err Fuel \/ ReceiveData fuel data d = Err Undefined) /\
     (read_fails (fun v => v = 0) -> forall fuel, ReceiveData fuel data d = Err Fuel)) /\
  (forall (d : ssl) (data : bytes) (rs more : list bytes), framed m rs -> incoming d = rs ++ more -> blen data < blen m ->
     ReceiveData (S (length m)) data d = Err Undefined).
Proof.
  intros Hm L31 L. pose proof (blen_nonneg m) as Hn. split; [|split; [|split; [|split]]].
  - intros fuel. destruct (SendData_length fuel m c ltac:(lia)) as (c1 & L1 & O1 & ->).
    destruct (send_loop_broken fuel m Hm L31 c1 ltac:(lia)) as [->|(c2 & -> & O2)]; [by left|right]. cbn [rbind]. exists c2. by rewrite O2.
  - intros Z0 fuel. destruct (SendData_length fuel m c ltac:(lia)) as (c1 & L1 & O1 & ->). by rewrite (send_loop_zero fuel m Hm L31 Z0 c1) by lia.
  - intros N fuel F. destruct (SendData_length fuel m c ltac:(lia)) as (c1 & L1 & O1 & ->).
    destruct (send_loop_negative fuel m c1 Hm L31 N ltac:(lia) F) as (c2 & -> & _). by exists c2.
  - intros d data some I N S1 LD. split; [intros fuel|intros Z0 fuel]; destruct (ReceiveData_length fuel m some data d I L31) as (c1 & I1 & ->).
    + destruct (receive_loop_broken fuel (blen m) some data 0 c1 I1 N ltac:(lia) S1 LD L31) as [-> | ->]; [by left|by right].
    + by rewrite (receive_loop_spins fuel Z0 (blen m) some data 0 c1 I1).
  - intros d data rs more (l & -> & C & N) I LD. destruct (ReceiveData_length (S (length m)) m (l ++ more) data d I L31) as (c1 & I1 & ->).
    rewrite (receive_loop_overflows l N (S (length m)) (blen m) data 0 c1 more I1); [done|pose proof (blen_nonneg data); lia|by rewrite C|lia|lia|rewrite C; lia].
Qed.

(** ** Witnesses *)

(** A connection in memory: the records that wait, the records written, and for how many
    writes it lasts; then a write gives -1, and a read with nothing left gives 0. *)
Definition pipe_ssl : SSLConn := {|
  ssl := list bytes * list bytes * nat;
  SSL_write := fun data '(i, o, l) => match l with O => (-1, (i, o, O)) | S l => (blen data, (i, o ++ [data], l)) end;
  SSL_read := fun n '(i, o, l) =>
    match i with
    | [] => (0, [], (i, o, l))
    | r :: rs => (Z.min n (blen r), take (Z.to_nat n) r, (if n <? blen r then drop (Z.to_nat n) r :: rs else rs, o, l))
    end |}.
Definition pipe_laws : @SSLLaws pipe_ssl.
Proof.
  refine {| incoming := fun c : @ssl pipe_ssl => fst (fst c); outgoing := fun c : @ssl pipe_ssl => snd (fst c); lasts := fun c : @ssl pipe_ssl => snd c |}.
  - intros n [[i o] l] r rs _ E _. cbn in E. subst i. by eexists.
  - intros n [[i o] l] E. cbn in E. subst i. by exists 0, ([], o, l).
  - intros data [[i o] [|l]] N D; [done|]. exists [data]. eexists. split; [reflexivity|]. split; [done|]. split; [done|]. split; [apply app_nil_r|].
    split; [by constructor|done].
  - intros data [[i o] l] E. cbn in E. subst l. by exists (-1), (i, o, O).
Defined.

Lemma messages_arrive_witness : exists c' : @ssl pipe_ssl, @send_all pipe_ssl 10 [[1; 2; 3]; []; [4]] ([], [], 6%nat) = Ok ([true; true; true], c') /\
  forall (d : @ssl pipe_ssl) data, @incoming pipe_ssl pipe_laws d = @outgoing pipe_ssl pipe_laws c' -> Forall (fun m : bytes => blen m <= blen data) [[1; 2; 3]; []; [4]] ->
  exists d', @receive_all pipe_ssl 10 4 data d = Ok ([Some [1; 2; 3]; Some []; Some [4]; None], d').
Proof.
  apply (@messages_arrive pipe_ssl pipe_laws 10 [[1; 2; 3]; []; [4]] ([], [], 6%nat)); [lia|repeat constructor|reflexivity|cbn; lia].
Defined.
Lemma broken_connection_witness :
  (exists c' : @ssl pipe_ssl, @SendData pipe_ssl 2 [1; 2] ([], [], 1%nat) = Ok (true, c')) /\
  (forall fuel, @ReceiveData pipe_ssl fuel [0; 0; 0] ([le_bytes 4 2; [1]], [], 0%nat) = Err Fuel) /\
  @ReceiveData pipe_ssl 3 [0] ([le_bytes 4 2; [1; 2]], [], 0%nat) = Err Undefined.
Proof.
  destruct (@broken_connection pipe_ssl pipe_laws [1; 2] ([], [], 1%nat)) as (_ & _ & A & B & C); [discriminate|reflexivity|reflexivity|].
  split; [|split].
  - apply A; [|lia]. intros data [[i o] l] E. cbn in E. subst l. reflexivity.
  - apply (B ([le_bytes 4 2; [1]], [], 0%nat) [0; 0; 0] [[1]]); [reflexivity|by repeat constructor|reflexivity|by_decide|].
    intros n [[i o] l] E. cbn in E. subst i. reflexivity.
  - apply (C ([le_bytes 4 2; [1; 2]], [], 0%nat) [0] [le_bytes 4 2; [1; 2]] []); [|reflexivity|reflexivity].
    exists [[1; 2]]. split; [reflexivity|]. split; [reflexivity|by repeat constructor].
Defined.
