(* ===== verification/Connections.v ===== *)
(** The connections of the server (ServerOptThread::Run of Server/serverOptThread.cc, one
    thread each, started by App/dbeServer.cc): the protocol up to the login, the lock of
    each client number, the session keys, and what one connection can do to another. *)
From Stdlib Require Import ZArith Lia.
From stdpp Require Import base list gmap.
From S2P Require Import Prelude Types Crypto RestoreCorrect Session Client Enclave.

(** ** Data *)

(** The codes of [enum PROTCOL_CODE_SET] that are used here. *)
Definition CLIENT_LOGIN_UPLOAD : Z := 2.
Definition CLIENT_LOGIN_DOWNLOAD : Z := 3.
Definition SERVER_LOGIN_RESPONSE : Z := 7.
Definition SERVER_FILE_NON_EXIST : Z := 8.
Definition SGX_RA_NEED : Z := 13.
Definition SGX_RA_NOT_NEED : Z := 14.
Definition SGX_RA_NOT_SUPPORT : Z := 15.
Definition SESSION_KEY_INIT : Z := 16.
Definition SESSION_KEY_REPLY : Z := 17.
Definition CLIENT_LOGIN_OFFLINE : Z := 18.
Inductive OptType := UPLOAD_OPT | DOWNLOAD_OPT | RA_OPT | OFFLINE_OPT.
#[export] Instance OptType_eq_dec : EqDecision OptType.
Proof. solve_decision. Defined.

Record NetworkMessage := mk_network { nm_type : Z; nm_clientID : Z; nm_data : bytes }.

(** Where the thread of a connection is. *)
Inductive Conn_pc :=
| RecvRA                        (* waits for the decision about remote attestation *)
| CloseRA                       (* no attestation: waits for the end *)
| RecvInit                      (* waits for the session key request *)
| LockSet                       (* wants [clientLockSetLock_] *)
| LockClient                    (* has it, and wants the lock of its client *)
| KeyExchange
| RecvLogin
| CheckFile (opt : OptType)
| RejectWait                    (* the file does not exist: waits for the end *)
| InitClient (opt : OptType)
| Serving (opt : OptType) (todo : nat)   (* [todo] steps of its threads are left *)
| UnlockClient
| Gone.

#[export] Instance Conn_pc_eq_dec : EqDecision Conn_pc.
Proof. solve_decision. Defined.

(** A connection: what the client will send before it closes the connection, whether the
    next replies reach it, how long its threads will work, the head of the file it
    uploads, and the variables of [Run]. *)
Record Conn := mk_conn {
  cn_pc : Conn_pc;
  cn_in : list NetworkMessage;
  cn_sends : list bool;
  cn_work : nat;
  cn_head : bytes;
  cn_out : list (Z * bytes);
  clientID : Z;
  recv_data : bytes;
  cn_keys : option (bytes * bytes)      (* session key and master key in the enclave *)
}.
Definition go (c : Conn) (pc : Conn_pc) : Conn :=
  mk_conn pc (cn_in c) (cn_sends c) (cn_work c) (cn_head c) (cn_out c) (clientID c) (recv_data c) (cn_keys c).
Definition arrive (c : Conn) : Conn := mk_conn RecvRA (cn_in c) (cn_sends c) (cn_work c) (cn_head c) [] 0 [] None.

(** What the threads share: the lock of the set, the locks of the clients, by number,
    each free or owned by a thread, the enclave, the heads of the recipe files (what
    follows a head is the work of the threads of a connection), the counters. *)
Record Shared := mk_shared {
  clientLockSetLock_ : option nat;
  clientLockIndex_ : gmap Z (option nat);
  sh_enclave : Enclave;
  recipeHeads : gmap bytes bytes;
  totalUploadReqNum_ : Z;
  totalRestoreReqNum_ : Z
}.
Definition set_locks (s : Shared) (l : option nat) (m : gmap Z (option nat)) : Shared :=
  mk_shared l m (sh_enclave s) (recipeHeads s) (totalUploadReqNum_ s) (totalRestoreReqNum_ s).

(** ** A step of a thread *)

Section run.
Context `{EVP} `{ECDH}.
Variable cryptoObj : EcallCrypto.
(** The private key that the enclave draws for each connection. *)
Variable privateKey : nat -> bytes.
(** What the memory of a new recipe head holds. *)
Variable virtualRecipeEnd : bytes.

(** Receiving and sending ([SSLConnection], see Network.v); whoever calls them ends the program when they fail. *)
Definition recv_message (c : Conn) : result (NetworkMessage * Conn) :=
  match cn_in c with
  | [] => Err ExitError
  | m :: rest => Ok (m, mk_conn (cn_pc c) rest (cn_sends c) (cn_work c) (cn_head c) (cn_out c) (clientID c) (recv_data c) (cn_keys c))
  end.
Definition send_message (c : Conn) (type : Z) (data : bytes) : result Conn :=
  if hd true (cn_sends c) then
    Ok (mk_conn (cn_pc c) (cn_in c) (tail (cn_sends c)) (cn_work c) (cn_head c) (cn_out c ++ [(type, data)]) (clientID c) (recv_data c) (cn_keys c))
  else Err ExitError.

Definition CheckFileStatus (exists_ : bool) (optType : OptType) : bool :=
  match optType with DOWNLOAD_OPT => exists_ | _ => true end.
Definition login_type (type : Z) : result OptType :=
  if type =? CLIENT_LOGIN_UPLOAD then Ok UPLOAD_OPT
  else if type =? CLIENT_LOGIN_DOWNLOAD then Ok DOWNLOAD_OPT
  else if type =? CLIENT_LOGIN_OFFLINE then Ok OFFLINE_OPT else Err ExitError.
(** The name of the recipe file, less prefix and suffix. *)
Definition recipe_file_name (c : Conn) : bytes := hex (slice (recv_data c) 0 CHUNK_HASH_SIZE).
Definition took (c : Conn) (pc : Conn_pc) (id : Z) (data : bytes) : Conn :=
  mk_conn pc (cn_in c) (cn_sends c) (cn_work c) (cn_head c) (cn_out c) id data (cn_keys c).

Definition set_heads (s : Shared) (heads : gmap bytes bytes) (up re : Z) : Shared :=
  mk_shared (clientLockSetLock_ s) (clientLockIndex_ s) (sh_enclave s) heads up re.
(** The buffers of the client, its keys in the enclave, the start of its threads. An
    upload creates the recipe file, with any head at first; a download is answered with
    the head. *)
Definition init_client (opt : OptType) (s : Shared) (c : Conn) : result (Shared * Conn) :=
  let name := recipe_file_name c in
  x <-- match opt with
        | DOWNLOAD_OPT =>
          head <-- of_option ExitError (recipeHeads s !! name) ;;
          Ok (set_heads s (recipeHeads s) (totalUploadReqNum_ s) (u64 (totalRestoreReqNum_ s + 1)), head)
        | RA_OPT => Err ExitError
        | UPLOAD_OPT | OFFLINE_OPT => Ok (set_heads s (<[name := virtualRecipeEnd]> (recipeHeads s)) (u64 (totalUploadReqNum_ s + 1)) (totalRestoreReqNum_ s), [])
        end ;;
  keys <-- Ecall_Init_Client cryptoObj (clientID c) (recv_data c) (sh_enclave s) ;;
  c <-- send_message c SERVER_LOGIN_RESPONSE (snd x) ;;
  Ok (fst x, mk_conn (Serving opt (cn_work c)) (cn_in c) (cn_sends c) (cn_work c) (cn_head c) (cn_out c) (clientID c) (recv_data c) (Some keys)).
(** The end of the threads: the receiver of an upload has written the head. *)
Definition join (opt : OptType) (s : Shared) (c : Conn) : Shared :=
  match opt with
  | DOWNLOAD_OPT | RA_OPT => s
  | UPLOAD_OPT | OFFLINE_OPT => set_heads s (<[recipe_file_name c := cn_head c]> (recipeHeads s)) (totalUploadReqNum_ s) (totalRestoreReqNum_ s)
  end.

(** [Run] of thread [t], up to the next thing that others can see; a thread that waits
    for a lock stays as it is. *)
Definition conn_step (t : nat) (s : Shared) (c : Conn) : result (Shared * Conn) :=
  match cn_pc c with
  | RecvRA =>
    x <-- recv_message c ;;
    let '(m, c) := x in
    if nm_type m =? SGX_RA_NOT_SUPPORT then Ok (s, go c CloseRA)
    else if nm_type m =? SGX_RA_NOT_NEED then Ok (s, go c RecvInit) else Err ExitError
  | CloseRA => Ok (s, go c Gone)
  | RecvInit =>
    x <-- recv_message c ;;
    let '(m, c) := x in
    if nm_type m =? SESSION_KEY_INIT then Ok (s, took c LockSet (nm_clientID m) (nm_data m)) else Err ExitError
  | LockSet =>
    match clientLockSetLock_ s with
    | None => Ok (set_locks s (Some t) (clientLockIndex_ s), go c LockClient)
    | Some _ => Ok (s, c)
    end
  | LockClient =>
    match clientLockIndex_ s !! clientID c with
    | Some (Some _) => Ok (s, c)
    | Some None | None => Ok (set_locks s None (<[clientID c := Some t]> (clientLockIndex_ s)), go c KeyExchange)
    end
  | KeyExchange =>
    let '(answer, e) := Ecall_Session_Key_Exchange (privateKey t) (recv_data c) (clientID c) (sh_enclave s) in
    c <-- send_message c SESSION_KEY_REPLY answer ;;
    Ok (mk_shared (clientLockSetLock_ s) (clientLockIndex_ s) e (recipeHeads s) (totalUploadReqNum_ s) (totalRestoreReqNum_ s), took c RecvLogin (clientID c) (write (recv_data c) 0 answer))
  | RecvLogin =>
    x <-- recv_message c ;;
    let '(m, c) := x in
    opt <-- login_type (nm_type m) ;; Ok (s, took c (CheckFile opt) (clientID c) (write (recv_data c) 0 (nm_data m)))
  | CheckFile opt =>
    if CheckFileStatus (bool_decide (is_Some (recipeHeads s !! recipe_file_name c))) opt then Ok (s, go c (InitClient opt))
    else c <-- send_message c SERVER_FILE_NON_EXIST [] ;; Ok (s, go c RejectWait)
  | RejectWait => match cn_in c with [] => Ok (s, go c UnlockClient) | _ => Err ExitError end
  | InitClient opt => init_client opt s c
  | Serving opt (S todo) => Ok (s, go c (Serving opt todo))
  | Serving opt O => Ok (join opt s c, go c UnlockClient)
  | UnlockClient => Ok (set_locks s (clientLockSetLock_ s) (<[clientID c := None]> (clientLockIndex_ s)), go c Gone)
  | Gone => Ok (s, c)
  end.

(** ** The threads under a schedule *)

Definition Listening : Type := Shared * list Conn.
Definition world_step (t : nat) (w : Listening) : result Listening :=
  match snd w !! t with
  | None => Ok w
  | Some c => x <-- conn_step t (fst w) c ;; Ok (fst x, <[t := snd x]> (snd w))
  end.
(** The server after [n] steps, [sched i] is who makes step [i]; [Err] is the end of the
    whole program. *)
Fixpoint serve (sched : nat -> nat) (n : nat) (w : Listening) : result Listening :=
  match n with O => Ok w | S n => w <-- serve sched n w ;; world_step (sched n) w end.
(** A server on which no connection has been accepted before these. *)
Definition opening (e : Enclave) (files : gmap bytes bytes) (cs : list Conn) : Listening :=
  (mk_shared None ∅ e files 0 0, map arrive cs).

(** ** One step of one thread *)

(** A thread that has the lock of its client; one whose session key is in the enclave,
    and not yet taken from there. *)
Definition holds_lock (c : Conn) : bool :=
  match cn_pc c with KeyExchange | RecvLogin | CheckFile _ | RejectWait | InitClient _ | Serving _ _ | UnlockClient => true | _ => false end.
Definition key_waits (c : Conn) : bool := match cn_pc c with RecvLogin | CheckFile _ | InitClient _ => true | _ => false end.
Definition at_set (c : Conn) : bool := match cn_pc c with LockClient => true | _ => false end.
Abbreviation keys_of s := (clientSessionKeyIndex_ (sh_enclave s)).

(** What a step does to the locks and to the session keys. *)
Inductive move (t : nat) (s : Shared) (c : Conn) : Shared -> Conn -> Prop :=
| move_quiet s' c' :
    clientLockSetLock_ s' = clientLockSetLock_ s -> clientLockIndex_ s' = clientLockIndex_ s -> sh_enclave s' = sh_enclave s ->
    holds_lock c' = holds_lock c -> at_set c' = at_set c -> (holds_lock c = true -> clientID c' = clientID c) -> (key_waits c' = true -> key_waits c = true) ->
    (cn_keys c' = cn_keys c \/ key_waits c = true /\ exists keys, cn_keys c' = Some keys /\ keys_of s !! clientID c = Some (fst keys)) -> move t s c s' c'
| move_set : clientLockSetLock_ s = None -> cn_pc c = LockSet -> move t s c (set_locks s (Some t) (clientLockIndex_ s)) (go c LockClient)
| move_client : cn_pc c = LockClient -> (forall u, clientLockIndex_ s !! clientID c <> Some (Some u)) ->
    move t s c (set_locks s None (<[clientID c := Some t]> (clientLockIndex_ s))) (go c KeyExchange)
| move_key s' c' : cn_pc c = KeyExchange -> cn_pc c' = RecvLogin -> clientID c' = clientID c -> cn_keys c' = cn_keys c ->
    clientLockSetLock_ s' = clientLockSetLock_ s -> clientLockIndex_ s' = clientLockIndex_ s ->
    keys_of s' = <[clientID c := derive (recv_data c) (privateKey t)]> (keys_of s) -> move t s c s' c'
| move_unlock : cn_pc c = UnlockClient ->
    move t s c (set_locks s (clientLockSetLock_ s) (<[clientID c := None]> (clientLockIndex_ s))) (go c Gone).

Lemma recv_message_ok c m c' : recv_message c = Ok (m, c') ->
  exists rest, cn_in c = m :: rest /\ c' = mk_conn (cn_pc c) rest (cn_sends c) (cn_work c) (cn_head c) (cn_out c) (clientID c) (recv_data c) (cn_keys c).
Proof. unfold recv_message. destruct (cn_in c) as [|m' rest]; [done|]. intros [= <- <-]. by exists rest. Qed.
Lemma send_message_ok c type data c' : send_message c type data = Ok c' ->
  exists l, c' = mk_conn (cn_pc c) (cn_in c) l (cn_work c) (cn_head c) (cn_out c ++ [(type, data)]) (clientID c) (recv_data c) (cn_keys c).
Proof. unfold send_message. case_if; [|done]. intros [= <-]. by eexists. Qed.
Ltac quiet P := apply move_quiet; unfold holds_lock, at_set, key_waits; cbn; rewrite ?P; try done; try (by left).

Lemma init_client_ok opt s c s' c' : init_client opt s c = Ok (s', c') ->
  exists l out keys up re heads, s' = set_heads s heads up re /\ Ecall_Init_Client cryptoObj (clientID c) (recv_data c) (sh_enclave s) = Ok keys /\
    c' = mk_conn (Serving opt (cn_work c)) (cn_in c) l (cn_work c) (cn_head c) (cn_out c ++ [(SERVER_LOGIN_RESPONSE, out)]) (clientID c) (recv_data c) (Some keys).
Proof.
  unfold init_client. intros E. inv_bind E. destruct a as [s1 out]. inv_bind E. inv_bind E. apply send_message_ok in E2 as (l & ->). injection E as <- <-.
  assert (exists heads up re, s1 = set_heads s heads up re) as (heads & up & re & ->).
  { destruct opt; [|inv_bind E0|discriminate E0|]; injection E0 as <- <-; by eexists _, _, _. }
  by eexists _, _, _, _, _, _.
Qed.
Lemma join_same opt s c : clientLockSetLock_ (join opt s c) = clientLockSetLock_ s /\ clientLockIndex_ (join opt s c) = clientLockIndex_ s /\ sh_enclave (join opt s c) = sh_enclave s.
Proof. by destruct opt. Qed.
Lemma Init_Client_key e id message keys : Ecall_Init_Client cryptoObj id message e = Ok keys -> clientSessionKeyIndex_ e !! id = Some (fst keys).
Proof.
  unfold Ecall_Init_Client. destruct (clientSessionKeyIndex_ e !! id) as [k|]; [|done]. cbn [of_option rbind]. intros E. inv_bind E. by injection E as <-.
Qed.

Lemma conn_step_move t s c s' c' : conn_step t s c = Ok (s', c') -> move t s c s' c'.
Proof.
  unfold conn_step. destruct (cn_pc c) as [| | | | | | |opt| |opt|opt [|todo]| |] eqn:P; intros E.
  - inv_bind E. destruct a as [m c1]. apply recv_message_ok in E0 as (rest & _ & ->). repeat case_if_in E; try done; injection E as <- <-; quiet P.
  - injection E as <- <-. quiet P.
  - inv_bind E. destruct a as [m c1]. apply recv_message_ok in E0 as (rest & _ & ->). case_if_in E; [|done]. injection E as <- <-. quiet P.
  - destruct (clientLockSetLock_ s) eqn:L; injection E as <- <-; [quiet P|by apply move_set].
  - destruct (clientLockIndex_ s !! clientID c) as [[u|]|] eqn:L; injection E as <- <-; [quiet P|apply move_client..]; try done; intros u; by rewrite L.
  - cbn [Ecall_Session_Key_Exchange] in E. inv_bind E. apply send_message_ok in E0 as (l & ->). injection E as <- <-. by apply move_key.
  - inv_bind E. destruct a as [m c1]. apply recv_message_ok in E0 as (rest & _ & ->). inv_bind E. injection E as <- <-. quiet P.
  - case_if_in E; [injection E as <- <-; quiet P|]. inv_bind E. apply send_message_ok in E1 as (l & ->). injection E as <- <-. quiet P.
  - destruct (cn_in c); [|done]. injection E as <- <-. quiet P.
  - apply init_client_ok in E as (l & out & keys & up & re & heads & -> & K & ->). apply Init_Client_key in K. quiet P. right. split; [done|by eexists].
  - injection E as <- <-. destruct (join_same opt s c) as (? & ? & ?). quiet P.
  - injection E as <- <-. quiet P.
  - injection E as <- <-. by apply move_unlock.
  - injection E as <- <-. quiet P.
Qed.

(** ** What holds at every step *)

(** The messages of a connection: [c0] is the connection as it arrived. *)
Definition exchange_of (c0 : Conn) : option NetworkMessage := cn_in c0 !! 1%nat.
Definition follows (c0 c : Conn) : Prop :=
  match cn_pc c with
  | RecvRA => cn_in c = cn_in c0
  | RecvInit => exists ra, cn_in c0 = ra :: cn_in c
  | CloseRA | Gone => True
  | LockSet | LockClient | KeyExchange => exists ra m, cn_in c0 = ra :: m :: cn_in c /\ clientID c = nm_clientID m /\ recv_data c = nm_data m
  | RecvLogin => exists ra m, cn_in c0 = ra :: m :: cn_in c /\ clientID c = nm_clientID m
  | CheckFile _ | RejectWait | InitClient _ | Serving _ _ | UnlockClient =>
    exists ra m l, cn_in c0 = ra :: m :: l :: cn_in c /\ clientID c = nm_clientID m
  end.
(** The session key that the client of a connection has agreed on. *)
Definition own_key (t : nat) (c0 : Conn) (k : bytes) : Prop := exists m, exchange_of c0 = Some m /\ k = derive (nm_data m) (privateKey t).

Lemma conn_step_follows t s c s' c' c0 : conn_step t s c = Ok (s', c') -> follows c0 c -> follows c0 c'.
Proof.
  unfold conn_step, follows. destruct (cn_pc c) as [| | | | | | |opt| |opt|opt [|todo]| |] eqn:P; intros E F.
  - inv_bind E. destruct a as [m c1]. apply recv_message_ok in E0 as (rest & Ei & ->). rewrite F in Ei. repeat case_if_in E; try done; injection E as <- <-; cbn; [done|by exists m].
  - by injection E as <- <-.
  - inv_bind E. destruct a as [m c1]. apply recv_message_ok in E0 as (rest & Ei & ->). case_if_in E; [|done]. injection E as <- <-. destruct F as [ra F]. rewrite Ei in F. cbn. by exists ra, m.
  - destruct (clientLockSetLock_ s); injection E as <- <-; [by rewrite P|done].
  - destruct (clientLockIndex_ s !! clientID c) as [[u|]|]; injection E as <- <-; [by rewrite P|done..].
  - cbn [Ecall_Session_Key_Exchange] in E. inv_bind E. apply send_message_ok in E0 as (l & ->). injection E as <- <-. destruct F as (ra & m & F1 & F2 & _). cbn. by exists ra, m.
  - inv_bind E. destruct a as [m c1]. apply recv_message_ok in E0 as (rest & Ei & ->). inv_bind E. injection E as <- <-. destruct F as (ra & m' & F1 & F2). rewrite Ei in F1. cbn. by exists ra, m', m.
  - case_if_in E; [by injection E as <- <-|]. inv_bind E. apply send_message_ok in E1 as (l & ->). by injection E as <- <-.
  - destruct (cn_in c) eqn:Ei; [|done]. injection E as <- <-. cbn. rewrite Ei. exact F.
  - by apply init_client_ok in E as (l & out & keys & up & re & heads & -> & K & ->).
  - by injection E as <- <-.
  - by injection E as <- <-.
  - by injection E as <- <-.
  - injection E as <- <-. by rewrite P.
Qed.

(** The owners of the locks are the threads that are between the locking and the
    unlocking, and session keys are one's own. *)
Record world_inv (cs : list Conn) (w : Listening) : Prop := {
  inv_follows t c : snd w !! t = Some c -> exists c0, cs !! t = Some c0 /\ follows c0 c;
  inv_set t : clientLockSetLock_ (fst w) = Some t <-> exists c, snd w !! t = Some c /\ at_set c = true;
  inv_client i t : clientLockIndex_ (fst w) !! i = Some (Some t) <-> exists c, snd w !! t = Some c /\ holds_lock c = true /\ clientID c = i;
  inv_waits t c : snd w !! t = Some c -> key_waits c = true ->
    exists c0 k, cs !! t = Some c0 /\ own_key t c0 k /\ keys_of (fst w) !! clientID c = Some k;
  inv_keys t c keys : snd w !! t = Some c -> cn_keys c = Some keys -> exists c0, cs !! t = Some c0 /\ own_key t c0 (fst keys)
}.

Lemma opening_inv e files cs : world_inv cs (opening e files cs).
Proof.
  split; cbn.
  - intros t c. rewrite list_lookup_fmap. destruct (cs !! t) as [c0|] eqn:E; [|done]. intros [= <-]. by exists c0.
  - intros t. split; [done|]. intros (c & L & A). rewrite list_lookup_fmap in L. destruct (cs !! t); [|done]. by injection L as <-.
  - intros i t. rewrite lookup_empty. split; [done|]. intros (c & L & A & _). rewrite list_lookup_fmap in L. destruct (cs !! t); [|done]. by injection L as <-.
  - intros t c. rewrite list_lookup_fmap. destruct (cs !! t); [|done]. by intros [= <-].
  - intros t c keys. rewrite list_lookup_fmap. destruct (cs !! t); [|done]. by intros [= <-].
Qed.

(** After a step of thread [t] from [c] to [c'], what is so of a thread is so of another
    as before, and of [t] as of [c']. *)
Lemma at_step (cs : list Conn) t c c' (P : Conn -> Prop) u : cs !! t = Some c ->
  (exists d, <[t:=c']> cs !! u = Some d /\ P d) <-> (u = t /\ P c') \/ (u <> t /\ exists d, cs !! u = Some d /\ P d).
Proof.
  intros L. destruct (decide (u = t)) as [->|N].
  - rewrite list_lookup_insert_eq by by apply lookup_lt_is_Some_1. split; [intros (d & [= <-] & A); by left|].
    intros [[_ A]|[]]; [by exists c'|done].
  - rewrite list_lookup_insert_ne by done. split; [by right|]. by intros [[]|[_ A]].
Qed.

Lemma waits_holds c : key_waits c = true -> holds_lock c = true.
Proof. unfold key_waits, holds_lock. by destruct (cn_pc c). Qed.
(** What the invariant says of the thread [t] itself. *)
Lemma inv_own cs w t c : world_inv cs w -> snd w !! t = Some c ->
  (at_set c = true <-> clientLockSetLock_ (fst w) = Some t) /\ (holds_lock c = true -> clientLockIndex_ (fst w) !! clientID c = Some (Some t)).
Proof.
  intros I L. split.
  - rewrite (inv_set _ _ I). split; [by exists c|]. intros (d & L' & A). rewrite L in L'. by injection L' as ->.
  - intros A. apply (inv_client _ _ I). by exists c.
Qed.

Lemma set_step cs w t c s' c' : world_inv cs w -> snd w !! t = Some c -> move t (fst w) c s' c' ->
  forall u, clientLockSetLock_ s' = Some u <-> exists d, <[t:=c']> (snd w) !! u = Some d /\ at_set d = true.
Proof.
  intros I L M u. rewrite (at_step _ _ _ _ _ _ L). pose proof (inv_set _ _ I u) as Hu. destruct (inv_own _ _ _ _ I L) as [Ht _].
  assert (Same : clientLockSetLock_ s' = clientLockSetLock_ (fst w) -> at_set c' = at_set c ->
    clientLockSetLock_ s' = Some u <-> u = t /\ at_set c' = true \/ u <> t /\ exists d, snd w !! u = Some d /\ at_set d = true).
  { intros -> ->. destruct (decide (u = t)) as [->|N]; [rewrite <- Ht|rewrite Hu]; tauto. }
  destruct M as [s' c' E _ _ _ A _ _ _|E P|P _|s' c' P P' _ _ E _ _|P].
  - by apply Same.
  - cbn. split; [intros [= <-]; by left|]. intros [[-> _]|[_ A]]; [done|]. apply Hu in A. congruence.
  - cbn. split; [done|]. intros [[_ A]|[N A]]; [done|]. apply Hu in A. exfalso. apply N. assert (at_set c = true) as Q by (unfold at_set; by rewrite P). apply Ht in Q. congruence.
  - apply Same; [done|]. unfold at_set. by rewrite P, P'.
  - apply Same; [done|]. unfold at_set. cbn. by rewrite P.
Qed.

Lemma client_step cs w t c s' c' : world_inv cs w -> snd w !! t = Some c -> move t (fst w) c s' c' ->
  forall i u, clientLockIndex_ s' !! i = Some (Some u) <-> exists d, <[t:=c']> (snd w) !! u = Some d /\ holds_lock d = true /\ clientID d = i.
Proof.
  intros I L M i u. rewrite (at_step _ _ c c' (fun d => holds_lock d = true /\ clientID d = i) u L). pose proof (inv_client _ _ I i u) as Hu.
  destruct (inv_own _ _ _ _ I L) as [_ Ht].
  assert (Here : clientLockIndex_ (fst w) !! i = Some (Some t) -> holds_lock c = true /\ clientID c = i).
  { intros (d & L' & A)%(inv_client _ _ I i t). rewrite L in L'. by injection L' as ->. }
  assert (Same : clientLockIndex_ s' = clientLockIndex_ (fst w) -> holds_lock c' = holds_lock c -> (holds_lock c = true -> clientID c' = clientID c) ->
    clientLockIndex_ s' !! i = Some (Some u) <-> u = t /\ holds_lock c' = true /\ clientID c' = i \/ u <> t /\ exists d, snd w !! u = Some d /\ holds_lock d = true /\ clientID d = i).
  { intros -> -> Ei. destruct (decide (u = t)) as [->|N]; [|rewrite Hu; tauto]. split.
    - intros A. apply Here in A as [A <-]. left. by rewrite Ei.
    - intros [(_ & A & <-)|[? _]]; [|done]. rewrite Ei by done. by apply Ht. }
  destruct M as [s' c' _ E _ A _ Ei _ _|_ P|P N|s' c' P P' Ei _ _ E _|P].
  - by apply Same.
  - apply Same; [done| |done]. unfold holds_lock. cbn. by rewrite P.
  - cbn. destruct (decide (clientID c = i)) as [Ei|Ei].
    + rewrite Ei, lookup_insert_eq. split; [intros [= <-]; by left|]. intros [[-> _]|[_ A]]; [done|]. apply Hu in A. rewrite <- Ei in A. by destruct (N u).
    + rewrite lookup_insert_ne, Hu by done. split; [|intros [(_ & _ & A)|[_ A]]; done]. intros A. right. split; [|done].
      intros ->. destruct A as (d & L' & A & B). rewrite L in L'. injection L' as <-. done.
  - apply Same; [done| |done]. unfold holds_lock. by rewrite P, P'.
  - cbn. assert (Hold : holds_lock c = true) by (unfold holds_lock; by rewrite P). apply Ht in Hold. destruct (decide (clientID c = i)) as [Ei|Ei].
    + rewrite Ei, lookup_insert_eq. split; [done|]. intros [(_ & A & _)|[N A]]; [done|]. apply Hu in A. rewrite Ei in Hold. congruence.
    + rewrite lookup_insert_ne, Hu by done. split; [|intros [(_ & A & _)|[_ A]]; done]. intros A. right. split; [|done].
      intros ->. destruct A as (d & L' & A & B). rewrite L in L'. injection L' as <-. done.
Qed.

(** A key that waits for its connection is not overwritten: the number is locked. *)
Lemma waits_step cs w t c s' c' : world_inv cs w -> snd w !! t = Some c -> move t (fst w) c s' c' -> follows (default c (cs !! t)) c ->
  forall u d, <[t:=c']> (snd w) !! u = Some d -> key_waits d = true -> exists c0 k, cs !! u = Some c0 /\ own_key u c0 k /\ keys_of s' !! clientID d = Some k.
Proof.
  intros I L M F u d. destruct (inv_own _ _ _ _ I L) as [_ Ht]. destruct (decide (u = t)) as [->|N].
  - rewrite list_lookup_insert_eq by by apply lookup_lt_is_Some_1. intros [= <-] A.
    destruct M as [s' c' _ _ -> _ _ Ei B _|_ _|_ _|s' c' P _ -> _ _ _ ->|_]; try done.
    + pose proof (B A) as A'. rewrite Ei by by apply waits_holds. by apply (inv_waits _ _ I).
    + destruct (inv_follows _ _ I _ _ L) as (c0 & L0 & _). rewrite L0 in F. cbn in F. unfold follows in F. rewrite P in F. destruct F as (ra & m & F1 & F2 & F3).
      rewrite lookup_insert_eq, F3. exists c0, (derive (nm_data m) (privateKey t)). split; [done|]. split; [|done]. exists m. split; [|done]. unfold exchange_of. by rewrite F1.
  - rewrite list_lookup_insert_ne by done. intros Ld A. destruct (inv_waits _ _ I _ _ Ld A) as (c0 & k & L0 & O & K). exists c0, k. split; [done|]. split; [done|].
    destruct M as [s' c' _ _ -> _ _ _ _ _| | |s' c' P _ _ _ _ _ ->| ]; try done.
    rewrite lookup_insert_ne; [done|]. intros E. assert (Hold : holds_lock c = true) by (unfold holds_lock; by rewrite P). apply Ht in Hold.
    destruct (inv_own _ _ _ _ I Ld) as [_ Hd]. specialize (Hd (waits_holds _ A)). rewrite <- E in Hd. congruence.
Qed.

Lemma world_step_inv cs t w w' : world_inv cs w -> world_step t w = Ok w' -> world_inv cs w'.
Proof.
  intros I. unfold world_step. destruct (snd w !! t) as [c|] eqn:L; [|by intros [= <-]]. intros E. inv_bind E. destruct a as [s' c']. injection E as <-.
  destruct (inv_follows _ _ I _ _ L) as (c0 & L0 & F). pose proof (conn_step_move _ _ _ _ _ E0) as M. split; cbn [fst snd].
  - intros u d. destruct (decide (u = t)) as [->|N].
    + rewrite list_lookup_insert_eq by by apply lookup_lt_is_Some_1. intros [= <-]. exists c0. split; [done|]. by apply (conn_step_follows _ _ _ _ _ _ E0).
    + rewrite list_lookup_insert_ne by done. apply (inv_follows _ _ I).
  - by apply (set_step cs w t c).
  - by apply (client_step cs w t c).
  - apply (waits_step cs w t c); [done..|]. by rewrite L0.
  - intros u d keys. destruct (decide (u = t)) as [->|N].
    + rewrite list_lookup_insert_eq by by apply lookup_lt_is_Some_1. intros [= <-] K.
      destruct M as [s' c' _ _ _ _ _ _ _ [B|(A & ks & B & C)]|_ _|_ _|s' c' _ _ _ B _ _ _|_]; try rewrite B in K; try by apply (inv_keys _ _ I t c keys).
      injection K as <-. destruct (inv_waits _ _ I _ _ L A) as (c1 & k & L1 & O & Q). exists c1. rewrite C in Q. by injection Q as <-.
    + rewrite list_lookup_insert_ne by done. apply (inv_keys _ _ I).
Qed.
Lemma serve_inv cs e files sched n w : serve sched n (opening e files cs) = Ok w -> world_inv cs w.
Proof.
  revert w. induction n as [|n IH]; cbn [serve]; intros w E; [injection E as <-; apply opening_inv|]. inv_bind E. by apply (world_step_inv cs (sched n) a), E; apply IH.
Qed.

(** ** Progress *)

(** How many steps a connection is from its end. *)
Definition to_go (c : Conn) : nat :=
  match cn_pc c with
  | RecvRA => cn_work c + 10 | RecvInit => cn_work c + 9 | LockSet => cn_work c + 8 | LockClient => cn_work c + 7 | KeyExchange => cn_work c + 6
  | RecvLogin => cn_work c + 5 | CheckFile _ => cn_work c + 4 | InitClient _ => cn_work c + 3 | Serving _ todo => todo + 2 | RejectWait => 2
  | UnlockClient | CloseRA => 1 | Gone => 0
  end.
Definition gone (c : Conn) : Prop := cn_pc c = Gone.
Definition all_to_go (w : Listening) : nat := sum_list_with to_go (snd w).

(** What makes a connection wait: only the locks. *)
Definition waits (s : Shared) (c : Conn) : Prop :=
  gone c \/ cn_pc c = LockSet /\ clientLockSetLock_ s <> None \/ at_set c = true /\ exists u, clientLockIndex_ s !! clientID c = Some (Some u).
(** A step is a wait or takes the connection further. *)
Lemma conn_step_rank t s c s' c' : conn_step t s c = Ok (s', c') -> (s', c') = (s, c) /\ waits s c \/ (to_go c' < to_go c)%nat.
Proof.
  unfold conn_step, to_go, waits, gone, at_set. destruct (cn_pc c) as [| | | | | | |opt| |opt|opt [|todo]| |] eqn:P; intros E.
  - inv_bind E. destruct a as [m c1]. apply recv_message_ok in E0 as (rest & Ei & ->). right. repeat case_if_in E; try done; injection E as <- <-; cbn; lia.
  - injection E as <- <-. right. cbn. lia.
  - inv_bind E. destruct a as [m c1]. apply recv_message_ok in E0 as (rest & Ei & ->). right. case_if_in E; [|done]. injection E as <- <-. cbn. lia.
  - destruct (clientLockSetLock_ s); injection E as <- <-; [left; split; [done|]; right; by left|]. right. cbn. lia.
  - destruct (clientLockIndex_ s !! clientID c) as [[u|]|]; injection E as <- <-; [|right; cbn; lia..].
    left. split; [done|]. right. right. split; [done|]. by exists u.
  - cbn [Ecall_Session_Key_Exchange] in E. inv_bind E. apply send_message_ok in E0 as (l & ->). injection E as <- <-. right. cbn. lia.
  - inv_bind E. destruct a as [m c1]. apply recv_message_ok in E0 as (rest & Ei & ->). inv_bind E. injection E as <- <-. right. cbn. lia.
  - right. case_if_in E; [injection E as <- <-; cbn; lia|]. inv_bind E. apply send_message_ok in E1 as (l & ->). injection E as <- <-. cbn. lia.
  - destruct (cn_in c) eqn:Ei; [|done]. injection E as <- <-. right. cbn. lia.
  - apply init_client_ok in E as (l & out & keys & up & re & heads & -> & K & ->). right. cbn. lia.
  - injection E as <- <-. right. cbn. lia.
  - injection E as <- <-. right. cbn. lia.
  - injection E as <- <-. right. cbn. lia.
  - injection E as <- <-. left. split; [done|]. by left.
Qed.

Lemma all_to_go_insert (l : list Conn) t c c' : l !! t = Some c -> (sum_list_with to_go (<[t:=c']> l) + to_go c = sum_list_with to_go l + to_go c')%nat.
Proof.
  revert t. induction l as [|d l IH]; intros [|t]; [done..| |].
  - intros [= ->]. cbn. lia.
  - intros L. specialize (IH t L). change (<[S t:=c']> (d :: l)) with (d :: <[t:=c']> l). cbn [sum_list_with]. lia.
Qed.
Lemma world_step_rank t w w' : world_step t w = Ok w' -> w' = w /\ (forall c, snd w !! t = Some c -> waits (fst w) c) \/ (all_to_go w' < all_to_go w)%nat.
Proof.
  unfold world_step, all_to_go. destruct (snd w !! t) as [c|] eqn:L; [|by intros [= <-]; left]. intros E. inv_bind E. destruct a as [s' c']. injection E as <-.
  pose proof (all_to_go_insert _ _ _ c' L) as R. destruct w as [s l]. cbn [fst snd] in *.
  apply conn_step_rank in E0 as [[[= -> ->] W]|R']; [left|right; lia]. split; [by rewrite list_insert_id|]. by intros d [= <-].
Qed.

(** No deadlock: some connection can go on, unless all are gone. *)
Lemma no_deadlock cs w : world_inv cs w -> Forall gone (snd w) \/ exists t c, snd w !! t = Some c /\ ~ waits (fst w) c.
Proof.
  intros I. destruct (clientLockSetLock_ (fst w)) as [t|] eqn:S.
  - right. apply (inv_set _ _ I) in S as (c & L & A). destruct (clientLockIndex_ (fst w) !! clientID c) as [[u|]|] eqn:K.
    + apply (inv_client _ _ I) in K as (d & Ld & Hd & _). exists u, d. split; [done|]. revert Hd. unfold holds_lock, waits, gone, at_set.
      destruct (cn_pc d); try done; intros _ [?|[[? _]|[? _]]]; done.
    + exists t, c. split; [done|]. revert A. unfold at_set, waits, gone. destruct (cn_pc c) eqn:P; try done. intros _ [?|[[? _]|[_ [u Q]]]]; [done..|congruence].
    + exists t, c. split; [done|]. revert A. unfold at_set, waits, gone. destruct (cn_pc c) eqn:P; try done. intros _ [?|[[? _]|[_ [u Q]]]]; [done..|congruence].
  - destruct (decide (Exists (fun c => cn_pc c <> Gone) (snd w))) as [[c [Hc N]]%Exists_exists|N].
    + right. apply list_elem_of_lookup in Hc as [t L]. exists t, c. split; [done|]. intros [?|[[_ ?]|[A _]]]; [done..|].
      assert (clientLockSetLock_ (fst w) = Some t) by (apply (inv_set _ _ I); by exists c). congruence.
    + left. apply Forall_forall. intros c Hc. unfold gone. destruct (decide (cn_pc c = Gone)); [done|]. exfalso. apply N, Exists_exists. by exists c.
Qed.

(** Every connection gets its turn again and again. *)
Definition fair (k : nat) (sched : nat -> nat) : Prop := forall t, (t < k)%nat -> forall n, exists m, (n <= m)%nat /\ sched m = t.

Lemma serve_rank sched w n v d : serve sched n w = Ok v ->
  (exists e, serve sched (n + d) w = Err e) \/ exists v', serve sched (n + d) w = Ok v' /\ (v' = v \/ (all_to_go v' < all_to_go v)%nat).
Proof.
  intros E. induction d as [|d IH]; [rewrite Nat.add_0_r; right; exists v; by split; [|left]|].
  rewrite Nat.add_succ_r. cbn [serve]. destruct IH as [[e ->]|(v1 & -> & R)]; [left; by exists e|]. cbn [rbind].
  destruct (world_step (sched (n + d)%nat) v1) as [v2|e] eqn:S; [|left; by exists e]. right. exists v2. split; [done|].
  apply world_step_rank in S as [[-> _]|S]; [done|]. destruct R as [->|R]; right; lia.
Qed.
(** Under a fair schedule the connections come to their end, or the program does. *)
Lemma serve_ends e files cs sched : fair (length cs) sched ->
  exists n, (exists er, serve sched n (opening e files cs) = Err er) \/ exists w, serve sched n (opening e files cs) = Ok w /\ Forall gone (snd w).
Proof.
  intros F. set (w0 := opening e files cs). enough (Q : forall R n v, serve sched n w0 = Ok v -> (all_to_go v < R)%nat ->
    exists m, (exists er, serve sched m w0 = Err er) \/ exists w, serve sched m w0 = Ok w /\ Forall gone (snd w)) by (apply (Q (S (all_to_go w0)) O w0); [done|lia]).
  induction R as [|R IH]; intros n v E L; [lia|]. pose proof (serve_inv _ _ _ _ _ _ E) as I.
  destruct (no_deadlock _ _ I) as [A|(t & c & Lc & N)]; [exists n; right; by exists v|].
  destruct (inv_follows _ _ I _ _ Lc) as (c0 & L0 & _). destruct (F t (lookup_lt_Some _ _ _ L0) n) as (m & Lm & Em).
  replace m with (n + (m - n))%nat in * by lia. set (d := (m - n)%nat) in *.
  destruct (serve_rank sched w0 n v d E) as [[er Ee]|(v1 & E1 & [->|R1])]; [exists (n + d)%nat; left; by exists er| |apply (IH (n + d)%nat v1); [done|lia]].
  destruct (world_step t v) as [v2|er] eqn:S.
  - destruct (world_step_rank _ _ _ S) as [[_ W]|R2]; [by destruct N; apply W|].
    apply (IH (Datatypes.S (n + d)) v2); [|lia]. cbn [serve]. by rewrite E1, Em.
  - exists (Datatypes.S (n + d)). left. exists er. cbn [serve]. by rewrite E1, Em.
Qed.

(** ** Clients that follow the protocol *)

(** What a client has: its private key for the session, its secret, the hash of the name
    of its file, what it wants, its number. *)
Record Peer := mk_peer { peer_key : bytes; peer_secret : bytes; peer_name : bytes; peer_opt : OptType; peer_id : Z }.
Definition login_code (opt : OptType) : Z :=
  match opt with UPLOAD_OPT => CLIENT_LOGIN_UPLOAD | DOWNLOAD_OPT => CLIENT_LOGIN_DOWNLOAD | OFFLINE_OPT => CLIENT_LOGIN_OFFLINE | RA_OPT => SGX_RA_NEED end.
Definition peer_session (t : nat) (p : Peer) : bytes := GeneratingSecret_finish (peer_key p) (public_key (privateKey t)).
(** It sends three messages, the last for an upload, a download or a pass, and all
    answers reach it. *)
Definition polite (t : nat) (p : Peer) (c : Conn) : Prop := exists x dx y message,
  cn_in c = [mk_network SGX_RA_NOT_NEED x dx; mk_network SESSION_KEY_INIT (peer_id p) (GeneratingSecret_init (peer_key p)); mk_network (login_code (peer_opt p)) y message] /\
  Login cryptoObj (peer_session t p) (peer_secret p) (peer_name p) = Ok message /\ blen (peer_name p) = 32 /\ bytes_ok (peer_secret p) /\
  peer_opt p <> RA_OPT /\ Forall (eq true) (cn_sends c).
(** It has been served, with its own keys, or has asked for a file that there was not. *)
Definition answered (files : gmap bytes bytes) (t : nat) (p : Peer) (c : Conn) : Prop :=
  (exists head masterKey, cn_out c = [(SESSION_KEY_REPLY, public_key (privateKey t)); (SERVER_LOGIN_RESPONSE, head)] /\
     GenerateHash cryptoObj (peer_secret p) = Ok masterKey /\ cn_keys c = Some (peer_session t p, masterKey)) \/
  (peer_opt p = DOWNLOAD_OPT /\ files !! hex (peer_name p) = None /\ cn_out c = [(SESSION_KEY_REPLY, public_key (privateKey t)); (SERVER_FILE_NON_EXIST, [])]).

(** Such a client at each place. *)
Definition peer_at (files : gmap bytes bytes) (t : nat) (p : Peer) (message : bytes) (c : Conn) : Prop :=
  let login y := mk_network (login_code (peer_opt p)) y message in
  let init := mk_network SESSION_KEY_INIT (peer_id p) (GeneratingSecret_init (peer_key p)) in
  let logged_in opt := opt = peer_opt p /\ clientID c = peer_id p /\ exists old, recv_data c = write old 0 message in
  Forall (eq true) (cn_sends c) /\
  match cn_pc c with
  | RecvRA => cn_out c = [] /\ exists x dx y, cn_in c = [mk_network SGX_RA_NOT_NEED x dx; init; login y]
  | CloseRA => False
  | RecvInit => cn_out c = [] /\ exists y, cn_in c = [init; login y]
  | LockSet | LockClient | KeyExchange => cn_out c = [] /\ clientID c = peer_id p /\ recv_data c = GeneratingSecret_init (peer_key p) /\ exists y, cn_in c = [login y]
  | RecvLogin => cn_out c = [(SESSION_KEY_REPLY, public_key (privateKey t))] /\ clientID c = peer_id p /\ exists y, cn_in c = [login y]
  | CheckFile opt | InitClient opt => cn_out c = [(SESSION_KEY_REPLY, public_key (privateKey t))] /\ cn_in c = [] /\ logged_in opt
  | RejectWait => cn_in c = [] /\ answered files t p c
  | Serving opt _ => answered files t p c
  | UnlockClient | Gone => answered files t p c
  end.

(** A recipe file stays, once it is there, and so does that of a download. *)
Definition can_download (s : Shared) (c : Conn) : Prop := cn_pc c = InitClient DOWNLOAD_OPT -> is_Some (recipeHeads s !! recipe_file_name c).
Definition files_stay (heads heads' : gmap bytes bytes) : Prop := forall name, is_Some (heads !! name) -> is_Some (heads' !! name).
Lemma files_stay_refl heads : files_stay heads heads.
Proof. by intros name. Qed.
#[local] Hint Resolve files_stay_refl : core.
Lemma files_stay_insert heads name head : files_stay heads (<[name:=head]> heads).
Proof. intros n A. destruct (decide (name = n)) as [->|N]; [by rewrite lookup_insert_eq; eexists|by rewrite lookup_insert_ne]. Qed.
Lemma init_client_heads opt s c s' c' : init_client opt s c = Ok (s', c') -> files_stay (recipeHeads s) (recipeHeads s') /\ cn_pc c' = Serving opt (cn_work c).
Proof.
  unfold init_client. intros E. inv_bind E. destruct a as [s1 out]. inv_bind E. inv_bind E. apply send_message_ok in E2 as (l & ->). injection E as <- <-. split; [|done].
  destruct opt; [|inv_bind E0|discriminate E0|]; injection E0 as <- <-; [apply files_stay_insert|done|apply files_stay_insert].
Qed.
Lemma conn_step_heads t s c s' c' : conn_step t s c = Ok (s', c') -> files_stay (recipeHeads s) (recipeHeads s') /\ (can_download s c -> can_download s' c').
Proof.
  unfold conn_step, can_download. destruct (cn_pc c) as [| | | | | | |opt| |opt|opt [|todo]| |] eqn:P; intros E.
  - inv_bind E. destruct a as [m c1]. apply recv_message_ok in E0 as (rest & Ei & ->). repeat case_if_in E; try done; by injection E as <- <-.
  - by injection E as <- <-.
  - inv_bind E. destruct a as [m c1]. apply recv_message_ok in E0 as (rest & Ei & ->). case_if_in E; [|done]. by injection E as <- <-.
  - destruct (clientLockSetLock_ s); injection E as <- <-; [by rewrite P|done].
  - destruct (clientLockIndex_ s !! clientID c) as [[u|]|]; injection E as <- <-; [by rewrite P|done..].
  - cbn [Ecall_Session_Key_Exchange] in E. inv_bind E. apply send_message_ok in E0 as (l & ->). by injection E as <- <-.
  - inv_bind E. destruct a as [m c1]. apply recv_message_ok in E0 as (rest & Ei & ->). inv_bind E. by injection E as <- <-.
  - case_if_in E; [|inv_bind E; apply send_message_ok in E1 as (l & ->); by injection E as <- <-]. injection E as <- <-. split; [done|]. cbn. intros _ [= ->].
    by apply bool_decide_eq_true in E0.
  - destruct (cn_in c); [|done]. by injection E as <- <-.
  - apply init_client_heads in E as [A B]. split; [done|]. intros _ C. by rewrite B in C.
  - injection E as <- <-. split; [|done]. destruct opt; [apply files_stay_insert|done|done|apply files_stay_insert].
  - by injection E as <- <-.
  - by injection E as <- <-.
  - injection E as <- <-. by rewrite P.
Qed.

Lemma serve_length sched n w w' : serve sched n w = Ok w' -> length (snd w') = length (snd w).
Proof.
  revert w'. induction n as [|n IH]; cbn [serve]; intros w' E; [by injection E as <-|]. inv_bind E. rewrite <- (IH a E0). unfold world_step in E.
  destruct (snd a !! sched n); [|by injection E as <-]. inv_bind E. injection E as <-. cbn. apply length_insert.
Qed.

(** ** A connection that waits for its client *)

(** [t] has the lock of the set and waits for the lock that [u] has, [v] for that of the
    set: so it stays, until [u] has come to its end. *)
Definition queued (t u v : nat) (c x : Conn) (w : Listening) : Prop :=
  snd w !! t = Some c /\ snd w !! v = Some x /\ exists d, snd w !! u = Some d /\ holds_lock d = true /\ clientID d = clientID c.
Lemma queued_step cs t u v c x s w w' : world_inv cs w -> at_set c = true -> cn_pc x = LockSet -> queued t u v c x w -> world_step s w = Ok w' ->
  queued t u v c x w' \/ exists d, snd w' !! u = Some d /\ gone d.
Proof.
  intros I A Px (Lc & Lx & d & Ld & Hd & Ed) E. unfold world_step in E. destruct (snd w !! s) as [y|] eqn:Ly; [|injection E as <-; left; by split; [|split; [|exists d]]].
  inv_bind E. destruct a as [s' y']. injection E as <-. cbn [fst snd]. assert (Rng : (s < length (snd w))%nat) by by eapply lookup_lt_Some.
  assert (Ntu : t <> u) by (intros ->; rewrite Lc in Ld; injection Ld as <-; revert A Hd; unfold at_set, holds_lock; by destruct (cn_pc c)).
  assert (Nvu : v <> u) by (intros ->; rewrite Lx in Ld; injection Ld as <-; revert Hd; unfold holds_lock; by rewrite Px).
  destruct (inv_own _ _ _ _ I Lc) as [[At _] _]. specialize (At A). destruct (inv_own _ _ _ _ I Ld) as [_ Hu]. specialize (Hu Hd). rewrite Ed in Hu.
  destruct (decide (s = u)) as [->|Nu].
  - rewrite Ld in Ly. injection Ly as <-. unfold queued. cbn [snd]. rewrite !(list_lookup_insert_ne (snd w) u) by done. rewrite list_lookup_insert_eq by done.
    apply conn_step_move in E0. destruct E0 as [s' y' _ _ _ B _ C _ _|_ P|P _|s' y' P P' C _ _ _ _|P].
    + left. split; [done|]. split; [done|]. exists y'. rewrite B. split; [done|]. split; [done|]. by rewrite C.
    + exfalso. revert Hd. unfold holds_lock. by rewrite P.
    + exfalso. revert Hd. unfold holds_lock. by rewrite P.
    + left. split; [done|]. split; [done|]. exists y'. split; [done|]. split; [|congruence]. unfold holds_lock. by rewrite P'.
    + right. by eexists.
  - assert (Same : s = t \/ s = v -> y' = y).
    { intros [->| ->].
      - rewrite Lc in Ly. injection Ly as <-. unfold conn_step in E0. destruct (cn_pc c) eqn:P; try (by unfold at_set in A; rewrite P in A). rewrite Hu in E0. by injection E0 as <-.
      - rewrite Lx in Ly. injection Ly as <-. unfold conn_step in E0. rewrite Px, At in E0. by injection E0 as <-. }
    left. unfold queued. cbn [snd]. rewrite (list_lookup_insert_ne (snd w) s u) by done. split; [|split; [|by exists d]].
    + destruct (decide (s = t)) as [->|N]; [|by rewrite list_lookup_insert_ne]. rewrite list_lookup_insert_eq, Same by (done || by left). congruence.
    + destruct (decide (s = v)) as [->|N]; [|by rewrite list_lookup_insert_ne]. rewrite list_lookup_insert_eq, Same by (done || by right). congruence.
Qed.
Lemma gone_stays sched k w w' u d : serve sched k w = Ok w' -> snd w !! u = Some d -> gone d -> snd w' !! u = Some d.
Proof.
  intros E L G. revert w' E. induction k as [|k IH]; cbn [serve]; intros w' E; [by injection E as <-|]. inv_bind E. specialize (IH a E0). unfold world_step in E.
  destruct (snd a !! sched k) as [y|] eqn:Ly; [|by injection E as <-]. inv_bind E. destruct a0 as [s' y']. injection E as <-. cbn.
  destruct (decide (sched k = u)) as [Eu|N]; [subst u|by rewrite list_lookup_insert_ne]. rewrite list_lookup_insert_eq by by eapply lookup_lt_Some.
  rewrite IH in Ly. injection Ly as <-. unfold conn_step in E1. rewrite G in E1. by injection E1 as _ ->.
Qed.
Lemma queued_serve cs t u v c x sched k w w' : world_inv cs w -> at_set c = true -> cn_pc x = LockSet -> queued t u v c x w -> serve sched k w = Ok w' ->
  world_inv cs w' /\ (queued t u v c x w' \/ exists d, snd w' !! u = Some d /\ gone d).
Proof.
  intros I A Px Q. revert w'. induction k as [|k IH]; cbn [serve]; intros w' E; [injection E as <-; by split; [|left]|]. inv_bind E.
  destruct (IH a E0) as [Ia Qa]. split; [by apply (world_step_inv cs (sched k) a)|]. destruct Qa as [Qa|(d & Ld & G)]; [by apply (queued_step cs t u v c x (sched k) a)|].
  right. exists d. split; [|done]. apply (gone_stays (fun _ => sched k) 1 a); [|done..]. done.
Qed.

Context `{!EVPLaws} `{!EVPBytes} `{!ECDHLaws}.
Hypothesis Hhash : hashType_ cryptoObj = SHA_256.

(** The enclave gets the client's master key, as [login_ok] has it for one client alone. *)
Lemma Login_size key secret name message : Login cryptoObj key secret name = Ok message -> blen name = 32 -> bytes_ok secret -> blen message = 64.
Proof.
  unfold Login, GenerateHash. rewrite Hhash. intros E Ln Lb. destruct (EVP_Digest_bytes secret Lb) as (mk & Em & Lm & _). rewrite Em in E. cbn [of_option rbind] in E.
  replace (blen mk) with 32 in E by (unfold blen; by rewrite Lm). cbn in E. destruct (SessionKey_ok cryptoObj mk key) as (enc & Ee & Le & _). rewrite Ee in E. injection E as <-.
  rewrite blen_app, Ln. unfold blen. by rewrite Le, Lm.
Qed.
Lemma Init_Client_peer t p message old e :
  Login cryptoObj (peer_session t p) (peer_secret p) (peer_name p) = Ok message -> blen (peer_name p) = 32 -> bytes_ok (peer_secret p) ->
  clientSessionKeyIndex_ e !! peer_id p = Some (derive (GeneratingSecret_init (peer_key p)) (privateKey t)) ->
  slice (write old 0 message) 0 CHUNK_HASH_SIZE = peer_name p /\
  exists masterKey, GenerateHash cryptoObj (peer_secret p) = Ok masterKey /\ Ecall_Init_Client cryptoObj (peer_id p) (write old 0 message) e = Ok (peer_session t p, masterKey).
Proof.
  intros L Ln Lb K. pose proof (Login_size _ _ _ _ L Ln Lb) as Lm. change CHUNK_HASH_SIZE with 32. change (write old 0 message) with (message ++ drop (length message) old). split.
  - rewrite slice_app_l by lia. unfold Login in L. inv_bind L. inv_bind L. injection L as <-. rewrite slice_app_l by lia. rewrite <- Ln. apply slice_full.
  - pose proof (login_ok cryptoObj (privateKey t) (peer_key p) (peer_secret p) (peer_name p) (peer_id p) e Hhash Lb Ln) as (mk & m & G & L' & I & _).
    fold (peer_session t p) in L', I. rewrite L in L'. injection L' as <-. exists mk. split; [done|]. rewrite <- I. unfold Ecall_Init_Client. cbn [clientSessionKeyIndex_].
    rewrite lookup_insert_eq, K. change CHUNK_HASH_SIZE with 32. by rewrite slice_app_l by lia.
Qed.
Lemma send_message_polite c type data : Forall (eq true) (cn_sends c) -> exists l, Forall (eq true) l /\
  send_message c type data = Ok (mk_conn (cn_pc c) (cn_in c) l (cn_work c) (cn_head c) (cn_out c ++ [(type, data)]) (clientID c) (recv_data c) (cn_keys c)).
Proof.
  intros F. exists (tail (cn_sends c)). unfold send_message. destruct F as [|b l <- F]; by split.
Qed.

Section one.
Variables (files : gmap bytes bytes) (t : nat) (p : Peer) (message : bytes).
Hypothesis Hlogin : Login cryptoObj (peer_session t p) (peer_secret p) (peer_name p) = Ok message.
Hypothesis Hname : blen (peer_name p) = 32.
Hypothesis Hsecret : bytes_ok (peer_secret p).
Hypothesis Hopt : peer_opt p <> RA_OPT.

(** A step of such a client does not end the program, and takes it to its next place. *)
Lemma peer_step s c : peer_at files t p message c -> files_stay files (recipeHeads s) -> can_download s c ->
  (key_waits c = true -> keys_of s !! clientID c = Some (derive (GeneratingSecret_init (peer_key p)) (privateKey t))) ->
  exists s' c', conn_step t s c = Ok (s', c') /\ peer_at files t p message c'.
Proof.
  intros [Fs A] Stay Down Key. unfold conn_step. unfold key_waits in Key. unfold can_download in Down.
  destruct (cn_pc c) as [| | | | | | |opt| |opt|opt [|todo]| |] eqn:P.
  - destruct A as (Eo & x & dx & y & Ei). unfold recv_message. rewrite Ei. eexists _, _. split; [reflexivity|]. split; [done|]. cbn. split; [done|]. by exists y.
  - done.
  - destruct A as (Eo & y & Ei). unfold recv_message. rewrite Ei. eexists _, _. split; [reflexivity|]. split; [done|]. cbn. repeat split; [done..|]. by exists y.
  - destruct (clientLockSetLock_ s); eexists _, _; (split; [reflexivity|]); [split; [done|by rewrite P]|done].
  - destruct (clientLockIndex_ s !! clientID c) as [[u|]|]; eexists _, _; (split; [reflexivity|]); [split; [done|by rewrite P]|done..].
  - destruct A as (Eo & Ec & Er & y & Ei). cbn [Ecall_Session_Key_Exchange]. destruct (send_message_polite c SESSION_KEY_REPLY (public_key (privateKey t)) Fs) as (l & Fl & ->).
    eexists _, _. split; [reflexivity|]. split; [done|]. cbn. rewrite Eo. repeat split; [done|]. by exists y.
  - destruct A as (Eo & Ec & y & Ei). unfold recv_message. rewrite Ei. cbn [rbind nm_type].
    replace (login_type (login_code (peer_opt p))) with (Ok (peer_opt p)) by (revert Hopt; by destruct (peer_opt p)). eexists _, _. split; [reflexivity|]. split; [done|]. cbn. repeat split; [done..|]. by eexists.
  - destruct A as (Eo & Ei & -> & Ec & old & Er). destruct (Init_Client_peer t p message old (sh_enclave s) Hlogin Hname Hsecret) as [En _]; [rewrite <- Ec; by apply Key|].
    unfold CheckFileStatus. assert (N : recipe_file_name c = hex (peer_name p)) by (unfold recipe_file_name; by rewrite Er, En). rewrite N.
    assert (Go : exists s' c', Ok (s, go c (InitClient (peer_opt p))) = Ok (s', c') /\ peer_at files t p message c')
      by (eexists _, _; split; [reflexivity|]; split; [done|]; cbn; repeat split; [done..|]; by exists old).
    destruct (peer_opt p) eqn:Eopt; [exact Go| |exact Go..]. case_bool_decide as B; [exact Go|]. destruct (send_message_polite c SERVER_FILE_NON_EXIST [] Fs) as (l & Fl & ->).
    eexists _, _. split; [reflexivity|]. split; [done|]. cbn. split; [done|]. right. cbn. rewrite Eo. split; [done|]. split; [|done].
    destruct (files !! hex (peer_name p)) eqn:Ef; [|done]. destruct B. apply Stay. by eexists.
  - destruct A as (Ei & A). rewrite Ei. eexists _, _. split; [reflexivity|]. by split.
  - destruct A as (Eo & Ei & -> & Ec & old & Er). destruct (Init_Client_peer t p message old (sh_enclave s) Hlogin Hname Hsecret) as (_ & mk & G & K); [rewrite <- Ec; by apply Key|].
    unfold init_client. rewrite Ec, Er, K. cbn [rbind].
    assert (X : exists s1 head, (match peer_opt p with
      | DOWNLOAD_OPT => head <-- of_option ExitError (recipeHeads s !! recipe_file_name c) ;; Ok (set_heads s (recipeHeads s) (totalUploadReqNum_ s) (u64 (totalRestoreReqNum_ s + 1)), head)
      | RA_OPT => Err ExitError
      | UPLOAD_OPT | OFFLINE_OPT => Ok (set_heads s (<[recipe_file_name c := virtualRecipeEnd]> (recipeHeads s)) (u64 (totalUploadReqNum_ s + 1)) (totalRestoreReqNum_ s), [])
      end) = Ok (s1, head)).
    { destruct (peer_opt p); [by eexists _, _| |done|by eexists _, _]. destruct Down as [head ->]; [done|]. by eexists _, _. }
    destruct X as (s1 & head & ->). cbn [rbind fst snd]. destruct (send_message_polite c SERVER_LOGIN_RESPONSE head Fs) as (l & Fl & ->).
    eexists _, _. split; [reflexivity|]. split; [done|]. cbn. left. exists head, mk. cbn. by rewrite Eo.
  - eexists _, _. by split.
  - eexists _, _. by split.
  - eexists _, _. by split.
  - eexists _, _. split; [reflexivity|]. split; [done|]. by rewrite P.
Qed.
End one.

(** All clients follow the protocol: so do they after every step, which there is. *)
Section all.
Variables (files : gmap bytes bytes) (cs : list Conn) (peers : nat -> Peer).
Hypothesis Hpolite : forall t c0, cs !! t = Some c0 -> polite t (peers t) c0.

Definition peers_inv (w : Listening) : Prop :=
  files_stay files (recipeHeads (fst w)) /\
  forall t c, snd w !! t = Some c -> can_download (fst w) c /\
    exists message, Login cryptoObj (peer_session t (peers t)) (peer_secret (peers t)) (peer_name (peers t)) = Ok message /\ peer_at files t (peers t) message c.
Lemma opening_peers e : peers_inv (opening e files cs).
Proof.
  split; [done|]. cbn. intros t c. rewrite list_lookup_fmap. destruct (cs !! t) as [c0|] eqn:E; [|done]. intros [= <-]. split; [done|].
  destruct (Hpolite _ _ E) as (x & dx & y & m & Ei & L & _ & _ & _ & F). exists m. split; [done|]. split; [done|]. cbn. split; [done|]. by exists x, dx, y.
Qed.
Lemma world_step_peers t w : world_inv cs w -> peers_inv w -> exists w', world_step t w = Ok w' /\ peers_inv w'.
Proof.
  intros I [Stay PI]. unfold world_step. destruct (snd w !! t) as [c|] eqn:L; [|by exists w].
  destruct (PI _ _ L) as (Down & m & Lm & PA). destruct (inv_follows _ _ I _ _ L) as (c0 & L0 & _).
  destruct (Hpolite _ _ L0) as (x & dx & y & m' & Ei & _ & Ln & Lb & No & _).
  destruct (peer_step files t (peers t) m Lm Ln Lb No (fst w) c PA Stay Down) as (s' & c' & E & PA').
  { intros A. destruct (inv_waits _ _ I _ _ L A) as (c1 & k & L1 & (m1 & X1 & ->) & K). rewrite K. rewrite L0 in L1. injection L1 as <-.
    unfold exchange_of in X1. rewrite Ei in X1. by injection X1 as <-. }
  rewrite E. cbn [rbind fst snd]. destruct (conn_step_heads _ _ _ _ _ E) as [Stay' Down']. eexists. split; [reflexivity|]. split; cbn [fst snd].
  - intros name A. by apply Stay', Stay.
  - intros u d. destruct (decide (u = t)) as [->|N].
    + rewrite list_lookup_insert_eq by by apply lookup_lt_is_Some_1. intros [= <-]. split; [by apply Down'|]. by exists m.
    + rewrite list_lookup_insert_ne by done. intros Ld. destruct (PI _ _ Ld) as [Dd PA2]. split; [|done]. intros A. by apply Stay', Dd.
Qed.
Lemma serve_peers e sched n : exists w, serve sched n (opening e files cs) = Ok w /\ world_inv cs w /\ peers_inv w.
Proof.
  induction n as [|n (w & E & I & P)]; cbn [serve].
  - eexists. split; [reflexivity|]. split; [apply opening_inv|apply opening_peers].
  - rewrite E. cbn [rbind]. destruct (world_step_peers (sched n) w I P) as (w' & E' & P'). exists w'. split; [done|]. split; [|done]. by apply (world_step_inv cs (sched n) w).
Qed.
End all.
End run.

(** ** Theorems *)

(** C11. Whatever the order in which the threads of the connections run: of two
    connections that name the same client at most one is between the locking and the
    unlocking, and the session key that the enclave uses for a connection is the one that
    its own client agreed on, though all session keys of a client number go through one
    entry of the enclave's table. *)
Theorem clients_exclude `{EVP} `{ECDH} (cryptoObj : EcallCrypto) (privateKey : nat -> bytes) (virtualRecipeEnd : bytes) (e : Enclave) (files : gmap bytes bytes) (cs : list Conn) (sched : nat -> nat) (n : nat) (w : Listening) :
  serve cryptoObj privateKey virtualRecipeEnd sched n (opening e files cs) = Ok w ->
  (forall t u c d, t <> u -> snd w !! t = Some c -> snd w !! u = Some d -> holds_lock c = true -> holds_lock d = true -> clientID c <> clientID d) /\
  (forall t c keys, snd w !! t = Some c -> cn_keys c = Some keys -> exists c0, cs !! t = Some c0 /\ own_key privateKey t c0 (fst keys)).
Proof.
  intros I%serve_inv. split.
  - intros t u c d N Lc Ld Hc Hd E. destruct (inv_own _ _ _ _ _ I Lc) as [_ A]. destruct (inv_own _ _ _ _ _ I Ld) as [_ B].
    specialize (A Hc). specialize (B Hd). rewrite E in A. congruence.
  - apply (inv_keys _ _ _ I).
Qed.

(** C10. Under every schedule in which each connection gets its turn again and again, the
    server comes to an end with clients that follow the protocol: no deadlock between the
    two kinds of locks, no end of the program, and each client is served with its own
    session key and master key, unless it asks for a file that was not there. *)
Theorem clients_are_served `{EVPLaws} `{!EVPBytes} `{ECDHLaws} (cryptoObj : EcallCrypto) (privateKey : nat -> bytes) (virtualRecipeEnd : bytes) (e : Enclave) (files : gmap bytes bytes) (cs : list Conn) (peers : nat -> Peer) (sched : nat -> nat) :
  hashType_ cryptoObj = SHA_256 -> (forall t c0, cs !! t = Some c0 -> polite cryptoObj privateKey t (peers t) c0) -> fair (length cs) sched ->
  exists n w, serve cryptoObj privateKey virtualRecipeEnd sched n (opening e files cs) = Ok w /\ length (snd w) = length cs /\
    forall t c, snd w !! t = Some c -> gone c /\ answered cryptoObj privateKey files t (peers t) c.
Proof.
  intros HT HP F. destruct (serve_ends cryptoObj privateKey virtualRecipeEnd e files cs sched F) as (n & Q). exists n.
  destruct (serve_peers cryptoObj privateKey virtualRecipeEnd HT files cs peers HP e sched n) as (w & E & _ & _ & P). rewrite E in Q.
  destruct Q as [[er Q]|(w' & Q & G)]; [done|]. injection Q as <-. exists w. split; [done|].
  split; [rewrite (serve_length _ _ _ _ _ _ _ E); apply length_map|]. intros t c L.
  assert (Gc : gone c) by by apply (Forall_lookup_1 _ _ _ _ G L). split; [done|]. destruct (P _ _ L) as (_ & m & _ & _ & A). unfold gone in Gc. by rewrite Gc in A.
Qed.

(** C17. One client keeps all others out: a second connection of a client waits for the
    first one with the lock of the set of locks in its hand; until the first connection
    has come to its end, whatever the schedule, no connection of any client gets past
    that lock. *)
Theorem waiting_client_keeps_all_out `{EVP} `{ECDH} (cryptoObj : EcallCrypto) (privateKey : nat -> bytes) (virtualRecipeEnd : bytes) (e : Enclave) (files : gmap bytes bytes) (cs : list Conn)
    (sched sched' : nat -> nat) (n k : nat) (w w' : Listening) (t u v : nat) (c d x : Conn) :
  serve cryptoObj privateKey virtualRecipeEnd sched n (opening e files cs) = Ok w ->
  snd w !! t = Some c -> cn_pc c = LockClient -> snd w !! u = Some d -> holds_lock d = true -> clientID d = clientID c ->
  snd w !! v = Some x -> cn_pc x = LockSet ->
  serve cryptoObj privateKey virtualRecipeEnd sched' k w = Ok w' ->
  snd w' !! v = Some x \/ exists d', snd w' !! u = Some d' /\ gone d'.
Proof.
  intros I%serve_inv Lc Pc Ld Hd Ed Lx Px E.
  destruct (queued_serve cryptoObj privateKey virtualRecipeEnd cs t u v c x sched' k w w' I) as [_ [(_ & Q & _)|Q]]; [by unfold at_set; rewrite Pc|done| |done|by left|by right].
  split; [done|]. split; [done|]. by exists d.
Qed.

(** ** Witnesses *)

(** A group in the place of the curve: the shared secret is the exclusive or. *)
Definition key32 (a : bytes) : bytes := take 32 (a ++ replicate 32 0).
Definition xor_ecdh : ECDH := {| public_key := key32; derive := fun peer own => zip_with Z.lxor (key32 peer) (key32 own) |}.
Lemma key32_size a : length (key32 a) = 32%nat.
Proof. unfold key32. rewrite length_take, length_app, length_replicate. lia. Qed.
Lemma key32_key32 a : key32 (key32 a) = key32 a.
Proof. unfold key32 at 1. rewrite take_app_le by (rewrite key32_size; lia). apply take_ge. rewrite key32_size. lia. Qed.
Definition xor_laws : @ECDHLaws xor_ecdh.
Proof.
  constructor.
  - intros a b. cbn [public_key derive xor_ecdh]. rewrite !key32_key32. rewrite <- (zip_with_flip Z.lxor (key32 b) (key32 a)). apply zip_with_ext; [|done|done]. intros. apply Z.lxor_comm.
  - intros a b. cbn [public_key derive xor_ecdh]. unfold blen. rewrite length_zip_with, !key32_size. done.
Defined.

Definition ex_private (t : nat) : bytes := [Z.of_nat t + 1].
Definition ex_peers (t : nat) : Peer :=
  match t with
  | 0%nat => mk_peer [21] [1; 2] (replicate 32 7) UPLOAD_OPT 5
  | 1%nat => mk_peer [22] [3] (replicate 32 8) DOWNLOAD_OPT 5
  | _ => mk_peer [23] [4] (replicate 32 9) OFFLINE_OPT 6
  end.
Definition ex_connection (t : nat) : Conn :=
  let p := ex_peers t in
  let message := value [] (@Login byte_evp toy_crypto (@peer_session xor_ecdh ex_private t p) (peer_secret p) (peer_name p)) in
  mk_conn RecvRA [mk_network SGX_RA_NOT_NEED (peer_id p) []; mk_network SESSION_KEY_INIT (peer_id p) (@GeneratingSecret_init xor_ecdh (peer_key p));
                  mk_network (login_code (peer_opt p)) (peer_id p) message] [] 40 (replicate 16 1) [] 0 [] None.
Definition ex_enclave : Enclave := mk_enclave (replicate 32 5) (replicate 32 3) true ∅ None.
Definition ex_serve : (nat -> nat) -> nat -> Listening -> result Listening := @serve byte_evp xor_ecdh toy_crypto ex_private (replicate 16 0).
Definition ex_opening : Listening := opening ex_enclave ∅ (map ex_connection [0; 1; 2]%nat).
(** The first client is served, the second connection, of the same client, waits for it,
    the third, of another client, for the second. *)
Definition ex_queue_sched (n : nat) : nat := nth n [0; 0; 0; 0; 0; 0; 0; 0; 1; 1; 1; 2; 2]%nat 0%nat.
Definition ex_queue : Listening := value ex_opening (ex_serve ex_queue_sched 13 ex_opening).
Definition ex_queue_later : Listening := value ex_opening (ex_serve (fun n => n mod 3)%nat 90 ex_queue).
Definition ex_nobody : Conn := arrive (ex_connection 0).
Definition ex_at (t : nat) : Conn := default ex_nobody (snd ex_queue !! t).

Lemma waiting_client_keeps_all_out_witness :
  snd ex_queue_later !! 2%nat = Some (ex_at 2) \/ exists d', snd ex_queue_later !! 0%nat = Some d' /\ gone d'.
Proof.
  apply (@waiting_client_keeps_all_out byte_evp xor_ecdh toy_crypto ex_private (replicate 16 0) ex_enclave ∅ (map ex_connection [0; 1; 2]%nat)
    ex_queue_sched (fun n => n mod 3)%nat 13 90 ex_queue ex_queue_later 1 0 2 (ex_at 1) (ex_at 0) (ex_at 2)); vm_compute; reflexivity.
Defined.
Lemma clients_exclude_witness :
  (forall t u c d, t <> u -> snd ex_queue !! t = Some c -> snd ex_queue !! u = Some d -> holds_lock c = true -> holds_lock d = true -> clientID c <> clientID d) /\
  (forall t c keys, snd ex_queue !! t = Some c -> cn_keys c = Some keys -> exists c0, map ex_connection [0; 1; 2]%nat !! t = Some c0 /\ @own_key xor_ecdh ex_private t c0 (fst keys)).
Proof. apply (@clients_exclude byte_evp xor_ecdh toy_crypto ex_private (replicate 16 0) ex_enclave ∅ (map ex_connection [0; 1; 2]%nat) ex_queue_sched 13 ex_queue). vm_compute. reflexivity. Defined.
Lemma clients_are_served_witness :
  exists n w, ex_serve (fun n => n mod 3)%nat n ex_opening = Ok w /\ length (snd w) = 3%nat /\
    forall t c, snd w !! t = Some c -> gone c /\ @answered byte_evp xor_ecdh toy_crypto ex_private ∅ t (ex_peers t) c.
Proof.
  apply (@clients_are_served byte_evp byte_laws byte_bytes xor_ecdh xor_laws toy_crypto ex_private (replicate 16 0) ex_enclave ∅ (map ex_connection [0; 1; 2]%nat) ex_peers (fun n => n mod 3)%nat).
  - reflexivity.
  - intros [|[|[|t]]] c0 E; try discriminate E; injection E as <-; eexists _, _, _, _; (split; [reflexivity|]); (split; [vm_compute; reflexivity|]); by_decide.
  - intros t Ht n. exists (t + n * 3)%nat. cbn in Ht. rewrite Nat.Div0.mod_add. split; [lia|]. by apply Nat.mod_small.
Defined.
